(** * SoulMiles: the grid index, the region enumerators and the mist percentage

    A shallow embedding of the grid utilities ([src/lib/middleware/auth.ts],
    lines 73 to 276) and of the footprint request handlers that call them
    ([src/app/api/footprint/mist-percentage/route.ts] and
    [src/app/api/footprint/explore-grid/route.ts]).

    JavaScript numbers are IEEE 754 binary64 values.  They are modelled by the
    [spec_float] type of the standard library and by its specification of the
    arithmetic operations (round to nearest, ties to even), instantiated at
    precision 53 and maximal exponent 1024.  Strings are [string], a text
    being held as its UTF-8 bytes; the [Set] of grid ids is a [gset string]. *)

From Stdlib Require Import ZArith NArith PArith List String Ascii Bool Lia.
From Stdlib Require Import SpecFloat Decimal DecimalN.
From Stdlib Require PrimFloat FloatOps.
From stdpp Require Import gmap strings list.

Import ListNotations.
Local Open Scope string_scope.
Local Open Scope Z_scope.

(** ** JavaScript numbers *)

Module JS.

Definition prec : Z := 53.
Definition emax : Z := 1024.

Abbreviation number := spec_float.

Definition NaN : number := S754_nan.

Definition valid (x : number) : bool := valid_binary prec emax x.

Definition add : number -> number -> number := SFadd prec emax.
Definition mul : number -> number -> number := SFmul prec emax.
Definition div : number -> number -> number := SFdiv prec emax.

(** [x < y], [x <= y] and [x >= y]; every comparison with [NaN] is false. *)
Definition lt (x y : number) : bool := SFltb x y.
Definition le (x y : number) : bool := SFleb x y.
Definition ge (x y : number) : bool := SFleb y x.

Definition isNaN (x : number) : bool :=
  match x with S754_nan => true | _ => false end.

(** The number nearest to the rational [p / q], ties to even. *)
Definition ofRatio (s : bool) (p q : positive) : number :=
  let '(mz, ez, lz) := SFdiv_core_binary prec emax (Zpos p) 0 (Zpos q) 0 in
  binary_round_aux prec emax s mz ez lz.

(** The number denoted by the decimal [(-1)^s * n * 10^e10]: what a numeric
    literal of the source text and a parsed decimal string evaluate to. *)
Definition ofDecimal (s : bool) (n : N) (e10 : Z) : number :=
  match n with
  | N0 => S754_zero s
  | Npos p =>
      match e10 with
      | Z0 => ofRatio s p 1
      | Zpos e => ofRatio s (p * 10 ^ e) 1
      | Zneg e => ofRatio s p (10 ^ e)
      end
  end.

Definition ofZ (n : Z) : number := binary_normalize prec emax n 0 false.

(** The integer [floor x] of a finite number. *)
Definition floorZ (s : bool) (m : positive) (e : Z) : Z :=
  match e with
  | Zneg p => cond_Zopp s (Zpos m) / 2 ^ Zpos p
  | _ => cond_Zopp s (Zpos m) * 2 ^ e
  end.

(** [Math.floor]. *)
Definition Math_floor (x : number) : number :=
  match x with
  | S754_finite s m (Zneg p) =>
      let n := floorZ s m (Zneg p) in
      if n =? 0 then S754_zero s else ofZ n
  | _ => x
  end.

(** [Math.round]: the integer nearest to [x], ties towards +infinity. *)
Definition Math_round (x : number) : number :=
  match x with
  | S754_finite s m (Zneg p) =>
      let n := (2 * cond_Zopp s (Zpos m) + 2 ^ Zpos p) / 2 ^ (Zpos p + 1) in
      if n =? 0 then S754_zero s else ofZ n
  | _ => x
  end.

(** [Math.max] and [Math.min] of two arguments. *)
Definition Math_max (x y : number) : number :=
  match SFcompare x y with
  | None => NaN
  | Some Lt => y
  | Some Gt => x
  | Some Eq => match x with S754_zero true => y | _ => x end
  end.

Definition Math_min (x y : number) : number :=
  match SFcompare x y with
  | None => NaN
  | Some Lt => x
  | Some Gt => y
  | Some Eq => match x with S754_zero false => y | _ => x end
  end.

(** *** Decimal digits *)

Definition digitChar (d : N) : ascii := ascii_of_N (48 + d).

Fixpoint charsOfUint (d : uint) : list ascii :=
  match d with
  | Nil => []
  | D0 d => "0"%char :: charsOfUint d
  | D1 d => "1"%char :: charsOfUint d
  | D2 d => "2"%char :: charsOfUint d
  | D3 d => "3"%char :: charsOfUint d
  | D4 d => "4"%char :: charsOfUint d
  | D5 d => "5"%char :: charsOfUint d
  | D6 d => "6"%char :: charsOfUint d
  | D7 d => "7"%char :: charsOfUint d
  | D8 d => "8"%char :: charsOfUint d
  | D9 d => "9"%char :: charsOfUint d
  end.

(** The decimal digits of a natural number, most significant first, no
    leading zero; the number zero is the single digit 0. *)
Definition digitsOfN (n : N) : list ascii := charsOfUint (N.to_uint n).

Definition zeros (k : nat) : list ascii := repeat "0"%char k.

(** Steps 11.b to 11.d of [Number.prototype.toFixed]: the digits of [n] with a
    decimal point before the last [f] of them, padded with zeros on the left so
    that at least one digit precedes the point. *)
Definition pointed (f : nat) (n : N) : string :=
  let m := digitsOfN n in
  let k := List.length m in
  let m := if (k <=? f)%nat then (zeros (f + 1 - k) ++ m)%list else m in
  let k := List.length m in
  match f with
  | O => string_of_list_ascii m
  | _ => string_of_list_ascii (firstn (k - f) m) ++ "." ++
         string_of_list_ascii (skipn (k - f) m)
  end.

(** *** [Number::toString]

    The decimal exponent [n] with [10^(n-1) <= m * 2^e < 10^n], searched
    upwards or downwards from a first guess. *)
Definition pow10 (k : Z) : Z := 10 ^ k.

(** [m * 2^e] compared with [a * 10^k], exactly. *)
Definition cmpScaled (m : positive) (e : Z) (a : Z) (k : Z) : comparison :=
  let l := Zpos m * (if 0 <=? e then 2 ^ e else 1) * (if 0 <=? k then 1 else 10 ^ (- k)) in
  let r := a * (if 0 <=? k then 10 ^ k else 1) * (if 0 <=? e then 1 else 2 ^ (- e)) in
  l ?= r.

Fixpoint decExpUp (fuel : nat) (m : positive) (e : Z) (n : Z) : Z :=
  match fuel with
  | O => n
  | S fuel =>
      match cmpScaled m e 1 n with
      | Lt => n
      | _ => decExpUp fuel m e (n + 1)
      end
  end.

Fixpoint decExpDown (fuel : nat) (m : positive) (e : Z) (n : Z) : Z :=
  match fuel with
  | O => n
  | S fuel =>
      match cmpScaled m e 1 (n - 1) with
      | Lt => decExpDown fuel m e (n - 1)
      | _ => n
      end
  end.

Definition decExp (m : positive) (e : Z) : Z :=
  let guess := (Zpos (digits2_pos m) + e) * 3 / 10 in
  decExpDown 400 m e (decExpUp 400 m e guess).

(** The integer [floor (m * 2^e / 10^k)]. *)
Definition scaledFloor (m : positive) (e : Z) (k : Z) : Z :=
  (Zpos m * (if 0 <=? e then 2 ^ e else 1) * (if 0 <=? k then 1 else 10 ^ (- k)))
  / ((if 0 <=? k then 10 ^ k else 1) * (if 0 <=? e then 1 else 2 ^ (- e))).

Definition ofScaled (s : Z) (k : Z) : number :=
  ofDecimal false (Z.to_N s) k.

Definition sameNumber (x y : number) : bool :=
  match x, y with
  | S754_finite s1 m1 e1, S754_finite s2 m2 e2 =>
      Bool.eqb s1 s2 && (m1 =? m2)%positive && (e1 =? e2)
  | _, _ => false
  end.

(** The candidate with [k] digits: the neighbours [lo] and [lo + 1] of
    [x / 10^(n-k)]; the one that reads back as [x], the nearer one when both
    do, the even one when they are equally near. *)
Definition shortestAt (m : positive) (e : Z) (n : Z) (k : Z) : option (Z * Z) :=
  let x := S754_finite false m e in
  let lo := scaledFloor m e (n - k) in
  let hi := lo + 1 in
  let okLo := (pow10 (k - 1) <=? lo) && sameNumber (ofScaled lo (n - k)) x in
  let okHi := sameNumber (ofScaled hi (n - k)) x in
  let pick (s : Z) := if s =? pow10 k then Some (pow10 (k - 1), n + 1) else Some (s, n) in
  match okLo, okHi with
  | false, false => None
  | true, false => pick lo
  | false, true => pick hi
  | true, true =>
      (* x - lo against hi - x, in units of 10^(n-k): 2 x against lo + hi *)
      match cmpScaled (m~0) e (lo + hi) (n - k) with
      | Lt => pick lo
      | Gt => pick hi
      | Eq => if Z.even lo then pick lo else pick hi
      end
  end.

Fixpoint shortestFrom (fuel : nat) (m : positive) (e : Z) (n : Z) (k : Z) : Z * Z :=
  match fuel with
  | O => (scaledFloor m e (n - k), n)
  | S fuel =>
      match shortestAt m e n k with
      | Some r => r
      | None => shortestFrom fuel m e n (k + 1)
      end
  end.

Definition natOfZ (z : Z) : nat := Z.to_nat z.

Definition signedExp (e : Z) : string :=
  (if e <? 0 then "-" else "+") ++ string_of_list_ascii (digitsOfN (Z.to_N (Z.abs e))).

(** [Number::toString] in radix 10. *)
Definition toString (x : number) : string :=
  match x with
  | S754_nan => "NaN"
  | S754_zero _ => "0"
  | S754_infinity s => if s then "-Infinity" else "Infinity"
  | S754_finite sg m e =>
      let n0 := decExp m e in
      let '(s, n) := shortestFrom 25 m e n0 1 in
      let ds := digitsOfN (Z.to_N s) in
      let k := Z.of_nat (List.length ds) in
      let body :=
        if (k <=? n) && (n <=? 21) then
          string_of_list_ascii (ds ++ zeros (natOfZ (n - k)))%list
        else if (0 <? n) && (n <=? 21) then
          string_of_list_ascii (firstn (natOfZ n) ds) ++ "." ++
          string_of_list_ascii (skipn (natOfZ n) ds)
        else if (-6 <? n) && (n <=? 0) then
          "0." ++ string_of_list_ascii (zeros (natOfZ (- n)) ++ ds)%list
        else if k =? 1 then
          string_of_list_ascii ds ++ "e" ++ signedExp (n - 1)
        else
          string_of_list_ascii (firstn 1 ds) ++ "." ++
          string_of_list_ascii (skipn 1 ds) ++ "e" ++ signedExp (n - 1)
      in
      (if sg then "-" else "") ++ body
  end.

(** *** [Number.prototype.toFixed] *)

(** The integer [n] for which [n / 10^f - m * 2^e] is as close to zero as
    possible, the larger one when there are two. *)
Definition nearestScaled (f : nat) (m : positive) (e : Z) : Z :=
  match e with
  | Zneg p => (2 * Zpos m * 10 ^ Z.of_nat f + 2 ^ Zpos p) / 2 ^ (Zpos p + 1)
  | _ => Zpos m * 2 ^ e * 10 ^ Z.of_nat f
  end.

Definition toFixed (f : nat) (x : number) : string :=
  match x with
  | S754_finite s m e =>
      (if s then "-" else "") ++
      match cmpScaled m e 1 21 with
      | Lt => pointed f (Z.to_N (nearestScaled f m e))
      | _ => toString (S754_finite false m e)
      end
  | S754_zero _ => pointed f 0
  | _ => toString x
  end.

(** *** [parseFloat] *)

(** The white space that [parseFloat] skips is [StrWhiteSpaceChar]: the
    [WhiteSpace] and the [LineTerminator] code points.  A text is held as its
    UTF-8 bytes, so that U+00A0 is two bytes and U+1680, U+2000 to U+200A,
    U+2028, U+2029, U+202F, U+205F, U+3000 and U+FEFF are three. *)
Definition isWhiteSpace (c : ascii) : bool :=
  match N_of_ascii c with
  | 9%N | 10%N | 11%N | 12%N | 13%N | 32%N => true
  | _ => false
  end.

Definition isLeadByte (c : ascii) : bool :=
  match N_of_ascii c with
  | 194%N | 225%N | 226%N | 227%N | 239%N => true
  | _ => false
  end.

Definition isWhiteSpace2 (c1 c2 : ascii) : bool :=
  match N_of_ascii c1, N_of_ascii c2 with
  | 194%N, 160%N => true
  | _, _ => false
  end.

Definition isWhiteSpace3 (c1 c2 c3 : ascii) : bool :=
  match N_of_ascii c1, N_of_ascii c2 with
  | 225%N, 154%N => (N_of_ascii c3 =? 128)%N
  | 226%N, 128%N =>
      ((128 <=? N_of_ascii c3) && (N_of_ascii c3 <=? 138))%N
      || (N_of_ascii c3 =? 168)%N || (N_of_ascii c3 =? 169)%N || (N_of_ascii c3 =? 175)%N
  | 226%N, 129%N => (N_of_ascii c3 =? 159)%N
  | 227%N, 128%N => (N_of_ascii c3 =? 128)%N
  | 239%N, 187%N => (N_of_ascii c3 =? 191)%N
  | _, _ => false
  end.

Definition digitValue (c : ascii) : option N :=
  let n := N_of_ascii c in
  if ((48 <=? n) && (n <=? 57))%N then Some (n - 48)%N else None.

Fixpoint trimStart (s : list ascii) : list ascii :=
  match s with
  | c :: s1 =>
      if isWhiteSpace c then trimStart s1
      else if isLeadByte c then
        match s1 with
        | c2 :: s2 =>
            if isWhiteSpace2 c c2 then trimStart s2
            else
              match s2 with
              | c3 :: s3 => if isWhiteSpace3 c c2 c3 then trimStart s3 else s
              | [] => s
              end
        | [] => s
        end
      else s
  | [] => []
  end.

(** The digits at the front of [s], accumulated in [acc], their count, and
    what follows them. *)
Fixpoint scanDigits (s : list ascii) (acc : N) (cnt : nat) : N * nat * list ascii :=
  match s with
  | c :: s' =>
      match digitValue c with
      | Some d => scanDigits s' (10 * acc + d)%N (S cnt)
      | None => (acc, cnt, s)
      end
  | [] => (acc, cnt, [])
  end.

(** The value of an [ExponentPart] at the front of [s], zero when there is
    none. *)
Definition scanExponent (s : list ascii) : Z :=
  match s with
  | c :: s' =>
      if (c =? "e")%char || (c =? "E")%char then
        let '(neg, s'') :=
          match s' with
          | "+"%char :: t => (false, t)
          | "-"%char :: t => (true, t)
          | _ => (false, s')
          end in
        let '(v, cnt, _) := scanDigits s'' 0%N O in
        match cnt with
        | O => 0
        | _ => if neg then - Z.of_N v else Z.of_N v
        end
      else 0
  | [] => 0
  end.

Definition isPrefix (p s : list ascii) : bool :=
  (List.length p <=? List.length s)%nat &&
  forallb (fun '(a, b) => (a =? b)%char) (combine p s).

Definition parseUnsigned (sg : bool) (s : list ascii) : number :=
  if isPrefix (list_ascii_of_string "Infinity") s then S754_infinity sg
  else
    let '(ip, icnt, rest) := scanDigits s 0%N O in
    let '(mant, fcnt, rest') :=
      match rest with
      | "."%char :: t =>
          let '(m, c, r) := scanDigits t ip O in
          match icnt, c with
          | O, O => (ip, O, rest)
          | _, _ => (m, c, r)
          end
      | _ => (ip, O, rest)
      end in
    match icnt, fcnt with
    | O, O => NaN
    | _, _ => ofDecimal sg mant (scanExponent rest' - Z.of_nat fcnt)
    end.

(** [parseFloat] applied to a string. *)
Definition parseFloat (str : string) : number :=
  match trimStart (list_ascii_of_string str) with
  | "-"%char :: s => parseUnsigned true s
  | "+"%char :: s => parseUnsigned false s
  | s => parseUnsigned false s
  end.

(** [String.prototype.split] with a one-character separator. *)
Fixpoint splitOn (sep : ascii) (cur : list ascii) (s : list ascii) : list string :=
  match s with
  | [] => [string_of_list_ascii (rev cur)]
  | c :: s' =>
      if (c =? sep)%char then string_of_list_ascii (rev cur) :: splitOn sep [] s'
      else splitOn sep (c :: cur) s'
  end.

Definition split (sep : ascii) (s : string) : list string :=
  splitOn sep [] (list_ascii_of_string s).

End JS.

(** ** Loops

    A [while] loop over a state, with fuel: [None] when the fuel runs out
    before the loop condition fails. *)
Fixpoint while {St : Type} (fuel : nat) (cond : St -> bool) (body : St -> option St)
    (st : St) : option St :=
  match fuel with
  | O => None
  | S fuel =>
      if cond st then
        match body st with
        | Some st' => while fuel cond body st'
        | None => None
        end
      else Some st
  end.

(** ** [lib/utils/gridUtils.ts] *)

Module GridUtils.
Import JS.

Record Bounds := { minLat : number; maxLat : number; minLon : number; maxLon : number }.

(** The literals [21.5], [25.5], [119.0] and [122.5]. *)
Definition lit_21_5 : number := Eval vm_compute in ofDecimal false 215 (-1).
Definition lit_25_5 : number := Eval vm_compute in ofDecimal false 255 (-1).
Definition lit_119_0 : number := Eval vm_compute in ofDecimal false 1190 (-1).
Definition lit_122_5 : number := Eval vm_compute in ofDecimal false 1225 (-1).

Definition TAIWAN_BOUNDS : Bounds :=
  {| minLat := lit_21_5; maxLat := lit_25_5; minLon := lit_119_0; maxLon := lit_122_5 |}.

Definition GRID_SIZE_LAT : number := Eval vm_compute in ofDecimal false 9 (-3).
Definition GRID_SIZE_LON : number := Eval vm_compute in ofDecimal false 1 (-2).

Definition isInTaiwanBounds (lat lon : number) : bool :=
  ge lat (minLat TAIWAN_BOUNDS) &&
  le lat (maxLat TAIWAN_BOUNDS) &&
  ge lon (minLon TAIWAN_BOUNDS) &&
  le lon (maxLon TAIWAN_BOUNDS).

(** The template string [`grid_${gridLat.toFixed(3)}_${gridLon.toFixed(2)}`]. *)
Definition gridName (gridLat gridLon : number) : string :=
  "grid_" ++ toFixed 3 gridLat ++ "_" ++ toFixed 2 gridLon.

Definition coordinateToGridId (lat lon : number) : option string :=
  if negb (isInTaiwanBounds lat lon) then None
  else
    let gridLat := mul (Math_floor (div lat GRID_SIZE_LAT)) GRID_SIZE_LAT in
    let gridLon := mul (Math_floor (div lon GRID_SIZE_LON)) GRID_SIZE_LON in
    Some (gridName gridLat gridLon).

Record Coord := { lat : number; lon : number }.

Definition gridIdToCoordinate (gridId : string) : option Coord :=
  match split "_" gridId with
  | [p0; p1; p2] =>
      if negb (String.eqb p0 "grid") then None
      else
        let lat := parseFloat p1 in
        let lon := parseFloat p2 in
        if isNaN lat || isNaN lon then None
        else Some {| lat := lat; lon := lon |}
  | _ => None
  end.

(** [GRID_SIZE_LAT / 2] and [GRID_SIZE_LON / 2]. *)
Definition two : number := Eval vm_compute in ofZ 2.

Definition gridIdToCenter (gridId : string) : option Coord :=
  match gridIdToCoordinate gridId with
  | None => None
  | Some coord =>
      Some {| lat := add (lat coord) (div GRID_SIZE_LAT two);
              lon := add (lon coord) (div GRID_SIZE_LON two) |}
  end.

(** The ring of [gridIdToBounds]: five [lon, lat] pairs. *)
Definition gridIdToBounds (gridId : string) : option (list (list (number * number))) :=
  match gridIdToCoordinate gridId with
  | None => None
  | Some (Build_Coord lat lon) =>
      Some [[ (lon, lat);
              (lon, add lat GRID_SIZE_LAT);
              (add lon GRID_SIZE_LON, add lat GRID_SIZE_LAT);
              (add lon GRID_SIZE_LON, lat);
              (lon, lat) ]]
  end.

(** The two nested loops shared by both enumerators.  The array [gridIds] is
    kept most recent element first while the loops run: [push] is a cons, and
    the callers reverse it once at the end ([rev_append _ []] is [rev]).  [moreLat] and [moreLon] are the
    two loop conditions. *)
Definition lonLoop (fuel : nat) (moreLon : number -> bool) (currentLat : number)
    (st : list string * number) : option (list string * number) :=
  while fuel (fun st => moreLon (snd st))
    (fun '(gridIds, currentLon) =>
       let gridId := gridName currentLat currentLon in
       Some (gridId :: gridIds, add currentLon GRID_SIZE_LON))
    st.

Definition latLoop (fuel : nat) (moreLat moreLon : number -> bool) (startGridLon : number)
    (st : list string * number) : option (list string * number) :=
  while fuel (fun st => moreLat (snd st))
    (fun '(gridIds, currentLat) =>
       match lonLoop fuel moreLon currentLat (gridIds, startGridLon) with
       | Some (gridIds', _) => Some (gridIds', add currentLat GRID_SIZE_LAT)
       | None => None
       end)
    st.

Record Viewport := { north : number; south : number; east : number; west : number }.

Definition getVisibleGridIds (fuel : nat) (bounds : Viewport) : option (list string) :=
  let minLat := Math_max (south bounds) (minLat TAIWAN_BOUNDS) in
  let maxLat := Math_min (north bounds) (maxLat TAIWAN_BOUNDS) in
  let minLon := Math_max (west bounds) (minLon TAIWAN_BOUNDS) in
  let maxLon := Math_min (east bounds) (maxLon TAIWAN_BOUNDS) in
  let startGridLat := mul (Math_floor (div minLat GRID_SIZE_LAT)) GRID_SIZE_LAT in
  let startGridLon := mul (Math_floor (div minLon GRID_SIZE_LON)) GRID_SIZE_LON in
  match
    latLoop fuel (fun currentLat => le currentLat maxLat)
      (fun currentLon => le currentLon maxLon) startGridLon ([], startGridLat)
  with
  | Some (gridIds, _) => Some (rev_append gridIds [])
  | None => None
  end.

(** The module-level variable [cachedAllTaiwanGridIds]. *)
Definition Cache := option (list string).

Definition getAllTaiwanGridIds (fuel : nat) (cachedAllTaiwanGridIds : Cache)
    : option (list string * Cache) :=
  match cachedAllTaiwanGridIds with
  | Some cached => Some (cached, cachedAllTaiwanGridIds)
  | None =>
      let startGridLat :=
        mul (Math_floor (div (minLat TAIWAN_BOUNDS) GRID_SIZE_LAT)) GRID_SIZE_LAT in
      let startGridLon :=
        mul (Math_floor (div (minLon TAIWAN_BOUNDS) GRID_SIZE_LON)) GRID_SIZE_LON in
      match
        latLoop fuel (fun currentLat => lt currentLat (maxLat TAIWAN_BOUNDS))
          (fun currentLon => lt currentLon (maxLon TAIWAN_BOUNDS)) startGridLon
          ([], startGridLat)
      with
      | Some (gridIds, _) => Some (rev_append gridIds [], Some (rev_append gridIds []))
      | None => None
      end
  end.

End GridUtils.

(** ** The footprint table behind [prisma.footprint] *)

Module Prisma.

Record Footprint := {
  id : nat;
  user_id : string;
  coordinate : option string;
  Create_time : option Z;
  Update_time : option Z
}.

Definition Table := list Footprint.

Definition hasCoordinate (userId coordinate' : string) (f : Footprint) : bool :=
  String.eqb (user_id f) userId &&
  match coordinate f with
  | Some c => String.eqb c coordinate'
  | None => false
  end.

(** [findFirst({ where: { user_id, coordinate } })]. *)
Definition findFirst (userId coordinate' : string) (t : Table) : option Footprint :=
  List.find (hasCoordinate userId coordinate') t.

(** [findMany({ where: { user_id, coordinate: { not: null } } })]. *)
Definition findMany (userId : string) (t : Table) : list Footprint :=
  List.filter
    (fun f => String.eqb (user_id f) userId &&
              match coordinate f with Some _ => true | None => false end) t.

Definition freshId (t : Table) : nat := S (list_max (List.map id t)).

(** [create({ data })]: the new row is appended under a fresh id. *)
Definition create (userId coordinate' : string) (created updated : option Z) (t : Table)
    : Footprint * Table :=
  let f := {| id := freshId t; user_id := userId; coordinate := Some coordinate';
              Create_time := created; Update_time := updated |} in
  (f, (t ++ [f])%list).

(** [update({ where: { id }, data: { Update_time } })]. *)
Definition update (id' : nat) (updated : Z) (t : Table) : Table :=
  List.map
    (fun f =>
       if Nat.eqb (id f) id' then
         {| id := id f; user_id := user_id f; coordinate := coordinate f;
            Create_time := Create_time f; Update_time := Some updated |}
       else f) t.

End Prisma.

(** A JavaScript string used as a condition is true unless it is empty. *)
Definition truthy (s : string) : bool := negb (String.eqb s "").

(** ** [app/api/footprint/mist-percentage/route.ts] *)

Module MistPercentage.
Import JS GridUtils Prisma.

Definition ofNat (n : nat) : number := ofZ (Z.of_nat n).

Definition zero : number := S754_zero false.
Definition hundred : number := Eval vm_compute in ofZ 100.

Record Response := { status : nat; percentage : number }.

(** The callback of [footprints.forEach], on the set built so far. *)
Definition visit (exploredGridIds : gset string) (footprint : Footprint) : gset string :=
  match coordinate footprint with
  | None => exploredGridIds
  | Some coordinate' =>
      if negb (truthy coordinate') then exploredGridIds
      else
        let parts := split "," coordinate' in
        let lat := match parts with latStr :: _ => parseFloat latStr | _ => NaN end in
        let lon := match parts with _ :: lonStr :: _ => parseFloat lonStr | _ => NaN end in
        if isNaN lat || isNaN lon then exploredGridIds
        else
          match coordinateToGridId lat lon with
          | Some gridId =>
              if truthy gridId then {[ gridId ]} ∪ exploredGridIds else exploredGridIds
          | None => exploredGridIds
          end
  end.

(** The set [exploredGridIds] after the [forEach] over the footprints. *)
Definition exploredSet (footprints : list Footprint) : gset string :=
  fold_left visit footprints ∅.

(** [Math.round((exploredCount / totalGrids) * 100)]. *)
Definition percentageOf (exploredCount totalGrids : nat) : number :=
  Math_round (mul (div (ofNat exploredCount) (ofNat totalGrids)) hundred).

(** The handler from the point where [allGridIds] is known. *)
Definition coverage (allGridIds : list string) (userId : string) (t : Table) : Response :=
  let totalGrids := List.length allGridIds in
  if Nat.eqb totalGrids 0 then {| status := 200; percentage := zero |}
  else
    let footprints := findMany userId t in
    let exploredGridIds := exploredSet footprints in
    let exploredCount := size exploredGridIds in
    {| status := 200; percentage := percentageOf exploredCount totalGrids |}.

(** [GET]: [session] is the id of the signed-in user, if any. *)
Definition GET (fuel : nat) (cache : Cache) (session : option string) (t : Table)
    : option (Response * Cache) :=
  match session with
  | None => Some ({| status := 200; percentage := zero |}, cache)
  | Some userId =>
      if negb (truthy userId) then Some ({| status := 200; percentage := zero |}, cache)
      else
        match getAllTaiwanGridIds fuel cache with
        | None => None
        | Some (allGridIds, cache') => Some (coverage allGridIds userId t, cache')
        end
  end.

(** The body [{ lat, lon }] of a POST request: a field is [None] when it is
    absent or not of type number. *)
Record Body := { body_lat : option number; body_lon : option number }.

Inductive Reply :=
  | Unauthorized
  | BadRequest (message : string)
  | Updated
  | Created.

(** [POST]: records the raw coordinate of a visit. *)
Definition POST (now : Z) (session : option string) (body : Body) (t : Table)
    : Reply * Table :=
  match session with
  | None => (Unauthorized, t)
  | Some userId =>
      if negb (truthy userId) then (Unauthorized, t)
      else
      match body_lat body, body_lon body with
      | Some lat, Some lon =>
          match coordinateToGridId lat lon with
          | None => (BadRequest "out of bounds", t)
          | Some gridId =>
              if negb (truthy gridId) then (BadRequest "out of bounds", t)
              else
                let coordinate' := toString lat ++ "," ++ toString lon in
                match findFirst userId coordinate' t with
                | Some existingFootprint =>
                    (Updated, update (id existingFootprint) now t)
                | None =>
                    (Created, snd (create userId coordinate' (Some now) (Some now) t))
                end
          end
      | _, _ => (BadRequest "invalid coordinate", t)
      end
  end.

End MistPercentage.

(** ** [app/api/footprint/explore-grid/route.ts] *)

Module ExploreGrid.
Import JS GridUtils Prisma.

Inductive Reply :=
  | Unauthorized
  | BadRequest (message : string)
  | Explored (alreadyExplored : bool) (id : nat) (gridId : string) (coordinate : option string).

(** [POST]: records the centre of the cell of a visit. *)
Definition POST (session : option string) (body : MistPercentage.Body) (t : Table)
    : Reply * Table :=
  match session with
  | None => (Unauthorized, t)
  | Some userId =>
      if negb (truthy userId) then (Unauthorized, t)
      else
      match MistPercentage.body_lat body, MistPercentage.body_lon body with
      | Some lat, Some lon =>
          if negb (isInTaiwanBounds lat lon) then (BadRequest "out of bounds", t)
          else
            match coordinateToGridId lat lon with
            | None => (BadRequest "no grid id", t)
            | Some gridId =>
                if negb (truthy gridId) then (BadRequest "no grid id", t)
                else
                  match gridIdToCenter gridId with
                  | None => (BadRequest "no centre", t)
                  | Some center =>
                      let coordinate' :=
                        toString (GridUtils.lat center) ++ "," ++
                        toString (GridUtils.lon center) in
                      match findFirst userId coordinate' t with
                      | Some existingFootprint =>
                          (Explored true (id existingFootprint) gridId
                             (coordinate existingFootprint), t)
                      | None =>
                          let '(footprint, t') := create userId coordinate' None None t in
                          (Explored false (id footprint) gridId (coordinate footprint), t')
                      end
                  end
            end
      | _, _ => (BadRequest "invalid coordinate", t)
      end
  end.

End ExploreGrid.

(** * More of the code: the polygons, the middleware and other routes *)

(** ** [gridIdsToGeoJSON] of [lib/utils/gridUtils.ts] *)

Module GeoJSON.
Import JS GridUtils.

(** A feature of the collection: [properties.gridId] and
    [geometry.coordinates]; its [type] fields are constants. *)
Record Feature := { gridId : string; coordinates : list (list (number * number)) }.

(** The [features] of the collection that [gridIdsToGeoJSON] returns: the
    [map], then the [filter] that drops the nulls. *)
Definition gridIdsToGeoJSON (gridIds : list string) : list Feature :=
  let features :=
    List.map
      (fun gridId =>
         match gridIdToBounds gridId with
         | None => None
         | Some bounds => Some {| gridId := gridId; coordinates := bounds |}
         end) gridIds in
  omap (fun f => f) features.

End GeoJSON.

(** ** [lib/middleware/auth.ts] *)

Module Auth.

(** The fields of [session.user] that the middleware reads; a field is [None]
    when it is [null] or [undefined]. *)
Record User := {
  id : option string;
  email : option string;
  name : option string;
  UserName : option string
}.

Record Session := { user : option User }.

(** What [await auth()] does: it rejects, or it resolves to a session or to
    [null]. *)
Inductive Outcome :=
  | Rejects
  | Resolves (session : option Session).

Record AuthResult := { userId : string; userEmail : string; userName : option string }.

(** What [requireAuth] throws: the response [ApiErrors.UNAUTHORIZED()], or
    whatever [auth()] rejected with. *)
Inductive Thrown :=
  | UNAUTHORIZED
  | Rejection.

(** [a || b] on two string fields, and [a || null]. *)
Definition orElse (a b : option string) : option string :=
  match a with
  | Some s => if truthy s then a else b
  | None => b
  end.

Definition orNull (a : option string) : option string := orElse a None.

Definition requireAuth (auth : Outcome) : Thrown + AuthResult :=
  match auth with
  | Rejects => inl Rejection
  | Resolves session =>
      match session with
      | None => inl UNAUTHORIZED
      | Some session =>
          match user session with
          | None => inl UNAUTHORIZED
          | Some user =>
              match orNull (email user) with
              | None => inl UNAUTHORIZED
              | Some userEmail' =>
                  match orNull (id user) with
                  | None => inl UNAUTHORIZED
                  | Some userId' =>
                      inr {| userId := userId'; userEmail := userEmail';
                             userName := orNull (orElse (name user) (UserName user)) |}
                  end
              end
          end
      end
  end.

Definition optionalAuth (auth : Outcome) : option AuthResult :=
  match requireAuth auth with
  | inr result => Some result
  | inl _ => None
  end.

Definition getUserId (auth : Outcome) : option string :=
  match auth with
  | Rejects => None
  | Resolves session =>
      orNull
        (match session with
         | None => None
         | Some session =>
             match user session with
             | None => None
             | Some user => id user
             end
         end)
  end.

End Auth.

(** ** [app/api/footprint/explored-grids/route.ts] *)

Module ExploredGrids.
Import JS GridUtils Prisma.

(** A value of [gridMap].  A [Date] is its time value, in milliseconds; the
    text [exploredAt], made by [toISOString] and read back by [new Date], is
    kept as the time value that it denotes. *)
Record Entry := { coordinate : string; exploredAt : Z }.

(** The [Map]: its entries in the order in which their keys were first set. *)
Definition GridMap := list (string * Entry).

Fixpoint Map_get (gridId : string) (gridMap : GridMap) : option Entry :=
  match gridMap with
  | [] => None
  | (k, v) :: gridMap' => if String.eqb k gridId then Some v else Map_get gridId gridMap'
  end.

Fixpoint Map_set (gridId : string) (value : Entry) (gridMap : GridMap) : GridMap :=
  match gridMap with
  | [] => [(gridId, value)]
  | (k, v) :: gridMap' =>
      if String.eqb k gridId then (k, value) :: gridMap'
      else (k, v) :: Map_set gridId value gridMap'
  end.

(** The time value of [new Date(footprint.Create_time)]; [new Date(null)] is
    the epoch. *)
Definition timeValue (d : option Z) : Z :=
  match d with
  | Some t => t
  | None => 0
  end.

(** The callback of [footprints.forEach]; [None] when it throws, which
    [footprint.Create_time.toISOString()] does on a null [Create_time]. *)
Definition visit (gridMap : GridMap) (footprint : Footprint) : option GridMap :=
  match Prisma.coordinate footprint with
  | None => Some gridMap
  | Some coordinate' =>
      if negb (truthy coordinate') then Some gridMap
      else
        let parts := split "," coordinate' in
        let lat := match parts with latStr :: _ => parseFloat latStr | _ => NaN end in
        let lon := match parts with _ :: lonStr :: _ => parseFloat lonStr | _ => NaN end in
        if negb (isNaN lat) && negb (isNaN lon) then
          match coordinateToGridId lat lon with
          | Some gridId =>
              if truthy gridId then
                let existing := Map_get gridId gridMap in
                if match existing with
                   | None => true
                   | Some existing => exploredAt existing <? timeValue (Create_time footprint)
                   end
                then
                  match Create_time footprint with
                  | Some t =>
                      Some (Map_set gridId {| coordinate := coordinate'; exploredAt := t |}
                              gridMap)
                  | None => None
                  end
                else Some gridMap
              else Some gridMap
          | None => Some gridMap
          end
        else Some gridMap
  end.

Fixpoint forEach (footprints : list Footprint) (gridMap : GridMap) : option GridMap :=
  match footprints with
  | [] => Some gridMap
  | footprint :: footprints' =>
      match visit gridMap footprint with
      | Some gridMap' => forEach footprints' gridMap'
      | None => None
      end
  end.

Record Grid := { grid_gridId : string; grid_coordinate : string; grid_exploredAt : Z }.

(** [successResponse({ grids })], or [ApiErrors.INTERNAL_ERROR] from the
    [catch]. *)
Inductive Reply :=
  | Grids (grids : list Grid)
  | InternalError.

Definition GET (auth : Auth.Outcome) (t : Table) : Reply :=
  match Auth.getUserId auth with
  | None => Grids []
  | Some userId =>
      if negb (truthy userId) then Grids []
      else
        let footprints := findMany userId t in
        match forEach footprints [] with
        | Some gridMap =>
            Grids (List.map
                     (fun '(gridId, data) =>
                        {| grid_gridId := gridId; grid_coordinate := coordinate data;
                           grid_exploredAt := exploredAt data |}) gridMap)
        | None => InternalError
        end
  end.

End ExploredGrids.

(** ** [app/footprint/components/FogLayer.tsx]: the memoised values *)

Module FogLayer.
Import JS GridUtils GeoJSON.

Definition visibleGridIds (fuel : nat) (mapBounds : option Viewport) : option (list string) :=
  match mapBounds with
  | None => Some []
  | Some mapBounds => getVisibleGridIds fuel mapBounds
  end.

Definition unexploredGridIds (visibleGridIds : list string) (exploredGridIds : gset string)
    : list string :=
  if Nat.eqb (List.length visibleGridIds) 0 then []
  else List.filter (fun gridId => negb (bool_decide (gridId ∈ exploredGridIds))) visibleGridIds.

Definition fogGeoJSON (unexploredGridIds : list string) : option (list Feature) :=
  if Nat.eqb (List.length unexploredGridIds) 0 then None
  else Some (gridIdsToGeoJSON unexploredGridIds).

End FogLayer.
(** ** The weather route: [getLocationNameByCoordinates] *)

Module Weather.
Import JS.

Record Location := {
  name : string;
  latMin : number;
  latMax : number;
  lonMin : number;
  lonMax : number
}.

(** A literal with one decimal, such as [24.9]. *)
Definition tenths (n : N) : number := ofDecimal false n (-1).

Definition locations : list Location := Eval vm_compute in
  [ {| name := "臺北市"; latMin := tenths 249; latMax := tenths 252;
       lonMin := tenths 1214; lonMax := tenths 1217 |};
    {| name := "新北市"; latMin := tenths 248; latMax := tenths 252;
       lonMin := tenths 1212; lonMax := tenths 1220 |};
    {| name := "桃園市"; latMin := tenths 247; latMax := tenths 251;
       lonMin := tenths 1210; lonMax := tenths 1215 |};
    {| name := "臺中市"; latMin := tenths 240; latMax := tenths 245;
       lonMin := tenths 1205; lonMax := tenths 1212 |};
    {| name := "臺南市"; latMin := tenths 229; latMax := tenths 234;
       lonMin := tenths 1200; lonMax := tenths 1205 |};
    {| name := "高雄市"; latMin := tenths 225; latMax := tenths 230;
       lonMin := tenths 1201; lonMax := tenths 1206 |};
    {| name := "基隆市"; latMin := tenths 250; latMax := tenths 252;
       lonMin := tenths 1216; lonMax := tenths 1218 |};
    {| name := "新竹市"; latMin := tenths 247; latMax := tenths 249;
       lonMin := tenths 1209; lonMax := tenths 1211 |};
    {| name := "新竹縣"; latMin := tenths 244; latMax := tenths 249;
       lonMin := tenths 1208; lonMax := tenths 1213 |};
    {| name := "苗栗縣"; latMin := tenths 243; latMax := tenths 248;
       lonMin := tenths 1206; lonMax := tenths 1212 |};
    {| name := "彰化縣"; latMin := tenths 238; latMax := tenths 242;
       lonMin := tenths 1203; lonMax := tenths 1207 |};
    {| name := "南投縣"; latMin := tenths 235; latMax := tenths 242;
       lonMin := tenths 1206; lonMax := tenths 1212 |};
    {| name := "雲林縣"; latMin := tenths 235; latMax := tenths 239;
       lonMin := tenths 1201; lonMax := tenths 1206 |};
    {| name := "嘉義市"; latMin := tenths 234; latMax := tenths 235;
       lonMin := tenths 1204; lonMax := tenths 1205 |};
    {| name := "嘉義縣"; latMin := tenths 232; latMax := tenths 236;
       lonMin := tenths 1201; lonMax := tenths 1206 |};
    {| name := "屏東縣"; latMin := tenths 220; latMax := tenths 228;
       lonMin := tenths 1203; lonMax := tenths 1208 |};
    {| name := "宜蘭縣"; latMin := tenths 243; latMax := tenths 248;
       lonMin := tenths 1215; lonMax := tenths 1220 |};
    {| name := "花蓮縣"; latMin := tenths 233; latMax := tenths 244;
       lonMin := tenths 1212; lonMax := tenths 1218 |};
    {| name := "臺東縣"; latMin := tenths 223; latMax := tenths 234;
       lonMin := tenths 1208; lonMax := tenths 1215 |};
    {| name := "澎湖縣"; latMin := tenths 232; latMax := tenths 237;
       lonMin := tenths 1193; lonMax := tenths 1197 |};
    {| name := "金門縣"; latMin := tenths 242; latMax := tenths 245;
       lonMin := tenths 1182; lonMax := tenths 1185 |};
    {| name := "連江縣"; latMin := tenths 259; latMax := tenths 264;
       lonMin := tenths 1198; lonMax := tenths 1201 |} ].

(** The test of the loop. *)
Definition within (latNum lonNum : number) (location : Location) : bool :=
  ge latNum (latMin location) &&
  le latNum (latMax location) &&
  ge lonNum (lonMin location) &&
  le lonNum (lonMax location).

(** The [for ... of] loop with its early [return]. *)
Fixpoint firstWithin (latNum lonNum : number) (locations : list Location) : option string :=
  match locations with
  | [] => None
  | location :: locations' =>
      if within latNum lonNum location then Some (name location)
      else firstWithin latNum lonNum locations'
  end.

Definition getLocationNameByCoordinates (lat lon : string) : string :=
  let latNum := parseFloat lat in
  let lonNum := parseFloat lon in
  match firstWithin latNum lonNum locations with
  | Some name => name
  | None => "臺北市"
  end.

End Weather.

(** ** [app/api/admin/shared-tasks/route.ts]: [verifyAdminKey] *)

Module Admin.

(** [s.startsWith(p)] and [s.substring(n)]. *)
Fixpoint startsWith (s p : string) : bool :=
  match p, s with
  | EmptyString, _ => true
  | String c p', String d s' => (c =? d)%char && startsWith s' p'
  | String _ _, EmptyString => false
  end.

Fixpoint substring (n : nat) (s : string) : string :=
  match n, s with
  | O, _ => s
  | S n', String _ s' => substring n' s'
  | S _, EmptyString => EmptyString
  end.

(** [adminApiKey] is [process.env.ADMIN_API_KEY] and [authHeader] is the
    [Authorization] header; each is [None] when it is absent. *)
Definition verifyAdminKey (adminApiKey authHeader : option string) : bool :=
  match adminApiKey with
  | None => false
  | Some adminApiKey =>
      if negb (truthy adminApiKey) then false
      else
        match authHeader with
        | None => false
        | Some authHeader =>
            if negb (truthy authHeader) then false
            else
              let providedKey :=
                if startsWith authHeader "Bearer " then substring 7 authHeader
                else authHeader in
              String.eqb providedKey adminApiKey
        end
  end.

End Admin.

(** * [src/app/api/footprint/map-records/route.ts]

    The four handlers of a user's map records, over the two tables that they
    read and write.  The database answers every query that it accepts; the
    ids and the creation time that it gives to new rows are parameters of
    the handlers.  [auth()] resolves (to a session or to [null]).  The body
    of a request is any JSON value: its fields are kept by what the handlers
    do with them (see [Body]).  The columns [name], [description],
    [coordinate] and [picture] are strings, the second and the third
    nullable, as the handlers declare them; a query with another value in
    one of them is refused by the client before anything is written, and the
    handler's [catch] answers. *)

Module MapRecords.

Record MapRecordPicture := {
  pic_id : string;
  record_id : string;
  picture : string
}.

Record MapRecord := {
  id : string;
  user_id : string;
  name : string;
  description : option string;
  coordinate : option string;
  Create_time : Z
}.

Record Database := {
  mapRecord : list MapRecord;
  mapRecordPicture : list MapRecordPicture
}.

(** A record read with [include: { pictures: true }]. *)
Record WithPictures := {
  record : MapRecord;
  pictures : list MapRecordPicture
}.

(** One element of [formattedRecords]; the time is kept as the time value
    that the ISO text denotes. *)
Record Formatted := {
  formatted_id : string;
  formatted_name : string;
  formatted_description : option string;
  formatted_coordinate : option string;
  formatted_Create_time : Z;
  formatted_pictures : list (string * string)
}.

(** *** [api-response]: [successResponse], [errorResponse], [ApiErrors] *)

Inductive Data :=
  | records (formattedRecords : list Formatted)
  | record_ (mapRecord : option WithPictures)
  | deleted.

Inductive Response :=
  | successResponse (data : Data)
  | errorResponse (error : string) (status : Z) (code : string).

Definition UNAUTHORIZED : Response := errorResponse "未登入" 401 "UNAUTHORIZED".
Definition FORBIDDEN : Response := errorResponse "無權限" 403 "FORBIDDEN".
Definition NOT_FOUND (resource : string) : Response :=
  errorResponse (resource ++ "不存在") 404 "NOT_FOUND".
Definition BAD_REQUEST (message : string) : Response :=
  errorResponse message 400 "BAD_REQUEST".
Definition INTERNAL_ERROR (message : string) : Response :=
  errorResponse message 500 "INTERNAL_ERROR".

(** *** The queries *)

Definition hasId (id' : string) (r : MapRecord) : bool := String.eqb (id r) id'.

Definition ofRecord (id' : string) (p : MapRecordPicture) : bool :=
  String.eqb (record_id p) id'.

Definition picturesOf (db : Database) (id' : string) : list MapRecordPicture :=
  List.filter (ofRecord id') (mapRecordPicture db).

Definition include (db : Database) (r : MapRecord) : WithPictures :=
  {| record := r; pictures := picturesOf db (id r) |}.

Definition findUnique (id' : string) (db : Database) : option MapRecord :=
  List.find (hasId id') (mapRecord db).

(** [orderBy: { Create_time: 'desc' }]; rows of one time stay in the order of
    the table. *)
Fixpoint insertDesc (r : MapRecord) (l : list MapRecord) : list MapRecord :=
  match l with
  | [] => [r]
  | x :: l' =>
      if Create_time x <=? Create_time r then r :: l else x :: insertDesc r l'
  end.

Definition orderByDesc (l : list MapRecord) : list MapRecord :=
  List.fold_right insertDesc [] l.

Definition findMany (userId : string) (db : Database) : list MapRecord :=
  orderByDesc (List.filter (fun r => String.eqb (user_id r) userId) (mapRecord db)).

Definition update (id' name' : string) (description' coordinate' : option string)
    (db : Database) : Database :=
  {| mapRecord :=
       List.map (fun r => if hasId id' r
                          then {| id := id r; user_id := user_id r; name := name';
                                  description := description';
                                  coordinate := coordinate';
                                  Create_time := Create_time r |}
                          else r) (mapRecord db);
     mapRecordPicture := mapRecordPicture db |}.

Definition deleteMany (id' : string) (db : Database) : Database :=
  {| mapRecord := mapRecord db;
     mapRecordPicture := List.filter (fun p => negb (ofRecord id' p)) (mapRecordPicture db) |}.

(** The rows of [pictures.map(picture => ({ record_id, picture }))], with
    the ids that the database gives them, from [ids first] on. *)
Fixpoint newPictures (ids : nat -> string) (first : nat) (id' : string)
    (pictures : list string) : list MapRecordPicture :=
  match pictures with
  | [] => []
  | picture :: rest =>
      {| pic_id := ids first; record_id := id'; picture := picture |}
      :: newPictures ids (S first) id' rest
  end.

Definition createMany (ids : nat -> string) (id' : string) (pictures : list string)
    (db : Database) : Database :=
  {| mapRecord := mapRecord db;
     mapRecordPicture := (mapRecordPicture db ++ newPictures ids 0 id' pictures)%list |}.

(** [delete], with the cascade on the pictures of the record. *)
Definition delete (id' : string) (db : Database) : Database :=
  {| mapRecord := List.filter (fun r => negb (hasId id' r)) (mapRecord db);
     mapRecordPicture := List.filter (fun p => negb (ofRecord id' p)) (mapRecordPicture db) |}.

(** *** The body of a request

    A field that a handler passes on as [field || null]: a string; a value
    for which [field || null] is [null] (the field is absent, or it is
    [null], [false] or [0]); or another value (a number, [true], an array,
    an object), which the database client refuses. *)
Inductive Text :=
  | text_string (s : string)
  | text_falsy
  | text_other.

(** The field [pictures], by what [pictures !== undefined], [pictures ||
    []], [pictures && pictures.length > 0] and [pictures.map] do with it:
    - the field is absent;
    - it is [null], [false], [0] or the empty string;
    - it is an array of strings;
    - it is another value that is true as a condition and has no [length]
      greater than 0, and no [map]: a number, [true], an object;
    - it is a value with a [length] greater than 0 on which [pictures.map]
      or the query built from it fails: a string that is not empty, an array
      with an element that is not a string, an object with such a
      [length]. *)
Inductive Pictures :=
  | pictures_undefined
  | pictures_falsy
  | pictures_strings (l : list string)
  | pictures_no_length
  | pictures_bad.

(** The fields [id] and [name] are tested with [typeof field !== 'string']:
    they are [None] when absent or not a string. *)
Record Body := {
  body_id : option string;
  body_name : option string;
  body_description : Text;
  body_coordinate : Text;
  body_pictures : Pictures
}.

(** [field || null], when the database accepts it. *)
Definition orNullText (field : Text) : option (option string) :=
  match field with
  | text_string s => Some (Auth.orNull (Some s))
  | text_falsy => Some None
  | text_other => None
  end.

(** *** The handlers

    [requireAuth] is called on a resolved [auth()], so that what it throws
    is the response [ApiErrors.UNAUTHORIZED()], which every handler returns
    as it is.  The body is [None] when [request.json()] rejects or gives
    [null], on which the destructuring throws. *)

Definition format (db : Database) (r : MapRecord) : Formatted :=
  {| formatted_id := id r;
     formatted_name := name r;
     formatted_description := description r;
     formatted_coordinate := coordinate r;
     formatted_Create_time := Create_time r;
     formatted_pictures :=
       List.map (fun pic => (pic_id pic, picture pic)) (picturesOf db (id r)) |}.

Definition GET (session : option Auth.Session) (db : Database) : Response :=
  match Auth.requireAuth (Auth.Resolves session) with
  | inl _ => UNAUTHORIZED
  | inr a =>
      successResponse (records (List.map (format db) (findMany (Auth.userId a) db)))
  end.

(** [(pictures || []).map(picture => ({ picture }))], [None] when it
    throws or gives what the database refuses. *)
Definition picturesToCreate (pictures : Pictures) : option (list string) :=
  match pictures with
  | pictures_undefined | pictures_falsy => Some []
  | pictures_strings l => Some l
  | pictures_no_length | pictures_bad => None
  end.

Definition POST (ids : nat -> string) (now : Z) (session : option Auth.Session)
    (body : option Body) (db : Database) : Response * Database :=
  match Auth.requireAuth (Auth.Resolves session) with
  | inl _ => (UNAUTHORIZED, db)
  | inr a =>
      match body with
      | None => (INTERNAL_ERROR "創建記錄失敗", db)
      | Some body =>
          match Auth.orNull (body_name body) with
          | None => (BAD_REQUEST "地點名稱為必填項", db)
          | Some name' =>
              match orNullText (body_description body),
                    orNullText (body_coordinate body),
                    picturesToCreate (body_pictures body) with
              | Some description', Some coordinate', Some pictures =>
                  let r := {| id := ids 0%nat; user_id := Auth.userId a; name := name';
                              description := description';
                              coordinate := coordinate';
                              Create_time := now |} in
                  let created := newPictures ids 1 (ids 0%nat) pictures in
                  (successResponse (record_ (Some {| record := r; pictures := created |})),
                   {| mapRecord := (mapRecord db ++ [r])%list;
                      mapRecordPicture := (mapRecordPicture db ++ created)%list |})
              | _, _, _ => (INTERNAL_ERROR "創建記錄失敗", db)
              end
          end
      end
  end.

(** The second half of [PUT], on the database after [update]: the database
    it leaves, with [false] when [pictures.map] or [createMany] throws,
    which is after [deleteMany]. *)
Definition replacePictures (ids : nat -> string) (id' : string) (pictures : Pictures)
    (db1 : Database) : Database * bool :=
  match pictures with
  | pictures_undefined => (db1, true)
  | pictures_falsy | pictures_no_length => (deleteMany id' db1, true)
  | pictures_strings l =>
      let db' := deleteMany id' db1 in
      (if (0 <? List.length l)%nat then createMany ids id' l db' else db', true)
  | pictures_bad => (deleteMany id' db1, false)
  end.

Definition PUT (ids : nat -> string) (session : option Auth.Session)
    (body : option Body) (db : Database) : Response * Database :=
  match Auth.requireAuth (Auth.Resolves session) with
  | inl _ => (UNAUTHORIZED, db)
  | inr a =>
      match body with
      | None => (INTERNAL_ERROR "更新記錄失敗", db)
      | Some body =>
          match Auth.orNull (body_id body) with
          | None => (BAD_REQUEST "記錄 ID 為必填項", db)
          | Some id' =>
              match Auth.orNull (body_name body) with
              | None => (BAD_REQUEST "地點名稱為必填項", db)
              | Some name' =>
                  match findUnique id' db with
                  | None => (NOT_FOUND "記錄", db)
                  | Some existingRecord =>
                      if negb (String.eqb (user_id existingRecord) (Auth.userId a))
                      then (FORBIDDEN, db)
                      else
                        match orNullText (body_description body),
                              orNullText (body_coordinate body) with
                        | Some description', Some coordinate' =>
                            let db1 := update id' name' description' coordinate' db in
                            let '(db2, done) :=
                              replacePictures ids id' (body_pictures body) db1 in
                            if done then
                              (successResponse
                                 (record_ (option_map (include db2) (findUnique id' db2))),
                               db2)
                            else (INTERNAL_ERROR "更新記錄失敗", db2)
                        | _, _ => (INTERNAL_ERROR "更新記錄失敗", db)
                        end
                  end
              end
          end
      end
  end.

(** [id] is [searchParams.get('id')]: a text, or [null]. *)
Definition DELETE (session : option Auth.Session) (id : option string)
    (db : Database) : Response * Database :=
  match Auth.requireAuth (Auth.Resolves session) with
  | inl _ => (UNAUTHORIZED, db)
  | inr a =>
      match Auth.orNull id with
      | None => (BAD_REQUEST "記錄 ID 為必填項", db)
      | Some id' =>
          match findUnique id' db with
          | None => (NOT_FOUND "記錄", db)
          | Some existingRecord =>
              if negb (String.eqb (user_id existingRecord) (Auth.userId a))
              then (FORBIDDEN, db)
              else (successResponse deleted, delete id' db)
          end
      end
  end.

End MapRecords.

(** * [src/unnamed/part_002]: the percentage with two decimals

    The same aggregation as in [mist-percentage], over the id that
    [getUserId] gives; the answer is
    [parseFloat(percentage.toFixed(2))]. *)

Module MistPercentage2.
Import JS GridUtils Prisma.

(** [parseFloat(((exploredCount / totalGridCount) * 100).toFixed(2))]. *)
Definition percentageOf (exploredCount totalGridCount : nat) : number :=
  parseFloat
    (toFixed 2
       (mul (div (MistPercentage.ofNat exploredCount) (MistPercentage.ofNat totalGridCount))
          MistPercentage.hundred)).

(** The handler from the point where [allGridIds] is known: the field
    [percentage] of the answer. *)
Definition coverage (allGridIds : list string) (userId : string) (t : Table) : number :=
  let totalGridCount := List.length allGridIds in
  if Nat.eqb totalGridCount 0 then MistPercentage.zero
  else
    let exploredFootprints := findMany userId t in
    let uniqueExploredGridIds := MistPercentage.exploredSet exploredFootprints in
    let exploredCount := size uniqueExploredGridIds in
    percentageOf exploredCount totalGridCount.

Definition GET (fuel : nat) (cache : Cache) (auth : Auth.Outcome) (t : Table)
    : option (number * Cache) :=
  match Auth.getUserId auth with
  | None => Some (MistPercentage.zero, cache)
  | Some userId =>
      match getAllTaiwanGridIds fuel cache with
      | None => None
      | Some (allGridIds, cache') => Some (coverage allGridIds userId t, cache')
      end
  end.

End MistPercentage2.

(** * [src/app/api/footprint/footprints/route.ts]

    The map records of the user in the format of a footprint; the database
    answers every query. *)

Module Footprints.

Record Item := {
  id : string;
  coordinate : option string;
  name : string;
  description : option string
}.

(** The field [footprints] of the answer, which is always a success. *)
Definition GET (auth : Auth.Outcome) (db : MapRecords.Database) : list Item :=
  match Auth.getUserId auth with
  | None => []
  | Some userId =>
      List.map
        (fun record =>
           {| id := MapRecords.id record;
              coordinate := MapRecords.coordinate record;
              name := MapRecords.name record;
              description := MapRecords.description record |})
        (MapRecords.findMany userId db)
  end.

End Footprints.
(** * The grid in integers

    Row [k] holds the cells whose lower-left latitude is [k * 0.009], column
    [j] those whose lower-left longitude is [j * 0.01].  The decimal texts of
    the two corners are built from the integers [9 * k] (thousandths) and [j]
    (hundredths), with no floating-point arithmetic. *)

Module Cells.
Import JS.

Definition zrange (lo : Z) (n : nat) : list Z :=
  List.map (fun i => lo + Z.of_nat i) (seq 0 n).

Definition latText (k : Z) : string := pointed 3 (Z.to_N (9 * k)).
Definition lonText (j : Z) : string := pointed 2 (Z.to_N j).

Definition cellId (k j : Z) : string := "grid_" ++ latText k ++ "_" ++ lonText j.

(** Rows 2388 to 2833 (latitudes 21.492 to 25.497), columns 11900 to 12249
    (longitudes 119.00 to 122.49), and the columns up to 12250 (122.50). *)
Definition rows : list Z := zrange 2388 446.
Definition cols : list Z := zrange 11900 350.
Definition colsInclusive : list Z := zrange 11900 351.

Definition rowMajor (rs cs : list Z) : list string :=
  flat_map (fun k => List.map (cellId k) cs) rs.

Definition allCells : list string := rowMajor rows cols.

(** The integer read from the digits of a text, its other characters
    skipped: the thousandths of a latitude text, the hundredths of a
    longitude text. *)
Definition digitsValue (s : string) : Z :=
  Z.of_N
    (fold_left
       (fun acc c => match digitValue c with Some d => (10 * acc + d)%N | None => acc end)
       (list_ascii_of_string s) 0%N).

(** Structural equality of numbers. *)
Definition number_eqb (x y : number) : bool :=
  match x, y with
  | S754_zero s1, S754_zero s2 => Bool.eqb s1 s2
  | S754_infinity s1, S754_infinity s2 => Bool.eqb s1 s2
  | S754_nan, S754_nan => true
  | S754_finite s1 m1 e1, S754_finite s2 m2 e2 =>
      Bool.eqb s1 s2 && (m1 =? m2)%positive && (e1 =? e2)
  | _, _ => false
  end.

(** The values a loop variable takes: from [x], adding [step] while [more]
    holds; with them the value on which the loop stops. *)
Fixpoint walk (fuel : nat) (more : number -> bool) (step x : number)
    : option (list number * number) :=
  match fuel with
  | O => None
  | S fuel =>
      if more x then
        match walk fuel more step (add x step) with
        | Some (l, last) => Some (x :: l, last)
        | None => None
        end
      else Some ([], x)
  end.

Definition texts (f : nat) (l : list number) : list string := List.map (toFixed f) l.

Fixpoint strings_eqb (l l' : list string) : bool :=
  match l, l' with
  | [], [] => true
  | s :: l, s' :: l' => String.eqb s s' && strings_eqb l l'
  | _, _ => false
  end.

End Cells.

(** The quantities [getVisibleGridIds] derives from a viewport. *)
Module Viewports.
Import JS GridUtils.

(** The viewport cut down to the bounds, as the four [Math.max] and
    [Math.min] of the code do. *)
Definition clamp (b : Viewport) : Viewport :=
  {| north := Math_min (north b) (maxLat TAIWAN_BOUNDS);
     south := Math_max (south b) (minLat TAIWAN_BOUNDS);
     east := Math_min (east b) (maxLon TAIWAN_BOUNDS);
     west := Math_max (west b) (minLon TAIWAN_BOUNDS) |}.

(** The latitude of the first row a viewport enumerates. *)
Definition firstRow (b : Viewport) : number :=
  mul (Math_floor (div (south (clamp b)) GRID_SIZE_LAT)) GRID_SIZE_LAT.

(** A viewport that contains the whole bounds. *)
Definition containsBounds (b : Viewport) : Prop :=
  le (south b) (minLat TAIWAN_BOUNDS) = true /\
  ge (north b) (maxLat TAIWAN_BOUNDS) = true /\
  le (west b) (minLon TAIWAN_BOUNDS) = true /\
  ge (east b) (maxLon TAIWAN_BOUNDS) = true.

End Viewports.


(** The aggregation of the footprints, record by record. *)
Module Explored.
Import JS GridUtils Prisma.

(** The two numbers read from a stored coordinate: [parseFloat] of the text
    before the first comma, and [parseFloat] of the text between the first
    and the second comma, [NaN] when there is no comma. *)
Definition parseCoordinate (c : string) : number * number :=
  match split "," c with
  | latStr :: lonStr :: _ => (parseFloat latStr, parseFloat lonStr)
  | latStr :: [] => (parseFloat latStr, NaN)
  | [] => (NaN, NaN)
  end.

(** The cell a record contributes, if any. *)
Definition cellOf (f : Footprint) : option string :=
  match coordinate f with
  | None => None
  | Some c =>
      if negb (truthy c) then None
      else
        let '(lat, lon) := parseCoordinate c in
        if isNaN lat || isNaN lon then None else coordinateToGridId lat lon
  end.

(** Every cell a coordinate inside the bounds can get: the rows of the full
    enumeration and its columns, with column 122.50 added. *)
Definition reachableCells : list string := Cells.rowMajor Cells.rows Cells.colsInclusive.

(** A record of the table, by its owner and its coordinate text. *)
Definition footprintAt (n : nat) (userId : string) (c : option string) : Footprint :=
  {| id := n; user_id := userId; coordinate := c; Create_time := None; Update_time := None |}.

(** The percentage of the code on integer counts, and the integer nearest
    to [100 * e / t], the larger one of two. *)
Definition percentageOfZ (e t : Z) : number :=
  Math_round (mul (div (ofZ e) (ofZ t)) MistPercentage.hundred).

Definition nearestPercent (e t : Z) : Z := (200 * e + t) / (2 * t).

End Explored.

(** Bounds on the percentage of all the counts of an interval, by interval
    arithmetic on mantissas. *)
Module Intervals.
Import JS Cells Explored.

(** Mantissa and exponent bounds of the rounding of any integer mantissa
    between [qlo] and [qhi] at exponent [ex]. *)
Definition roundRange (qlo qhi ex : Z) : option (Z * Z * Z) :=
  let d := Zdigits2 qlo in
  if (Zdigits2 qhi =? d) && (53 <=? d) && (0 <? qlo) then
    let sh := d - 53 in
    let plo := qlo / 2 ^ sh in
    let phi := qhi / 2 ^ sh + 1 in
    if (phi <? 2 ^ 53) && (-1074 <=? ex + sh) && (ex + sh <=? 971)
    then Some (plo, phi, ex + sh) else None
  else None.

(** The numbers 156100 and 100. *)
Definition mT : Z := 156100 * 2 ^ 35.
Definition eT : Z := -35.
Definition m100 : Z := 100 * 2 ^ 46.
Definition e100 : Z := -46.

Definition percentRange (a b : Z) : option Z :=
  let d := Zdigits2 a in
  if (0 <? a) && (a <=? b) && (Zdigits2 b =? d) && (d <? 53) then
    let mlo := a * 2 ^ (53 - d) in
    let mhi := b * 2 ^ (53 - d) in
    match roundRange (mlo * 2 ^ 53 / mT) (mhi * 2 ^ 53 / mT) (d - 53 - eT - 53) with
    | Some (plo, phi, e3) =>
        match roundRange (plo * m100) (phi * m100) (e3 + e100) with
        | Some (rlo, rhi, Zneg k) =>
            let nlo := (2 * rlo + 2 ^ Zpos k) / 2 ^ (Zpos k + 1) in
            let nhi := (2 * rhi + 2 ^ Zpos k) / 2 ^ (Zpos k + 1) in
            if nlo =? nhi then Some nlo else None
        | _ => None
        end
    | None => None
    end
  else None.

(** Intervals of counts, each with the percentage of all its counts.  An
    interval is settled by [percentRange], or, when it is a single count, by
    evaluating the expression at that count. *)
Definition settled (a b n : Z) : bool :=
  match percentRange a b with
  | Some n' => n' =? n
  | None => (a =? b) && number_eqb (percentageOfZ a 156100) (ofZ n)
  end.

Fixpoint coverCheck (a limit : Z) (l : list (Z * Z)) : bool :=
  match l with
  | [] => limit <? a
  | (b, n) :: l =>
      settled a b n
      && (nearestPercent a 156100 =? n) && (nearestPercent b 156100 =? n)
      && coverCheck (b + 1) limit l
  end.

(** The intervals are found by bisection: the interval that starts at [a]
    ends at the largest count up to which [percentRange] succeeds. *)
Fixpoint bisect (fuel : nat) (a lo hi n : Z) : Z * Z :=
  match fuel with
  | O => (lo, n)
  | S fuel =>
      if hi <=? lo + 1 then (lo, n)
      else
        let mid := (lo + hi) / 2 in
        match percentRange a mid with
        | Some n' => bisect fuel a mid hi n'
        | None => bisect fuel a lo mid n
        end
  end.

Definition intervalFrom (a limit : Z) : Z * Z :=
  match percentRange a limit with
  | Some n => (limit, n)
  | None =>
      match percentRange a a with
      | Some n => bisect 20 a a limit n
      | None => (a, nearestPercent a 156100)
      end
  end.

Fixpoint cover (fuel : nat) (a limit : Z) : list (Z * Z) :=
  match fuel with
  | O => []
  | S fuel =>
      if limit <? a then []
      else let '(b, n) := intervalFrom a limit in (b, n) :: cover fuel (b + 1) limit
  end.

(** The intervals that cover the counts 1 to 156546. *)
Definition percentageIntervals : list (Z * Z) := Eval vm_compute in cover 400 1 156546.

End Intervals.

(** * The scenarios of the properties

    The quantities and the example inputs that the statements below name. *)

Import JS GridUtils Cells Viewports Prisma MistPercentage Explored Intervals.

(** The first row and the first column of both enumerators over the whole
    bounds. *)
Definition startGridLat : number :=
  mul (Math_floor (div (minLat TAIWAN_BOUNDS) GRID_SIZE_LAT)) GRID_SIZE_LAT.
Definition startGridLon : number :=
  mul (Math_floor (div (minLon TAIWAN_BOUNDS) GRID_SIZE_LON)) GRID_SIZE_LON.

(** The rows and the columns of [getAllTaiwanGridIds], by evaluation: 446
    values of [currentLat] and 350 values of [currentLon], which print as
    the integer rows and columns. *)
Definition walkPrints (f : nat) (more : number -> bool) (step x : number)
    (expected : list string) : bool :=
  match walk 447 more step x with
  | Some (l, _) => strings_eqb (texts f l) expected
  | None => false
  end.

(** Four viewports: one south of the bounds that still touches the first
    row of cells; one whose north and east edges are the first row and the
    first column themselves; one far north of the bounds; one around the
    origin. *)
Definition viewportBelow : Viewport :=
  {| north := ofDecimal false 21495 (-3); south := ofDecimal false 21 0;
     east := ofDecimal false 120 0; west := ofDecimal false 120 0 |}.

Definition viewportOnEdges : Viewport :=
  {| north := startGridLat; south := ofDecimal false 21 0;
     east := startGridLon; west := ofDecimal false 118 0 |}.

Definition viewportNorth : Viewport :=
  {| north := ofDecimal false 31 0; south := ofDecimal false 30 0;
     east := ofDecimal false 121 0; west := ofDecimal false 120 0 |}.

Definition viewportOrigin : Viewport :=
  {| north := ofDecimal false 1 0; south := ofDecimal true 1 0;
     east := ofDecimal false 1 0; west := ofDecimal true 1 0 |}.

Definition viewportWorld : Viewport :=
  {| north := ofDecimal false 90 0; south := ofDecimal true 90 0;
     east := ofDecimal false 180 0; west := ofDecimal true 180 0 |}.

Definition dedupRecords : list Footprint :=
  [ footprintAt 1 "u" (Some "25.0330,121.5654"); footprintAt 2 "u" (Some "25.0335,121.5658") ].

Definition skippedRecords : list Footprint :=
  [ footprintAt 1 "u" None; footprintAt 2 "u" (Some "");
    footprintAt 3 "u" (Some "abc,def"); footprintAt 4 "u" (Some "25.0330");
    footprintAt 5 "u" (Some "25.0330,"); footprintAt 6 "u" (Some ",121.5654");
    footprintAt 7 "u" (Some "25.0330;121.5654"); footprintAt 8 "u" (Some "0,0");
    footprintAt 9 "u" (Some "25.0330,123.0"); footprintAt 10 "u" (Some "NaN,NaN");
    footprintAt 11 "u" (Some "Infinity,121.5654") ].

Definition fourCells : list string :=
  [ "grid_25.029_121.56"; "grid_25.029_121.57"; "grid_25.038_121.56"; "grid_25.038_121.57" ].

Definition threeCells : list string :=
  [ "grid_25.029_121.56"; "grid_25.029_121.57"; "grid_25.038_121.56" ].

Definition oneVisit : Table := [ footprintAt 1 "u" (Some "25.0330,121.5654") ].

Definition visitBody (lat lon : number) : Body :=
  {| body_lat := Some lat; body_lon := Some lon |}.

(** The text under which a visit is stored: [`${lat},${lon}`]. *)
Definition visitKey (lat lon : number) : string := toString lat ++ "," ++ toString lon.

Definition rawA : number * number :=
  (ofDecimal false 250330 (-4), ofDecimal false 1215654 (-4)).
Definition rawB : number * number :=
  (ofDecimal false 250335 (-4), ofDecimal false 1215658 (-4)).

(** The floor-and-format step of [coordinateToGridId], applied to a corner
    without the test of the bounds. *)
Definition reencode (c : Coord) : string :=
  gridName (mul (Math_floor (div (lat c) GRID_SIZE_LAT)) GRID_SIZE_LAT)
           (mul (Math_floor (div (lon c) GRID_SIZE_LON)) GRID_SIZE_LON).

Definition coordinate_25_0_119_075 : number * number :=
  (ofDecimal false 250 (-1), ofDecimal false 119075 (-3)).

Definition coordinate_25_499_121_0 : number * number :=
  (ofDecimal false 25499 (-3), ofDecimal false 1210 (-1)).

Definition noSeparator (sep : ascii) (s : string) : bool :=
  forallb (fun c => negb (c =? sep)%char) (list_ascii_of_string s).

(** The corner parsed from the text of a row or of a column, its centre,
    and what the code makes of them. *)
Definition rowCorner (k : Z) : number := parseFloat (latText k).
Definition colCorner (j : Z) : number := parseFloat (lonText j).
Definition rowCenter (k : Z) : number := add (rowCorner k) (div GRID_SIZE_LAT two).
Definition colCenter (j : Z) : number := add (colCorner j) (div GRID_SIZE_LON two).

Definition latAgain (x : number) : string :=
  toFixed 3 (mul (Math_floor (div x GRID_SIZE_LAT)) GRID_SIZE_LAT).
Definition lonAgain (x : number) : string :=
  toFixed 2 (mul (Math_floor (div x GRID_SIZE_LON)) GRID_SIZE_LON).

Definition latInside (x : number) : bool := ge x lit_21_5 && le x lit_25_5.
Definition lonInside (x : number) : bool := ge x lit_119_0 && le x lit_122_5.

(** The fourteen columns whose corner re-encodes as the column before. *)
Definition slippingCols : list Z :=
  [11907; 11932; 11957; 11982; 12007; 12032; 12057; 12082; 12107; 12132; 12157; 12182;
   12207; 12232].

Definition inList (x : Z) (l : list Z) : bool := existsb (Z.eqb x) l.

(** An operation of the binary64 arithmetic of the machine, on the numbers
    of the model. *)
Definition machine (op : PrimFloat.float -> PrimFloat.float -> PrimFloat.float)
    (x y : number) : number :=
  FloatOps.Prim2SF (op (FloatOps.SF2Prim x) (FloatOps.SF2Prim y)).


(** The cell of the claims: the true floor of [x / (num / den)] for a
    finite number [x], computed on integers, with the steps [9 / 1000] and
    [1 / 100]. *)
Definition exactFloor (num den : Z) (x : number) : option Z :=
  match x with
  | S754_zero _ => Some 0
  | S754_finite s m (Zneg p) => Some (cond_Zopp s (Zpos m) * den / (num * 2 ^ Zpos p))
  | S754_finite s m e => Some (cond_Zopp s (Zpos m) * 2 ^ e * den / num)
  | _ => None
  end.

Definition exactCell (lat lon : number) : option (Z * Z) :=
  match exactFloor 9 1000 lat, exactFloor 1 100 lon with
  | Some k, Some j => Some (k, j)
  | _, _ => None
  end.

(** Three latitudes around the corner 21.501 of row 2389: the number next
    below 21.501, which prints as 21.500999999999998; 21.5005, in the middle
    of row 2388; and 21.5015, in row 2389. *)
Definition latBelow21_501 : number := S754_finite false 6051993474255814 (-48).
Definition lat21_5005 : number := ofDecimal false 215005 (-4).
Definition lat21_5015 : number := ofDecimal false 215015 (-4).
(** * The scenarios of the further properties *)

(** The texts of a cell corner read back, the edges of the polygon of a cell
    and the centre between them, row by row and column by column. *)
Definition rowEdges (k : Z) : bool :=
  lt (rowCorner k) (rowCenter k)
  && lt (rowCenter k) (add (rowCorner k) GRID_SIZE_LAT)
  && le (rowCorner (k + 1)) (add (rowCorner k) GRID_SIZE_LAT).

Definition colEdges (j : Z) : bool :=
  lt (colCorner j) (colCenter j)
  && lt (colCenter j) (add (colCorner j) GRID_SIZE_LON)
  && le (colCorner (j + 1)) (add (colCorner j) GRID_SIZE_LON).

(** The ring of the cell in row [k] and column [j]. *)
Definition cellRing (k j : Z) : list (number * number) :=
  [ (colCorner j, rowCorner k);
    (colCorner j, add (rowCorner k) GRID_SIZE_LAT);
    (add (colCorner j) GRID_SIZE_LON, add (rowCorner k) GRID_SIZE_LAT);
    (add (colCorner j) GRID_SIZE_LON, rowCorner k);
    (colCorner j, rowCorner k) ].

(** The text of a centre as [explore-grid] stores it reads back as the
    centre. *)
Definition readsBack (x : number) : bool :=
  noSeparator "," (toString x) && number_eqb (parseFloat (toString x)) x.

(** The coordinate text that [explore-grid] stores for the cell in row [k]
    and column [j]: the text of its centre. *)
Definition centreKey (k j : Z) : string :=
  toString (rowCenter k) ++ "," ++ toString (colCenter j).

(** The cells whose centre is outside the bounds: the first row, the last
    row and the last column. *)
Definition edgeCell (k j : Z) : bool := (k =? 2388) || (k =? 2833) || (j =? 12250).

(** The row that [explore-grid] creates. *)
Definition centreRow (t : Table) (userId : string) (k j : Z) : Footprint :=
  {| id := freshId t; user_id := userId; coordinate := Some (centreKey k j);
     Create_time := None; Update_time := None |}.

(** A signed-in session of a user with an e-mail address. *)
Definition signedIn (userId : string) : Auth.Outcome :=
  Auth.Resolves
    (Some {| Auth.user :=
               Some {| Auth.id := Some userId; Auth.email := Some "u@example.org";
                       Auth.name := None; Auth.UserName := None |} |}).

(** Three dated visits of one user: two in one cell, the later one first,
    and one in another cell. *)
Definition datedVisits : Table :=
  [ {| id := 1; user_id := "u"; coordinate := Some "25.0330,121.5654";
       Create_time := Some 2000; Update_time := None |};
    {| id := 2; user_id := "u"; coordinate := Some "25.0335,121.5658";
       Create_time := Some 1000; Update_time := None |};
    {| id := 3; user_id := "u"; coordinate := Some "23.5,120.5";
       Create_time := Some 3000; Update_time := None |} ].

(** The ids that [gridIdToCoordinate] decodes. *)
Definition decodes (gridId : string) : bool :=
  match gridIdToCoordinate gridId with Some _ => true | None => false end.

(** Coordinates for which [getLocationNameByCoordinates] returns the names
    of its table, the seventh excepted, in the order of the table. *)
Definition weatherSamples : list (string * string) :=
  [ ("25.0", "121.5"); ("25.0", "121.9"); ("24.9", "121.1"); ("24.2", "120.8");
    ("23.1", "120.2"); ("22.7", "120.3"); ("24.8", "120.95"); ("24.5", "121.25");
    ("24.6", "120.7"); ("23.9", "120.4"); ("23.7", "121.0"); ("23.7", "120.3");
    ("23.45", "120.45"); ("23.3", "120.55"); ("22.2", "120.5"); ("24.5", "121.7");
    ("23.8", "121.5"); ("22.8", "121.0"); ("23.5", "119.5"); ("24.4", "118.3");
    ("26.1", "119.9") ].

(** What the map holds once the records [P] are processed: no key twice; a
    key for every cell of a record; and under each key the coordinate text
    and the time of a record of that cell than which none is later. *)
Definition holds (m : ExploredGrids.GridMap) (P : list Footprint) : Prop :=
  List.NoDup (List.map fst m)
  /\ forall g,
       match ExploredGrids.Map_get g m with
       | None => forall f, In f P -> cellOf f <> Some g
       | Some e =>
           (exists f, In f P /\ cellOf f = Some g
                      /\ Prisma.coordinate f = Some (ExploredGrids.coordinate e)
                      /\ Create_time f = Some (ExploredGrids.exploredAt e))
           /\ forall f t, In f P -> cellOf f = Some g -> Create_time f = Some t ->
                          t <= ExploredGrids.exploredAt e
       end.


(** ** Decimal digits: auxiliary definitions of the round-trip proofs *)

(** The number that a list of decimal digits denotes, read after [acc], and
    the same for the characters of digits. *)
Fixpoint accDigits (d : uint) (acc : N) : N :=
  match d with
  | Nil => acc
  | D0 d => accDigits d (10 * acc)%N
  | D1 d => accDigits d (10 * acc + 1)%N
  | D2 d => accDigits d (10 * acc + 2)%N
  | D3 d => accDigits d (10 * acc + 3)%N
  | D4 d => accDigits d (10 * acc + 4)%N
  | D5 d => accDigits d (10 * acc + 5)%N
  | D6 d => accDigits d (10 * acc + 6)%N
  | D7 d => accDigits d (10 * acc + 7)%N
  | D8 d => accDigits d (10 * acc + 8)%N
  | D9 d => accDigits d (10 * acc + 9)%N
  end.

Definition isDigit (c : ascii) : bool :=
  match digitValue c with Some _ => true | None => false end.

Definition scanAll (l : list ascii) (acc : N) : N :=
  fold_left (fun a c => match digitValue c with Some d => 10 * a + d | None => a end)%N l acc.

(** The locations that leave a mantissa as it is. *)
Definition round_nearest_even_below (l : location) : bool :=
  match l with
  | loc_Exact | loc_Inexact Lt => true
  | _ => false
  end.

(** ** [map-records] *)

(** Two states of the database in which a user has the same records, with
    the same pictures. *)
Definition sameView (userId : string) (db db' : MapRecords.Database) : Prop :=
  List.filter (fun r => String.eqb (MapRecords.user_id r) userId) (MapRecords.mapRecord db')
  = List.filter (fun r => String.eqb (MapRecords.user_id r) userId) (MapRecords.mapRecord db)
  /\ forall r, In r (MapRecords.mapRecord db) -> MapRecords.user_id r = userId ->
               MapRecords.picturesOf db' (MapRecords.id r)
               = MapRecords.picturesOf db (MapRecords.id r).

(** The primary key of the table: no two records have the same id. *)
Definition uniqueIds (db : MapRecords.Database) : Prop :=
  List.NoDup (List.map MapRecords.id (MapRecords.mapRecord db)).

(** [ORDER BY Create_time DESC]. *)
Fixpoint sortedDesc (l : list MapRecords.MapRecord) : Prop :=
  match l with
  | [] => True
  | x :: l' =>
      List.Forall (fun y => MapRecords.Create_time y <= MapRecords.Create_time x) l'
      /\ sortedDesc l'
  end.

(** The records that a [GET] lists, when it lists some. *)
Definition listed (r : MapRecords.Response) : list MapRecords.Formatted :=
  match r with
  | MapRecords.successResponse (MapRecords.records l) => l
  | _ => []
  end.

(** A session of a user with an e-mail address, and a database with one
    record of ["alice"], with a picture, and one of ["bob"]. *)
Definition sessionOf (userId : string) : option Auth.Session :=
  Some {| Auth.user :=
            Some {| Auth.id := Some userId; Auth.email := Some "u@example.org";
                    Auth.name := None; Auth.UserName := None |} |}.

Definition twoUsers : MapRecords.Database :=
  {| MapRecords.mapRecord :=
       [ {| MapRecords.id := "r1"; MapRecords.user_id := "alice";
            MapRecords.name := "Jiufen"; MapRecords.description := None;
            MapRecords.coordinate := Some "25.1090,121.8443";
            MapRecords.Create_time := 1000 |};
         {| MapRecords.id := "r2"; MapRecords.user_id := "bob";
            MapRecords.name := "Tamsui"; MapRecords.description := Some "sunset";
            MapRecords.coordinate := None; MapRecords.Create_time := 2000 |} ];
     MapRecords.mapRecordPicture :=
       [ {| MapRecords.pic_id := "p1"; MapRecords.record_id := "r1";
            MapRecords.picture := "a.jpg" |} ] |}.

Definition newIds (n : nat) : string :=
  match n with
  | O => "r3"
  | 1%nat => "p2"
  | _ => "p3"
  end.

Definition renameR1 : MapRecords.Body :=
  {| MapRecords.body_id := Some "r1"; MapRecords.body_name := Some "Jiufen Old Street";
     MapRecords.body_description := MapRecords.text_string "";
     MapRecords.body_coordinate := MapRecords.text_falsy;
     MapRecords.body_pictures := MapRecords.pictures_strings ["b.jpg"; "c.jpg"] |}.

(** The same request with [pictures: null], and with [pictures: "a.jpg"]. *)
Definition renameR1_null : MapRecords.Body :=
  {| MapRecords.body_id := Some "r1"; MapRecords.body_name := Some "Jiufen Old Street";
     MapRecords.body_description := MapRecords.text_string "";
     MapRecords.body_coordinate := MapRecords.text_falsy;
     MapRecords.body_pictures := MapRecords.pictures_falsy |}.

Definition renameR1_text : MapRecords.Body :=
  {| MapRecords.body_id := Some "r1"; MapRecords.body_name := Some "Jiufen Old Street";
     MapRecords.body_description := MapRecords.text_string "";
     MapRecords.body_coordinate := MapRecords.text_falsy;
     MapRecords.body_pictures := MapRecords.pictures_bad |}.

(** What a [PUT] does to the pictures of a record, by the field [pictures]
    of its body: the pictures (their texts) that the record has afterwards
    when the request succeeds. *)
Definition picturesAfter (pictures : MapRecords.Pictures) (had : list string)
    : list string :=
  match pictures with
  | MapRecords.pictures_undefined => had
  | MapRecords.pictures_strings l => l
  | _ => []
  end.

(** ** The percentage with two decimals *)

(** The expression of [part_002] on integers, and the hundredth nearest to
    the exact percentage. *)
Definition percentage2OfZ (e t : Z) : number :=
  parseFloat (toFixed 2 (mul (div (ofZ e) (ofZ t)) MistPercentage.hundred)).

Definition nearestHundredth (e t : Z) : Z := (20000 * e + t) / (2 * t).

(** The number that the decimal literal with two decimals of [n] hundredths
    denotes. *)
Definition hundredths (n : Z) : number := ofDecimal false (Z.to_N n) (-2).

(** Bounds on the mantissa of [(e / 156100) * 100] for all the counts [e] of
    an interval, with the exponent, by interval arithmetic on mantissas. *)
Definition productRange (a b : Z) : option (Z * Z * positive) :=
  let d := Zdigits2 a in
  if (0 <? a) && (a <=? b) && (Zdigits2 b =? d) && (d <? 53) then
    let mlo := a * 2 ^ (53 - d) in
    let mhi := b * 2 ^ (53 - d) in
    match roundRange (mlo * 2 ^ 53 / mT) (mhi * 2 ^ 53 / mT) (d - 53 - eT - 53) with
    | Some (plo, phi, e3) =>
        match roundRange (plo * m100) (phi * m100) (e3 + e100) with
        | Some (rlo, rhi, Zneg k) => Some (rlo, rhi, k)
        | _ => None
        end
    | None => None
    end
  else None.

Definition fixedRange (a b : Z) : option Z :=
  match productRange a b with
  | Some (rlo, rhi, k) =>
      let nlo := nearestScaled 2 (Z.to_pos rlo) (Zneg k) in
      let nhi := nearestScaled 2 (Z.to_pos rhi) (Zneg k) in
      if (nlo =? nhi) && (0 <? rlo) && (rhi <? 10 ^ 21) then Some nlo else None
  | None => None
  end.

Definition settled2 (a b n : Z) : bool :=
  match fixedRange a b with
  | Some n' => n' =? n
  | None => (a =? b) && number_eqb (percentage2OfZ a 156100) (hundredths n)
  end.

Fixpoint coverCheck2 (a limit : Z) (l : list (Z * Z)) : bool :=
  match l with
  | [] => limit <? a
  | (b, n) :: l =>
      settled2 a b n
      && (nearestHundredth a 156100 =? n) && (nearestHundredth b 156100 =? n)
      && coverCheck2 (b + 1) limit l
  end.

Fixpoint bisect2 (fuel : nat) (a lo hi n : Z) : Z * Z :=
  match fuel with
  | O => (lo, n)
  | S fuel =>
      if hi <=? lo + 1 then (lo, n)
      else
        let mid := (lo + hi) / 2 in
        match fixedRange a mid with
        | Some n' => bisect2 fuel a mid hi n'
        | None => bisect2 fuel a lo mid n
        end
  end.

(** The interval that starts at [a] ends at the last count that has the
    hundredth of [a], when [fixedRange] settles that interval, and at the
    largest count up to which it succeeds otherwise. *)
Definition intervalFrom2 (a limit : Z) : Z * Z :=
  let n := nearestHundredth a 156100 in
  let b := Z.min limit ((2 * 156100 * n + 156100 - 1) / 20000) in
  match fixedRange a b with
  | Some n' => (b, n')
  | None =>
      match fixedRange a a with
      | Some n' => bisect2 20 a a b n'
      | None => (a, n)
      end
  end.

Fixpoint cover2 (fuel : nat) (a limit : Z) : list (Z * Z) :=
  match fuel with
  | O => []
  | S fuel =>
      if limit <? a then []
      else let '(b, n) := intervalFrom2 a limit in (b, n) :: cover2 fuel (b + 1) limit
  end.

(** The intervals that cover the counts 1 to 156546. *)
Definition fixedIntervals : list (Z * Z) := Eval vm_compute in cover2 (120 * 100) 1 156546.

(** A record of [map-records] GET, as [footprints] GET shows it. *)
Definition asFootprint (f : MapRecords.Formatted) : Footprints.Item :=
  {| Footprints.id := MapRecords.formatted_id f;
     Footprints.coordinate := MapRecords.formatted_coordinate f;
     Footprints.name := MapRecords.formatted_name f;
     Footprints.description := MapRecords.formatted_description f |}.

(** The table after [mist-percentage] has stored the two raw coordinates. *)
Definition twoVisits : Table :=
  [ footprintAt 1 "u" (Some "25.033,121.5654"); footprintAt 2 "u" (Some "25.0335,121.5658") ].

(** ** Coordinate texts *)

(** What [parseFloat] needs at the front of a text, after the white space
    and a sign, to read a number: [Infinity], a digit, or a point followed
    by a digit. *)
Definition startsNumber (s : list ascii) : bool :=
  isPrefix (list_ascii_of_string "Infinity") s
  || match s with
     | c :: s' =>
         isDigit c
         || ((c =? ".")%char && match s' with d :: _ => isDigit d | [] => false end)
     | [] => false
     end.

Definition readsNumber (str : string) : bool :=
  match trimStart (list_ascii_of_string str) with
  | "-"%char :: s => startsNumber s
  | "+"%char :: s => startsNumber s
  | s => startsNumber s
  end.

(** A decimal number, as a text: an optional sign, then digits, with at
    most one point among them, and nothing else. *)
Definition decimalNumber (str : string) : bool :=
  let unsigned :=
    match list_ascii_of_string str with
    | "-"%char :: s => s
    | "+"%char :: s => s
    | s => s
    end in
  match split "." (string_of_list_ascii unsigned) with
  | [ip] =>
      forallb isDigit (list_ascii_of_string ip) && negb (String.eqb ip "")
  | [ip; fp] =>
      forallb isDigit (list_ascii_of_string ip)
      && forallb isDigit (list_ascii_of_string fp)
      && negb (String.eqb (ip ++ fp) "")
  | _ => false
  end.

(** Two decimal numbers joined by a comma. *)
Definition decimalPair (c : string) : bool :=
  match split "," c with
  | [latStr; lonStr] => decimalNumber latStr && decimalNumber lonStr
  | _ => false
  end.

(** ** The values of the loop variables of [getVisibleGridIds] *)

(** The mantissa of the exact product [k * 0.009] at the exponent of a
    latitude, and of [j * 0.01] at the exponent of a longitude, rounded
    down: the step [0.009] is [5188146770730811 * 2^-59], the step [0.01]
    is [5764607523034235 * 2^-59], a latitude of the region has exponent
    [-48] and a longitude exponent [-46]. *)
Definition rowMantissa (k : Z) : Z := k * 5188146770730811 / 2 ^ 11.
Definition colMantissa (j : Z) : Z := j * 5764607523034235 / 2 ^ 13.

(** The mantissa of a product is the one above, up to one unit. *)
Definition startsNear (center : Z -> Z) (e : Z) (step : number) (k : Z) : bool :=
  match mul (ofZ k) step with
  | S754_finite false m e' =>
      (e' =? e) && (center k - 1 <=? Zpos m) && (Zpos m <=? center k + 1)
  | _ => false
  end.

(** The two ends of the window of 450 units around the mantissa print as
    row or column [k]. *)
Definition printsAround (f : nat) (center value : Z -> Z) (e : Z) (k : Z) : bool :=
  (0 <? center k - 450)
  && (nearestScaled f (Z.to_pos (center k - 450)) e =? value k)
  && (nearestScaled f (Z.to_pos (center k + 450)) e =? value k).

(** The longitude of the first column a viewport enumerates. *)
Definition firstCol (b : Viewport) : number :=
  mul (Math_floor (div (west (clamp b)) GRID_SIZE_LON)) GRID_SIZE_LON.

(** One cell beyond the bounds: the literals [25.506] and [122.51]. *)
Definition lit_25_506 : number := Eval vm_compute in ofDecimal false 25506 (-3).
Definition lit_122_51 : number := Eval vm_compute in ofDecimal false 12251 (-2).

(** Viewports outside the bounds, less than a cell away from their north
    side and from their east side; one west of the bounds; and two whose
    east edge is the corner of a column: 121.58, and 122.5, the edge of the
    bounds. *)
Definition viewportNorthSide : Viewport :=
  {| north := ofDecimal false 256 (-1); south := ofDecimal false 25501 (-3);
     east := ofDecimal false 12101 (-2); west := ofDecimal false 121 0 |}.

Definition viewportEastSide : Viewport :=
  {| north := ofDecimal false 25005 (-3); south := ofDecimal false 25 0;
     east := ofDecimal false 123 0; west := ofDecimal false 122505 (-3) |}.

Definition viewportWestSide : Viewport :=
  {| north := ofDecimal false 25005 (-3); south := ofDecimal false 25 0;
     east := ofDecimal false 118999 (-3); west := ofDecimal false 118 0 |}.

Definition viewportTaipei : Viewport :=
  {| north := ofDecimal false 2504 (-2); south := ofDecimal false 2503 (-2);
     east := ofDecimal false 12158 (-2); west := ofDecimal false 12156 (-2) |}.

Definition viewportEastEdge : Viewport :=
  {| north := ofDecimal false 2504 (-2); south := ofDecimal false 2503 (-2);
     east := ofDecimal false 1225 (-1); west := ofDecimal false 12248 (-2) |}.

(** The [i]-th value of a loop variable that starts on the mantissa [m0] at
    the exponent [e]: every round adds [A] or [A + 1] to the mantissa, and
    the loop goes on up to the mantissa [Mmax]. *)
Definition inWindow (e A Mmax m0 : Z) (i : nat) (x : number) : Prop :=
  exists m, x = S754_finite false m e
            /\ m0 + Z.of_nat i * A <= Zpos m <= m0 + Z.of_nat i * (A + 1)
            /\ Zpos m <= Mmax.
(** * Properties *)

(** ** Binary64 division of two normal numbers *)

Section Digits.

Lemma digits2_pos_size (m : positive) : digits2_pos m = Pos.size m.
Proof. induction m; simpl; congruence. Qed.

Lemma digits2_pos_bounds (m d : positive) :
  2 ^ (Zpos d - 1) <= Zpos m < 2 ^ Zpos d -> digits2_pos m = d.
Proof.
  intros [Hlo Hhi]. rewrite digits2_pos_size.
  pose proof (Pos.size_gt m) as Hgt. pose proof (Pos.size_le m) as Hle.
  apply Pos2Z.pos_lt_pos in Hgt. apply Pos2Z.pos_le_pos in Hle.
  rewrite Pos2Z.inj_pow in Hgt, Hle.
  change (Z.pos m~0) with (2 * Z.pos m) in Hle. change (Z.pos 2) with 2 in Hle.
  assert (Zpos (Pos.size m) < Zpos d + 1).
  { apply (Z.pow_lt_mono_r_iff 2); try lia.
    replace (Zpos d + 1) with (Z.succ (Zpos d)) by lia.
    rewrite Z.pow_succ_r by lia. lia. }
  assert (Zpos d - 1 < Zpos (Pos.size m)).
  { apply (Z.pow_lt_mono_r_iff 2); lia. }
  lia.
Qed.

Lemma div_eucl_div_mod (a b : Z) : Z.div_eucl a b = (a / b, a mod b).
Proof. unfold Z.div, Z.modulo. destruct (Z.div_eucl a b); reflexivity. Qed.

Lemma pos_xO_half (p : positive) : Zpos p~0 / 2 = Zpos p.
Proof. rewrite Pos2Z.inj_xO, Z.mul_comm. apply Z.div_mul. lia. Qed.

Lemma pos_xI_half (p : positive) : Zpos p~1 / 2 = Zpos p.
Proof. rewrite Pos2Z.inj_xI. symmetry. apply (Z.div_unique _ 2 _ 1); lia. Qed.

(** One right shift followed by rounding to nearest even: the result is the
    half of the mantissa or its successor. *)
Lemma round_shr_1 (qp : positive) (loc : location) :
  2 <= Zpos qp ->
  exists p,
    round_nearest_even (shr_m (shr_1 (shr_record_of_loc (Zpos qp) loc)))
      (loc_of_shr_record (shr_1 (shr_record_of_loc (Zpos qp) loc))) = Zpos p
    /\ Zpos qp / 2 <= Zpos p <= Zpos qp / 2 + 1.
Proof.
  intros H. destruct qp as [p|p|]; [ rewrite pos_xI_half | rewrite pos_xO_half | lia ];
    destruct loc as [|[]]; simpl;
    try (exists p; split; [reflexivity|lia]);
    try (exists (p + 1)%positive; split; [reflexivity|lia]);
    destruct p; simpl;
    try (eexists; split; [reflexivity|lia]).
Qed.

End Digits.

Section Quotient.

Variables (m mc : positive) (e1 e2 : Z).
Hypothesis Hm : digits2_pos m = 53%positive.
Hypothesis Hmc : digits2_pos mc = 53%positive.
Let q := Z.shiftl (Zpos m) 53 / Zpos mc.
Hypothesis Hq : 2 ^ 53 <= q.
Hypothesis Hq' : q / 2 + 1 < 2 ^ 53.
Hypothesis He : -1074 <= e1 - e2 - 53 /\ e1 - e2 - 52 <= 971.

(** The quotient of two positive normal numbers whose mantissas are in the
    ratio [1 <= m / mc < 2]: its exponent is [e1 - e2 - 52] and its mantissa
    is the half of the 54-bit integer quotient [q], or the successor of that
    half. *)
Lemma div_normal :
  exists p, JS.div (S754_finite false m e1) (S754_finite false mc e2)
            = S754_finite false p (e1 - e2 - 52)
         /\ q / 2 <= Zpos p <= q / 2 + 1.
Proof.
  unfold JS.div, SFdiv, SFdiv_core_binary. cbn [Zdigits2]. rewrite Hm, Hmc.
  replace (Z.min _ _) with (e1 - e2 - 53).
  2:{ unfold fexp, SpecFloat.emin, JS.emax, JS.prec. lia. }
  replace (e1 - e2 - (e1 - e2 - 53)) with 53 by lia.
  cbv iota. rewrite div_eucl_div_mod. fold q.
  destruct q as [|qp|qp] eqn:Eq; try lia.
  assert (Hd : digits2_pos qp = 54%positive).
  { apply digits2_pos_bounds. change (2 ^ (54 - 1)) with (2 ^ 53). split; [lia|].
    change (2 ^ 54) with (2 * 2 ^ 53).
    pose proof (Z.div_mod (Zpos qp) 2). pose proof (Z.mod_pos_bound (Zpos qp) 2). lia. }
  unfold binary_round_aux, shr_fexp. cbn [Zdigits2]. rewrite Hd.
  replace (fexp JS.prec JS.emax (54 + (e1 - e2 - 53)) - (e1 - e2 - 53)) with 1.
  2:{ unfold fexp, SpecFloat.emin, JS.emax, JS.prec. lia. }
  set (loc := new_location _ _).
  unfold shr. cbn [SpecFloat.iter_pos].
  destruct (round_shr_1 qp loc) as (p & -> & Hp); [lia|].
  exists p. split; [|exact Hp].
  assert (Hdp : digits2_pos p = 53%positive).
  { apply digits2_pos_bounds. change (2 ^ (53 - 1)) with (2 ^ 52).
    assert (2 ^ 52 <= Zpos qp / 2).
    { apply Z.div_le_lower_bound; [lia|]. change (2 * 2 ^ 52) with (2 ^ 53). lia. }
    lia. }
  cbn [Zdigits2]. rewrite Hdp.
  replace (fexp JS.prec JS.emax (53 + (e1 - e2 - 53 + 1)) - (e1 - e2 - 53 + 1)) with 0.
  2:{ unfold fexp, SpecFloat.emin, JS.emax, JS.prec. lia. }
  cbn [shr_record_of_loc shr_m xorb].
  replace (e1 - e2 - 53 + 1 <=? JS.emax - JS.prec) with true.
  2:{ symmetry. apply Z.leb_le. unfold JS.emax, JS.prec. lia. }
  f_equal. lia.
Qed.

End Quotient.

(** ** The cell of a coordinate inside the bounds *)

Lemma between_same_exponent (x : JS.number) (mlo mhi : positive) (e : Z) :
  JS.ge x (S754_finite false mlo e) = true ->
  JS.le x (S754_finite false mhi e) = true ->
  exists m, x = S754_finite false m e /\ Zpos mlo <= Zpos m <= Zpos mhi.
Proof.
  unfold JS.ge, JS.le, SFleb, SFcompare.
  destruct x as [s|s| |s m e']; try destruct s; try discriminate.
  destruct (Z.compare_spec e e'), (Z.compare_spec e' e); try discriminate; try lia.
  subst e'. fold (Pos.compare mlo m). fold (Pos.compare m mhi).
  destruct (Pos.compare_spec mlo m), (Pos.compare_spec m mhi); try discriminate;
    intros _ _; exists m; (split; [reflexivity|lia]).
Qed.

Section FloorOfQuotient.

Variables (mlo mhi mc : positive) (e1 e2 : Z) (sh : positive).
Hypothesis Hlo : 2 ^ 52 <= Zpos mlo.
Hypothesis Hhi : Zpos mhi < 2 ^ 53.
Hypothesis Hmc : digits2_pos mc = 53%positive.
Hypothesis Hle : Zpos mc <= Zpos mlo.
Hypothesis Hq' : (Zpos mhi * 2 ^ 53 / Zpos mc) / 2 + 1 < 2 ^ 53.
Hypothesis He : -1074 <= e1 - e2 - 53 /\ e1 - e2 - 52 <= 971.
Hypothesis Hsh : e1 - e2 - 52 = Zneg sh.
Variables klo khi : Z.
Hypothesis Hklo : klo <= (Zpos mlo * 2 ^ 53 / Zpos mc) / 2 / 2 ^ Zpos sh.
Hypothesis Hkhi : ((Zpos mhi * 2 ^ 53 / Zpos mc) / 2 + 1) / 2 ^ Zpos sh <= khi.
Hypothesis Hk : 0 < klo.

(** Every dividend between two numbers of one binade has its quotient in one
    binade, and the floor of the quotient between the floors at the ends. *)
Lemma floor_div_range (m : positive) :
  Zpos mlo <= Zpos m <= Zpos mhi ->
  exists p k,
    JS.div (S754_finite false m e1) (S754_finite false mc e2) = S754_finite false p (Zneg sh)
    /\ k = Zpos p / 2 ^ Zpos sh
    /\ klo <= k <= khi
    /\ JS.Math_floor (JS.div (S754_finite false m e1) (S754_finite false mc e2)) = JS.ofZ k.
Proof.
  intros Hm.
  assert (Hqlo : Zpos mlo * 2 ^ 53 / Zpos mc <= Z.shiftl (Zpos m) 53 / Zpos mc).
  { rewrite Z.shiftl_mul_pow2 by lia. apply Z.div_le_mono; [lia|].
    apply Z.mul_le_mono_nonneg_r; lia. }
  assert (Hqhi : Z.shiftl (Zpos m) 53 / Zpos mc <= Zpos mhi * 2 ^ 53 / Zpos mc).
  { rewrite Z.shiftl_mul_pow2 by lia. apply Z.div_le_mono; [lia|].
    apply Z.mul_le_mono_nonneg_r; lia. }
  destruct (div_normal m mc e1 e2) as (p & Hdiv & Hp).
  - apply digits2_pos_bounds. change (2 ^ (53 - 1)) with (2 ^ 52). lia.
  - exact Hmc.
  - etransitivity; [|exact Hqlo]. apply Z.div_le_lower_bound; [lia|].
    apply Z.mul_le_mono_nonneg_r; lia.
  - pose proof (Z.div_le_mono _ _ 2 ltac:(lia) Hqhi). lia.
  - exact He.
  - rewrite Hsh in Hdiv. rewrite Hdiv. unfold JS.Math_floor, JS.floorZ, cond_Zopp.
    pose proof (Z.div_le_mono _ _ 2 ltac:(lia) Hqlo) as H1.
    pose proof (Z.div_le_mono _ _ 2 ltac:(lia) Hqhi) as H2.
    assert (Hk1 : (Zpos mlo * 2 ^ 53 / Zpos mc) / 2 / 2 ^ Zpos sh <= Zpos p / 2 ^ Zpos sh).
    { apply Z.div_le_mono; [apply Z.pow_pos_nonneg; lia|lia]. }
    assert (Hk2 : Zpos p / 2 ^ Zpos sh
                  <= ((Zpos mhi * 2 ^ 53 / Zpos mc) / 2 + 1) / 2 ^ Zpos sh).
    { apply Z.div_le_mono; [apply Z.pow_pos_nonneg; lia|lia]. }
    exists p, (Zpos p / 2 ^ Zpos sh). repeat split; try lia.
    destruct (Z.eqb_spec (Zpos p / 2 ^ Zpos sh) 0); [lia|reflexivity].
Qed.

End FloorOfQuotient.

Ltac closed_arith := first [ reflexivity | vm_compute; congruence | lia ].

Import JS GridUtils Cells.

Lemma lat_cell (lat : number) :
  ge lat lit_21_5 = true -> le lat lit_25_5 = true ->
  exists p k,
    div lat GRID_SIZE_LAT = S754_finite false p (-41)
    /\ k = Zpos p / 2 ^ 41
    /\ 2388 <= k <= 2833
    /\ Math_floor (div lat GRID_SIZE_LAT) = ofZ k.
Proof.
  intros H1 H2. destruct (between_same_exponent _ _ _ _ H1 H2) as (m & -> & Hm).
  apply (floor_div_range 6051711999279104 7177611906121728 5188146770730811 (-48) (-59) 41);
    [ closed_arith .. | exact Hm ].
Qed.

Lemma lon_cell (lon : number) :
  ge lon lit_119_0 = true -> le lon lit_122_5 = true ->
  exists p k,
    div lon GRID_SIZE_LON = S754_finite false p (-39)
    /\ k = Zpos p / 2 ^ 39
    /\ 11900 <= k <= 12250
    /\ Math_floor (div lon GRID_SIZE_LON) = ofZ k.
Proof.
  intros H1 H2. destruct (between_same_exponent _ _ _ _ H1 H2) as (m & -> & Hm).
  assert (Hc : Zpos m = 8373880557142016 \/ 8373880557142017 <= Zpos m) by lia.
  destruct Hc as [Hc|Hc].
  - injection Hc as ->. eexists _, 11900. repeat split; try lia; vm_compute; reflexivity.
  - apply (floor_div_range 8373880557142017 8620171161763840 5764607523034235 (-46) (-59) 39);
      [ closed_arith .. | lia ].
Qed.

Lemma isInTaiwanBounds_true (lat lon : number) :
  isInTaiwanBounds lat lon = true <->
  ge lat lit_21_5 = true /\ le lat lit_25_5 = true /\
  ge lon lit_119_0 = true /\ le lon lit_122_5 = true.
Proof.
  unfold isInTaiwanBounds. cbn [minLat maxLat minLon maxLon TAIWAN_BOUNDS].
  rewrite !andb_true_iff. tauto.
Qed.

Lemma zrange_In (lo : Z) (n : nat) (k : Z) :
  In k (zrange lo n) <-> lo <= k < lo + Z.of_nat n.
Proof.
  unfold zrange. rewrite in_map_iff. split.
  - intros (i & <- & Hi). apply in_seq in Hi. lia.
  - intros H. exists (Z.to_nat (k - lo)). split; [lia|]. apply in_seq. lia.
Qed.

(** The corner texts, checked on every row and every column: formatting the
    product computed by the code gives the decimal text of [9 * k]
    thousandths, respectively of [j] hundredths, and the index can be read
    back from the text. *)
Lemma latText_table :
  forallb (fun k => String.eqb (toFixed 3 (mul (ofZ k) GRID_SIZE_LAT)) (latText k)
                    && (digitsValue (latText k) =? 9 * k)
                    && Nat.eqb (String.length (latText k)) 6) rows = true.
Proof. vm_compute. reflexivity. Qed.

Lemma lonText_table :
  forallb (fun j => String.eqb (toFixed 2 (mul (ofZ j) GRID_SIZE_LON)) (lonText j)
                    && (digitsValue (lonText j) =? j)
                    && Nat.eqb (String.length (lonText j)) 6) colsInclusive = true.
Proof. vm_compute. reflexivity. Qed.

Lemma latText_row (k : Z) :
  2388 <= k <= 2833 ->
  toFixed 3 (mul (ofZ k) GRID_SIZE_LAT) = latText k
  /\ digitsValue (latText k) = 9 * k
  /\ String.length (latText k) = 6%nat.
Proof.
  intros Hk. pose proof latText_table as T. rewrite forallb_forall in T.
  specialize (T k). rewrite !andb_true_iff in T.
  destruct T as [[T1 T2] T3]; [apply zrange_In; lia|].
  apply String.eqb_eq in T1. apply Z.eqb_eq in T2. apply Nat.eqb_eq in T3. auto.
Qed.

Lemma lonText_col (j : Z) :
  11900 <= j <= 12250 ->
  toFixed 2 (mul (ofZ j) GRID_SIZE_LON) = lonText j
  /\ digitsValue (lonText j) = j
  /\ String.length (lonText j) = 6%nat.
Proof.
  intros Hj. pose proof lonText_table as T. rewrite forallb_forall in T.
  specialize (T j). rewrite !andb_true_iff in T.
  destruct T as [[T1 T2] T3]; [apply zrange_In; lia|].
  apply String.eqb_eq in T1. apply Z.eqb_eq in T2. apply Nat.eqb_eq in T3. auto.
Qed.

(** Inside the bounds the id is the text of an integer cell. *)
Lemma coordinateToGridId_cell (lat lon : number) :
  isInTaiwanBounds lat lon = true ->
  exists k j,
    2388 <= k <= 2833 /\ 11900 <= j <= 12250
    /\ Math_floor (div lat GRID_SIZE_LAT) = ofZ k
    /\ Math_floor (div lon GRID_SIZE_LON) = ofZ j
    /\ coordinateToGridId lat lon = Some (cellId k j).
Proof.
  intros Hin. pose proof Hin as Hb. apply isInTaiwanBounds_true in Hb.
  destruct Hb as (H1 & H2 & H3 & H4).
  destruct (lat_cell lat H1 H2) as (p & k & _ & _ & Hk & Fk).
  destruct (lon_cell lon H3 H4) as (q & j & _ & _ & Hj & Fj).
  exists k, j. repeat split; try lia; try assumption.
  unfold coordinateToGridId, gridName, cellId. rewrite Hin. cbn [negb].
  rewrite Fk, Fj.
  destruct (latText_row k Hk) as (-> & _). destruct (lonText_col j Hj) as (-> & _).
  reflexivity.
Qed.

(** ** Rounding to 53 bits, by intervals *)

Import JS Cells Explored Intervals.

Lemma number_eqb_eq (x y : number) : number_eqb x y = true -> x = y.
Proof.
  destruct x as [s|s| |s m e], y as [s'|s'| |s' m' e']; simpl; try discriminate;
    try (intros H; apply Bool.eqb_prop in H; congruence); [reflexivity|].
  rewrite !andb_true_iff. intros [[H1 H2] H3].
  apply Bool.eqb_prop in H1. apply Pos.eqb_eq in H2. apply Z.eqb_eq in H3. congruence.
Qed.

Section Rounding.

Lemma iter_pos_nat {A : Type} (f : A -> A) (n : positive) (x : A) :
  SpecFloat.iter_pos f n x = Nat.iter (Pos.to_nat n) f x.
Proof.
  revert x. induction n as [n IH|n IH|]; intros x; cbn [SpecFloat.iter_pos].
  - rewrite !IH. replace (Pos.to_nat n~1) with (S (Pos.to_nat n + Pos.to_nat n)) by lia.
    rewrite Nat.iter_succ_r, Nat.iter_add. reflexivity.
  - rewrite !IH. replace (Pos.to_nat n~0) with (Pos.to_nat n + Pos.to_nat n)%nat by lia.
    rewrite Nat.iter_add. reflexivity.
  - reflexivity.
Qed.

Lemma shr_1_m (r : shr_record) : 0 <= shr_m r -> shr_m (shr_1 r) = shr_m r / 2.
Proof.
  destruct r as [m b s]. cbn [shr_m]. intros H. unfold shr_1.
  destruct m as [|[p|p|]|p]; cbn [shr_m]; try lia.
  - reflexivity.
  - symmetry. apply pos_xI_half.
  - symmetry. apply pos_xO_half.
  - reflexivity.
Qed.

Lemma shr_iter_m (k : nat) (r : shr_record) :
  0 <= shr_m r -> shr_m (Nat.iter k shr_1 r) = shr_m r / 2 ^ Z.of_nat k.
Proof.
  intros H. induction k as [|k IH].
  - change (Nat.iter 0 shr_1 r) with r. change (2 ^ Z.of_nat 0) with 1.
    rewrite Z.div_1_r. reflexivity.
  - rewrite Nat.iter_succ, shr_1_m, IH.
    + rewrite Z.div_div by lia. rewrite Nat2Z.inj_succ, Z.pow_succ_r by lia.
      f_equal. lia.
    + rewrite IH. apply Z.div_pos; lia.
Qed.

Lemma round_nearest_even_bounds (m : Z) (l : location) :
  m <= round_nearest_even m l <= m + 1.
Proof.
  unfold round_nearest_even. destruct l as [|[]]; try lia. destruct (Z.even m); lia.
Qed.

Lemma shr_record_of_loc_m (m : Z) (l : location) : shr_m (shr_record_of_loc m l) = m.
Proof. destruct l as [|[]]; reflexivity. Qed.

Variables (mx d : positive) (ex : Z) (lx : location).
Hypothesis Hd : digits2_pos mx = d.
Hypothesis Hd53 : 53 <= Zpos d.
Let sh := Zpos d - 53.
Hypothesis Hcarry : Zpos mx / 2 ^ sh + 1 < 2 ^ 53.
Hypothesis Hex : -1074 <= ex + sh <= 971.

Lemma digits2_pos_lower : 2 ^ (Zpos d - 1) <= Zpos mx.
Proof.
  rewrite <- Hd, digits2_pos_size.
  pose proof (Pos.size_le mx) as Hle. apply Pos2Z.pos_le_pos in Hle.
  rewrite Pos2Z.inj_pow in Hle.
  change (Z.pos mx~0) with (2 * Z.pos mx) in Hle. change (Z.pos 2) with 2 in Hle.
  replace (Zpos (Pos.size mx)) with (Z.succ (Zpos (Pos.size mx) - 1)) in Hle by lia.
  rewrite Z.pow_succ_r in Hle by lia. lia.
Qed.

(** Rounding a mantissa of at least 53 bits to 53 bits. *)
Lemma binary_round_aux_bounds :
  exists p,
    binary_round_aux prec emax false (Zpos mx) ex lx = S754_finite false p (ex + sh)
    /\ Zpos mx / 2 ^ sh <= Zpos p <= Zpos mx / 2 ^ sh + 1
    /\ (lx = loc_Exact -> sh = 0 -> p = mx).
Proof.
  assert (Hsh : 0 <= sh) by (unfold sh; lia).
  assert (Hlow : 2 ^ 52 <= Zpos mx / 2 ^ sh).
  { apply Z.div_le_lower_bound; [apply Z.pow_pos_nonneg; lia|].
    rewrite <- Z.pow_add_r by lia. replace (sh + 52) with (Zpos d - 1) by (unfold sh; lia).
    apply digits2_pos_lower. }
  unfold binary_round_aux, shr_fexp. cbn [Zdigits2]. rewrite Hd.
  replace (fexp prec emax (Zpos d + ex) - ex) with sh
    by (unfold fexp, SpecFloat.emin, emax, prec, sh in *; lia).
  set (r0 := shr_record_of_loc (Zpos mx) lx).
  assert (Hshr : exists r1, shr r0 ex sh = (r1, ex + sh) /\ shr_m r1 = Zpos mx / 2 ^ sh
                            /\ (sh = 0 -> r1 = r0)).
  { unfold shr. destruct sh as [|k|k] eqn:Ek; try lia.
    - exists r0. rewrite Z.add_0_r. split; [reflexivity|]. split; [|reflexivity].
      unfold r0. rewrite shr_record_of_loc_m, Z.div_1_r. reflexivity.
    - exists (SpecFloat.iter_pos shr_1 k r0). split; [reflexivity|]. split; [|lia].
      rewrite iter_pos_nat, shr_iter_m, positive_nat_Z.
      + unfold r0. rewrite shr_record_of_loc_m. reflexivity.
      + unfold r0. rewrite shr_record_of_loc_m. lia. }
  destruct Hshr as (r1 & -> & Hr1 & Hr0).
  pose proof (round_nearest_even_bounds (shr_m r1) (loc_of_shr_record r1)) as Hr.
  destruct (round_nearest_even (shr_m r1) (loc_of_shr_record r1)) as [|p|p] eqn:Er; try lia.
  assert (Hdp : digits2_pos p = 53%positive).
  { apply digits2_pos_bounds. change (2 ^ (53 - 1)) with (2 ^ 52). lia. }
  cbn [Zdigits2]. rewrite Hdp.
  replace (fexp prec emax (53 + (ex + sh)) - (ex + sh)) with 0
    by (unfold fexp, SpecFloat.emin, emax, prec; lia).
  cbn [shr shr_record_of_loc shr_m].
  replace (ex + sh <=? emax - prec) with true
    by (symmetry; apply Z.leb_le; unfold emax, prec; lia).
  exists p. split; [reflexivity|]. split; [lia|].
  intros -> H0. rewrite (Hr0 H0) in Er. unfold r0 in Er. cbn in Er. congruence.
Qed.

End Rounding.

Lemma digits2_pos_lower' (m : positive) : 2 ^ (Zpos (digits2_pos m) - 1) <= Zpos m.
Proof.
  rewrite digits2_pos_size.
  pose proof (Pos.size_le m) as Hle. apply Pos2Z.pos_le_pos in Hle.
  rewrite Pos2Z.inj_pow in Hle.
  change (Z.pos m~0) with (2 * Z.pos m) in Hle. change (Z.pos 2) with 2 in Hle.
  replace (Zpos (Pos.size m)) with (Z.succ (Zpos (Pos.size m) - 1)) in Hle by lia.
  rewrite Z.pow_succ_r in Hle by lia. lia.
Qed.

Lemma digits2_pos_upper (m : positive) : Zpos m < 2 ^ Zpos (digits2_pos m).
Proof.
  rewrite digits2_pos_size. pose proof (Pos.size_gt m) as H.
  apply Pos2Z.pos_lt_pos in H. rewrite Pos2Z.inj_pow in H. exact H.
Qed.

(** Numbers between two numbers of [d] digits have [d] digits. *)
Lemma digits2_pos_between (lo hi m : positive) :
  digits2_pos lo = digits2_pos hi -> Zpos lo <= Zpos m <= Zpos hi ->
  digits2_pos m = digits2_pos lo.
Proof.
  intros E [H1 H2]. apply digits2_pos_bounds.
  pose proof (digits2_pos_lower' lo). pose proof (digits2_pos_upper hi).
  rewrite <- E in *. lia.
Qed.

Lemma roundRange_sound (qlo qhi ex plo phi e' : Z) (q : positive) (l : location) :
  roundRange qlo qhi ex = Some (plo, phi, e') ->
  qlo <= Zpos q <= qhi ->
  exists p, binary_round_aux prec emax false (Zpos q) ex l = S754_finite false p e'
            /\ plo <= Zpos p <= phi.
Proof.
  unfold roundRange. intros H [Hlo Hhi].
  destruct ((Zdigits2 qhi =? Zdigits2 qlo) && (53 <=? Zdigits2 qlo) && (0 <? qlo)) eqn:C1;
    [|discriminate].
  apply andb_true_iff in C1. destruct C1 as [C1 C3].
  apply andb_true_iff in C1. destruct C1 as [C1 C2].
  apply Z.eqb_eq in C1. apply Z.leb_le in C2. apply Z.ltb_lt in C3.
  destruct ((qhi / 2 ^ (Zdigits2 qlo - 53) + 1 <? 2 ^ 53)
            && (-1074 <=? ex + (Zdigits2 qlo - 53))
            && (ex + (Zdigits2 qlo - 53) <=? 971)) eqn:C4; [|discriminate].
  apply andb_true_iff in C4. destruct C4 as [C4 C6].
  apply andb_true_iff in C4. destruct C4 as [C4 C5].
  apply Z.ltb_lt in C4. apply Z.leb_le in C5. apply Z.leb_le in C6.
  injection H as <- <- <-.
  destruct qlo as [|lo|lo]; try lia. destruct qhi as [|hi|hi]; try lia.
  cbn [Zdigits2] in *. injection C1 as C1.
  assert (Hd : digits2_pos q = digits2_pos lo).
  { apply (digits2_pos_between lo hi); [congruence|lia]. }
  assert (P : 0 < 2 ^ (Zpos (digits2_pos lo) - 53)) by (apply Z.pow_pos_nonneg; lia).
  pose proof (Z.div_le_mono _ _ _ P Hlo). pose proof (Z.div_le_mono _ _ _ P Hhi).
  destruct (binary_round_aux_bounds q (digits2_pos lo) ex l Hd C2) as (p & E & B & _);
    try lia.
  exists p. split; [exact E|lia].
Qed.

(** The number [ofZ e] of a positive integer of fewer than 53 bits. *)
Lemma iter_xO (p k : positive) : Zpos (Pos.iter xO p k) = Zpos p * 2 ^ Zpos k.
Proof.
  induction k as [|k IH] using Pos.peano_ind.
  - cbn [Pos.iter]. change (2 ^ 1) with 2. lia.
  - rewrite Pos.iter_succ, Pos2Z.inj_xO, IH, Pos2Z.inj_succ, Z.pow_succ_r by lia. lia.
Qed.

Lemma ofZ_small (e : positive) (d : Z) :
  Zpos (digits2_pos e) = d -> d < 53 ->
  exists m, ofZ (Zpos e) = S754_finite false m (d - 53)
            /\ Zpos m = Zpos e * 2 ^ (53 - d)
            /\ digits2_pos m = 53%positive.
Proof.
  intros Hd H53. unfold ofZ, binary_normalize, binary_round, shl_align.
  rewrite Z.add_0_r, Hd.
  replace (fexp prec emax d - 0) with (d - 53)
    by (unfold fexp, SpecFloat.emin, emax, prec; lia).
  destruct (d - 53) as [|k|k] eqn:Ek; try lia.
  replace (fexp prec emax d) with (Zneg k)
    by (unfold fexp, SpecFloat.emin, emax, prec; lia).
  assert (Hm : Zpos (Pos.iter xO e k) = Zpos e * 2 ^ (53 - d)).
  { rewrite iter_xO. f_equal. f_equal. lia. }
  assert (Hdm : digits2_pos (Pos.iter xO e k) = 53%positive).
  { apply digits2_pos_bounds. rewrite Hm.
    pose proof (digits2_pos_lower' e). pose proof (digits2_pos_upper e).
    rewrite Hd in *. change (2 ^ (53 - 1)) with (2 ^ 52).
    assert (0 < d) by lia.
    assert (E52 : 2 ^ 52 = 2 ^ (d - 1) * 2 ^ (53 - d)).
    { rewrite <- Z.pow_add_r by lia. f_equal. lia. }
    assert (E53 : 2 ^ 53 = 2 ^ d * 2 ^ (53 - d)).
    { rewrite <- Z.pow_add_r by lia. f_equal. lia. }
    rewrite E52, E53.
    assert (0 < 2 ^ (53 - d)) by (apply Z.pow_pos_nonneg; lia). nia. }
  destruct (binary_round_aux_bounds (Pos.iter xO e k) 53 (Zneg k) loc_Exact Hdm)
    as (p & E & _ & X); try lia.
  { rewrite Z.sub_diag. change (2 ^ 0) with 1. rewrite Z.div_1_r.
    pose proof (digits2_pos_upper (Pos.iter xO e k)). rewrite Hdm in *. 
    (* need mx + 1 < 2^53: not true when mx = 2^53 - 1 shifted: mx is even *)
    rewrite Hm in *.
    assert (0 < 2 ^ (53 - d)) by (apply Z.pow_pos_nonneg; lia).
    assert (E2 : 2 ^ 53 = 2 ^ d * 2 ^ (53 - d)).
    { rewrite <- Z.pow_add_r by lia. f_equal. lia. }
    pose proof (digits2_pos_upper e) as U. rewrite Hd in U.
    assert (2 <= 2 ^ (53 - d)).
    { change 2 with (2 ^ 1) at 1. apply Z.pow_le_mono_r; lia. }
    nia. }
  rewrite Z.sub_diag, Z.add_0_r in E.
  exists p. split; [exact E|]. rewrite (X eq_refl eq_refl). split; [exact Hm|exact Hdm].
Qed.
Lemma div_round (m1 m2 : positive) (e1 e2 : Z) :
  digits2_pos m1 = 53%positive -> digits2_pos m2 = 53%positive ->
  -1074 <= e1 - e2 - 53 ->
  div (S754_finite false m1 e1) (S754_finite false m2 e2)
  = binary_round_aux prec emax false (Zpos m1 * 2 ^ 53 / Zpos m2) (e1 - e2 - 53)
      (new_location (Zpos m2) (Zpos m1 * 2 ^ 53 mod Zpos m2)).
Proof.
  intros H1 H2 He. unfold div, SFdiv, SFdiv_core_binary. cbn [Zdigits2]. rewrite H1, H2.
  replace (Z.min _ _) with (e1 - e2 - 53)
    by (unfold fexp, SpecFloat.emin, emax, prec; lia).
  replace (e1 - e2 - (e1 - e2 - 53)) with 53 by lia.
  cbv iota. rewrite div_eucl_div_mod, Z.shiftl_mul_pow2 by lia. reflexivity.
Qed.

Lemma percentRange_sound (a b n e : Z) :
  percentRange a b = Some n -> a <= e <= b -> percentageOfZ e 156100 = ofZ n.
Proof.
  unfold percentRange. intros H [Hae Heb].
  destruct ((0 <? a) && (a <=? b) && (Zdigits2 b =? Zdigits2 a) && (Zdigits2 a <? 53)) eqn:C;
    [|discriminate].
  apply andb_true_iff in C. destruct C as [C C4].
  apply andb_true_iff in C. destruct C as [C C3].
  apply andb_true_iff in C. destruct C as [C1 C2].
  apply Z.ltb_lt in C1. apply Z.leb_le in C2. apply Z.eqb_eq in C3. apply Z.ltb_lt in C4.
  destruct a as [|pa|pa]; try lia. destruct b as [|pb|pb]; try lia.
  destruct e as [|pe|pe]; try lia. cbn [Zdigits2] in *.
  assert (Hab : digits2_pos pa = digits2_pos pb) by congruence.
  set (d := Zpos (digits2_pos pa)) in *.
  assert (Hd : Zpos (digits2_pos pe) = d).
  { unfold d. f_equal. apply (digits2_pos_between pa pb); [exact Hab|lia]. }
  destruct (ofZ_small pe d Hd C4) as (m1 & E1 & V1 & D1).
  assert (P : 0 < 2 ^ (53 - d)) by (apply Z.pow_pos_nonneg; lia).
  destruct (roundRange _ _ _) as [[[plo phi] e3]|] eqn:R1; [|discriminate].
  destruct (roundRange (plo * m100) _ _) as [[[rlo rhi] e4]|] eqn:R2; [|discriminate].
  destruct e4 as [|k|k]; try discriminate.
  destruct (_ =? _) eqn:N; [|discriminate]. apply Z.eqb_eq in N. injection H as H.
  unfold percentageOfZ. rewrite E1.
  replace (ofZ 156100) with (S754_finite false (Z.to_pos mT) eT) by (vm_compute; reflexivity).
  rewrite div_round; [|exact D1|reflexivity|unfold eT; lia].
  assert (Q : Zpos pa * 2 ^ (53 - d) * 2 ^ 53 / mT
              <= Zpos m1 * 2 ^ 53 / Zpos (Z.to_pos mT)
              <= Zpos pb * 2 ^ (53 - d) * 2 ^ 53 / mT).
  { change (Zpos (Z.to_pos mT)) with mT. rewrite V1.
    split; (apply Z.div_le_mono; [reflexivity|]); nia. }
  assert (Q0 : 0 < Zpos pa * 2 ^ (53 - d) * 2 ^ 53 / mT).
  { unfold roundRange in R1. destruct (_ && (0 <? _)) eqn:X in R1; [|discriminate].
    apply andb_true_iff in X. destruct X as [_ X]. apply Z.ltb_lt in X. exact X. }
  destruct (Zpos m1 * 2 ^ 53 / Zpos (Z.to_pos mT)) as [|q|q] eqn:Eq; try lia.
  destruct (roundRange_sound _ _ _ _ _ _ q
              (new_location (Z.pos (Z.to_pos mT)) (Z.pos m1 * 2 ^ 53 mod Z.pos (Z.to_pos mT)))
              R1 Q) as (p & -> & Bp).
  unfold MistPercentage.hundred, mul, SFmul. cbn [xorb]. unfold e100 in R2.
  assert (Q2 : plo * m100 <= Zpos (p * 7036874417766400) <= phi * m100).
  { rewrite Pos2Z.inj_mul. change (Zpos 7036874417766400) with m100.
    assert (0 <= m100) by (vm_compute; congruence).
    split; apply Z.mul_le_mono_nonneg_r; lia. }
  destruct (roundRange_sound _ _ _ _ _ _ (p * 7036874417766400) loc_Exact R2 Q2)
    as (r & -> & Br).
  unfold Math_round, cond_Zopp.
  assert (P2 : 0 < 2 ^ (Zpos k + 1)) by (apply Z.pow_pos_nonneg; lia).
  assert (N1 : (2 * rlo + 2 ^ Zpos k) / 2 ^ (Zpos k + 1)
               <= (2 * Zpos r + 2 ^ Zpos k) / 2 ^ (Zpos k + 1)).
  { apply Z.div_le_mono; lia. }
  assert (N2 : (2 * Zpos r + 2 ^ Zpos k) / 2 ^ (Zpos k + 1)
               <= (2 * rhi + 2 ^ Zpos k) / 2 ^ (Zpos k + 1)).
  { apply Z.div_le_mono; lia. }
  replace ((2 * Zpos r + 2 ^ Zpos k) / 2 ^ (Zpos k + 1)) with n by lia.
  destruct (Z.eqb_spec n 0) as [->|]; reflexivity.
Qed.

Lemma nearestPercent_mono (e e' : Z) :
  e <= e' -> nearestPercent e 156100 <= nearestPercent e' 156100.
Proof. intros H. unfold nearestPercent. apply Z.div_le_mono; lia. Qed.

Lemma settled_sound (a b n e : Z) :
  settled a b n = true -> a <= e <= b -> percentageOfZ e 156100 = ofZ n.
Proof.
  unfold settled. intros H He. destruct (percentRange a b) as [n'|] eqn:R.
  - apply Z.eqb_eq in H. subst n'. apply (percentRange_sound a b n e R He).
  - apply andb_true_iff in H. destruct H as [H1 H2]. apply Z.eqb_eq in H1.
    replace e with a by lia. apply number_eqb_eq, H2.
Qed.

Lemma coverCheck_sound (l : list (Z * Z)) (a limit e : Z) :
  coverCheck a limit l = true -> a <= e <= limit ->
  percentageOfZ e 156100 = ofZ (nearestPercent e 156100).
Proof.
  revert a. induction l as [|[b n] l IH]; intros a H He; cbn [coverCheck] in H.
  - apply Z.ltb_lt in H. lia.
  - rewrite !andb_true_iff in H. destruct H as [[[H1 H2] H3] H4].
    apply Z.eqb_eq in H2, H3.
    destruct (Z.le_gt_cases e b) as [Hb|Hb].
    + rewrite (settled_sound a b n e H1) by lia.
      pose proof (nearestPercent_mono a e ltac:(lia)).
      pose proof (nearestPercent_mono e b Hb).
      f_equal. lia.
    + apply (IH (b + 1) H4). lia.
Qed.

Lemma percentage_cover : coverCheck 1 156546 percentageIntervals = true.
Proof. vm_compute. reflexivity. Qed.

(** ** The text of [toFixed] *)

Lemma length_string_of_list_ascii (l : list ascii) :
  String.length (string_of_list_ascii l) = List.length l.
Proof. induction l; simpl; congruence. Qed.

(** With [f > 0] digits asked for, the text written by [pointed] has a point
    followed by exactly [f] characters, and at least one character before
    the point. *)
Lemma pointed_decimals (f : nat) (n : N) :
  (0 < f)%nat ->
  exists a b, pointed f n = a ++ "." ++ b
              /\ String.length b = f /\ (0 < String.length a)%nat.
Proof.
  intros Hf. unfold pointed.
  set (m0 := digitsOfN n).
  set (m := if (List.length m0 <=? f)%nat then _ else m0).
  assert (Hm : (f < List.length m)%nat).
  { subst m. destruct (Nat.leb_spec (List.length m0) f).
    - rewrite List.length_app. unfold zeros. rewrite List.repeat_length. lia.
    - lia. }
  destruct f as [|f']; [lia|].
  eexists _, _. split; [reflexivity|].
  rewrite !length_string_of_list_ascii, List.length_skipn, List.length_firstn. lia.
Qed.

(** [floorZ] is the mathematical floor, also of a negative number: with
    [e = - p < 0] the value is [± m / 2^p] and
    [floorZ <= ± m / 2^p < floorZ + 1]. *)
Lemma floorZ_spec (s : bool) (m p : positive) :
  floorZ s m (Zneg p) * 2 ^ Zpos p <= cond_Zopp s (Zpos m)
  < (floorZ s m (Zneg p) + 1) * 2 ^ Zpos p.
Proof.
  unfold floorZ. assert (0 < 2 ^ Zpos p) by (apply Z.pow_pos_nonneg; lia).
  pose proof (Z.div_mod (cond_Zopp s (Zpos m)) (2 ^ Zpos p)).
  pose proof (Z.mod_pos_bound (cond_Zopp s (Zpos m)) (2 ^ Zpos p)). nia.
Qed.

Example Math_floor_negative :
  Math_floor (ofDecimal true 5 (-1)) = ofZ (-1)
  /\ Math_floor (ofDecimal true 214925 (-4)) = ofZ (-22).
Proof. vm_compute. split; reflexivity. Qed.

(** ** C1 *)

(** What [coordinateToGridId] computes, for every pair of numbers.
    [coordinateToGridId lat lon] is null exactly when the coordinate fails
    the inclusive test [21.5 <= lat <= 25.5] and [119.0 <= lon <= 122.5].
    Otherwise it is ["grid_" ++ a ++ "_" ++ b] where [a] is
    [floor(lat / 0.009) * 0.009] written by [toFixed(3)] and [b] is
    [floor(lon / 0.01) * 0.01] written by [toFixed(2)]; the two floors are the
    mathematical floors [k] and [j] of the computed quotients, [k] between
    2388 and 2833 and [j] between 11900 and 12250, and the two texts are the
    decimals of [9 k / 1000] and [j / 100] with exactly three and exactly two
    digits after the point.  [Math.floor] rounds towards minus infinity on
    negative numbers too.  The quotient is the rounded one: its floor can be
    one more than the floor of the exact quotient (see below). *)
Theorem coordinateToGridId_computes (lat lon : number) :
  (coordinateToGridId lat lon = None <->
     ~ (ge lat lit_21_5 = true /\ le lat lit_25_5 = true /\
        ge lon lit_119_0 = true /\ le lon lit_122_5 = true))
  /\ (ge lat lit_21_5 = true /\ le lat lit_25_5 = true /\
      ge lon lit_119_0 = true /\ le lon lit_122_5 = true ->
      coordinateToGridId lat lon =
        Some ("grid_" ++ toFixed 3 (mul (Math_floor (div lat GRID_SIZE_LAT)) GRID_SIZE_LAT)
                ++ "_" ++ toFixed 2 (mul (Math_floor (div lon GRID_SIZE_LON)) GRID_SIZE_LON))
      /\ exists p q k j,
           div lat GRID_SIZE_LAT = S754_finite false p (-41)
           /\ k * 2 ^ 41 <= Zpos p < (k + 1) * 2 ^ 41
           /\ Math_floor (div lat GRID_SIZE_LAT) = ofZ k
           /\ 2388 <= k <= 2833
           /\ div lon GRID_SIZE_LON = S754_finite false q (-39)
           /\ j * 2 ^ 39 <= Zpos q < (j + 1) * 2 ^ 39
           /\ Math_floor (div lon GRID_SIZE_LON) = ofZ j
           /\ 11900 <= j <= 12250
           /\ toFixed 3 (mul (ofZ k) GRID_SIZE_LAT) = pointed 3 (Z.to_N (9 * k))
           /\ toFixed 2 (mul (ofZ j) GRID_SIZE_LON) = pointed 2 (Z.to_N j)
           /\ (exists a b, pointed 3 (Z.to_N (9 * k)) = a ++ "." ++ b
                           /\ String.length b = 3%nat /\ (0 < String.length a)%nat)
           /\ (exists a b, pointed 2 (Z.to_N j) = a ++ "." ++ b
                           /\ String.length b = 2%nat /\ (0 < String.length a)%nat))
  /\ (forall (s : bool) (m e : positive),
        floorZ s m (Zneg e) * 2 ^ Zpos e <= cond_Zopp s (Zpos m)
        < (floorZ s m (Zneg e) + 1) * 2 ^ Zpos e).
Proof.
  split; [|split].
  - rewrite <- isInTaiwanBounds_true. unfold coordinateToGridId.
    destruct (isInTaiwanBounds lat lon); cbn [negb]; split; intros H;
      try discriminate; try reflexivity; exfalso; apply H; reflexivity.
  - intros Hb. pose proof Hb as (H1 & H2 & H3 & H4).
    apply isInTaiwanBounds_true in Hb. split.
    + unfold coordinateToGridId, gridName. rewrite Hb. reflexivity.
    + destruct (lat_cell lat H1 H2) as (p & k & Dk & Ek & Hk & Fk).
      destruct (lon_cell lon H3 H4) as (q & j & Dj & Ej & Hj & Fj).
      exists p, q, k, j.
      assert (P41 : 0 < 2 ^ 41) by reflexivity.
      assert (P39 : 0 < 2 ^ 39) by reflexivity.
      pose proof (Z.div_mod (Zpos p) (2 ^ 41) ltac:(lia)).
      pose proof (Z.mod_pos_bound (Zpos p) (2 ^ 41) P41).
      pose proof (Z.div_mod (Zpos q) (2 ^ 39) ltac:(lia)).
      pose proof (Z.mod_pos_bound (Zpos q) (2 ^ 39) P39).
      repeat split; try assumption; try lia.
      * apply (latText_row k Hk).
      * apply (lonText_col j Hj).
      * apply pointed_decimals. lia.
      * apply pointed_decimals. lia.
  - intros s m e. apply floorZ_spec.
Qed.

Example coordinateToGridId_examples :
  coordinateToGridId (ofDecimal false 250330 (-4)) (ofDecimal false 1215654 (-4))
    = Some "grid_25.029_121.56"
  /\ coordinateToGridId lit_21_5 lit_119_0 = Some "grid_21.492_119.00"
  /\ coordinateToGridId lit_25_5 lit_122_5 = Some "grid_25.497_122.50"
  /\ coordinateToGridId (S754_zero false) (S754_zero false) = None
  /\ coordinateToGridId NaN lit_119_0 = None.
Proof. vm_compute. repeat split; reflexivity. Qed.

(** C1.  The cell of a coordinate next below a corner.  The latitude
    21.500999999999998 is inside the bounds and the true floor of its
    quotient by 0.009 is 2388, by the decimal step and by the binary64 step
    alike; the quotient that the code computes is rounded to 2389 exactly,
    so that its floor is 2389 and the id is that of row 2389.  The corner
    that [gridIdToCoordinate] reads from the id, 21.501, is above the
    latitude: the coordinate is not in the cell whose lower-left corner is at
    or below it.  A coordinate in the middle of the same true cell, 21.5005,
    gets the id of row 2388. *)
Theorem C1_corner_above_input :
  isInTaiwanBounds latBelow21_501 lit_119_0 = true
  /\ exactFloor 9 1000 latBelow21_501 = Some 2388
  /\ 6051993474255814 * 2 ^ 11 < 2389 * 5188146770730811
  /\ GRID_SIZE_LAT = S754_finite false 5188146770730811 (-59)
  /\ div latBelow21_501 GRID_SIZE_LAT = ofZ 2389
  /\ Math_floor (div latBelow21_501 GRID_SIZE_LAT) = ofZ 2389
  /\ coordinateToGridId latBelow21_501 lit_119_0 = Some "grid_21.501_119.00"
  /\ gridIdToCoordinate "grid_21.501_119.00"
     = Some {| lat := S754_finite false 6051993474255815 (-48); lon := lit_119_0 |}
  /\ lt latBelow21_501 (S754_finite false 6051993474255815 (-48)) = true
  /\ exactFloor 9 1000 lat21_5005 = Some 2388
  /\ coordinateToGridId lat21_5005 lit_119_0 = Some "grid_21.492_119.00".
Proof. vm_compute. repeat split; reflexivity. Qed.

(** ** C2 *)

Lemma append_inj_length (a a' b b' : string) :
  String.length a = String.length a' -> a ++ b = a' ++ b' -> a = a' /\ b = b'.
Proof.
  revert a'. induction a as [|c a IH]; intros [|c' a'] Hl H; simpl in *;
    try discriminate; [split; [reflexivity|assumption]|].
  injection H as -> H. injection Hl as Hl.
  destruct (IH a' Hl H) as [-> ->]. split; reflexivity.
Qed.

(** Two cells of the bounds with the same id are the same cell. *)
Lemma cellId_inj (k j k' j' : Z) :
  2388 <= k <= 2833 -> 11900 <= j <= 12250 ->
  2388 <= k' <= 2833 -> 11900 <= j' <= 12250 ->
  cellId k j = cellId k' j' -> k = k' /\ j = j'.
Proof.
  intros Hk Hj Hk' Hj' H. unfold cellId in H.
  destruct (latText_row k Hk) as (_ & Vk & Lk).
  destruct (latText_row k' Hk') as (_ & Vk' & Lk').
  destruct (lonText_col j Hj) as (_ & Vj & _).
  destruct (lonText_col j' Hj') as (_ & Vj' & _).
  apply append_inj_length in H; [|reflexivity]. destruct H as [_ H].
  apply append_inj_length in H; [|congruence]. destruct H as [Ha H].
  apply append_inj_length in H; [|reflexivity]. destruct H as [_ Hb].
  rewrite Ha in Vk. rewrite Hb in Vj. lia.
Qed.

(** The id is a function of the computed floors.  For two coordinates
    inside the bounds, the ids are the same string exactly when the floors
    of the two computed quotients [lat / 0.009] agree and those of the two
    computed quotients [lon / 0.01] agree: no two pairs of floors print as
    the same id.  The computed floor is not always the true one (see
    below). *)
Theorem id_is_function_of_floors (lat1 lon1 lat2 lon2 : number) :
  isInTaiwanBounds lat1 lon1 = true ->
  isInTaiwanBounds lat2 lon2 = true ->
  (coordinateToGridId lat1 lon1 = coordinateToGridId lat2 lon2 <->
     Math_floor (div lat1 GRID_SIZE_LAT) = Math_floor (div lat2 GRID_SIZE_LAT)
     /\ Math_floor (div lon1 GRID_SIZE_LON) = Math_floor (div lon2 GRID_SIZE_LON)).
Proof.
  intros H1 H2. split.
  - destruct (coordinateToGridId_cell _ _ H1) as (k & j & Hk & Hj & Fk & Fj & ->).
    destruct (coordinateToGridId_cell _ _ H2) as (k' & j' & Hk' & Hj' & Fk' & Fj' & ->).
    intros H. assert (H' : cellId k j = cellId k' j') by congruence.
    destruct (cellId_inj _ _ _ _ Hk Hj Hk' Hj' H') as [-> ->].
    split; congruence.
  - intros [Fa Fo]. unfold coordinateToGridId. rewrite H1, H2, Fa, Fo. reflexivity.
Qed.

Lemma id_is_function_of_floors_witness :
  coordinateToGridId (ofDecimal false 250330 (-4)) (ofDecimal false 1215654 (-4))
  = coordinateToGridId (ofDecimal false 250335 (-4)) (ofDecimal false 1215658 (-4))
  <-> Math_floor (div (ofDecimal false 250330 (-4)) GRID_SIZE_LAT)
      = Math_floor (div (ofDecimal false 250335 (-4)) GRID_SIZE_LAT)
      /\ Math_floor (div (ofDecimal false 1215654 (-4)) GRID_SIZE_LON)
         = Math_floor (div (ofDecimal false 1215658 (-4)) GRID_SIZE_LON).
Proof.
  apply id_is_function_of_floors; vm_compute; reflexivity.
Defined.

(** C2.  One cell, two ids; two cells, one id.  The latitudes
    21.500999999999998 and 21.5005, at longitude 119, lie in the same cell,
    row 2388 and column 11900 by the true floors, and get the two ids
    [grid_21.501_119.00] and [grid_21.492_119.00]; the latitudes
    21.500999999999998 and 21.5015 lie in the distinct cells of rows 2388
    and 2389 and get the one id [grid_21.501_119.00]. *)
Theorem C2_cell_and_id_disagree :
  isInTaiwanBounds latBelow21_501 lit_119_0 = true
  /\ isInTaiwanBounds lat21_5005 lit_119_0 = true
  /\ isInTaiwanBounds lat21_5015 lit_119_0 = true
  /\ exactCell latBelow21_501 lit_119_0 = Some (2388, 11900)
  /\ exactCell lat21_5005 lit_119_0 = Some (2388, 11900)
  /\ exactCell lat21_5015 lit_119_0 = Some (2389, 11900)
  /\ coordinateToGridId latBelow21_501 lit_119_0 = Some "grid_21.501_119.00"
  /\ coordinateToGridId lat21_5005 lit_119_0 = Some "grid_21.492_119.00"
  /\ coordinateToGridId lat21_5015 lit_119_0 = Some "grid_21.501_119.00".
Proof. vm_compute. repeat split; reflexivity. Qed.

(** ** The two enumerators *)

Section Loops.

Lemma while_more_fuel {St : Type} (cond : St -> bool) (body : St -> option St)
    (fuel extra : nat) (st r : St) :
  while fuel cond body st = Some r -> while (fuel + extra) cond body st = Some r.
Proof.
  revert st. induction fuel as [|fuel IH]; intros st; simpl; [discriminate|].
  destruct (cond st); [|trivial]. destruct (body st); [apply IH|discriminate].
Qed.

Lemma walk_more_fuel (more : number -> bool) (step : number) (fuel extra : nat)
    (x : number) (r : list number * number) :
  walk fuel more step x = Some r -> walk (fuel + extra) more step x = Some r.
Proof.
  revert x r. induction fuel as [|fuel IH]; intros x r; simpl; [discriminate|].
  destruct (more x); [|trivial].
  destruct (walk fuel more step (add x step)) as [[l e]|] eqn:E; [|discriminate].
  rewrite (IH _ _ E). trivial.
Qed.

(** The inner loop writes one id for every value of [currentLon]. *)
Lemma lonLoop_walk (fuel : nat) (moreLon : number -> bool) (currentLat lon0 : number)
    (gridIds : list string) (cs : list number) (stop : number) :
  walk fuel moreLon GRID_SIZE_LON lon0 = Some (cs, stop) ->
  lonLoop fuel moreLon currentLat (gridIds, lon0)
  = Some ((List.rev (List.map (gridName currentLat) cs) ++ gridIds)%list, stop).
Proof.
  unfold lonLoop. revert lon0 gridIds cs.
  induction fuel as [|fuel IH]; intros lon0 gridIds cs; simpl; [discriminate|].
  destruct (moreLon lon0).
  - destruct (walk fuel moreLon GRID_SIZE_LON (add lon0 GRID_SIZE_LON)) as [[l e]|] eqn:E;
      [|discriminate].
    intros [= <- <-]. rewrite (IH _ _ _ E). simpl. rewrite <- List.app_assoc. reflexivity.
  - intros [= <- <-]. reflexivity.
Qed.

(** The outer loop runs the inner loop once for every value of
    [currentLat], each time over the same values of [currentLon]. *)
Lemma latLoop_walk (fuel fuel' : nat) (moreLat moreLon : number -> bool)
    (lat0 lon0 : number) (gridIds : list string) (rs cs : list number)
    (stopLat stopLon : number) :
  walk fuel' moreLon GRID_SIZE_LON lon0 = Some (cs, stopLon) ->
  walk fuel moreLat GRID_SIZE_LAT lat0 = Some (rs, stopLat) ->
  while fuel (fun st => moreLat (snd st))
    (fun '(gridIds, currentLat) =>
       match lonLoop fuel' moreLon currentLat (gridIds, lon0) with
       | Some (gridIds', _) => Some (gridIds', add currentLat GRID_SIZE_LAT)
       | None => None
       end) (gridIds, lat0)
  = Some ((List.rev (flat_map (fun r => List.map (gridName r) cs) rs) ++ gridIds)%list,
          stopLat).
Proof.
  intros Hc. revert lat0 gridIds rs.
  induction fuel as [|fuel IH]; intros lat0 gridIds rs; simpl; [discriminate|].
  destruct (moreLat lat0).
  - destruct (walk fuel moreLat GRID_SIZE_LAT (add lat0 GRID_SIZE_LAT)) as [[l e]|] eqn:E;
      [|discriminate].
    intros [= <- <-]. rewrite (lonLoop_walk _ _ _ _ _ _ _ Hc), (IH _ _ _ E). simpl.
    rewrite List.rev_app_distr, <- List.app_assoc. reflexivity.
  - intros [= <- <-]. reflexivity.
Qed.

(** Rows and columns that print as the integer cells print, cell by cell, as
    the row-major list of the integer cells. *)
Lemma flat_map_gridName (rs cs : list number) (ks js : list Z) :
  texts 3 rs = List.map latText ks -> texts 2 cs = List.map lonText js ->
  flat_map (fun r => List.map (gridName r) cs) rs = rowMajor ks js.
Proof.
  unfold texts, rowMajor. intros Hr Hc. revert ks Hr.
  induction rs as [|r rs IH]; intros [|k ks] Hr; try discriminate; [reflexivity|].
  simpl in Hr. injection Hr as Hr Hrs. simpl. rewrite (IH _ Hrs). f_equal.
  clear - Hr Hc. unfold gridName, cellId. rewrite Hr. clear Hr. revert js Hc.
  induction cs as [|c cs IH]; intros [|j js] Hc; try discriminate; [reflexivity|].
  simpl in Hc. injection Hc as Hc Hcs. simpl. rewrite Hc, (IH _ Hcs). reflexivity.
Qed.

Lemma strings_eqb_eq (l l' : list string) : strings_eqb l l' = true -> l = l'.
Proof.
  revert l'. induction l as [|s l IH]; intros [|s' l']; simpl; try discriminate;
    [reflexivity|].
  rewrite andb_true_iff. intros [Hs Hl]. apply String.eqb_eq in Hs.
  rewrite Hs, (IH _ Hl). reflexivity.
Qed.

End Loops.

Lemma walkPrints_true (f : nat) (more : number -> bool) (step x : number)
    (expected : list string) :
  walkPrints f more step x expected = true ->
  exists l stop, walk 447 more step x = Some (l, stop) /\ texts f l = expected.
Proof.
  unfold walkPrints. destruct (walk 447 more step x) as [[l stop]|]; [|discriminate].
  intros H. exists l, stop. split; [reflexivity|]. apply strings_eqb_eq, H.
Qed.

Lemma full_rows :
  walkPrints 3 (fun x => lt x (maxLat TAIWAN_BOUNDS)) GRID_SIZE_LAT startGridLat
    (List.map latText rows) = true.
Proof. vm_compute. reflexivity. Qed.

Lemma full_cols :
  walkPrints 2 (fun x => lt x (maxLon TAIWAN_BOUNDS)) GRID_SIZE_LON startGridLon
    (List.map lonText cols) = true.
Proof. vm_compute. reflexivity. Qed.

(** The same rows and columns under the inclusive tests of
    [getVisibleGridIds]. *)
Lemma visible_rows :
  walkPrints 3 (fun x => le x (maxLat TAIWAN_BOUNDS)) GRID_SIZE_LAT startGridLat
    (List.map latText rows) = true.
Proof. vm_compute. reflexivity. Qed.

Lemma visible_cols :
  walkPrints 2 (fun x => le x (maxLon TAIWAN_BOUNDS)) GRID_SIZE_LON startGridLon
    (List.map lonText cols) = true.
Proof. vm_compute. reflexivity. Qed.

(** Both loops over the whole bounds, with either pair of tests that walks
    the rows and columns above. *)
Lemma latLoop_whole (moreLat moreLon : number -> bool) (extra : nat) :
  walkPrints 3 moreLat GRID_SIZE_LAT startGridLat (List.map latText rows) = true ->
  walkPrints 2 moreLon GRID_SIZE_LON startGridLon (List.map lonText cols) = true ->
  exists stop,
    latLoop (447 + extra) moreLat moreLon startGridLon ([], startGridLat)
    = Some (List.rev allCells, stop).
Proof.
  intros Hr Hc.
  destruct (walkPrints_true _ _ _ _ _ Hr) as (rs & stopLat & Wr & Tr).
  destruct (walkPrints_true _ _ _ _ _ Hc) as (cs & stopLon & Wc & Tc).
  exists stopLat. unfold latLoop.
  rewrite (latLoop_walk _ _ _ _ _ _ [] rs cs stopLat stopLon
             (walk_more_fuel _ _ _ extra _ _ Wc) (walk_more_fuel _ _ _ extra _ _ Wr)).
  rewrite List.app_nil_r, (flat_map_gridName _ _ _ _ Tr Tc). reflexivity.
Qed.

Lemma rev_append_rev_nil {A : Type} (l : list A) : rev_append (List.rev l) [] = l.
Proof. rewrite List.rev_append_rev, List.app_nil_r. apply List.rev_involutive. Qed.

Lemma getAllTaiwanGridIds_first_call (extra : nat) :
  getAllTaiwanGridIds (447 + extra) None = Some (allCells, Some allCells).
Proof.
  unfold getAllTaiwanGridIds. fold startGridLat startGridLon.
  destruct (latLoop_whole _ _ extra full_rows full_cols) as (stop & ->).
  rewrite rev_append_rev_nil. reflexivity.
Qed.

(** ** C3 *)

Lemma zrange_NoDup (lo : Z) (n : nat) : List.NoDup (zrange lo n).
Proof.
  unfold zrange. apply List.NoDup_map_NoDup_ForallPairs; [|apply List.seq_NoDup].
  intros a b _ _ H. lia.
Qed.

Lemma rowMajor_In (rs cs : list Z) (id : string) :
  In id (rowMajor rs cs) <-> exists k j, In k rs /\ In j cs /\ id = cellId k j.
Proof.
  unfold rowMajor. rewrite in_flat_map. split.
  - intros (k & Hk & H). apply in_map_iff in H. destruct H as (j & <- & Hj).
    exists k, j. auto.
  - intros (k & j & Hk & Hj & ->). exists k. split; [assumption|].
    apply in_map_iff. exists j. auto.
Qed.

Lemma rowMajor_length (rs cs : list Z) :
  List.length (rowMajor rs cs) = (List.length rs * List.length cs)%nat.
Proof.
  unfold rowMajor. induction rs as [|k rs IH]; simpl; [reflexivity|].
  rewrite List.length_app, List.length_map, IH. reflexivity.
Qed.

Lemma rowMajor_NoDup (rs cs : list Z) :
  (forall k, In k rs -> 2388 <= k <= 2833) ->
  (forall j, In j cs -> 11900 <= j <= 12250) ->
  List.NoDup rs -> List.NoDup cs -> List.NoDup (rowMajor rs cs).
Proof.
  intros Hrs Hcs Nr Nc. induction Nr as [|k rs Hk Nr IH]; [constructor|].
  change (rowMajor (k :: rs) cs) with (List.map (cellId k) cs ++ rowMajor rs cs)%list.
  apply List.NoDup_app.
  - apply List.NoDup_map_NoDup_ForallPairs; [|assumption].
    intros j j' Hj Hj' H.
    apply (cellId_inj k j k j'); auto using in_eq.
  - apply IH. intros k' Hk'. apply Hrs. right. assumption.
  - intros id H1 H2. apply in_map_iff in H1. destruct H1 as (j & <- & Hj).
    apply rowMajor_In in H2. destruct H2 as (k' & j' & Hk' & Hj' & H).
    apply cellId_inj in H; auto using in_eq, in_cons.
    destruct H as [-> _]. contradiction.
Qed.

Lemma allCells_In (id : string) :
  In id allCells <->
  exists k j, 21492 <= 9 * k < 25500 /\ 11900 <= j < 12250 /\ id = cellId k j.
Proof.
  unfold allCells. rewrite rowMajor_In. unfold rows, cols.
  split; intros (k & j & H1 & H2 & ->); exists k, j.
  - apply zrange_In in H1. apply zrange_In in H2. repeat split; lia.
  - rewrite !zrange_In. repeat split; lia.
Qed.

Lemma allCells_NoDup : List.NoDup allCells.
Proof.
  apply rowMajor_NoDup; try apply zrange_NoDup.
  - intros k H. apply zrange_In in H. lia.
  - intros j H. apply zrange_In in H. lia.
Qed.

Lemma allCells_length : Z.of_nat (List.length allCells) = 156100.
Proof.
  unfold allCells, rows, cols, zrange.
  rewrite rowMajor_length, !List.length_map, !List.length_seq, Nat2Z.inj_mul.
  reflexivity.
Qed.

(** C3, as the code has it.  With enough fuel for its loops (447 rounds),
    the first call of [getAllTaiwanGridIds] returns, and stores in the cache,
    the ids of the cells whose lower-left corner lies in
    [[21.492, 25.5) x [119.00, 122.5)]: 21.492 is the floor-aligned start,
    below [minLat = 21.5].  They come row by row, by ascending latitude and
    within each row by ascending longitude, 446 rows of 350 ids, without
    duplicates; every later call returns the cached sequence. *)
Theorem C3_getAllTaiwanGridIds (extra fuel : nat) :
  getAllTaiwanGridIds (447 + extra) None = Some (allCells, Some allCells)
  /\ getAllTaiwanGridIds fuel (Some allCells) = Some (allCells, Some allCells)
  /\ allCells
     = flat_map
         (fun k => List.map
                     (fun j => "grid_" ++ pointed 3 (Z.to_N (9 * k)) ++ "_"
                                 ++ pointed 2 (Z.to_N j))
                     (zrange 11900 350))
         (zrange 2388 446)
  /\ (forall id, In id allCells <->
        exists k j, 21492 <= 9 * k < 25500 /\ 11900 <= j < 12250 /\ id = cellId k j)
  /\ List.NoDup allCells
  /\ Z.of_nat (List.length allCells) = 156100
  /\ nth_error allCells 0 = Some "grid_21.492_119.00".
Proof.
  split; [apply getAllTaiwanGridIds_first_call|].
  split; [reflexivity|].
  split; [reflexivity|].
  split; [apply allCells_In|].
  split; [apply allCells_NoDup|].
  split; [apply allCells_length|].
  reflexivity.
Qed.

(** The first id returned is the cell at latitude 21.492, and the corner
    parsed from it is below [minLat]: the sequence is not made of cells whose
    corner lies in [[minLat, maxLat)]. *)
Lemma C3_counterexample :
  exists ids cache c,
    getAllTaiwanGridIds 447 None = Some (ids, cache)
    /\ In "grid_21.492_119.00" ids
    /\ gridIdToCoordinate "grid_21.492_119.00" = Some c
    /\ lt (lat c) (minLat TAIWAN_BOUNDS) = true.
Proof.
  exists allCells, (Some allCells),
    {| lat := ofDecimal false 21492 (-3); lon := ofDecimal false 11900 (-2) |}.
  split; [apply (getAllTaiwanGridIds_first_call 0)|].
  split; [apply allCells_In; exists 2388, 11900; repeat split; lia|].
  split; vm_compute; reflexivity.
Qed.

(** ** The viewport of [getVisibleGridIds] *)

Import Viewports.

Section MaxMin.

Variables (m : positive) (e : Z).
Let c : number := S754_finite false m e.

Lemma compare_self : SFcompare c c = Some Eq.
Proof.
  unfold c. simpl. rewrite Z.compare_refl. fold (Pos.compare m m).
  rewrite Pos.compare_refl. reflexivity.
Qed.

Lemma compare_Eq_finite (x : number) : SFcompare x c = Some Eq -> x = c.
Proof.
  unfold c. destruct x as [s|s| |s m' e']; simpl; try destruct s; try discriminate.
  destruct (Z.compare_spec e' e); try discriminate. subst e'.
  fold (Pos.compare m' m). destruct (Pos.compare_spec m' m); try discriminate.
  subst m'. reflexivity.
Qed.

Lemma compare_flip (x : number) (r : comparison) :
  SFcompare c x = Some r -> SFcompare x c = Some (CompOpp r).
Proof.
  unfold c. destruct x as [s|s| |s m' e']; simpl; try destruct s;
    try (intros [= <-]; reflexivity); try discriminate.
  rewrite (Z.compare_antisym e e'). fold (Pos.compare m m') (Pos.compare m' m).
  rewrite (Pos.compare_antisym m m').
  destruct (e ?= e'); simpl; intros [= <-]; reflexivity.
Qed.

(** [Math.max(x, c)] is [c] when [x <= c], and [Math.min(x, c)] is [c] when
    [x >= c]. *)
Lemma Math_max_below (x : number) : le x c = true -> Math_max x c = c.
Proof.
  unfold le, SFleb, Math_max. destruct (SFcompare x c) as [[]|] eqn:E; try discriminate.
  - intros _. apply compare_Eq_finite in E. rewrite E. reflexivity.
  - reflexivity.
Qed.

Lemma Math_min_above (x : number) : ge x c = true -> Math_min x c = c.
Proof.
  unfold ge, SFleb, Math_min. destruct (SFcompare c x) as [[]|] eqn:E; try discriminate;
    intros _; apply compare_flip in E; rewrite E; simpl.
  - apply compare_Eq_finite in E. rewrite E. reflexivity.
  - reflexivity.
Qed.

(** Clamping twice is clamping once. *)
Lemma Math_max_cases (x : number) :
  Math_max x c = NaN \/ Math_max x c = c
  \/ (Math_max x c = x /\ SFcompare x c = Some Gt).
Proof.
  unfold Math_max. destruct (SFcompare x c) as [[]|] eqn:E; auto.
  apply compare_Eq_finite in E. subst x. auto.
Qed.

Lemma Math_min_cases (x : number) :
  Math_min x c = NaN \/ Math_min x c = c
  \/ (Math_min x c = x /\ SFcompare x c = Some Lt).
Proof.
  unfold Math_min. destruct (SFcompare x c) as [[]|] eqn:E; auto.
  apply compare_Eq_finite in E. subst x. auto.
Qed.

Lemma Math_max_idem (x : number) : Math_max (Math_max x c) c = Math_max x c.
Proof.
  destruct (Math_max_cases x) as [H|[H|[H E]]]; rewrite H.
  - reflexivity.
  - unfold Math_max. rewrite compare_self. reflexivity.
  - unfold Math_max. rewrite E. reflexivity.
Qed.

Lemma Math_min_idem (x : number) : Math_min (Math_min x c) c = Math_min x c.
Proof.
  destruct (Math_min_cases x) as [H|[H|[H E]]]; rewrite H.
  - reflexivity.
  - unfold Math_min. rewrite compare_self. reflexivity.
  - unfold Math_min. rewrite E. reflexivity.
Qed.

End MaxMin.

Lemma clamp_idem (b : Viewport) : clamp (clamp b) = clamp b.
Proof.
  unfold clamp. cbn [north south east west].
  cbn [TAIWAN_BOUNDS minLat maxLat minLon maxLon].
  unfold lit_21_5, lit_25_5, lit_119_0, lit_122_5.
  rewrite !Math_max_idem, !Math_min_idem. reflexivity.
Qed.

Lemma getVisibleGridIds_clamp (fuel : nat) (b : Viewport) :
  getVisibleGridIds fuel b = getVisibleGridIds fuel (clamp b).
Proof.
  unfold getVisibleGridIds.
  change (Math_max (south (clamp b)) (minLat TAIWAN_BOUNDS)) with (south (clamp (clamp b))).
  change (Math_min (north (clamp b)) (maxLat TAIWAN_BOUNDS)) with (north (clamp (clamp b))).
  change (Math_max (west (clamp b)) (minLon TAIWAN_BOUNDS)) with (west (clamp (clamp b))).
  change (Math_min (east (clamp b)) (maxLon TAIWAN_BOUNDS)) with (east (clamp (clamp b))).
  rewrite clamp_idem. reflexivity.
Qed.

Lemma clamp_containsBounds (b : Viewport) :
  containsBounds b ->
  clamp b = {| north := maxLat TAIWAN_BOUNDS; south := minLat TAIWAN_BOUNDS;
               east := maxLon TAIWAN_BOUNDS; west := minLon TAIWAN_BOUNDS |}.
Proof.
  intros (Hs & Hn & Hw & He). unfold clamp.
  cbn [TAIWAN_BOUNDS minLat maxLat minLon maxLon] in *.
  unfold lit_21_5, lit_25_5, lit_119_0, lit_122_5 in *.
  rewrite (Math_max_below _ _ _ Hs), (Math_min_above _ _ _ Hn),
    (Math_max_below _ _ _ Hw), (Math_min_above _ _ _ He). reflexivity.
Qed.

Lemma getVisibleGridIds_whole (extra : nat) (b : Viewport) :
  containsBounds b -> getVisibleGridIds (447 + extra) b = Some allCells.
Proof.
  intros Hb. rewrite getVisibleGridIds_clamp, (clamp_containsBounds b Hb).
  unfold getVisibleGridIds. cbn [north south east west].
  replace (Math_max (minLat TAIWAN_BOUNDS) (minLat TAIWAN_BOUNDS))
    with (minLat TAIWAN_BOUNDS) by reflexivity.
  replace (Math_min (maxLat TAIWAN_BOUNDS) (maxLat TAIWAN_BOUNDS))
    with (maxLat TAIWAN_BOUNDS) by reflexivity.
  replace (Math_max (minLon TAIWAN_BOUNDS) (minLon TAIWAN_BOUNDS))
    with (minLon TAIWAN_BOUNDS) by reflexivity.
  replace (Math_min (maxLon TAIWAN_BOUNDS) (maxLon TAIWAN_BOUNDS))
    with (maxLon TAIWAN_BOUNDS) by reflexivity.
  fold startGridLat startGridLon.
  destruct (latLoop_whole _ _ extra visible_rows visible_cols) as (stop & ->).
  rewrite rev_append_rev_nil. reflexivity.
Qed.

Lemma while_stops {St : Type} (cond : St -> bool) (body : St -> option St)
    (fuel : nat) (st : St) :
  cond st = false -> while (S fuel) cond body st = Some st.
Proof. intros H. simpl. rewrite H. reflexivity. Qed.

(** No row is enumerated when the first row is already past the clamped
    north edge. *)
Lemma getVisibleGridIds_no_row (fuel : nat) (b : Viewport) :
  le (firstRow b) (north (clamp b)) = false ->
  getVisibleGridIds (S fuel) b = Some [].
Proof.
  intros H. unfold getVisibleGridIds, latLoop. cbv zeta.
  rewrite while_stops; [reflexivity|exact H].
Qed.

(** ** C8 *)

Import Prisma MistPercentage Explored.

Lemma coordinateToGridId_truthy (lat lon : number) (gridId : string) :
  coordinateToGridId lat lon = Some gridId -> truthy gridId = true.
Proof.
  unfold coordinateToGridId. destruct (negb (isInTaiwanBounds lat lon)); [discriminate|].
  intros [= <-]. reflexivity.
Qed.

Lemma visit_cellOf (X : gset string) (f : Footprint) :
  visit X f = match cellOf f with Some gridId => {[ gridId ]} ∪ X | None => X end.
Proof.
  unfold visit, cellOf, parseCoordinate. destruct (coordinate f) as [c|]; [|reflexivity].
  destruct (negb (truthy c)); [reflexivity|].
  destruct (split "," c) as [|latStr [|lonStr parts]]; cbn [isNaN NaN orb].
  - reflexivity.
  - rewrite orb_true_r. reflexivity.
  - destruct (isNaN (parseFloat latStr) || isNaN (parseFloat lonStr)); [reflexivity|].
    destruct (coordinateToGridId _ _) as [gridId|] eqn:E; [|reflexivity].
    rewrite (coordinateToGridId_truthy _ _ _ E). reflexivity.
Qed.

Lemma fold_left_visit (footprints : list Footprint) (X : gset string) :
  fold_left visit footprints X = list_to_set (omap cellOf footprints) ∪ X.
Proof.
  revert X. induction footprints as [|f l IH]; intros X; simpl.
  - set_solver.
  - rewrite IH, visit_cellOf. destruct (cellOf f); simpl; set_solver.
Qed.

Lemma exploredSet_list (footprints : list Footprint) :
  exploredSet footprints = list_to_set (omap cellOf footprints).
Proof. unfold exploredSet. rewrite fold_left_visit. set_solver. Qed.

Lemma exploredSet_elem (footprints : list Footprint) (gridId : string) :
  gridId ∈ exploredSet footprints <->
  exists f, In f footprints /\ cellOf f = Some gridId.
Proof.
  rewrite exploredSet_list, elem_of_list_to_set, list_elem_of_omap.
  split; intros (f & H1 & H2); exists f; split; try assumption;
    apply list_elem_of_In; assumption.
Qed.

Lemma exploredSet_app (l l' : list Footprint) :
  exploredSet (l ++ l')%list = exploredSet l ∪ exploredSet l'.
Proof.
  rewrite !exploredSet_list, omap_app. apply list_to_set_app_L.
Qed.

Lemma cellOf_Some (f : Footprint) (gridId : string) :
  cellOf f = Some gridId <->
  exists c lat lon,
    coordinate f = Some c /\ c <> ""
    /\ parseCoordinate c = (lat, lon)
    /\ isNaN lat = false /\ isNaN lon = false
    /\ coordinateToGridId lat lon = Some gridId.
Proof.
  unfold cellOf, truthy. destruct (coordinate f) as [c|].
  - rewrite negb_involutive. destruct (String.eqb_spec c "") as [->|Hc].
    + split; [discriminate|]. intros (c & lat & lon & [= <-] & H & _). congruence.
    + destruct (parseCoordinate c) as [lat lon] eqn:P.
      destruct (isNaN lat) eqn:E1, (isNaN lon) eqn:E2; cbn [orb];
        (split; [try discriminate; intros H; exists c, lat, lon; auto 10
                |intros (c' & lat' & lon' & [= <-] & _ & P' & H1 & H2 & H);
                 rewrite P in P'; injection P' as <- <-; congruence]).
  - split; [discriminate|]. intros (c & lat & lon & H & _). discriminate.
Qed.

(** ** When [parseFloat] gives [NaN] *)

Lemma shr_1_nonneg (r : shr_record) : 0 <= shr_m r -> 0 <= shr_m (shr_1 r).
Proof. intros H. rewrite (shr_1_m r H). apply Z.div_pos; lia. Qed.

Lemma shr_nonneg (r : shr_record) (e n : Z) : 0 <= shr_m r -> 0 <= shr_m (fst (shr r e n)).
Proof.
  intros H. unfold shr. destruct n as [|p|p]; cbn [fst]; try exact H.
  rewrite iter_pos_nat. induction (Pos.to_nat p) as [|k IH]; [exact H|].
  rewrite Nat.iter_succ. apply shr_1_nonneg, IH.
Qed.

Lemma shr_fexp_nonneg (m e : Z) (l : location) :
  0 <= m -> 0 <= shr_m (fst (shr_fexp prec emax m e l)).
Proof.
  intros H. unfold shr_fexp. apply shr_nonneg. rewrite shr_record_of_loc_m. exact H.
Qed.

Lemma binary_round_aux_number (s : bool) (mx ex : Z) (lx : location) :
  0 <= mx -> isNaN (binary_round_aux prec emax s mx ex lx) = false.
Proof.
  intros H. unfold binary_round_aux.
  pose proof (shr_fexp_nonneg mx ex lx H) as H1.
  destruct (shr_fexp prec emax mx ex lx) as [mrs' e']. cbn [fst] in H1.
  pose proof (round_nearest_even_bounds (shr_m mrs') (loc_of_shr_record mrs')) as H2.
  assert (H3 : 0 <= round_nearest_even (shr_m mrs') (loc_of_shr_record mrs')) by lia.
  pose proof (shr_fexp_nonneg _ e' loc_Exact H3) as H4.
  destruct (shr_fexp prec emax _ e' loc_Exact) as [mrs'' e'']. cbn [fst] in H4.
  destruct (shr_m mrs'') as [|p|p]; [reflexivity| |lia].
  destruct (e'' <=? emax - prec); reflexivity.
Qed.

Lemma ofRatio_number (s : bool) (p q : positive) : isNaN (ofRatio s p q) = false.
Proof.
  unfold ofRatio, SFdiv_core_binary.
  set (m' := match _ with Z0 => Zpos p | Zpos _ => _ | Zneg _ => _ end).
  assert (H : 0 <= m').
  { unfold m'. destruct (_ - _ - _) as [|k|k]; try lia. apply Z.shiftl_nonneg. lia. }
  rewrite div_eucl_div_mod. apply binary_round_aux_number. apply Z.div_pos; lia.
Qed.

Lemma ofDecimal_number (s : bool) (n : N) (e10 : Z) : isNaN (ofDecimal s n e10) = false.
Proof.
  unfold ofDecimal. destruct n as [|p]; [reflexivity|].
  destruct e10; apply ofRatio_number.
Qed.

(** [scanDigits] counts no digit exactly when the text does not begin with
    one, and then leaves the text as it is. *)
Lemma scanDigits_count (s : list ascii) (acc : N) (cnt : nat) :
  match s with
  | c :: _ =>
      if isDigit c then exists v n r, scanDigits s acc cnt = (v, S n, r)
      else scanDigits s acc cnt = (acc, cnt, s)
  | [] => scanDigits s acc cnt = (acc, cnt, s)
  end.
Proof.
  destruct s as [|c s]; [reflexivity|]. unfold isDigit. cbn [scanDigits].
  destruct (digitValue c) as [d|]; [|reflexivity].
  generalize (10 * acc + d)%N. generalize cnt. clear.
  induction s as [|c s IH]; intros cnt acc.
  - exists acc, cnt, []. reflexivity.
  - cbn [scanDigits]. destruct (digitValue c) as [d|]; [apply IH|].
    exists acc, cnt, (c :: s). reflexivity.
Qed.

Lemma parseUnsigned_NaN (sg : bool) (s : list ascii) :
  isNaN (parseUnsigned sg s) = negb (startsNumber s).
Proof.
  unfold parseUnsigned, startsNumber.
  destruct (isPrefix (list_ascii_of_string "Infinity") s); [reflexivity|].
  cbn [orb]. pose proof (scanDigits_count s 0%N O) as H.
  destruct s as [|c s].
  - rewrite H. reflexivity.
  - destruct (isDigit c) eqn:Hc.
    + destruct H as (v & n & r & ->). cbn [orb negb].
      destruct r as [|c' t]; [apply ofDecimal_number|].
      destruct (Ascii.eqb_spec c' "."%char) as [->|Hne].
      * destruct (scanDigits t v 0) as [[m k] r']. apply ofDecimal_number.
      * assert (E : match c' with "."%char => true | _ => false end = false).
        { destruct c' as [[] [] [] [] [] [] [] []]; try reflexivity.
          contradiction Hne. reflexivity. }
        destruct c' as [[] [] [] [] [] [] [] []]; try apply ofDecimal_number.
        discriminate E.
    + rewrite H. cbn [orb].
      destruct (Ascii.eqb_spec c "."%char) as [->|Hne]; cbn [andb].
      * pose proof (scanDigits_count s 0%N O) as H'.
        destruct s as [|d s]; [rewrite H'; reflexivity|].
        destruct (isDigit d).
        -- destruct H' as (v & n & r & ->). apply ofDecimal_number.
        -- rewrite H'. reflexivity.
      * destruct c as [[] [] [] [] [] [] [] []]; try reflexivity.
        contradiction Hne. reflexivity.
Qed.

Lemma parseFloat_NaN (str : string) : isNaN (parseFloat str) = negb (readsNumber str).
Proof.
  unfold parseFloat, readsNumber.
  destruct (trimStart (list_ascii_of_string str)) as [|c s]; [apply parseUnsigned_NaN|].
  destruct c as [[] [] [] [] [] [] [] []]; apply parseUnsigned_NaN.
Qed.

Lemma truthy_false (c : string) : truthy c = false -> c = "".
Proof.
  unfold truthy. destruct (String.eqb_spec c ""); [trivial|discriminate].
Qed.

Lemma coordinateToGridId_None (lat lon : number) :
  coordinateToGridId lat lon = None <-> isInTaiwanBounds lat lon = false.
Proof.
  unfold coordinateToGridId. destruct (isInTaiwanBounds lat lon); cbn [negb].
  - split; discriminate.
  - split; reflexivity.
Qed.

(** The cell of a record, by the fields of its coordinate text. *)
Lemma cellOf_fields (f : Footprint) :
  cellOf f
  = match coordinate f with
    | None => None
    | Some c =>
        match split "," c with
        | latStr :: lonStr :: _ =>
            if readsNumber latStr && readsNumber lonStr
            then coordinateToGridId (parseFloat latStr) (parseFloat lonStr)
            else None
        | _ => None
        end
    end.
Proof.
  unfold cellOf, parseCoordinate. destruct (coordinate f) as [c|]; [|reflexivity].
  destruct (truthy c) eqn:T; cbn [negb].
  - destruct (split "," c) as [|latStr [|lonStr parts]]; cbn [isNaN NaN orb].
    + reflexivity.
    + rewrite orb_true_r. reflexivity.
    + rewrite !parseFloat_NaN.
      destruct (readsNumber latStr), (readsNumber lonStr); reflexivity.
  - rewrite (truthy_false c T). reflexivity.
Qed.

(** C8.  [exploredSet] is a total function of the list of records: no input
    makes it fail.  A record contributes the cell of its coordinate when its
    coordinate text has at least two comma-separated fields, [parseFloat]
    reads a number at the front of the first and of the second (after white
    space and a sign: [Infinity], a digit, or a point and a digit), and the
    two numbers are inside the bounds; what follows the number in a field,
    and any further field, is ignored.  Every other record is skipped: it
    leaves the set as it is.  A grid id is in the result exactly when some
    record contributes it.  The result does not depend on the order of the
    records.  The two records [25.0330,121.5654] and [25.0335,121.5658]
    give a set of size 1. *)
Theorem C8_exploredSet (footprints footprints' : list Footprint) :
  (forall gridId,
      gridId ∈ exploredSet footprints <->
      exists f c latStr lonStr parts,
        In f footprints /\ coordinate f = Some c
        /\ split "," c = latStr :: lonStr :: parts
        /\ readsNumber latStr = true /\ readsNumber lonStr = true
        /\ isInTaiwanBounds (parseFloat latStr) (parseFloat lonStr) = true
        /\ coordinateToGridId (parseFloat latStr) (parseFloat lonStr) = Some gridId)
  /\ (forall f,
        cellOf f = None <->
        coordinate f = None
        \/ exists c,
             coordinate f = Some c
             /\ forall latStr lonStr parts,
                  split "," c = latStr :: lonStr :: parts ->
                  readsNumber latStr = false \/ readsNumber lonStr = false
                  \/ isInTaiwanBounds (parseFloat latStr) (parseFloat lonStr) = false)
  /\ (forall f, cellOf f = None ->
        exploredSet (footprints ++ [f])%list = exploredSet footprints)
  /\ (forall str, isNaN (parseFloat str) = negb (readsNumber str))
  /\ (Permutation footprints footprints' -> exploredSet footprints = exploredSet footprints')
  /\ exploredSet skippedRecords = ∅
  /\ exploredSet dedupRecords = {[ "grid_25.029_121.56" ]}
  /\ size (exploredSet dedupRecords) = 1%nat.
Proof.
  split.
  { intros gridId. rewrite exploredSet_elem. split.
    - intros (f & Hf & H). rewrite cellOf_fields in H.
      destruct (coordinate f) as [c|] eqn:C; [|discriminate].
      destruct (split "," c) as [|latStr [|lonStr parts]] eqn:S; try discriminate.
      destruct (readsNumber latStr) eqn:R1, (readsNumber lonStr) eqn:R2;
        try discriminate. cbn [andb] in H.
      exists f, c, latStr, lonStr, parts.
      split; [exact Hf|]. split; [exact C|]. split; [exact S|].
      split; [exact R1|]. split; [exact R2|]. split; [|exact H].
      destruct (isInTaiwanBounds (parseFloat latStr) (parseFloat lonStr)) eqn:B;
        [reflexivity|]. apply coordinateToGridId_None in B. congruence.
    - intros (f & c & latStr & lonStr & parts & Hf & C & S & R1 & R2 & _ & H).
      exists f. split; [exact Hf|]. rewrite cellOf_fields, C, S, R1, R2. exact H. }
  split.
  { intros f. rewrite cellOf_fields. destruct (coordinate f) as [c|].
    - destruct (split "," c) as [|latStr [|lonStr parts]] eqn:S.
      + split; [|reflexivity]. intros _. right. exists c. split; [reflexivity|].
        intros a b p H. rewrite S in H. discriminate H.
      + split; [|reflexivity]. intros _. right. exists c. split; [reflexivity|].
        intros a b p H. rewrite S in H. discriminate H.
      + destruct (readsNumber latStr) eqn:R1; cbn [andb].
        2:{ split; [|reflexivity]. intros _. right. exists c. split; [reflexivity|].
            intros a b p H. rewrite S in H. injection H as <- <- <-. left. exact R1. }
        destruct (readsNumber lonStr) eqn:R2.
        2:{ split; [|reflexivity]. intros _. right. exists c. split; [reflexivity|].
            intros a b p H. rewrite S in H. injection H as <- <- <-.
            right. left. exact R2. }
        rewrite coordinateToGridId_None. split.
        * intros B. right. exists c. split; [reflexivity|].
          intros a b p H. rewrite S in H. injection H as <- <- <-.
          right. right. exact B.
        * intros [H|(c' & [= <-] & H)]; [discriminate H|].
          destruct (H _ _ _ S) as [A|[A|A]]; congruence.
    - split; [|reflexivity]. intros _. left. reflexivity. }
  split.
  { intros f Hf. rewrite exploredSet_app.
    replace (exploredSet [f]) with (∅ : gset string); [set_solver|].
    unfold exploredSet. cbn [fold_left]. rewrite visit_cellOf, Hf. reflexivity. }
  split; [exact parseFloat_NaN|].
  split.
  { intros HP. apply set_eq. intros x. rewrite !exploredSet_elem.
    split; intros (f & Hf & H); exists f; split; try assumption.
    - apply (Permutation_in _ HP Hf).
    - apply (Permutation_in _ (Permutation_sym HP) Hf). }
  assert (D : exploredSet dedupRecords = {[ "grid_25.029_121.56" ]}).
  { rewrite exploredSet_list.
    replace (omap cellOf dedupRecords)
      with ["grid_25.029_121.56"; "grid_25.029_121.56"] by (vm_compute; reflexivity).
    set_solver. }
  split.
  { rewrite exploredSet_list.
    replace (omap cellOf skippedRecords) with (@nil string) by (vm_compute; reflexivity).
    reflexivity. }
  split; [exact D|]. rewrite D. apply size_singleton.
Qed.

Lemma C8_witness :
  exploredSet dedupRecords = exploredSet (List.rev dedupRecords)
  /\ exploredSet (dedupRecords ++ [footprintAt 3 "u" (Some "abc,def")])%list
     = exploredSet dedupRecords.
Proof.
  split.
  - apply (proj1 (proj2 (proj2 (proj2 (proj2
             (C8_exploredSet dedupRecords (List.rev dedupRecords))))))).
    apply Permutation_rev.
  - apply (proj1 (proj2 (proj2 (C8_exploredSet dedupRecords [])))).
    vm_compute. reflexivity.
Defined.

(** C8, as stated, fails: a coordinate text that is not two decimal numbers
    joined by a comma is not always skipped.  [parseFloat] reads the number
    at the front of a field and ignores what follows it, it skips white
    space before the number, and a third field is never looked at. *)
Lemma C8_counterexample :
  decimalPair "25.0330,121.5654" = true
  /\ decimalPair "25.0330abc,121.5654xyz" = false
  /\ decimalPair " 25.0330, 121.5654,7" = false
  /\ decimalNumber "25.0330abc" = false
  /\ decimalNumber " 121.5654" = false
  /\ cellOf (footprintAt 1 "u" (Some "25.0330abc,121.5654xyz")) = Some "grid_25.029_121.56"
  /\ cellOf (footprintAt 1 "u" (Some " 25.0330, 121.5654,7")) = Some "grid_25.029_121.56"
  /\ exploredSet [ footprintAt 1 "u" (Some "25.0330abc,121.5654xyz") ]
     = {[ "grid_25.029_121.56" ]}
  /\ exploredSet [ footprintAt 1 "u" (Some " 25.0330, 121.5654,7") ]
     = {[ "grid_25.029_121.56" ]}.
Proof.
  rewrite !exploredSet_list.
  replace (omap cellOf [footprintAt 1 "u" (Some "25.0330abc,121.5654xyz")])
    with ["grid_25.029_121.56"] by (vm_compute; reflexivity).
  replace (omap cellOf [footprintAt 1 "u" (Some " 25.0330, 121.5654,7")])
    with ["grid_25.029_121.56"] by (vm_compute; reflexivity).
  split; [vm_compute; reflexivity|]. split; [vm_compute; reflexivity|].
  split; [vm_compute; reflexivity|]. split; [vm_compute; reflexivity|].
  split; [vm_compute; reflexivity|]. split; [vm_compute; reflexivity|].
  split; [vm_compute; reflexivity|]. split; set_solver.
Qed.

(** ** The percentage: C4 and C6 *)

(** On every count of explored cells that can occur, from 0 to 156546, the
    floating-point expression of the code evaluates to the integer nearest
    to the exact percentage. *)
Lemma percentageOfZ_exact (e : Z) :
  0 <= e <= 156546 -> percentageOfZ e 156100 = ofZ (nearestPercent e 156100).
Proof.
  intros He. destruct (Z.eq_dec e 0) as [->|Hne]; [vm_compute; reflexivity|].
  apply (coverCheck_sound percentageIntervals 1 156546 e percentage_cover). lia.
Qed.

Lemma nearestPercent_range (e : Z) : 0 <= e <= 156546 -> 0 <= nearestPercent e 156100 <= 100.
Proof.
  intros He. unfold nearestPercent. split.
  - apply Z.div_pos; lia.
  - assert ((200 * e + 156100) / (2 * 156100) < 101); [|lia].
    apply Z.div_lt_upper_bound; lia.
Qed.

Lemma nearestPercent_nearest (e : Z) :
  2 * 156100 * nearestPercent e 156100 - 156100 <= 200 * e
  < 2 * 156100 * nearestPercent e 156100 + 156100.
Proof.
  unfold nearestPercent.
  pose proof (Z.div_mod (200 * e + 156100) (2 * 156100) ltac:(lia)).
  pose proof (Z.mod_pos_bound (200 * e + 156100) (2 * 156100) ltac:(lia)). lia.
Qed.

Lemma ofZ_le_table :
  forallb (fun a => forallb (fun b => negb (a <=? b) || le (ofZ a) (ofZ b)) (zrange 0 101))
    (zrange 0 101) = true.
Proof. vm_compute. reflexivity. Qed.

Lemma ofZ_le (a b : Z) : 0 <= a -> a <= b -> b <= 100 -> le (ofZ a) (ofZ b) = true.
Proof.
  intros Ha Hab Hb. pose proof ofZ_le_table as T. rewrite forallb_forall in T.
  specialize (T a ltac:(apply zrange_In; lia)). rewrite forallb_forall in T.
  specialize (T b ltac:(apply zrange_In; lia)).
  destruct (Z.leb_spec a b); [exact T|lia].
Qed.

(** The cells a record can contribute are the reachable cells, so at most
    156546 cells are ever explored. *)
Lemma cellOf_reachable (f : Footprint) (gridId : string) :
  cellOf f = Some gridId -> In gridId reachableCells.
Proof.
  intros H. apply cellOf_Some in H. destruct H as (c & lat & lon & _ & _ & _ & _ & _ & H).
  assert (Hin : isInTaiwanBounds lat lon = true).
  { unfold coordinateToGridId in H. destruct (isInTaiwanBounds lat lon); [reflexivity|].
    discriminate. }
  destruct (coordinateToGridId_cell _ _ Hin) as (k & j & Hk & Hj & _ & _ & E).
  rewrite E in H. injection H as <-. apply rowMajor_In. exists k, j.
  unfold rows, colsInclusive. rewrite !zrange_In. repeat split; lia.
Qed.

Lemma reachableCells_size : Z.of_nat (size (list_to_set reachableCells : gset string)) = 156546.
Proof.
  rewrite size_list_to_set.
  - unfold reachableCells, rows, colsInclusive, zrange.
    rewrite rowMajor_length, !List.length_map, !List.length_seq, Nat2Z.inj_mul. reflexivity.
  - apply NoDup_ListNoDup. apply rowMajor_NoDup; try apply zrange_NoDup.
    + intros k H. apply zrange_In in H. lia.
    + intros j H. apply zrange_In in H. lia.
Qed.

Lemma exploredSet_size (footprints : list Footprint) :
  0 <= Z.of_nat (size (exploredSet footprints)) <= 156546.
Proof.
  split; [lia|]. rewrite <- reachableCells_size. apply Nat2Z.inj_le, subseteq_size.
  intros x Hx. apply exploredSet_elem in Hx. destruct Hx as (f & _ & Hf).
  apply elem_of_list_to_set, list_elem_of_In, (cellOf_reachable f), Hf.
Qed.

Lemma allCells_nonempty : Nat.eqb (List.length allCells) 0 = false.
Proof. apply Nat.eqb_neq. pose proof allCells_length. lia. Qed.

(** The percentage over the real grid, as an integer. *)
Lemma coverage_allCells (userId : string) (t : Table) :
  coverage allCells userId t
  = {| status := 200;
       percentage :=
         ofZ (nearestPercent (Z.of_nat (size (exploredSet (findMany userId t)))) 156100) |}.
Proof.
  unfold coverage. rewrite allCells_nonempty. f_equal.
  unfold percentageOf, ofNat. rewrite allCells_length.
  apply percentageOfZ_exact, exploredSet_size.
Qed.

Lemma GET_first_call (extra : nat) (userId : string) (t : Table) :
  truthy userId = true ->
  GET (447 + extra) None (Some userId) t = Some (coverage allCells userId t, Some allCells).
Proof.
  intros Hu. unfold GET. rewrite Hu. cbn [negb].
  rewrite getAllTaiwanGridIds_first_call. reflexivity.
Qed.

Lemma oneVisit_explored : exploredSet (findMany "u" oneVisit) = {[ "grid_25.029_121.56" ]}.
Proof.
  rewrite exploredSet_list.
  replace (omap cellOf (findMany "u" oneVisit)) with ["grid_25.029_121.56"]
    by (vm_compute; reflexivity).
  set_solver.
Qed.

Lemma oneVisit_size : size (exploredSet (findMany "u" oneVisit)) = 1%nat.
Proof. rewrite oneVisit_explored. apply size_singleton. Qed.

(** C4, as the code has it.  The handler returns 0 when there is no cell at
    all; otherwise it returns [Math.round((exploredCount / totalGrids) * 100)],
    the percentage rounded to a whole number.  On the real grid of 156100
    cells that number is the integer nearest to [100 * e / 156100], where [e]
    is the size of the explored set, and it lies between 0 and 100.  With
    4 cells of which 1 is explored it is 25. *)
Theorem C4_percentage (allGridIds : list string) (userId : string) (t : Table)
    (extra : nat) :
  (allGridIds = [] ->
     coverage allGridIds userId t = {| status := 200; percentage := S754_zero false |})
  /\ (allGridIds <> [] ->
      percentage (coverage allGridIds userId t)
      = Math_round
          (mul (div (ofNat (size (exploredSet (findMany userId t))))
                  (ofNat (List.length allGridIds))) hundred))
  /\ (truthy userId = true ->
      let e := Z.of_nat (size (exploredSet (findMany userId t))) in
      let n := nearestPercent e 156100 in
      GET (447 + extra) None (Some userId) t
      = Some ({| status := 200; percentage := ofZ n |}, Some allCells)
      /\ 0 <= n <= 100
      /\ 2 * 156100 * n - 156100 <= 200 * e < 2 * 156100 * n + 156100)
  /\ (size (exploredSet (findMany "u" oneVisit)) = 1%nat
      /\ percentage (coverage fourCells "u" oneVisit) = ofZ 25).
Proof.
  split; [intros ->; reflexivity|].
  split.
  { intros Hne. unfold coverage. destruct allGridIds; [congruence|]. reflexivity. }
  split.
  { intros Hu. cbv zeta. rewrite (GET_first_call _ _ _ Hu), coverage_allCells.
    split; [reflexivity|]. split.
    - apply nearestPercent_range, exploredSet_size.
    - apply nearestPercent_nearest. }
  split; [apply oneVisit_size|].
  unfold coverage. cbn [fourCells List.length Nat.eqb percentage].
  rewrite oneVisit_size. vm_compute. reflexivity.
Qed.

Lemma C4_witness :
  GET 447 None (Some "u") oneVisit
  = Some ({| status := 200; percentage := ofZ (nearestPercent (Z.of_nat
              (size (exploredSet (findMany "u" oneVisit)))) 156100) |}, Some allCells).
Proof.
  apply (proj1 (proj2 (proj2 (C4_percentage [] "u" oneVisit 0))) eq_refl).
Defined.

(** One explored cell out of the 156100 of the real grid: the handler
    returns 0, which is not [100 * 1 / 156100]; one explored cell out of
    three: it returns 33, which is not [100 * 1 / 3]. *)
Lemma C4_counterexample :
  size (exploredSet (findMany "u" oneVisit)) = 1%nat
  /\ Z.of_nat (List.length allCells) = 156100
  /\ GET 447 None (Some "u") oneVisit
     = Some ({| status := 200; percentage := ofZ 0 |}, Some allCells)
  /\ 0 * 156100 <> 100 * 1
  /\ percentage (coverage threeCells "u" oneVisit) = ofZ 33
  /\ 33 * 3 <> 100 * 1.
Proof.
  split; [apply oneVisit_size|]. split; [apply allCells_length|].
  split.
  { change 447%nat with (447 + 0)%nat.
    rewrite (GET_first_call 0 "u" oneVisit eq_refl), coverage_allCells, oneVisit_size.
    reflexivity. }
  split; [lia|]. split; [|lia].
  unfold coverage. cbn [threeCells List.length Nat.eqb percentage].
  rewrite oneVisit_size. vm_compute. reflexivity.
Qed.

(** ** C6 *)

Lemma findMany_app (userId : string) (t t' : Table) :
  findMany userId (t ++ t')%list = (findMany userId t ++ findMany userId t')%list.
Proof. unfold findMany. apply List.filter_app. Qed.

(** What one more record adds to the explored set of a user. *)
Lemma exploredSet_one_more (userId : string) (t : Table) (f : Footprint) :
  exploredSet (findMany userId (t ++ [f])%list)
  = exploredSet (findMany userId t) ∪ exploredSet (findMany userId [f])
  /\ (exploredSet (findMany userId [f]) = ∅
      \/ exists gridId, cellOf f = Some gridId /\ user_id f = userId
                        /\ exploredSet (findMany userId [f]) = {[ gridId ]}).
Proof.
  rewrite findMany_app, exploredSet_app. split; [reflexivity|].
  unfold findMany. cbn [List.filter].
  destruct (String.eqb_spec (user_id f) userId) as [Hu|Hu]; cbn [andb];
    [|left; reflexivity].
  destruct (coordinate f) as [c|] eqn:Ec; [|left; reflexivity].
  unfold exploredSet. cbn [fold_left]. rewrite visit_cellOf.
  destruct (cellOf f) as [gridId|] eqn:E; [|left; reflexivity].
  right. exists gridId. repeat split; try assumption. set_solver.
Qed.

(** C6, as the code has it.  On the real grid, the percentage computed after
    one more record is added to the table is never smaller than before, and
    it is the same whenever the record adds no new cell: it is skipped, it
    maps to a cell that is already explored, or it belongs to another user.
    (A record that adds a new cell may leave the rounded percentage
    unchanged as well.) *)
Theorem C6_monotone (userId : string) (t : Table) (f : Footprint) :
  let p := percentage (coverage allCells userId t) in
  let p' := percentage (coverage allCells userId (t ++ [f])%list) in
  le p p' = true
  /\ (cellOf f = None -> p' = p)
  /\ ((exists gridId, cellOf f = Some gridId
                      /\ (gridId ∈ exploredSet (findMany userId t))) -> p' = p)
  /\ (user_id f <> userId -> p' = p).
Proof.
  cbv zeta. rewrite !coverage_allCells. cbn [percentage].
  destruct (exploredSet_one_more userId t f) as [-> H].
  split.
  { apply ofZ_le.
    - apply nearestPercent_range, exploredSet_size.
    - unfold nearestPercent. apply Z.div_le_mono; [lia|].
      assert (size (exploredSet (findMany userId t))
              <= size (exploredSet (findMany userId t) ∪ exploredSet (findMany userId [f])))%nat
        by (apply subseteq_size; set_solver).
      lia.
    - rewrite <- exploredSet_app, <- findMany_app.
      apply nearestPercent_range, exploredSet_size. }
  assert (Same : exploredSet (findMany userId [f]) ⊆ exploredSet (findMany userId t) ->
                 ofZ (nearestPercent (Z.of_nat (size (exploredSet (findMany userId t)
                        ∪ exploredSet (findMany userId [f])))) 156100)
                 = ofZ (nearestPercent (Z.of_nat (size (exploredSet (findMany userId t))))
                          156100)).
  { intros Hsub. replace (exploredSet (findMany userId t) ∪ exploredSet (findMany userId [f]))
      with (exploredSet (findMany userId t)) by set_solver. reflexivity. }
  split; [|split].
  - intros Hf. apply Same. destruct H as [->|(g & Hg & _)]; [set_solver|congruence].
  - intros (gridId & Hf & Hin). apply Same.
    destruct H as [->|(g & Hg & _ & ->)]; [set_solver|].
    assert (g = gridId) by congruence. set_solver.
  - intros Hu. apply Same. destruct H as [->|(g & _ & Hg & _)]; [set_solver|congruence].
Qed.

Lemma C6_witness :
  percentage (coverage allCells "u" (oneVisit ++ [footprintAt 2 "u" None])%list)
  = percentage (coverage allCells "u" oneVisit).
Proof.
  apply (proj1 (proj2 (C6_monotone "u" oneVisit (footprintAt 2 "u" None))) eq_refl).
Defined.

(** The first record of a user maps to a cell that is not yet explored, and
    the percentage stays at 0. *)
Lemma C6_counterexample :
  cellOf (footprintAt 1 "u" (Some "25.0330,121.5654")) = Some "grid_25.029_121.56"
  /\ ("grid_25.029_121.56" ∉ exploredSet (findMany "u" []))
  /\ ("grid_25.029_121.56"
       ∈ exploredSet (findMany "u" ([] ++ [footprintAt 1 "u" (Some "25.0330,121.5654")])%list))
  /\ percentage (coverage allCells "u" ([] ++ [footprintAt 1 "u" (Some "25.0330,121.5654")])%list)
     = percentage (coverage allCells "u" []).
Proof.
  split; [vm_compute; reflexivity|].
  split; [set_solver|].
  split.
  { change ([] ++ [footprintAt 1 "u" (Some "25.0330,121.5654")])%list with oneVisit.
    rewrite oneVisit_explored. set_solver. }
  change ([] ++ [footprintAt 1 "u" (Some "25.0330,121.5654")])%list with oneVisit.
  rewrite !coverage_allCells, oneVisit_size. reflexivity.
Qed.

(** ** C5 *)

Lemma findFirst_app (userId key : string) (t : Table) (f : Footprint) :
  findFirst userId key (t ++ [f])%list
  = match findFirst userId key t with
    | Some x => Some x
    | None => if hasCoordinate userId key f then Some f else None
    end.
Proof.
  unfold findFirst. induction t as [|x t IH]; simpl; [reflexivity|].
  destruct (hasCoordinate userId key x); [reflexivity|exact IH].
Qed.

(** [update] changes nothing but [Update_time], and only in rows of the
    given id. *)
Lemma update_frame (id' : nat) (now : Z) (t : Table) :
  List.map (fun f => (id f, user_id f, coordinate f, Create_time f)) (update id' now t)
  = List.map (fun f => (id f, user_id f, coordinate f, Create_time f)) t
  /\ List.map Update_time (update id' now t)
     = List.map (fun f => if Nat.eqb (id f) id' then Some now else Update_time f) t.
Proof.
  unfold update. rewrite !List.map_map. split; apply List.map_ext; intros f;
    destruct (Nat.eqb (id f) id'); reflexivity.
Qed.

Lemma POST_out_of_bounds (now : Z) (userId : string) (lat lon : number) (t : Table) :
  truthy userId = true -> isInTaiwanBounds lat lon = false ->
  POST now (Some userId) (visitBody lat lon) t = (BadRequest "out of bounds", t).
Proof.
  intros Hu Hb. unfold POST, visitBody, coordinateToGridId. cbn [body_lat body_lon].
  rewrite Hu, Hb. reflexivity.
Qed.

Lemma POST_in_bounds (now : Z) (userId : string) (lat lon : number) (t : Table) :
  truthy userId = true -> isInTaiwanBounds lat lon = true ->
  POST now (Some userId) (visitBody lat lon) t
  = match findFirst userId (visitKey lat lon) t with
    | Some existingFootprint => (Updated, update (id existingFootprint) now t)
    | None =>
        (Created,
         (t ++ [ {| id := freshId t; user_id := userId;
                    coordinate := Some (visitKey lat lon);
                    Create_time := Some now; Update_time := Some now |} ])%list)
    end.
Proof.
  intros Hu Hb. unfold POST, visitBody, coordinateToGridId. cbn [body_lat body_lon].
  rewrite Hu, Hb. cbn [negb]. reflexivity.
Qed.

Lemma hasCoordinate_refl (userId key : string) (n : nat) (c u : option Z) :
  hasCoordinate userId key
    {| id := n; user_id := userId; coordinate := Some key; Create_time := c;
       Update_time := u |} = true.
Proof. unfold hasCoordinate. cbn. rewrite !String.eqb_refl. reflexivity. Qed.

Lemma hasCoordinate_other (userId key key' : string) (n : nat) (c u : option Z) :
  key <> key' ->
  hasCoordinate userId key'
    {| id := n; user_id := userId; coordinate := Some key; Create_time := c;
       Update_time := u |} = false.
Proof.
  intros H. unfold hasCoordinate. cbn. rewrite String.eqb_refl.
  destruct (String.eqb_spec key key'); [contradiction|reflexivity].
Qed.

(** The other handler, [explore-grid], stores the centre of the cell instead
    of the raw coordinate: there two visits of one cell end as one row. *)
Example ExploreGrid_one_row_per_cell :
  exists row gridId,
    ExploreGrid.POST (Some "u") (visitBody (fst rawA) (snd rawA)) []
    = (ExploreGrid.Explored false 1 gridId (Some "25.0335,121.565"), [row])
    /\ ExploreGrid.POST (Some "u") (visitBody (fst rawB) (snd rawB)) [row]
       = (ExploreGrid.Explored true 1 gridId (Some "25.0335,121.565"), [row]).
Proof. eexists _, _. split; vm_compute; reflexivity. Qed.

(** ** C9 and C10: from an id back to a coordinate *)

(** C9 at the coordinate (25.0, 119.075).  Its id is [grid_24.993_119.07];
    the corner parsed from that id is (24.993, 119.07); re-encoding the
    corner gives [grid_24.993_119.06], another id: the quotient
    [119.07 / 0.01] is computed as 11906.999999999998, whose floor is
    11906. *)
Theorem C9_round_trip_at_119_07 :
  coordinateToGridId (fst coordinate_25_0_119_075) (snd coordinate_25_0_119_075)
  = Some "grid_24.993_119.07"
  /\ gridIdToCoordinate "grid_24.993_119.07"
     = Some {| lat := ofDecimal false 24993 (-3); lon := ofDecimal false 11907 (-2) |}
  /\ toString (div (ofDecimal false 11907 (-2)) GRID_SIZE_LON) = "11906.999999999998"
  /\ reencode {| lat := ofDecimal false 24993 (-3); lon := ofDecimal false 11907 (-2) |}
     = "grid_24.993_119.06"
  /\ coordinateToGridId (ofDecimal false 24993 (-3)) (ofDecimal false 11907 (-2))
     = Some "grid_24.993_119.06".
Proof. vm_compute. repeat split; reflexivity. Qed.

(** C10 at the coordinate (25.499, 121.0).  Its id is [grid_25.497_121.00];
    the centre of that cell is (25.5015, 121.005), above [maxLat = 25.5], so
    [coordinateToGridId] of the centre is null.  [explore-grid] stores the
    visit under the text of that centre, and the aggregation of the
    percentage then skips the stored row. *)
Theorem C10_center_at_top_row :
  coordinateToGridId (fst coordinate_25_499_121_0) (snd coordinate_25_499_121_0)
  = Some "grid_25.497_121.00"
  /\ (exists center,
        gridIdToCenter "grid_25.497_121.00" = Some center
        /\ toString (lat center) = "25.5015" /\ toString (lon center) = "121.005"
        /\ le (lat center) (maxLat TAIWAN_BOUNDS) = false
        /\ coordinateToGridId (lat center) (lon center) = None)
  /\ (exists row,
        ExploreGrid.POST (Some "u")
          (visitBody (fst coordinate_25_499_121_0) (snd coordinate_25_499_121_0)) []
        = (ExploreGrid.Explored false 1 "grid_25.497_121.00" (Some "25.5015,121.005"), [row])
        /\ cellOf row = None).
Proof.
  split; [vm_compute; reflexivity|]. split.
  - exists {| lat := add (ofDecimal false 25497 (-3)) (div GRID_SIZE_LAT two);
              lon := add (ofDecimal false 12100 (-2)) (div GRID_SIZE_LON two) |}.
    vm_compute. repeat split; reflexivity.
  - exists (footprintAt 1 "u" (Some "25.5015,121.005")).
    vm_compute. split; reflexivity.
Qed.

(** The same at the bottom row and at the last column: the centre of the
    cell of (21.5, 121.0) is below [minLat], the centre of the cell of
    (25.0, 122.5) is beyond [maxLon]. *)
Example center_at_other_edges :
  coordinateToGridId lit_21_5 (ofDecimal false 1210 (-1)) = Some "grid_21.492_121.00"
  /\ option_map (fun c => (toString (lat c), coordinateToGridId (lat c) (lon c)))
       (gridIdToCenter "grid_21.492_121.00") = Some ("21.4965", None)
  /\ coordinateToGridId (ofDecimal false 250 (-1)) lit_122_5 = Some "grid_24.993_122.50"
  /\ option_map (fun c => (toString (lon c), coordinateToGridId (lat c) (lon c)))
       (gridIdToCenter "grid_24.993_122.50") = Some ("122.505", None).
Proof. vm_compute. repeat split; reflexivity. Qed.

(** The operations of the model give, on the operands of these examples,
    what the binary64 arithmetic of the machine gives. *)
Example machine_agrees :
  machine PrimFloat.div (ofDecimal false 11907 (-2)) GRID_SIZE_LON
  = div (ofDecimal false 11907 (-2)) GRID_SIZE_LON
  /\ machine PrimFloat.mul (ofZ 11906) GRID_SIZE_LON = mul (ofZ 11906) GRID_SIZE_LON
  /\ machine PrimFloat.add (ofDecimal false 25497 (-3)) (div GRID_SIZE_LAT two)
     = add (ofDecimal false 25497 (-3)) (div GRID_SIZE_LAT two)
  /\ machine PrimFloat.div (ofZ 1) (ofZ 156100) = div (ofZ 1) (ofZ 156100).
Proof. vm_compute. repeat split; reflexivity. Qed.

(** ** How far the round trip and the centre go *)

Lemma list_ascii_of_string_app (a b : string) :
  list_ascii_of_string (a ++ b) = (list_ascii_of_string a ++ list_ascii_of_string b)%list.
Proof. induction a as [|c a IH]; simpl; [reflexivity|]. rewrite IH. reflexivity. Qed.

Lemma splitOn_piece (sep : ascii) (l1 l2 cur : list ascii) :
  forallb (fun c => negb (c =? sep)%char) l1 = true ->
  splitOn sep cur (l1 ++ sep :: l2)%list
  = string_of_list_ascii (List.rev cur ++ l1)%list :: splitOn sep [] l2.
Proof.
  revert cur. induction l1 as [|c l1 IH]; intros cur H; simpl.
  - rewrite Ascii.eqb_refl, List.app_nil_r. reflexivity.
  - simpl in H. apply andb_true_iff in H. destruct H as [Hc H].
    destruct (c =? sep)%char; [discriminate|].
    rewrite (IH _ H). simpl. rewrite <- List.app_assoc. reflexivity.
Qed.

Lemma splitOn_end (sep : ascii) (l1 cur : list ascii) :
  forallb (fun c => negb (c =? sep)%char) l1 = true ->
  splitOn sep cur l1 = [string_of_list_ascii (List.rev cur ++ l1)%list].
Proof.
  revert cur. induction l1 as [|c l1 IH]; intros cur H; simpl.
  - rewrite List.app_nil_r. reflexivity.
  - simpl in H. apply andb_true_iff in H. destruct H as [Hc H].
    destruct (c =? sep)%char; [discriminate|].
    rewrite (IH _ H). simpl. rewrite <- List.app_assoc. reflexivity.
Qed.

Lemma split_three (a b : string) :
  noSeparator "_" a = true -> noSeparator "_" b = true ->
  split "_" ("grid_" ++ a ++ "_" ++ b) = ["grid"; a; b].
Proof.
  intros Ha Hb. unfold split.
  change ("grid_" ++ a ++ "_" ++ b) with ("grid" ++ "_" ++ a ++ "_" ++ b).
  rewrite !list_ascii_of_string_app.
  change (list_ascii_of_string "_") with ["_"%char]. cbn [List.app].
  rewrite splitOn_piece by reflexivity.
  rewrite (splitOn_piece "_" (list_ascii_of_string a)) by exact Ha.
  rewrite splitOn_end by exact Hb.
  cbn [List.rev List.app]. rewrite !string_of_list_ascii_of_string. reflexivity.
Qed.

Lemma row_table :
  forallb (fun k =>
             noSeparator "_" (latText k)
             && negb (isNaN (rowCorner k))
             && String.eqb (latAgain (rowCorner k)) (latText k)
             && Bool.eqb (latInside (rowCenter k)) (negb ((k =? 2388) || (k =? 2833)))
             && String.eqb (latAgain (rowCenter k)) (latText k)) rows = true.
Proof. vm_compute. reflexivity. Qed.

Lemma col_table :
  forallb (fun j =>
             noSeparator "_" (lonText j)
             && negb (isNaN (colCorner j))
             && String.eqb (lonAgain (colCorner j))
                  (lonText (if inList j slippingCols then j - 1 else j))
             && Bool.eqb (lonInside (colCenter j)) (negb (j =? 12250))
             && String.eqb (lonAgain (colCenter j)) (lonText j)) colsInclusive = true.
Proof. vm_compute. reflexivity. Qed.

Lemma row_facts (k : Z) :
  2388 <= k <= 2833 ->
  noSeparator "_" (latText k) = true
  /\ isNaN (rowCorner k) = false
  /\ latAgain (rowCorner k) = latText k
  /\ latInside (rowCenter k) = negb ((k =? 2388) || (k =? 2833))
  /\ latAgain (rowCenter k) = latText k.
Proof.
  intros Hk. pose proof row_table as T. rewrite forallb_forall in T.
  specialize (T k ltac:(apply zrange_In; lia)). rewrite !andb_true_iff in T.
  destruct T as [[[[T1 T2] T3] T4] T5].
  apply negb_true_iff in T2. apply String.eqb_eq in T3, T5. apply Bool.eqb_prop in T4.
  auto.
Qed.

Lemma col_facts (j : Z) :
  11900 <= j <= 12250 ->
  noSeparator "_" (lonText j) = true
  /\ isNaN (colCorner j) = false
  /\ lonAgain (colCorner j) = lonText (if inList j slippingCols then j - 1 else j)
  /\ lonInside (colCenter j) = negb (j =? 12250)
  /\ lonAgain (colCenter j) = lonText j.
Proof.
  intros Hj. pose proof col_table as T. rewrite forallb_forall in T.
  specialize (T j ltac:(apply zrange_In; lia)). rewrite !andb_true_iff in T.
  destruct T as [[[[T1 T2] T3] T4] T5].
  apply negb_true_iff in T2. apply String.eqb_eq in T3, T5. apply Bool.eqb_prop in T4.
  auto.
Qed.

Lemma gridIdToCoordinate_cellId (k j : Z) :
  2388 <= k <= 2833 -> 11900 <= j <= 12250 ->
  gridIdToCoordinate (cellId k j) = Some {| lat := rowCorner k; lon := colCorner j |}.
Proof.
  intros Hk Hj. destruct (row_facts k Hk) as (S1 & N1 & _).
  destruct (col_facts j Hj) as (S2 & N2 & _).
  unfold gridIdToCoordinate, cellId. rewrite (split_three _ _ S1 S2).
  cbn [String.eqb Ascii.eqb Bool.eqb negb].
  fold (rowCorner k) (colCorner j). rewrite N1, N2. reflexivity.
Qed.

(** Round trip, for every coordinate inside the bounds: the corner parsed
    from the id re-encodes to the same row, and to the same column except on
    the fourteen columns 119.07, 119.32, ..., 122.32 (every 25th column from
    11907 on), where it re-encodes to the column before. *)
Theorem round_trip_extent (lat0 lon0 : number) :
  isInTaiwanBounds lat0 lon0 = true ->
  exists k j corner,
    2388 <= k <= 2833 /\ 11900 <= j <= 12250
    /\ coordinateToGridId lat0 lon0 = Some (cellId k j)
    /\ gridIdToCoordinate (cellId k j) = Some corner
    /\ reencode corner = cellId k (if inList j slippingCols then j - 1 else j).
Proof.
  intros H. destruct (coordinateToGridId_cell _ _ H) as (k & j & Hk & Hj & _ & _ & E).
  exists k, j, {| lat := rowCorner k; lon := colCorner j |}.
  repeat split; try lia; try assumption.
  - apply gridIdToCoordinate_cellId; assumption.
  - destruct (row_facts k Hk) as (_ & _ & R & _). destruct (col_facts j Hj) as (_ & _ & C & _).
    unfold reencode, gridName, cellId. cbn [lat lon].
    fold (latAgain (rowCorner k)) (lonAgain (colCorner j)). rewrite R, C. reflexivity.
Qed.

Lemma round_trip_extent_witness :
  exists k j corner,
    2388 <= k <= 2833 /\ 11900 <= j <= 12250
    /\ coordinateToGridId (fst coordinate_25_0_119_075) (snd coordinate_25_0_119_075)
       = Some (cellId k j)
    /\ gridIdToCoordinate (cellId k j) = Some corner
    /\ reencode corner = cellId k (if inList j slippingCols then j - 1 else j).
Proof. apply round_trip_extent. vm_compute. reflexivity. Defined.

(** The centre, for every coordinate inside the bounds: the centre of its
    cell maps back to the id of the cell, except in the first row (21.492),
    in the last row (25.497) and in the last column (122.50), where the
    centre is outside the bounds and maps to null. *)
Theorem center_extent (lat0 lon0 : number) :
  isInTaiwanBounds lat0 lon0 = true ->
  exists k j center,
    2388 <= k <= 2833 /\ 11900 <= j <= 12250
    /\ coordinateToGridId lat0 lon0 = Some (cellId k j)
    /\ gridIdToCenter (cellId k j) = Some center
    /\ coordinateToGridId (GridUtils.lat center) (GridUtils.lon center)
       = if (k =? 2388) || (k =? 2833) || (j =? 12250) then None else Some (cellId k j).
Proof.
  intros H. destruct (coordinateToGridId_cell _ _ H) as (k & j & Hk & Hj & _ & _ & E).
  exists k, j, {| lat := rowCenter k; lon := colCenter j |}.
  repeat split; try lia; try assumption.
  - unfold gridIdToCenter. rewrite gridIdToCoordinate_cellId by assumption. reflexivity.
  - destruct (row_facts k Hk) as (_ & _ & _ & I1 & R).
    destruct (col_facts j Hj) as (_ & _ & _ & I2 & C).
    unfold coordinateToGridId, gridName, isInTaiwanBounds. cbn [lat lon].
    cbn [TAIWAN_BOUNDS minLat maxLat minLon maxLon].
    fold (latAgain (rowCenter k)) (lonAgain (colCenter j)).
    rewrite R, C.
    change (ge (rowCenter k) lit_21_5 && le (rowCenter k) lit_25_5
            && ge (colCenter j) lit_119_0 && le (colCenter j) lit_122_5)
      with (latInside (rowCenter k) && ge (colCenter j) lit_119_0
            && le (colCenter j) lit_122_5).
    rewrite <- andb_assoc. fold (lonInside (colCenter j)). rewrite I1, I2.
    destruct ((k =? 2388) || (k =? 2833)), (j =? 12250); reflexivity.
Qed.

Lemma center_extent_witness :
  exists k j center,
    2388 <= k <= 2833 /\ 11900 <= j <= 12250
    /\ coordinateToGridId (fst coordinate_25_499_121_0) (snd coordinate_25_499_121_0)
       = Some (cellId k j)
    /\ gridIdToCenter (cellId k j) = Some center
    /\ coordinateToGridId (GridUtils.lat center) (GridUtils.lon center)
       = if (k =? 2388) || (k =? 2833) || (j =? 12250) then None else Some (cellId k j).
Proof. apply center_extent. vm_compute. reflexivity. Defined.
(** ** The decoder of grid ids *)

Lemma forallb_rev' {A : Type} (f : A -> bool) (l : list A) :
  forallb f (List.rev l) = forallb f l.
Proof.
  induction l as [|a l IH]; [reflexivity|].
  cbn [List.rev]. rewrite forallb_app, IH. cbn [forallb]. rewrite andb_true_r.
  apply andb_comm.
Qed.

(** [split] gives at least one piece; no piece holds the separator, and the
    pieces joined by the separator are the string. *)
Lemma splitOn_pieces (sep : ascii) (s cur : list ascii) :
  forallb (fun c => negb (c =? sep)%char) cur = true ->
  exists p ps,
    splitOn sep cur s = p :: ps
    /\ (List.rev cur ++ s)%list
       = (list_ascii_of_string p
          ++ List.concat (List.map (fun q => sep :: list_ascii_of_string q) ps))%list
    /\ Forall (fun q => noSeparator sep q = true) (p :: ps).
Proof.
  revert cur. induction s as [|c s IH]; intros cur Hcur.
  - exists (string_of_list_ascii (List.rev cur)), []. cbn [splitOn List.map List.concat].
    rewrite list_ascii_of_string_of_list_ascii. repeat split.
    constructor; [|constructor]. unfold noSeparator.
    rewrite list_ascii_of_string_of_list_ascii, forallb_rev'. exact Hcur.
  - cbn [splitOn]. destruct (c =? sep)%char eqn:E.
    + apply Ascii.eqb_eq in E. subst c.
      destruct (IH [] eq_refl) as (p & ps & -> & Hs & Hf).
      exists (string_of_list_ascii (List.rev cur)), (p :: ps). split; [reflexivity|].
      cbn [List.rev List.app] in Hs. split.
      * cbn [List.map List.concat List.app].
        rewrite list_ascii_of_string_of_list_ascii, <- Hs. reflexivity.
      * constructor; [|exact Hf]. unfold noSeparator.
        rewrite list_ascii_of_string_of_list_ascii, forallb_rev'. exact Hcur.
    + destruct (IH (c :: cur)) as (p & ps & -> & Hs & Hf).
      { cbn [forallb]. rewrite E. exact Hcur. }
      exists p, ps. split; [reflexivity|]. split; [|exact Hf].
      rewrite <- Hs. cbn [List.rev]. rewrite <- List.app_assoc. reflexivity.
Qed.

Lemma string_of_list_ascii_app (a b : list ascii) :
  string_of_list_ascii (a ++ b) = string_of_list_ascii a ++ string_of_list_ascii b.
Proof. induction a as [|c a IH]; simpl; [reflexivity|]. rewrite IH. reflexivity. Qed.

Lemma split_three_inv (sep : ascii) (s p0 p1 p2 : string) :
  split sep s = [p0; p1; p2] ->
  s = p0 ++ String sep (p1 ++ String sep p2)
  /\ noSeparator sep p1 = true /\ noSeparator sep p2 = true.
Proof.
  unfold split. intros H.
  destruct (splitOn_pieces sep (list_ascii_of_string s) [] eq_refl) as (p & ps & E & Hs & Hf).
  rewrite H in E. injection E as <- <-.
  cbn [List.rev List.app List.map List.concat] in Hs. rewrite List.app_nil_r in Hs.
  apply Forall_cons_iff in Hf. destruct Hf as [_ Hf].
  apply Forall_cons_iff in Hf. destruct Hf as [S1 Hf].
  apply Forall_cons_iff in Hf. destruct Hf as [S2 _].
  split; [|auto].
  rewrite <- (string_of_list_ascii_of_string s), Hs.
  rewrite string_of_list_ascii_app. cbn [string_of_list_ascii].
  rewrite string_of_list_ascii_app. cbn [string_of_list_ascii].
  rewrite !string_of_list_ascii_of_string. reflexivity.
Qed.

(** [gridIdToCoordinate] returns a coordinate exactly for the ids of the form
    [grid_a_b] in which [a] and [b] hold no underscore and [parseFloat] reads
    a number at the front of each; the coordinate is those two numbers, and
    neither is [NaN].  Every other string gives null. *)
Theorem gridIdToCoordinate_accepts (gridId : string) (c : Coord) :
  gridIdToCoordinate gridId = Some c <->
  exists a b,
    gridId = "grid_" ++ a ++ "_" ++ b
    /\ noSeparator "_" a = true /\ noSeparator "_" b = true
    /\ parseFloat a = lat c /\ parseFloat b = lon c
    /\ isNaN (lat c) = false /\ isNaN (lon c) = false.
Proof.
  split.
  - unfold gridIdToCoordinate. intros H.
    destruct (split "_" gridId) as [|p0 [|p1 [|p2 [|? ?]]]] eqn:S; try discriminate.
    destruct (String.eqb_spec p0 "grid") as [->|]; [|discriminate]. cbn [negb] in H.
    destruct (isNaN (parseFloat p1)) eqn:N1; [discriminate|].
    destruct (isNaN (parseFloat p2)) eqn:N2; [discriminate|].
    cbn [orb] in H. injection H as <-. cbn [lat lon].
    apply split_three_inv in S. destruct S as (-> & S1 & S2).
    exists p1, p2. repeat split; assumption.
  - intros (a & b & -> & Sa & Sb & Ea & Eb & Na & Nb).
    unfold gridIdToCoordinate. rewrite (split_three _ _ Sa Sb).
    cbn [String.eqb Ascii.eqb Bool.eqb negb]. rewrite Ea, Eb, Na, Nb. cbn [orb].
    destruct c; reflexivity.
Qed.
(** ** The polygons of the cells *)

Lemma rowEdges_table : forallb rowEdges rows = true.
Proof. vm_compute. reflexivity. Qed.

Lemma colEdges_table : forallb colEdges colsInclusive = true.
Proof. vm_compute. reflexivity. Qed.

Lemma gridIdToBounds_cellId (k j : Z) :
  2388 <= k <= 2833 -> 11900 <= j <= 12250 ->
  gridIdToBounds (cellId k j) = Some [cellRing k j].
Proof.
  intros Hk Hj. unfold gridIdToBounds. rewrite (gridIdToCoordinate_cellId k j Hk Hj).
  reflexivity.
Qed.

(** The polygon of a cell, for every row and column that a coordinate inside
    the bounds can get.  It is the closed ring south-west, north-west,
    north-east, south-east, south-west, with the corner parsed from the id as
    its south-west vertex.  Its south edge is strictly below its north edge
    and its west edge strictly west of its east edge, the centre of the cell
    lies strictly between them, and the north and east edges are at or
    beyond the south edge of the next row and the west edge of the next
    column: neighbouring polygons leave no gap. *)
Theorem gridIdToBounds_cells (k j : Z) :
  2388 <= k <= 2833 -> 11900 <= j <= 12250 ->
  let south := rowCorner k in
  let west := colCorner j in
  let north := add south GRID_SIZE_LAT in
  let east := add west GRID_SIZE_LON in
  gridIdToBounds (cellId k j)
  = Some [[ (west, south); (west, north); (east, north); (east, south); (west, south) ]]
  /\ gridIdToCenter (cellId k j) = Some {| lat := rowCenter k; lon := colCenter j |}
  /\ lt south (rowCenter k) = true /\ lt (rowCenter k) north = true
  /\ lt west (colCenter j) = true /\ lt (colCenter j) east = true
  /\ le (rowCorner (k + 1)) north = true
  /\ le (colCorner (j + 1)) east = true.
Proof.
  intros Hk Hj. cbv zeta.
  pose proof rowEdges_table as R. rewrite forallb_forall in R.
  specialize (R k ltac:(apply zrange_In; lia)).
  pose proof colEdges_table as C. rewrite forallb_forall in C.
  specialize (C j ltac:(apply zrange_In; lia)).
  unfold rowEdges in R. unfold colEdges in C. rewrite !andb_true_iff in R, C.
  destruct R as [[R1 R2] R3]. destruct C as [[C1 C2] C3].
  split; [apply gridIdToBounds_cellId; assumption|].
  split.
  { unfold gridIdToCenter. rewrite (gridIdToCoordinate_cellId k j Hk Hj). reflexivity. }
  auto 10.
Qed.

Lemma gridIdToBounds_cells_witness :
  gridIdToBounds (cellId 2781 12156)
  = Some [[ (colCorner 12156, rowCorner 2781);
            (colCorner 12156, add (rowCorner 2781) GRID_SIZE_LAT);
            (add (colCorner 12156) GRID_SIZE_LON, add (rowCorner 2781) GRID_SIZE_LAT);
            (add (colCorner 12156) GRID_SIZE_LON, rowCorner 2781);
            (colCorner 12156, rowCorner 2781) ]].
Proof. apply (proj1 (gridIdToBounds_cells 2781 12156 ltac:(lia) ltac:(lia))). Defined.

(** ** [gridIdsToGeoJSON] *)

Import GeoJSON.

Lemma gridIdsToGeoJSON_cons (gridId : string) (gridIds : list string) :
  gridIdsToGeoJSON (gridId :: gridIds)
  = match gridIdToBounds gridId with
    | Some bounds => {| gridId := gridId; coordinates := bounds |} :: gridIdsToGeoJSON gridIds
    | None => gridIdsToGeoJSON gridIds
    end.
Proof.
  unfold gridIdsToGeoJSON. cbn [List.map omap list_omap].
  destruct (gridIdToBounds gridId); reflexivity.
Qed.

Lemma gridIdToBounds_decodes (gridId : string) :
  decodes gridId = match gridIdToBounds gridId with Some _ => true | None => false end.
Proof.
  unfold decodes, gridIdToBounds. destruct (gridIdToCoordinate gridId) as [[? ?]|]; reflexivity.
Qed.

Lemma gridIdsToGeoJSON_ids (gridIds : list string) :
  List.map gridId (gridIdsToGeoJSON gridIds) = List.filter decodes gridIds.
Proof.
  induction gridIds as [|g l IH]; [reflexivity|].
  rewrite gridIdsToGeoJSON_cons. cbn [List.filter]. rewrite gridIdToBounds_decodes.
  destruct (gridIdToBounds g); cbn [List.map gridId]; rewrite IH; reflexivity.
Qed.

Lemma gridIdsToGeoJSON_rings (gridIds : list string) :
  Forall (fun f => gridIdToBounds (gridId f) = Some (coordinates f))
    (gridIdsToGeoJSON gridIds).
Proof.
  induction gridIds as [|g l IH]; [constructor|].
  rewrite gridIdsToGeoJSON_cons. destruct (gridIdToBounds g) eqn:E; [|exact IH].
  constructor; [exact E|exact IH].
Qed.

Lemma gridIdsToGeoJSON_cells (gridIds : list string) :
  (forall id, In id gridIds ->
     exists k j, 2388 <= k <= 2833 /\ 11900 <= j <= 12250 /\ id = cellId k j) ->
  List.map gridId (gridIdsToGeoJSON gridIds) = gridIds.
Proof.
  intros H. induction gridIds as [|g l IH]; [reflexivity|].
  rewrite gridIdsToGeoJSON_cons.
  destruct (H g (or_introl eq_refl)) as (k & j & Hk & Hj & ->).
  rewrite (gridIdToBounds_cellId k j Hk Hj). cbn [List.map gridId].
  rewrite IH; [reflexivity|]. intros id Hid. apply H. right. exact Hid.
Qed.

Lemma allCells_cells (id : string) :
  In id allCells ->
  exists k j, 2388 <= k <= 2833 /\ 11900 <= j <= 12250 /\ id = cellId k j.
Proof.
  intros Hid. apply allCells_In in Hid. destruct Hid as (k & j & Hk & Hj & ->).
  exists k, j. repeat split; lia.
Qed.

(** [gridIdsToGeoJSON] never fails.  Its features are those of the ids that
    [gridIdToCoordinate] decodes, in the order of the input, each with its
    own id and the ring of [gridIdToBounds]; the other ids are dropped
    silently.  On ids of cells that coordinates inside the bounds can get,
    and so on the whole enumeration of [getAllTaiwanGridIds], nothing is
    dropped. *)
Theorem gridIdsToGeoJSON_features (gridIds : list string) :
  List.map gridId (gridIdsToGeoJSON gridIds) = List.filter decodes gridIds
  /\ Forall (fun f => gridIdToBounds (gridId f) = Some (coordinates f))
       (gridIdsToGeoJSON gridIds)
  /\ ((forall id, In id gridIds ->
         exists k j, 2388 <= k <= 2833 /\ 11900 <= j <= 12250 /\ id = cellId k j) ->
      List.map gridId (gridIdsToGeoJSON gridIds) = gridIds)
  /\ List.map gridId (gridIdsToGeoJSON allCells) = allCells
  /\ Z.of_nat (List.length (gridIdsToGeoJSON allCells)) = 156100.
Proof.
  split; [apply gridIdsToGeoJSON_ids|].
  split; [apply gridIdsToGeoJSON_rings|].
  split; [apply gridIdsToGeoJSON_cells|].
  assert (C : List.map gridId (gridIdsToGeoJSON allCells) = allCells)
    by (apply gridIdsToGeoJSON_cells, allCells_cells).
  split; [exact C|].
  rewrite <- (List.length_map gridId), C. apply allCells_length.
Qed.

(** ** The viewport that contains the bounds *)

(** For every viewport that contains the whole bounds, [getVisibleGridIds]
    returns, given fuel for 447 rounds, the very sequence that
    [getAllTaiwanGridIds] returns: its tests with [<=] add no row and no
    column to the 446 rows of 350 ids.  No id of the column 122.50 is in it,
    although the coordinates of longitude 122.5 are inside the bounds and
    get ids of that column. *)
Theorem getVisibleGridIds_whole_bounds (extra extra' : nat) (b : Viewport) :
  containsBounds b ->
  exists gridIds,
    getVisibleGridIds (447 + extra) b = Some gridIds
    /\ getAllTaiwanGridIds (447 + extra') None = Some (gridIds, Some gridIds)
    /\ Z.of_nat (List.length gridIds) = 156100
    /\ (forall lat0, isInTaiwanBounds lat0 lit_122_5 = true ->
          exists gridId, coordinateToGridId lat0 lit_122_5 = Some gridId
                         /\ ~ In gridId gridIds).
Proof.
  intros Hb. exists allCells.
  split; [apply getVisibleGridIds_whole, Hb|].
  split; [apply getAllTaiwanGridIds_first_call|].
  split; [apply allCells_length|].
  intros lat0 H0. destruct (coordinateToGridId_cell _ _ H0) as (k & j & Hk & Hj & _ & Fj & E).
  exists (cellId k j). split; [exact E|].
  assert (Hj' : j = 12250).
  { assert (F : Math_floor (div lit_122_5 GRID_SIZE_LON) = ofZ 12250) by (vm_compute; reflexivity).
    rewrite F in Fj.
    assert (T : forallb (fun j => Z.eqb j 12250 || negb (number_eqb (ofZ j) (ofZ 12250)))
                  colsInclusive = true) by (vm_compute; reflexivity).
    rewrite forallb_forall in T. specialize (T j ltac:(apply zrange_In; lia)).
    apply orb_true_iff in T. destruct T as [T|T]; [apply Z.eqb_eq in T; exact T|].
    rewrite <- Fj in T. apply negb_true_iff in T.
    assert (number_eqb (ofZ 12250) (ofZ 12250) = true) by (vm_compute; reflexivity).
    congruence. }
  subst j. intros Hin. apply allCells_In in Hin.
  destruct Hin as (k' & j' & Hk' & Hj' & Hid).
  apply cellId_inj in Hid; lia.
Qed.

Lemma getVisibleGridIds_whole_bounds_witness :
  exists gridIds,
    getVisibleGridIds 447 viewportWorld = Some gridIds
    /\ getAllTaiwanGridIds 447 None = Some (gridIds, Some gridIds)
    /\ Z.of_nat (List.length gridIds) = 156100
    /\ (forall lat0, isInTaiwanBounds lat0 lit_122_5 = true ->
          exists gridId, coordinateToGridId lat0 lit_122_5 = Some gridId
                         /\ ~ In gridId gridIds).
Proof.
  apply (getVisibleGridIds_whole_bounds 0 0 viewportWorld).
  repeat split; vm_compute; reflexivity.
Defined.
(** ** [explore-grid]: the row of a cell *)

Lemma readsBack_rows : forallb (fun k => readsBack (rowCenter k)) rows = true.
Proof. vm_compute. reflexivity. Qed.

Lemma readsBack_cols : forallb (fun j => readsBack (colCenter j)) colsInclusive = true.
Proof. vm_compute. reflexivity. Qed.

Lemma readsBack_spec (x : number) :
  readsBack x = true ->
  noSeparator "," (toString x) = true /\ parseFloat (toString x) = x.
Proof.
  unfold readsBack. rewrite andb_true_iff. intros [H1 H2].
  split; [exact H1|]. apply number_eqb_eq. exact H2.
Qed.

Lemma split_two (a b : string) :
  noSeparator "," a = true -> noSeparator "," b = true ->
  split "," (a ++ "," ++ b) = [a; b].
Proof.
  intros Ha Hb. unfold split. rewrite !list_ascii_of_string_app.
  change (list_ascii_of_string ",") with [","%char]. cbn [List.app].
  rewrite (splitOn_piece "," (list_ascii_of_string a)) by exact Ha.
  rewrite splitOn_end by exact Hb.
  cbn [List.rev List.app]. rewrite !string_of_list_ascii_of_string. reflexivity.
Qed.

Lemma truthy_key (a b : string) : truthy (a ++ "," ++ b) = true.
Proof. unfold truthy. destruct a; reflexivity. Qed.

(** The centre of a cell, through [coordinateToGridId]. *)
Lemma coordinateToGridId_center (k j : Z) :
  2388 <= k <= 2833 -> 11900 <= j <= 12250 ->
  coordinateToGridId (rowCenter k) (colCenter j)
  = if edgeCell k j then None else Some (cellId k j).
Proof.
  intros Hk Hj.
  destruct (row_facts k Hk) as (_ & _ & _ & I1 & R).
  destruct (col_facts j Hj) as (_ & _ & _ & I2 & C).
  unfold coordinateToGridId, gridName, isInTaiwanBounds, edgeCell.
  cbn [TAIWAN_BOUNDS minLat maxLat minLon maxLon].
  fold (latAgain (rowCenter k)) (lonAgain (colCenter j)).
  rewrite R, C.
  change (ge (rowCenter k) lit_21_5 && le (rowCenter k) lit_25_5
          && ge (colCenter j) lit_119_0 && le (colCenter j) lit_122_5)
    with (latInside (rowCenter k) && ge (colCenter j) lit_119_0
          && le (colCenter j) lit_122_5).
  rewrite <- andb_assoc. fold (lonInside (colCenter j)). rewrite I1, I2.
  destruct ((k =? 2388) || (k =? 2833)), (j =? 12250); reflexivity.
Qed.

Lemma isNaN_inside (x lo : number) : ge x lo = true -> isNaN x = false.
Proof. destruct x; [reflexivity..| |reflexivity]. destruct lo; discriminate. Qed.

(** The cell that the aggregation of the percentage reads from a stored
    centre. *)
Lemma cellOf_centreKey (f : Footprint) (k j : Z) :
  2388 <= k <= 2833 -> 11900 <= j <= 12250 ->
  coordinate f = Some (centreKey k j) ->
  cellOf f = if edgeCell k j then None else Some (cellId k j).
Proof.
  intros Hk Hj Hc.
  pose proof readsBack_rows as R. rewrite forallb_forall in R.
  specialize (R k ltac:(apply zrange_In; lia)). apply readsBack_spec in R.
  pose proof readsBack_cols as C. rewrite forallb_forall in C.
  specialize (C j ltac:(apply zrange_In; lia)). apply readsBack_spec in C.
  destruct R as [R1 R2]. destruct C as [C1 C2].
  unfold cellOf. rewrite Hc. unfold centreKey at 1. rewrite truthy_key. cbn [negb].
  unfold parseCoordinate, centreKey. rewrite (split_two _ _ R1 C1), R2, C2.
  rewrite <- (coordinateToGridId_center k j Hk Hj).
  destruct (isNaN (rowCenter k)) eqn:N1.
  { destruct (rowCenter k); try discriminate. reflexivity. }
  destruct (isNaN (colCenter j)) eqn:N2.
  { destruct (colCenter j); try discriminate.
    unfold coordinateToGridId, isInTaiwanBounds.
    destruct (ge (rowCenter k) (minLat TAIWAN_BOUNDS) && le (rowCenter k) (maxLat TAIWAN_BOUNDS));
      reflexivity. }
  reflexivity.
Qed.

(** What [explore-grid] does with a coordinate inside the bounds. *)
Lemma ExploreGrid_POST_cell (userId : string) (t : Table) (lat0 lon0 : number) (k j : Z) :
  truthy userId = true ->
  2388 <= k <= 2833 -> 11900 <= j <= 12250 ->
  coordinateToGridId lat0 lon0 = Some (cellId k j) ->
  ExploreGrid.POST (Some userId) (visitBody lat0 lon0) t
  = match findFirst userId (centreKey k j) t with
    | Some existingFootprint =>
        (ExploreGrid.Explored true (id existingFootprint) (cellId k j)
           (coordinate existingFootprint), t)
    | None =>
        (ExploreGrid.Explored false (freshId t) (cellId k j) (Some (centreKey k j)),
         (t ++ [centreRow t userId k j])%list)
    end.
Proof.
  intros Hu Hk Hj E.
  assert (Hb : isInTaiwanBounds lat0 lon0 = true).
  { unfold coordinateToGridId in E. destruct (isInTaiwanBounds lat0 lon0); [reflexivity|].
    discriminate. }
  unfold ExploreGrid.POST, visitBody. cbn [body_lat body_lon].
  rewrite Hu, Hb, E. cbn [negb].
  rewrite (coordinateToGridId_truthy _ _ _ E). cbn [negb].
  unfold gridIdToCenter. rewrite (gridIdToCoordinate_cellId k j Hk Hj).
  cbn [GridUtils.lat GridUtils.lon]. fold (rowCenter k) (colCenter j).
  fold (centreKey k j).
  destruct (findFirst userId (centreKey k j) t); reflexivity.
Qed.

Lemma findFirst_Some (userId key : string) (t : Table) (f : Footprint) :
  findFirst userId key t = Some f ->
  In f t /\ user_id f = userId /\ coordinate f = Some key.
Proof.
  unfold findFirst. intros H. apply List.find_some in H. destruct H as [Hin H].
  unfold hasCoordinate in H. apply andb_true_iff in H. destruct H as [H1 H2].
  apply String.eqb_eq in H1. destruct (coordinate f) as [c|]; [|discriminate].
  apply String.eqb_eq in H2. subst c. auto.
Qed.

Lemma findMany_In (userId : string) (t : Table) (f : Footprint) :
  In f (findMany userId t) <->
  In f t /\ user_id f = userId /\ coordinate f <> None.
Proof.
  unfold findMany. rewrite List.filter_In, andb_true_iff, String.eqb_eq.
  destruct (coordinate f); split; intros (H1 & H2 & H3); repeat split; auto; congruence.
Qed.
(** [explore-grid], for every session, body and table.  The two defensive
    answers "no grid id" and "no centre" are never given: a coordinate that
    passes the test of the bounds always has an id and a centre.  An error
    answer leaves the table as it is.  A success answer comes from a
    signed-in user and a coordinate inside the bounds, names the id of the
    cell of that coordinate, and reports a row of that user that is in the
    table afterwards; the table is unchanged, or has that row appended. *)
Theorem ExploreGrid_POST_replies (session : option string) (body : Body) (t : Table) :
  let reply := fst (ExploreGrid.POST session body t) in
  let t' := snd (ExploreGrid.POST session body t) in
  reply <> ExploreGrid.BadRequest "no grid id"
  /\ reply <> ExploreGrid.BadRequest "no centre"
  /\ (reply = ExploreGrid.Unauthorized \/ (exists message, reply = ExploreGrid.BadRequest message)
      -> t' = t)
  /\ (forall alreadyExplored n gridId c,
        reply = ExploreGrid.Explored alreadyExplored n gridId c ->
        exists userId lat0 lon0 row,
          session = Some userId /\ truthy userId = true
          /\ body_lat body = Some lat0 /\ body_lon body = Some lon0
          /\ isInTaiwanBounds lat0 lon0 = true
          /\ coordinateToGridId lat0 lon0 = Some gridId
          /\ In row t' /\ id row = n /\ user_id row = userId /\ coordinate row = c
          /\ (if alreadyExplored then t' = t else t' = (t ++ [row])%list)).
Proof.
  cbv zeta.
  assert (Err : forall (r : ExploreGrid.Reply),
             r = ExploreGrid.Unauthorized \/ r = ExploreGrid.BadRequest "invalid coordinate"
             \/ r = ExploreGrid.BadRequest "out of bounds" ->
             ExploreGrid.POST session body t = (r, t) ->
             fst (ExploreGrid.POST session body t) <> ExploreGrid.BadRequest "no grid id"
             /\ fst (ExploreGrid.POST session body t) <> ExploreGrid.BadRequest "no centre"
             /\ (fst (ExploreGrid.POST session body t) = ExploreGrid.Unauthorized
                 \/ (exists message,
                       fst (ExploreGrid.POST session body t) = ExploreGrid.BadRequest message)
                 -> snd (ExploreGrid.POST session body t) = t)
             /\ (forall alreadyExplored n gridId c,
                   fst (ExploreGrid.POST session body t)
                   = ExploreGrid.Explored alreadyExplored n gridId c ->
                   exists userId lat0 lon0 row,
                     session = Some userId /\ truthy userId = true
                     /\ body_lat body = Some lat0 /\ body_lon body = Some lon0
                     /\ isInTaiwanBounds lat0 lon0 = true
                     /\ coordinateToGridId lat0 lon0 = Some gridId
                     /\ In row (snd (ExploreGrid.POST session body t)) /\ id row = n
                     /\ user_id row = userId /\ coordinate row = c
                     /\ (if alreadyExplored
                         then snd (ExploreGrid.POST session body t) = t
                         else snd (ExploreGrid.POST session body t) = (t ++ [row])%list))).
  { intros r Hr ->. cbn [fst snd].
    split; [destruct Hr as [ -> | [ -> | -> ] ]; discriminate|].
    split; [destruct Hr as [ -> | [ -> | -> ] ]; discriminate|].
    split; [reflexivity|].
    intros a n g c H. destruct Hr as [ -> | [ -> | -> ] ]; discriminate. }
  destruct session as [userId|]; [|apply (Err ExploreGrid.Unauthorized); auto].
  destruct (truthy userId) eqn:Hu.
  2:{ apply (Err ExploreGrid.Unauthorized); [auto|].
      unfold ExploreGrid.POST. rewrite Hu. reflexivity. }
  destruct body as [[lat0|] [lon0|]];
    try (apply (Err (ExploreGrid.BadRequest "invalid coordinate")); [auto|];
         unfold ExploreGrid.POST; rewrite Hu; reflexivity).
  destruct (isInTaiwanBounds lat0 lon0) eqn:Hb.
  2:{ apply (Err (ExploreGrid.BadRequest "out of bounds")); [auto|].
      unfold ExploreGrid.POST. rewrite Hu. cbn [negb body_lat body_lon]. rewrite Hb.
      reflexivity. }
  clear Err.
  destruct (coordinateToGridId_cell _ _ Hb) as (k & j & Hk & Hj & _ & _ & E).
  change {| body_lat := Some lat0; body_lon := Some lon0 |} with (visitBody lat0 lon0).
  rewrite (ExploreGrid_POST_cell userId t lat0 lon0 k j Hu Hk Hj E).
  destruct (findFirst userId (centreKey k j) t) as [e|] eqn:F; cbn [fst snd].
  - split; [discriminate|]. split; [discriminate|]. split.
    + intros [H|[m H]]; discriminate.
    + intros a n g c [= <- <- <- <-]. apply findFirst_Some in F.
      destruct F as (F1 & F2 & F3).
      exists userId, lat0, lon0, e. cbn [body_lat body_lon visitBody]. auto 12.
  - split; [discriminate|]. split; [discriminate|]. split.
    + intros [H|[m H]]; discriminate.
    + intros a n g c [= <- <- <- <-].
      exists userId, lat0, lon0, (centreRow t userId k j).
      cbn [body_lat body_lon visitBody].
      assert (In (centreRow t userId k j) (t ++ [centreRow t userId k j])%list).
      { apply List.in_or_app. right. left. reflexivity. }
      auto 12.
Qed.

(** [explore-grid] keeps one row per cell and user.  For a signed-in user
    and two coordinates of one cell, both inside the bounds: after the
    request for the first, the request for the second answers
    [alreadyExplored: true] with the id and the coordinate text of the same
    row, and changes nothing.  The first request adds at most that one row,
    at the end of the table. *)
Theorem ExploreGrid_POST_once_per_cell (userId : string) (t : Table)
    (lat1 lon1 lat2 lon2 : number) :
  truthy userId = true ->
  isInTaiwanBounds lat1 lon1 = true ->
  coordinateToGridId lat1 lon1 = coordinateToGridId lat2 lon2 ->
  exists alreadyExplored n gridId c t1,
    ExploreGrid.POST (Some userId) (visitBody lat1 lon1) t
    = (ExploreGrid.Explored alreadyExplored n gridId (Some c), t1)
    /\ ExploreGrid.POST (Some userId) (visitBody lat2 lon2) t1
       = (ExploreGrid.Explored true n gridId (Some c), t1)
    /\ coordinateToGridId lat1 lon1 = Some gridId
    /\ (if alreadyExplored then t1 = t
        else exists row, t1 = (t ++ [row])%list /\ id row = n /\ user_id row = userId
                         /\ coordinate row = Some c).
Proof.
  intros Hu Hb E12.
  destruct (coordinateToGridId_cell _ _ Hb) as (k & j & Hk & Hj & _ & _ & E).
  assert (E2 : coordinateToGridId lat2 lon2 = Some (cellId k j)) by congruence.
  rewrite (ExploreGrid_POST_cell userId t lat1 lon1 k j Hu Hk Hj E).
  destruct (findFirst userId (centreKey k j) t) as [e|] eqn:F.
  - pose proof (findFirst_Some _ _ _ _ F) as (F1 & F2 & F3).
    exists true, (id e), (cellId k j), (centreKey k j), t.
    rewrite (ExploreGrid_POST_cell userId t lat2 lon2 k j Hu Hk Hj E2), F, F3. auto.
  - exists false, (freshId t), (cellId k j), (centreKey k j),
      (t ++ [centreRow t userId k j])%list.
    rewrite (ExploreGrid_POST_cell userId _ lat2 lon2 k j Hu Hk Hj E2).
    rewrite findFirst_app, F.
    replace (hasCoordinate userId (centreKey k j) (centreRow t userId k j)) with true
      by (symmetry; apply hasCoordinate_refl).
    repeat split; try assumption. exists (centreRow t userId k j). auto.
Qed.

Lemma ExploreGrid_POST_once_per_cell_witness :
  exists alreadyExplored n gridId c t1,
    ExploreGrid.POST (Some "u") (visitBody (fst rawA) (snd rawA)) []
    = (ExploreGrid.Explored alreadyExplored n gridId (Some c), t1)
    /\ ExploreGrid.POST (Some "u") (visitBody (fst rawB) (snd rawB)) t1
       = (ExploreGrid.Explored true n gridId (Some c), t1)
    /\ coordinateToGridId (fst rawA) (snd rawA) = Some gridId
    /\ (if alreadyExplored then t1 = []
        else exists row, t1 = ([] ++ [row])%list /\ id row = n /\ user_id row = "u"
                         /\ coordinate row = Some c).
Proof.
  apply (ExploreGrid_POST_once_per_cell "u" [] (fst rawA) (snd rawA) (fst rawB) (snd rawB));
    vm_compute; reflexivity.
Defined.

(** From [explore-grid] to the percentage.  For a signed-in user and a
    coordinate inside the bounds, in row [k] and column [j]: after the
    request, the stored centre is what the aggregation of [mist-percentage]
    reads.  When the cell is not in the first row, the last row or the last
    column, its id is in the explored set of the user.  When it is, the row
    is stored all the same and the aggregation skips it: the explored set is
    what it was. *)
Theorem ExploreGrid_POST_explored (userId : string) (t : Table) (lat0 lon0 : number) :
  truthy userId = true ->
  isInTaiwanBounds lat0 lon0 = true ->
  exists k j,
    2388 <= k <= 2833 /\ 11900 <= j <= 12250
    /\ coordinateToGridId lat0 lon0 = Some (cellId k j)
    /\ let t' := snd (ExploreGrid.POST (Some userId) (visitBody lat0 lon0) t) in
       (edgeCell k j = false -> cellId k j ∈ exploredSet (findMany userId t'))
       /\ (edgeCell k j = true ->
           exploredSet (findMany userId t') = exploredSet (findMany userId t)
           /\ exists row, In row t' /\ user_id row = userId
                          /\ coordinate row = Some (centreKey k j) /\ cellOf row = None).
Proof.
  intros Hu Hb.
  destruct (coordinateToGridId_cell _ _ Hb) as (k & j & Hk & Hj & _ & _ & E).
  exists k, j. split; [exact Hk|]. split; [exact Hj|]. split; [exact E|].
  cbv zeta. rewrite (ExploreGrid_POST_cell userId t lat0 lon0 k j Hu Hk Hj E).
  destruct (findFirst userId (centreKey k j) t) as [e|] eqn:F; cbn [snd].
  - pose proof (findFirst_Some _ _ _ _ F) as (F1 & F2 & F3).
    pose proof (cellOf_centreKey e k j Hk Hj F3) as Ce.
    split.
    + intros He. rewrite He in Ce. apply exploredSet_elem. exists e. split; [|exact Ce].
      apply findMany_In. repeat split; auto. congruence.
    + intros He. rewrite He in Ce. split; [reflexivity|]. exists e. auto.
  - pose proof (cellOf_centreKey (centreRow t userId k j) k j Hk Hj eq_refl) as Cr.
    destruct (exploredSet_one_more userId t (centreRow t userId k j)) as [-> H].
    split.
    + intros He. rewrite He in Cr.
      destruct H as [H|(g & Hg & _ & ->)].
      * exfalso. assert (X : cellId k j ∈ exploredSet (findMany userId [centreRow t userId k j])).
        { apply exploredSet_elem. exists (centreRow t userId k j). split; [|exact Cr].
          apply findMany_In. repeat split; [left; reflexivity|discriminate]. }
        rewrite H in X. set_solver.
      * assert (g = cellId k j) by congruence. subst g. set_solver.
    + intros He. rewrite He in Cr. split.
      * destruct H as [->|(g & Hg & _)]; [set_solver|congruence].
      * exists (centreRow t userId k j). repeat split; auto.
        apply List.in_or_app. right. left. reflexivity.
Qed.

Lemma ExploreGrid_POST_explored_witness :
  exists k j,
    2388 <= k <= 2833 /\ 11900 <= j <= 12250
    /\ coordinateToGridId (fst rawA) (snd rawA) = Some (cellId k j)
    /\ let t' := snd (ExploreGrid.POST (Some "u") (visitBody (fst rawA) (snd rawA)) []) in
       (edgeCell k j = false -> cellId k j ∈ exploredSet (findMany "u" t'))
       /\ (edgeCell k j = true ->
           exploredSet (findMany "u" t') = exploredSet (findMany "u" [])
           /\ exists row, In row t' /\ user_id row = "u"
                          /\ coordinate row = Some (centreKey k j) /\ cellOf row = None).
Proof.
  apply (ExploreGrid_POST_explored "u" [] (fst rawA) (snd rawA)); vm_compute; reflexivity.
Defined.
(** ** [explored-grids] *)

Section GridMap.
Import ExploredGrids.

Lemma Map_get_set (g g' : string) (v : Entry) (m : GridMap) :
  Map_get g' (Map_set g v m) = if String.eqb g g' then Some v else Map_get g' m.
Proof.
  induction m as [|[k w] m IH]; cbn [Map_set Map_get].
  - destruct (String.eqb_spec g g'); reflexivity.
  - destruct (String.eqb_spec k g) as [->|Hk]; cbn [Map_get].
    + destruct (String.eqb_spec g g'); reflexivity.
    + rewrite IH. destruct (String.eqb_spec k g') as [->|Hk'].
      * destruct (String.eqb_spec g g'); [congruence|reflexivity].
      * reflexivity.
Qed.

Lemma Map_get_None (g : string) (m : GridMap) :
  Map_get g m = None <-> ~ In g (List.map fst m).
Proof.
  induction m as [|[k w] m IH]; cbn [Map_get List.map fst In]; [tauto|].
  destruct (String.eqb_spec k g) as [->|Hk].
  - split; [discriminate|]. intros H. exfalso. apply H. left. reflexivity.
  - rewrite IH. tauto.
Qed.

Lemma Map_set_keys (g : string) (v : Entry) (m : GridMap) :
  List.map fst (Map_set g v m)
  = match Map_get g m with
    | Some _ => List.map fst m
    | None => (List.map fst m ++ [g])%list
    end.
Proof.
  induction m as [|[k w] m IH]; cbn [Map_set Map_get List.map fst]; [reflexivity|].
  destruct (String.eqb_spec k g) as [->|Hk]; cbn [List.map fst]; [reflexivity|].
  rewrite IH. destruct (Map_get g m); reflexivity.
Qed.

Lemma Map_get_In (g : string) (e : Entry) (m : GridMap) :
  List.NoDup (List.map fst m) -> In (g, e) m -> Map_get g m = Some e.
Proof.
  induction m as [|[k w] m IH]; cbn [Map_get List.map fst In]; [tauto|].
  intros Hnd [H|H].
  - injection H as -> ->. rewrite String.eqb_refl. reflexivity.
  - apply List.NoDup_cons_iff in Hnd. destruct Hnd as [Hk Hnd].
    destruct (String.eqb_spec k g) as [->|Hkg].
    + exfalso. apply Hk. apply (List.in_map fst) in H. exact H.
    + apply IH; assumption.
Qed.

(** One step of the [forEach], in terms of the cell of the record. *)
Lemma visit_step (m : GridMap) (f : Footprint) :
  ExploredGrids.visit m f
  = match cellOf f, Prisma.coordinate f with
    | Some gridId, Some c =>
        if match Map_get gridId m with
           | None => true
           | Some existing => exploredAt existing <? timeValue (Create_time f)
           end
        then match Create_time f with
             | Some t => Some (Map_set gridId {| coordinate := c; exploredAt := t |} m)
             | None => None
             end
        else Some m
    | _, _ => Some m
    end.
Proof.
  unfold ExploredGrids.visit, cellOf, parseCoordinate.
  destruct (Prisma.coordinate f) as [c|]; [|reflexivity].
  destruct (negb (truthy c)); [reflexivity|].
  assert (G : forall lat lon : number,
             (if negb (isNaN lat) && negb (isNaN lon)
              then match coordinateToGridId lat lon with
                   | Some gridId =>
                       if truthy gridId
                       then
                         if match Map_get gridId m with
                            | None => true
                            | Some existing => exploredAt existing <? timeValue (Create_time f)
                            end
                         then match Create_time f with
                              | Some t =>
                                  Some (Map_set gridId {| coordinate := c; exploredAt := t |} m)
                              | None => None
                              end
                         else Some m
                       else Some m
                   | None => Some m
                   end
              else Some m)
             = match (if isNaN lat || isNaN lon then None else coordinateToGridId lat lon) with
               | Some gridId =>
                   if match Map_get gridId m with
                      | None => true
                      | Some existing => exploredAt existing <? timeValue (Create_time f)
                      end
                   then match Create_time f with
                        | Some t =>
                            Some (Map_set gridId {| coordinate := c; exploredAt := t |} m)
                        | None => None
                        end
                   else Some m
               | None => Some m
               end).
  { intros lat lon. destruct (isNaN lat), (isNaN lon); cbn [negb andb orb]; try reflexivity.
    destruct (coordinateToGridId lat lon) as [g|] eqn:E; [|reflexivity].
    rewrite (coordinateToGridId_truthy _ _ _ E). reflexivity. }
  destruct (split "," c) as [|latStr [|lonStr parts]]; apply G.
Qed.

Lemma cellOf_coordinate (f : Footprint) (g : string) :
  cellOf f = Some g -> exists c, Prisma.coordinate f = Some c.
Proof. unfold cellOf. destruct (Prisma.coordinate f) as [c|]; [eauto|discriminate]. Qed.

Lemma holds_step (m : GridMap) (P : list Footprint) (f : Footprint) :
  holds m P -> Create_time f <> None ->
  exists m', ExploredGrids.visit m f = Some m' /\ holds m' (P ++ [f]).
Proof.
  intros [Hnd H] Ht. rewrite visit_step.
  destruct (Create_time f) as [tm|] eqn:Et; [clear Ht|congruence].
  destruct (cellOf f) as [g|] eqn:Ec.
  2:{ exists m. destruct (Prisma.coordinate f); (split; [reflexivity|]);
      (split; [exact Hnd|]); intros g; specialize (H g);
      (destruct (Map_get g m) as [e|];
       [destruct H as [(f0 & H0 & H1) H2]; split;
        [exists f0; split; [apply List.in_or_app; left; exact H0|exact H1]
        |intros f' t' Hin; apply List.in_app_or in Hin; destruct Hin as [Hin|[<-|[]]];
         [apply H2; exact Hin|congruence]]
       |intros f' Hin; apply List.in_app_or in Hin; destruct Hin as [Hin|[<-|[]]];
        [apply H; exact Hin|congruence]]). }
  destruct (cellOf_coordinate f g Ec) as [c Hc]. rewrite Hc. cbn [timeValue].
  pose proof (H g) as Hg.
  destruct (Map_get g m) as [e|] eqn:Eg.
  - destruct (exploredAt e <? tm) eqn:Elt.
    + (* the record is later: it replaces the entry *)
      apply Z.ltb_lt in Elt. eexists. split; [reflexivity|]. split.
      * rewrite Map_set_keys, Eg. exact Hnd.
      * intros g'. rewrite Map_get_set. destruct (String.eqb_spec g g') as [<-|Hne].
        -- cbn [coordinate exploredAt]. split.
           ++ exists f. split; [apply List.in_or_app; right; left; reflexivity|auto].
           ++ intros f' t' Hin Hc' Ht'. apply List.in_app_or in Hin.
              destruct Hin as [Hin|[<-|[]]].
              ** destruct Hg as [_ Hmax]. specialize (Hmax f' t' Hin Hc' Ht'). lia.
              ** assert (t' = tm) by congruence. lia.
        -- specialize (H g'). destruct (Map_get g' m) as [e'|].
           ++ destruct H as [(f0 & H0 & H1) H2]. split.
              ** exists f0. split; [apply List.in_or_app; left; exact H0|exact H1].
              ** intros f' t' Hin. apply List.in_app_or in Hin. destruct Hin as [Hin|[<-|[]]].
                 --- apply H2. exact Hin.
                 --- intros Hc'. congruence.
           ++ intros f' Hin. apply List.in_app_or in Hin. destruct Hin as [Hin|[<-|[]]].
              ** apply H. exact Hin.
              ** congruence.
    + (* the entry stays *)
      apply Z.ltb_ge in Elt. exists m. split; [reflexivity|]. split; [exact Hnd|].
      intros g'. destruct (String.eqb_spec g g') as [<-|Hne].
      * rewrite Eg. destruct Hg as [(f0 & H0 & H1) H2]. split.
        -- exists f0. split; [apply List.in_or_app; left; exact H0|exact H1].
        -- intros f' t' Hin Hc' Ht'. apply List.in_app_or in Hin.
           destruct Hin as [Hin|[<-|[]]].
           ++ apply (H2 f' t' Hin Hc' Ht').
           ++ assert (t' = tm) by congruence. lia.
      * specialize (H g'). destruct (Map_get g' m) as [e'|].
        -- destruct H as [(f0 & H0 & H1) H2]. split.
           ++ exists f0. split; [apply List.in_or_app; left; exact H0|exact H1].
           ++ intros f' t' Hin. apply List.in_app_or in Hin. destruct Hin as [Hin|[<-|[]]].
              ** apply H2. exact Hin.
              ** intros Hc'. congruence.
        -- intros f' Hin. apply List.in_app_or in Hin. destruct Hin as [Hin|[<-|[]]].
           ++ apply H. exact Hin.
           ++ congruence.
  - (* a new key *)
    eexists. split; [reflexivity|]. split.
    + rewrite Map_set_keys, Eg. apply List.NoDup_app; [exact Hnd|repeat constructor; intros []|].
      intros x Hx [<-|[]]. apply Map_get_None in Eg. contradiction.
    + intros g'. rewrite Map_get_set. destruct (String.eqb_spec g g') as [<-|Hne].
      * cbn [coordinate exploredAt]. split.
        -- exists f. split; [apply List.in_or_app; right; left; reflexivity|auto].
        -- intros f' t' Hin Hc' Ht'. apply List.in_app_or in Hin.
           destruct Hin as [Hin|[<-|[]]].
           ++ exfalso. apply (Hg f' Hin Hc').
           ++ assert (t' = tm) by congruence. lia.
      * specialize (H g'). destruct (Map_get g' m) as [e'|].
        -- destruct H as [(f0 & H0 & H1) H2]. split.
           ++ exists f0. split; [apply List.in_or_app; left; exact H0|exact H1].
           ++ intros f' t' Hin. apply List.in_app_or in Hin. destruct Hin as [Hin|[<-|[]]].
              ** apply H2. exact Hin.
              ** intros Hc'. congruence.
        -- intros f' Hin. apply List.in_app_or in Hin. destruct Hin as [Hin|[<-|[]]].
           ++ apply H. exact Hin.
           ++ congruence.
Qed.

Lemma holds_forEach (l P : list Footprint) (m : GridMap) :
  holds m P -> Forall (fun f => Create_time f <> None) l ->
  exists m', forEach l m = Some m' /\ holds m' (P ++ l).
Proof.
  revert P m. induction l as [|f l IH]; intros P m Hm Hl.
  - exists m. rewrite List.app_nil_r. auto.
  - apply Forall_cons_iff in Hl. destruct Hl as [Hf Hl].
    destruct (holds_step m P f Hm Hf) as (m1 & E1 & H1).
    destruct (IH (P ++ [f])%list m1 H1 Hl) as (m' & E' & H').
    exists m'. cbn [forEach]. rewrite E1. split; [exact E'|].
    rewrite <- List.app_assoc in H'. exact H'.
Qed.

Lemma holds_nil : holds [] [].
Proof. split; [constructor|]. intros g f []. Qed.

End GridMap.
Lemma getUserId_truthy (auth : Auth.Outcome) (userId : string) :
  Auth.getUserId auth = Some userId -> truthy userId = true.
Proof.
  unfold Auth.getUserId, Auth.orNull, Auth.orElse. destruct auth as [|session]; [discriminate|].
  destruct (match session with
            | Some session =>
                match Auth.user session with Some user => Auth.id user | None => None end
            | None => None
            end) as [s|]; [|discriminate].
  destruct (truthy s) eqn:E; [|discriminate]. intros [= <-]. exact E.
Qed.

Lemma ExploredGrids_GET_holds (auth : Auth.Outcome) (userId : string) (t : Table) :
  Auth.getUserId auth = Some userId ->
  Forall (fun f => Create_time f <> None) (findMany userId t) ->
  exists gridMap,
    ExploredGrids.forEach (findMany userId t) [] = Some gridMap
    /\ holds gridMap (findMany userId t)
    /\ ExploredGrids.GET auth t
       = ExploredGrids.Grids
           (List.map
              (fun '(gridId, data) =>
                 {| ExploredGrids.grid_gridId := gridId;
                    ExploredGrids.grid_coordinate := ExploredGrids.coordinate data;
                    ExploredGrids.grid_exploredAt := ExploredGrids.exploredAt data |})
              gridMap).
Proof.
  intros Hu Ht.
  destruct (holds_forEach (findMany userId t) [] [] holds_nil Ht) as (m & E & H).
  exists m. split; [exact E|]. split; [exact H|].
  unfold ExploredGrids.GET. rewrite Hu, (getUserId_truthy _ _ Hu). cbn [negb].
  rewrite E. reflexivity.
Qed.

Lemma grid_ids (m : ExploredGrids.GridMap) :
  List.map ExploredGrids.grid_gridId
    (List.map
       (fun '(gridId, data) =>
          {| ExploredGrids.grid_gridId := gridId;
             ExploredGrids.grid_coordinate := ExploredGrids.coordinate data;
             ExploredGrids.grid_exploredAt := ExploredGrids.exploredAt data |}) m)
  = List.map fst m.
Proof. rewrite List.map_map. apply List.map_ext. intros [g e]. reflexivity. Qed.

Lemma holds_keys (m : ExploredGrids.GridMap) (P : list Footprint) (g : string) :
  holds m P -> (In g (List.map fst m) <-> g ∈ exploredSet P).
Proof.
  intros [_ H]. specialize (H g). rewrite exploredSet_elem.
  destruct (ExploredGrids.Map_get g m) as [e|] eqn:E.
  - destruct H as [(f & Hf & Hc & _) _]. split.
    + intros _. exists f. auto.
    + intros _. destruct (List.in_dec string_dec g (List.map fst m)) as [Hin|Hin];
        [exact Hin|]. apply Map_get_None in Hin. congruence.
  - split.
    + intros Hin. apply Map_get_None in E. contradiction.
    + intros (f & Hf & Hc). exfalso. apply (H f Hf Hc).
Qed.

(** [explored-grids], for a signed-in user whose rows have their
    [Create_time].  The answer lists each explored cell once, and the listed
    ids are those of the explored set that [mist-percentage] builds from the
    same rows: the number of grids is the count that the percentage divides
    by the total. *)
Theorem ExploredGrids_GET_cells (auth : Auth.Outcome) (userId : string) (t : Table)
    (allGridIds : list string) :
  Auth.getUserId auth = Some userId ->
  Forall (fun f => Create_time f <> None) (findMany userId t) ->
  exists grids,
    ExploredGrids.GET auth t = ExploredGrids.Grids grids
    /\ List.NoDup (List.map ExploredGrids.grid_gridId grids)
    /\ (forall gridId,
          In gridId (List.map ExploredGrids.grid_gridId grids)
          <-> gridId ∈ exploredSet (findMany userId t))
    /\ List.length grids = size (exploredSet (findMany userId t))
    /\ (allGridIds <> [] ->
        percentage (coverage allGridIds userId t)
        = percentageOf (List.length grids) (List.length allGridIds)).
Proof.
  intros Hu Ht.
  destruct (ExploredGrids_GET_holds auth userId t Hu Ht) as (m & _ & H & ->).
  eexists. split; [reflexivity|]. rewrite grid_ids.
  assert (Hnd : List.NoDup (List.map fst m)) by apply H.
  assert (Hk : forall g, In g (List.map fst m) <-> g ∈ exploredSet (findMany userId t))
    by (intros g; apply holds_keys, H).
  assert (Hs : List.length
                 (List.map
                    (fun '(gridId, data) =>
                       {| ExploredGrids.grid_gridId := gridId;
                          ExploredGrids.grid_coordinate := ExploredGrids.coordinate data;
                          ExploredGrids.grid_exploredAt := ExploredGrids.exploredAt data |}) m)
               = size (exploredSet (findMany userId t))).
  { rewrite List.length_map, <- (List.length_map fst).
    replace (exploredSet (findMany userId t)) with (list_to_set (List.map fst m) : gset string).
    - symmetry. apply size_list_to_set. apply NoDup_ListNoDup. exact Hnd.
    - apply set_eq. intros g. rewrite elem_of_list_to_set, <- Hk. apply list_elem_of_In. }
  split; [exact Hnd|]. split; [exact Hk|]. split; [exact Hs|].
  intros Hne. unfold coverage. rewrite Hs.
  destruct allGridIds; [congruence|]. reflexivity.
Qed.

Lemma ExploredGrids_GET_cells_witness :
  exists grids,
    ExploredGrids.GET (signedIn "u") datedVisits = ExploredGrids.Grids grids
    /\ List.NoDup (List.map ExploredGrids.grid_gridId grids)
    /\ (forall gridId,
          In gridId (List.map ExploredGrids.grid_gridId grids)
          <-> gridId ∈ exploredSet (findMany "u" datedVisits))
    /\ List.length grids = size (exploredSet (findMany "u" datedVisits))
    /\ (fourCells <> [] ->
        percentage (coverage fourCells "u" datedVisits)
        = percentageOf (List.length grids) (List.length fourCells)).
Proof.
  apply (ExploredGrids_GET_cells (signedIn "u") "u" datedVisits fourCells).
  - reflexivity.
  - repeat constructor; discriminate.
Defined.



Example ExploredGrids_GET_example :
  ExploredGrids.GET (signedIn "u") datedVisits
  = ExploredGrids.Grids
      [ {| ExploredGrids.grid_gridId := "grid_25.029_121.56";
           ExploredGrids.grid_coordinate := "25.0330,121.5654";
           ExploredGrids.grid_exploredAt := 2000 |};
        {| ExploredGrids.grid_gridId := "grid_23.499_120.50";
           ExploredGrids.grid_coordinate := "23.5,120.5";
           ExploredGrids.grid_exploredAt := 3000 |} ]
  /\ ExploredGrids.GET Auth.Rejects datedVisits = ExploredGrids.Grids []
  /\ ExploredGrids.GET (signedIn "u") [footprintAt 1 "u" (Some "23.5,120.5")]
     = ExploredGrids.InternalError.
Proof. vm_compute. repeat split; reflexivity. Qed.
(** ** The middleware *)

(** What a handler may rely on after [requireAuth] has returned: the user id
    and the e-mail address are non-empty strings taken from the session, the
    user name is non-empty when there is one, [getUserId] gives the same
    user id, and [optionalAuth] gives the same result. *)
Theorem requireAuth_guarantees (auth : Auth.Outcome) (result : Auth.AuthResult) :
  Auth.requireAuth auth = inr result ->
  truthy (Auth.userId result) = true
  /\ truthy (Auth.userEmail result) = true
  /\ (forall userName, Auth.userName result = Some userName -> truthy userName = true)
  /\ (exists session user,
        auth = Auth.Resolves (Some session) /\ Auth.user session = Some user
        /\ Auth.id user = Some (Auth.userId result)
        /\ Auth.email user = Some (Auth.userEmail result))
  /\ Auth.getUserId auth = Some (Auth.userId result)
  /\ Auth.optionalAuth auth = Some result.
Proof.
  intros H. assert (O : Auth.optionalAuth auth = Some result)
    by (unfold Auth.optionalAuth; rewrite H; reflexivity).
  unfold Auth.requireAuth in H. unfold Auth.getUserId.
  destruct auth as [|[session|]]; try discriminate.
  destruct (Auth.user session) as [user|] eqn:U; [|discriminate].
  unfold Auth.orNull, Auth.orElse in *.
  destruct (Auth.email user) as [e|] eqn:E; [|discriminate].
  destruct (truthy e) eqn:Te; [|discriminate].
  destruct (Auth.id user) as [i|] eqn:I; [|discriminate].
  destruct (truthy i) eqn:Ti; [|discriminate].
  injection H as <-. cbn [Auth.userId Auth.userEmail Auth.userName].
  split; [exact Ti|]. split; [exact Te|]. split.
  { intros n. destruct (Auth.name user) as [a|]; [destruct (truthy a) eqn:Ta|].
    - rewrite Ta. intros [= <-]. exact Ta.
    - destruct (Auth.UserName user) as [b|]; [|discriminate].
      destruct (truthy b) eqn:Tb; [|discriminate]. intros [= <-]. exact Tb.
    - destruct (Auth.UserName user) as [b|]; [|discriminate].
      destruct (truthy b) eqn:Tb; [|discriminate]. intros [= <-]. exact Tb. }
  split; [exists session, user; auto|]. split; [reflexivity|exact O].
Qed.

Lemma requireAuth_guarantees_witness :
  truthy "u" = true
  /\ truthy "u@example.org" = true
  /\ (forall userName, @None string = Some userName -> truthy userName = true)
  /\ (exists session user,
        signedIn "u" = Auth.Resolves (Some session) /\ Auth.user session = Some user
        /\ Auth.id user = Some "u"
        /\ Auth.email user = Some "u@example.org")
  /\ Auth.getUserId (signedIn "u") = Some "u"
  /\ Auth.optionalAuth (signedIn "u")
     = Some {| Auth.userId := "u"; Auth.userEmail := "u@example.org";
               Auth.userName := None |}.
Proof.
  apply (requireAuth_guarantees (signedIn "u")
           {| Auth.userId := "u"; Auth.userEmail := "u@example.org";
              Auth.userName := None |}).
  reflexivity.
Defined.

(** ** The fog *)

Lemma filter_length_split {A : Type} (p : A -> bool) (l : list A) :
  (List.length (List.filter p l) + List.length (List.filter (fun x => negb (p x)) l)
   = List.length l)%nat.
Proof.
  induction l as [|a l IH]; [reflexivity|]. cbn [List.filter].
  destruct (p a); cbn [negb List.length]; lia.
Qed.

Lemma NoDup_filter' {A : Type} (p : A -> bool) (l : list A) :
  List.NoDup l -> List.NoDup (List.filter p l).
Proof.
  induction 1 as [|a l Ha Hl IH]; cbn [List.filter]; [constructor|].
  destruct (p a); [|exact IH]. constructor; [|exact IH].
  rewrite List.filter_In. tauto.
Qed.

Lemma explored_count (X : gset string) (l : list string) :
  List.NoDup l ->
  List.length (List.filter (fun id => bool_decide (id ∈ X)) l)
  = size (X ∩ list_to_set l).
Proof.
  intros Hl.
  replace (X ∩ list_to_set l)
    with (list_to_set (List.filter (fun id => bool_decide (id ∈ X)) l) : gset string).
  - symmetry. apply size_list_to_set, NoDup_ListNoDup, NoDup_filter', Hl.
  - apply set_eq. intros x.
    rewrite elem_of_list_to_set, elem_of_intersection, elem_of_list_to_set,
      !list_elem_of_In, List.filter_In, bool_decide_eq_true. tauto.
Qed.


(** ** The order of numbers *)

Lemma le_trans (x y z : number) : le x y = true -> le y z = true -> le x z = true.
Proof.
  unfold le, SFleb, SFcompare.
  destruct x as [sx|sx| |sx mx ex], y as [sy|sy| |sy my ey], z as [sz|sz| |sz mz ez];
    try destruct sx; try destruct sy; try destruct sz; try discriminate; try reflexivity;
    fold (Pos.compare mx my) (Pos.compare my mz) (Pos.compare mx mz);
    destruct (Z.compare_spec ex ey), (Z.compare_spec ey ez), (Z.compare_spec ex ez);
    try lia; try discriminate; try reflexivity;
    destruct (Pos.compare_spec mx my), (Pos.compare_spec my mz), (Pos.compare_spec mx mz);
    cbn [CompOpp]; try lia; try discriminate; reflexivity.
Qed.

Lemma le_NaN_r (x y : number) : isNaN y = true -> SFleb x y = false.
Proof. destruct y; try discriminate. intros _. destruct x; reflexivity. Qed.

(** ** The weather route *)

(** A coordinate in a box is in every box around it. *)
Lemma within_inside (x y : number) (a b : Weather.Location) :
  Weather.within x y a = true ->
  le (Weather.latMin b) (Weather.latMin a) && le (Weather.latMax a) (Weather.latMax b)
  && le (Weather.lonMin b) (Weather.lonMin a) && le (Weather.lonMax a) (Weather.lonMax b)
  = true ->
  Weather.within x y b = true.
Proof.
  unfold Weather.within, ge. fold (le (Weather.latMin a) x) (le (Weather.lonMin a) y)
    (le (Weather.latMin b) x) (le (Weather.lonMin b) y).
  rewrite !andb_true_iff. intros [[[A1 A2] A3] A4] [[[B1 B2] B3] B4].
  repeat split; eapply le_trans; eassumption.
Qed.

(** [getLocationNameByCoordinates] on every pair of strings.  It returns a
    name of its table.  It never returns the seventh name: the box of that entry lies
    inside the box of the second entry, which the loop reaches first.  It
    returns the first name both for coordinates in the first box and for
    coordinates in no box, and so for every text that is not a number. *)
Theorem getLocationNameByCoordinates_names (lat lon : string) :
  In (Weather.getLocationNameByCoordinates lat lon) (List.map Weather.name Weather.locations)
  /\ Weather.getLocationNameByCoordinates lat lon <> "基隆市"
  /\ (isNaN (parseFloat lat) = true \/ isNaN (parseFloat lon) = true ->
      Weather.getLocationNameByCoordinates lat lon = "臺北市")
  /\ (Weather.firstWithin (parseFloat lat) (parseFloat lon) Weather.locations = None ->
      Weather.getLocationNameByCoordinates lat lon = "臺北市")
  /\ (forall name, In name (List.map Weather.name Weather.locations) ->
        name <> "基隆市" ->
        exists lat' lon', Weather.getLocationNameByCoordinates lat' lon' = name).
Proof.
  assert (R : forall name, In name (List.map Weather.name Weather.locations) ->
                name <> "基隆市" ->
                exists lat' lon', Weather.getLocationNameByCoordinates lat' lon' = name).
  { assert (S : List.map (fun p => Weather.getLocationNameByCoordinates (fst p) (snd p))
                  weatherSamples
                = List.filter (fun n => negb (String.eqb n "基隆市"))
                    (List.map Weather.name Weather.locations))
      by (vm_compute; reflexivity).
    intros n Hn Hk.
    assert (Hin : In n (List.map (fun p => Weather.getLocationNameByCoordinates (fst p) (snd p))
                          weatherSamples)).
    { rewrite S. apply List.filter_In. split; [exact Hn|].
      destruct (String.eqb_spec n "基隆市"); [contradiction|reflexivity]. }
    apply List.in_map_iff in Hin. destruct Hin as ([a b] & H & _). exists a, b. exact H. }
  unfold Weather.getLocationNameByCoordinates. cbv zeta.
  set (x := parseFloat lat). set (y := parseFloat lon).
  split; [|split; [|split; [|split; [|exact R]]]]; clear R.
  - assert (G : forall l, match Weather.firstWithin x y l with
                          | Some n => In n (List.map Weather.name l)
                          | None => True
                          end).
    { induction l as [|a l IH]; cbn [Weather.firstWithin]; [exact I|].
      destruct (Weather.within x y a); cbn [List.map In]; [left; reflexivity|].
      destruct (Weather.firstWithin x y l); [right; exact IH|exact I]. }
    specialize (G Weather.locations).
    destruct (Weather.firstWithin x y Weather.locations); [exact G|].
    left. reflexivity.
  - unfold Weather.locations. cbn [Weather.firstWithin].
    repeat match goal with
           | |- context [Weather.within x y ?a] =>
               let E := fresh "E" in destruct (Weather.within x y a) eqn:E;
               [first [discriminate|idtac]|]
           end; try discriminate.
    exfalso.
    match goal with
    | H2 : Weather.within x y ?b = false, H7 : Weather.within x y ?a = true |- _ =>
        rewrite (within_inside x y a b H7) in H2 by (vm_compute; reflexivity);
        discriminate
    end.
  - intros Hn.
    assert (G : forall l, Weather.firstWithin x y l = None).
    { induction l as [|a l IH]; cbn [Weather.firstWithin]; [reflexivity|].
      replace (Weather.within x y a) with false; [exact IH|].
      symmetry. unfold Weather.within, ge.
      destruct Hn as [Hn|Hn].
      - rewrite (le_NaN_r _ x Hn). reflexivity.
      - rewrite (le_NaN_r _ y Hn), andb_false_r. reflexivity. }
    rewrite G. reflexivity.
  - intros ->. reflexivity.
Qed.
(** ** The administrator key *)

Lemma startsWith_substring (s p : string) :
  Admin.startsWith s p = true -> s = p ++ Admin.substring (String.length p) s.
Proof.
  revert s. induction p as [|c p IH]; intros s; [reflexivity|].
  destruct s as [|d s]; cbn [Admin.startsWith]; [discriminate|].
  rewrite andb_true_iff, Ascii.eqb_eq.
  intros [-> H]. change (String d s = String d (p ++ Admin.substring (String.length p) s)).
  f_equal. apply IH, H.
Qed.

Lemma startsWith_append (p s : string) : Admin.startsWith (p ++ s) p = true.
Proof.
  induction p as [|c p IH]; [destruct s; reflexivity|].
  change (Admin.startsWith (String c (p ++ s)) (String c p) = true).
  cbn [Admin.startsWith]. rewrite Ascii.eqb_refl. exact IH.
Qed.

Lemma substring_append (p s : string) : Admin.substring (String.length p) (p ++ s) = s.
Proof. induction p as [|c p IH]; [reflexivity|]. exact IH. Qed.

(** [verifyAdminKey] accepts a request exactly when an administrator key is
    configured and is not the empty string, and the [Authorization] header is
    that key after the prefix ["Bearer "], or is that key itself and does not
    start with ["Bearer "].  With no key configured, or the empty key, no
    header is accepted. *)
Theorem verifyAdminKey_accepts (adminApiKey authHeader : option string) :
  Admin.verifyAdminKey adminApiKey authHeader = true <->
  exists key,
    adminApiKey = Some key /\ key <> ""
    /\ (authHeader = Some ("Bearer " ++ key)
        \/ (authHeader = Some key /\ Admin.startsWith key "Bearer " = false)).
Proof.
  unfold Admin.verifyAdminKey, truthy. split.
  - destruct adminApiKey as [key|]; [|discriminate].
    destruct (String.eqb_spec key "") as [|Hk]; [discriminate|]. cbn [negb].
    destruct authHeader as [h|]; [|discriminate].
    destruct (String.eqb_spec h "") as [|Hh]; [discriminate|]. cbn [negb].
    destruct (Admin.startsWith h "Bearer ") eqn:P; rewrite String.eqb_eq; intros E.
    + exists key. split; [reflexivity|]. split; [exact Hk|]. left.
      apply startsWith_substring in P. cbn [String.length] in P. rewrite E in P.
      rewrite P. reflexivity.
    + subst h. exists key. auto.
  - intros (key & -> & Hk & H).
    destruct (String.eqb_spec key "") as [|_]; [contradiction|]. cbn [negb].
    destruct H as [->|[-> P]].
    + change (String.eqb ("Bearer " ++ key) "") with false. cbn [negb].
      rewrite (startsWith_append "Bearer " key).
      change (Admin.substring 7 ("Bearer " ++ key))
        with (Admin.substring (String.length "Bearer ") ("Bearer " ++ key)).
      rewrite (substring_append "Bearer " key). apply String.eqb_refl.
    + destruct (String.eqb_spec key "") as [|_]; [contradiction|]. cbn [negb].
      rewrite P. apply String.eqb_refl.
Qed.
(** ** Decimal digits, written and read *)

Lemma scanDigits_all (l rest : list ascii) (acc : N) (cnt : nat) :
  forallb isDigit l = true ->
  match rest with c :: _ => isDigit c = false | [] => True end ->
  scanDigits (l ++ rest) acc cnt = (scanAll l acc, (cnt + List.length l)%nat, rest).
Proof.
  revert acc cnt. induction l as [|c l IH]; intros acc cnt Hl Hr.
  - cbn [List.app scanAll fold_left List.length]. rewrite Nat.add_0_r.
    destruct rest as [|c rest]; [reflexivity|]. cbn [scanDigits].
    unfold isDigit in Hr. destruct (digitValue c); [discriminate|reflexivity].
  - cbn [forallb] in Hl. apply andb_true_iff in Hl. destruct Hl as [Hc Hl].
    cbn [List.app scanDigits scanAll fold_left List.length]. unfold isDigit in Hc.
    destruct (digitValue c) as [d|]; [|discriminate].
    rewrite (IH _ _ Hl Hr). unfold scanAll. f_equal. f_equal. lia.
Qed.

Lemma scanAll_app (l l' : list ascii) (acc : N) :
  scanAll (l ++ l') acc = scanAll l' (scanAll l acc).
Proof. unfold scanAll. apply fold_left_app. Qed.

Lemma charsOfUint_digits (d : uint) : forallb isDigit (charsOfUint d) = true.
Proof. induction d; cbn [charsOfUint forallb]; try rewrite IHd; reflexivity. Qed.

Lemma scanAll_cons (c : ascii) (l : list ascii) (acc : N) :
  scanAll (c :: l) acc
  = scanAll l (match digitValue c with Some d => 10 * acc + d | None => acc end)%N.
Proof. reflexivity. Qed.

Lemma scanAll_chars (d : uint) (acc : N) : scanAll (charsOfUint d) acc = accDigits d acc.
Proof.
  revert acc. induction d; intros acc; cbn [charsOfUint accDigits]; [reflexivity|..];
    rewrite scanAll_cons, IHd; f_equal;
    match goal with
    | |- context [digitValue ?c] =>
        let v := eval vm_compute in (digitValue c) in change (digitValue c) with v; cbv beta iota
    end; lia.
Qed.

Lemma accDigits_pos (d : uint) (p : positive) :
  accDigits d (Npos p) = Npos (Pos.of_uint_acc d p).
Proof.
  revert p. induction d; intros p; cbn [accDigits Pos.of_uint_acc]; [reflexivity|..];
    match goal with
    | |- accDigits _ ?a = N.pos (Pos.of_uint_acc _ ?b) =>
        replace a with (Npos b) by lia; apply IHd
    end.
Qed.

Lemma accDigits_0 (d : uint) : accDigits d 0 = N.of_uint d.
Proof.
  unfold N.of_uint. induction d; cbn [accDigits Pos.of_uint]; [reflexivity|exact IHd|..];
    match goal with
    | |- accDigits _ ?a = _ => change a with (Npos (Pos.of_succ_nat (N.to_nat (N.pred a))))
    end; rewrite accDigits_pos; reflexivity.
Qed.

Lemma accDigits_to_uint (n : N) : accDigits (N.to_uint n) 0 = n.
Proof. rewrite accDigits_0. apply DecimalN.Unsigned.of_to. Qed.

Lemma length_charsOfUint (d : uint) : List.length (charsOfUint d) = nb_digits d.
Proof. induction d; cbn [charsOfUint List.length nb_digits]; congruence. Qed.


(** The value of the digits [d] read after [acc]. *)
Lemma accDigits_bounds (d : uint) (acc : N) :
  Z.of_N acc * 10 ^ Z.of_nat (nb_digits d) <= Z.of_N (accDigits d acc)
  < (Z.of_N acc + 1) * 10 ^ Z.of_nat (nb_digits d).
Proof.
  revert acc. induction d; intros acc; cbn [accDigits nb_digits];
    [change (10 ^ Z.of_nat 0) with 1; lia|..];
    rewrite Nat2Z.inj_succ, Z.pow_succ_r by lia;
    match goal with
    | |- _ <= Z.of_N (accDigits d ?a) < _ => specialize (IHd a)
    end;
    assert (0 < 10 ^ Z.of_nat (nb_digits d)) by (apply Z.pow_pos_nonneg; lia);
    nia.
Qed.

Lemma to_uint_leading (n : N) :
  n <> 0%N ->
  match N.to_uint n with
  | Nil | D0 _ => False
  | _ => True
  end.
Proof.
  intros Hn. pose proof (DecimalN.Unsigned.to_of (N.to_uint n)) as H.
  rewrite DecimalN.Unsigned.of_to in H. unfold unorm in H.
  pose proof (DecimalFacts.nzhead_nonzero (N.to_uint n)) as Hz.
  destruct (nzhead (N.to_uint n)) eqn:E.
  - exfalso. apply Hn. rewrite <- (DecimalN.Unsigned.of_to n), H. reflexivity.
  - exfalso. apply (Hz u). reflexivity.
  - rewrite H. exact I.
  - rewrite H. exact I.
  - rewrite H. exact I.
  - rewrite H. exact I.
  - rewrite H. exact I.
  - rewrite H. exact I.
  - rewrite H. exact I.
  - rewrite H. exact I.
  - rewrite H. exact I.
Qed.

(** A positive number below [10^k] and not below [10^(k-1)] is written with
    [k] digits. *)
Lemma digitsOfN_length (s k : Z) :
  1 <= k -> 10 ^ (k - 1) <= s < 10 ^ k ->
  Z.of_nat (List.length (digitsOfN (Z.to_N s))) = k.
Proof.
  intros Hk [Hlo Hhi].
  assert (Hpos : 0 < s).
  { assert (0 < 10 ^ (k - 1)) by (apply Z.pow_pos_nonneg; lia). lia. }
  unfold digitsOfN. rewrite length_charsOfUint.
  set (n := Z.to_N s). assert (Hn : n <> 0%N) by (unfold n; lia).
  pose proof (to_uint_leading n Hn) as Hl.
  pose proof (accDigits_to_uint n) as Hv.
  set (L := Z.of_nat (nb_digits (N.to_uint n))).
  assert (Hb : 10 ^ (L - 1) <= s < 10 ^ L).
  { assert (V : Z.of_N (accDigits (N.to_uint n) 0) = s) by (rewrite Hv; unfold n; lia).
    unfold L. destruct (N.to_uint n) as [|d|d|d|d|d|d|d|d|d|d]; try contradiction;
      cbn [accDigits] in V; cbn [nb_digits]; rewrite Nat2Z.inj_succ;
      replace (Z.succ (Z.of_nat (nb_digits d)) - 1) with (Z.of_nat (nb_digits d)) by lia;
      rewrite Z.pow_succ_r by lia;
      match type of V with
      | Z.of_N (accDigits d ?a) = _ => pose proof (accDigits_bounds d a) as B
      end;
      assert (0 < 10 ^ Z.of_nat (nb_digits d)) by (apply Z.pow_pos_nonneg; lia);
      nia. }
  assert (HL : 1 <= L).
  { unfold L. destruct (N.to_uint n); try contradiction; cbn [nb_digits]; lia. }
  destruct (Z.lt_trichotomy L k) as [H|[H|H]]; [|exact H|].
  - exfalso. assert (10 ^ L <= 10 ^ (k - 1)) by (apply Z.pow_le_mono_r; lia). lia.
  - exfalso. assert (10 ^ k <= 10 ^ (L - 1)) by (apply Z.pow_le_mono_r; lia). lia.
Qed.

Lemma digitsOfN_value (n : N) : scanAll (digitsOfN n) 0 = n.
Proof. unfold digitsOfN. rewrite scanAll_chars. apply accDigits_to_uint. Qed.

Lemma digitsOfN_digits (n : N) : forallb isDigit (digitsOfN n) = true.
Proof. apply charsOfUint_digits. Qed.
(** ** Rounding a quotient to the nearest number *)

Lemma loc_of_shr_record_of_loc (m : Z) (l : location) :
  loc_of_shr_record (shr_record_of_loc m l) = l.
Proof. destruct l as [|[]]; reflexivity. Qed.

(** A mantissa of 53 bits is rounded by its location alone. *)
Lemma binary_round_aux_53 (q : positive) (ex : Z) (lx : location) :
  digits2_pos q = 53%positive ->
  -1074 <= ex <= 971 ->
  round_nearest_even (Zpos q) lx < 2 ^ 53 ->
  binary_round_aux prec emax false (Zpos q) ex lx
  = S754_finite false (Z.to_pos (round_nearest_even (Zpos q) lx)) ex.
Proof.
  intros Hd Hex Hr.
  pose proof (digits2_pos_lower' q) as Hlo. rewrite Hd in Hlo.
  change (2 ^ (53 - 1)) with (2 ^ 52) in Hlo.
  pose proof (round_nearest_even_bounds (Zpos q) lx) as Hb.
  unfold binary_round_aux, shr_fexp. cbn [Zdigits2]. rewrite Hd.
  replace (fexp prec emax (53 + ex) - ex) with 0
    by (unfold fexp, SpecFloat.emin, emax, prec; lia).
  cbn [shr]. rewrite shr_record_of_loc_m, loc_of_shr_record_of_loc.
  destruct (round_nearest_even (Zpos q) lx) as [|p|p] eqn:Er; try lia.
  assert (Hdp : digits2_pos p = 53%positive).
  { apply digits2_pos_bounds. change (2 ^ (53 - 1)) with (2 ^ 52). lia. }
  cbn [Zdigits2]. rewrite Hdp.
  replace (fexp prec emax (53 + ex) - ex) with 0
    by (unfold fexp, SpecFloat.emin, emax, prec; lia).
  cbn [shr shr_record_of_loc shr_m].
  replace (ex <=? emax - prec) with true
    by (symmetry; apply Z.leb_le; unfold emax, prec; lia).
  reflexivity.
Qed.

(** The location of a remainder. *)
Lemma new_location_spec (D r : Z) :
  0 < D -> 0 <= r < D ->
  (2 * r < D -> round_nearest_even_below (new_location D r) = true)
  /\ (D < 2 * r -> new_location D r = loc_Inexact Gt).
Proof.
  intros HD Hr. unfold new_location, new_location_even, new_location_odd.
  destruct (Z.even D) eqn:Ev; destruct (Z.eqb_spec r 0) as [->|Hr0].
  - split; [reflexivity|lia].
  - split; intros H.
    + destruct (Z.compare_spec (2 * r) D); try lia. reflexivity.
    + destruct (Z.compare_spec (2 * r) D); try lia. reflexivity.
  - split; [reflexivity|lia].
  - split; intros H.
    + destruct (Z.compare_spec (2 * r + 1) D); try lia; reflexivity.
    + destruct (Z.compare_spec (2 * r + 1) D); try lia. reflexivity.
Qed.

(** The quotient [c / D], correctly rounded: it is [m * 2^(-sh)] as soon as
    [c * 2^sh / D] is nearer to [m] than a half. *)
Lemma ofRatio_nearest (c D m : positive) (sh : positive) :
  Zpos (digits2_pos c) - Zpos (digits2_pos D) - 53 = Zneg sh ->
  Zpos sh <= 1074 ->
  2 ^ 52 < Zpos m < 2 ^ 53 ->
  Z.abs (2 * (Zpos c * 2 ^ Zpos sh - Zpos m * Zpos D)) < Zpos D ->
  ofRatio false c D = S754_finite false m (Zneg sh).
Proof.
  intros Hd Hsh Hm Hnear. unfold ofRatio, SFdiv_core_binary. cbn [Zdigits2].
  replace (Z.min (fexp prec emax (Zpos (digits2_pos c) + 0 - (Zpos (digits2_pos D) + 0))) (0 - 0))
    with (Zneg sh) by (unfold fexp, SpecFloat.emin, emax, prec; lia).
  change (0 - 0 - Zneg sh) with (Zpos sh). cbv iota.
  rewrite Z.shiftl_mul_pow2 by lia. rewrite div_eucl_div_mod.
  set (V := Zpos c * 2 ^ Zpos sh) in *.
  pose proof (Z.div_mod V (Zpos D) ltac:(lia)) as Hdm.
  pose proof (Z.mod_pos_bound V (Zpos D) ltac:(lia)) as Hr.
  destruct (new_location_spec (Zpos D) (V mod Zpos D) ltac:(lia) Hr) as [Hlt Hgt].
  destruct (Z.le_gt_cases (Zpos m * Zpos D) V) as [Hge|Hlt'].
  - (* the quotient is [m], and the remainder is below the half *)
    assert (Hq : V / Zpos D = Zpos m).
    { symmetry. apply (Z.div_unique _ _ _ (V - Zpos m * Zpos D)); lia. }
    assert (Hrem : V mod Zpos D = V - Zpos m * Zpos D) by (rewrite Hq in Hdm; lia).
    rewrite Hq. rewrite binary_round_aux_53.
    + f_equal. specialize (Hlt ltac:(lia)). unfold round_nearest_even_below in Hlt.
      destruct (new_location (Zpos D) (V mod Zpos D)) as [|[]]; try discriminate; reflexivity.
    + apply digits2_pos_bounds. change (2 ^ (53 - 1)) with (2 ^ 52). lia.
    + lia.
    + specialize (Hlt ltac:(lia)). unfold round_nearest_even_below in Hlt.
      destruct (new_location (Zpos D) (V mod Zpos D)) as [|[]]; try discriminate;
        cbn [round_nearest_even]; lia.
  - (* the quotient is [m - 1], and the remainder is above the half *)
    assert (Hq : V / Zpos D = Zpos m - 1).
    { symmetry. apply (Z.div_unique _ _ _ (V - (Zpos m - 1) * Zpos D)); lia. }
    assert (Hrem : V mod Zpos D = V - (Zpos m - 1) * Zpos D) by (rewrite Hq in Hdm; lia).
    rewrite Hq. destruct (Zpos m - 1) as [|q|q] eqn:Eq; try lia.
    rewrite binary_round_aux_53.
    + rewrite (Hgt ltac:(lia)). cbn [round_nearest_even]. f_equal. lia.
    + apply digits2_pos_bounds. change (2 ^ (53 - 1)) with (2 ^ 52). lia.
    + lia.
    + rewrite (Hgt ltac:(lia)). cbn [round_nearest_even]. lia.
Qed.
(** ** [parseFloat] on a decimal numeral *)

Lemma isDigit_first (c : ascii) (l : list ascii) :
  isDigit c = true ->
  parseFloat (string_of_list_ascii (c :: l)) = parseUnsigned false (c :: l)
  /\ isPrefix (list_ascii_of_string "Infinity") (c :: l) = false
  /\ (c =? ",")%char = false /\ (c =? ".")%char = false.
Proof.
  intros H. unfold parseFloat. rewrite list_ascii_of_string_of_list_ascii.
  unfold isPrefix. cbn [list_ascii_of_string combine forallb].
  destruct c as [[] [] [] [] [] [] [] []]; try discriminate H;
    (split; [reflexivity|]); (split; [|split; reflexivity]);
    cbn [Ascii.eqb Bool.eqb andb]; apply andb_false_r.
Qed.

Lemma point_not_digit : isDigit "."%char = false.
Proof. reflexivity. Qed.

(** A numeral without a point. *)
Lemma parseFloat_integer (ip : list ascii) :
  forallb isDigit ip = true -> ip <> [] ->
  parseFloat (string_of_list_ascii ip) = ofDecimal false (scanAll ip 0) 0.
Proof.
  intros Hd Hne. destruct ip as [|c l]; [congruence|].
  pose proof Hd as Hc. cbn [forallb] in Hc. apply andb_true_iff in Hc. destruct Hc as [Hc _].
  destruct (isDigit_first c l Hc) as (-> & Hi & _).
  unfold parseUnsigned. rewrite Hi.
  replace (scanDigits (c :: l) 0 0) with (scanDigits ((c :: l) ++ []) 0 0)
    by (rewrite List.app_nil_r; reflexivity).
  rewrite (scanDigits_all (c :: l) [] 0 0 Hd I). reflexivity.
Qed.

(** A numeral with a point. *)
Lemma parseFloat_decimal (ip fp : list ascii) :
  forallb isDigit ip = true -> ip <> [] -> forallb isDigit fp = true ->
  parseFloat (string_of_list_ascii (ip ++ "."%char :: fp))
  = ofDecimal false (scanAll (ip ++ fp) 0) (- Z.of_nat (List.length fp)).
Proof.
  intros Hd Hne Hf. destruct ip as [|c l]; [congruence|].
  pose proof Hd as Hc. cbn [forallb] in Hc. apply andb_true_iff in Hc. destruct Hc as [Hc _].
  change ((c :: l) ++ "."%char :: fp)%list with (c :: (l ++ "."%char :: fp))%list.
  destruct (isDigit_first c (l ++ "."%char :: fp) Hc) as (-> & Hi & _).
  unfold parseUnsigned. rewrite Hi.
  change (c :: (l ++ "."%char :: fp))%list with ((c :: l) ++ "."%char :: fp)%list.
  rewrite (scanDigits_all (c :: l) ("."%char :: fp) 0 0 Hd point_not_digit).
  replace (scanDigits fp (scanAll (c :: l) 0) 0)
    with (scanDigits (fp ++ []) (scanAll (c :: l) 0) 0)
    by (rewrite List.app_nil_r; reflexivity).
  rewrite (scanDigits_all fp [] _ 0 Hf I).
  cbn [List.length Nat.add scanExponent]. rewrite scanAll_app.
  destruct (List.length fp); reflexivity.
Qed.

Lemma noSeparator_digits (ip fp : list ascii) :
  forallb isDigit ip = true -> forallb isDigit fp = true ->
  noSeparator "," (string_of_list_ascii ip) = true
  /\ noSeparator "," (string_of_list_ascii (ip ++ "."%char :: fp)) = true.
Proof.
  assert (G : forall l, forallb isDigit l = true ->
                forallb (fun c => negb (c =? ",")%char) l = true).
  { induction l as [|c l IH]; [reflexivity|]. cbn [forallb]. rewrite !andb_true_iff.
    intros [Hc Hl]. split; [|exact (IH Hl)].
    destruct (isDigit_first c [] Hc) as (_ & _ & -> & _). reflexivity. }
  intros Hi Hf. unfold noSeparator. rewrite !list_ascii_of_string_of_list_ascii.
  split; [exact (G _ Hi)|]. rewrite forallb_app, (G _ Hi). cbn [forallb andb].
  exact (G _ Hf).
Qed.
(** ** [Number::toString], read back by [parseFloat] *)

Lemma sameNumber_eq (x : number) (m : positive) (e : Z) :
  sameNumber x (S754_finite false m e) = true -> x = S754_finite false m e.
Proof.
  unfold sameNumber. destruct x as [| | |s m' e']; try discriminate.
  rewrite !andb_true_iff. intros [[H1 H2] H3].
  apply Bool.eqb_prop in H1. apply Pos.eqb_eq in H2. apply Z.eqb_eq in H3. congruence.
Qed.

Lemma shortestFrom_found (fuel : nat) (m : positive) (e n k : Z) :
  (exists k', k <= k' < k + Z.of_nat fuel /\ shortestAt m e n k' <> None) ->
  exists k' r,
    k <= k' < k + Z.of_nat fuel /\ shortestAt m e n k' = Some r
    /\ shortestFrom fuel m e n k = r.
Proof.
  revert k. induction fuel as [|fuel IH]; intros k (k' & Hk & H); [lia|].
  cbn [shortestFrom]. destruct (shortestAt m e n k) as [r|] eqn:E.
  - exists k, r. repeat split; try lia. exact E.
  - destruct (IH (k + 1)) as (k'' & r & Hk'' & E'' & F).
    + exists k'. split; [|exact H]. assert (k' <> k) by congruence. lia.
    + exists k'', r. repeat split; try lia; assumption.
Qed.

(** What [shortestAt] returns was checked to read back. *)
Lemma shortestAt_Some (m : positive) (e n k s n' : Z) :
  shortestAt m e n k = Some (s, n') ->
  exists s0,
    (s0 = scaledFloor m e (n - k) \/ s0 = scaledFloor m e (n - k) + 1)
    /\ ofScaled s0 (n - k) = S754_finite false m e
    /\ (if s0 =? pow10 k then s = pow10 (k - 1) /\ n' = n + 1 else s = s0 /\ n' = n).
Proof.
  unfold shortestAt. set (lo := scaledFloor m e (n - k)).
  assert (P : forall s0, (if s0 =? pow10 k then Some (pow10 (k - 1), n + 1) else Some (s0, n))
                         = Some (s, n') ->
                         if s0 =? pow10 k then s = pow10 (k - 1) /\ n' = n + 1
                         else s = s0 /\ n' = n).
  { intros s0. destruct (s0 =? pow10 k); intros [= <- <-]; auto. }
  destruct ((pow10 (k - 1) <=? lo) && sameNumber (ofScaled lo (n - k)) (S754_finite false m e))
    eqn:Elo;
    destruct (sameNumber (ofScaled (lo + 1) (n - k)) (S754_finite false m e)) eqn:Ehi;
    try discriminate.
  - apply andb_true_iff in Elo. destruct Elo as [_ Elo].
    apply sameNumber_eq in Elo, Ehi.
    destruct (cmpScaled m~0 e (lo + (lo + 1)) (n - k)); [destruct (Z.even lo)| |]; intros H;
      first [ exists lo; split; [left; reflexivity|]; split; [exact Elo|exact (P _ H)]
            | exists (lo + 1); split; [right; reflexivity|]; split; [exact Ehi|exact (P _ H)] ].
  - apply andb_true_iff in Elo. destruct Elo as [_ Elo]. apply sameNumber_eq in Elo.
    intros H. exists lo. split; [left; reflexivity|]. split; [exact Elo|exact (P _ H)].
  - apply sameNumber_eq in Ehi.
    intros H. exists (lo + 1). split; [right; reflexivity|]. split; [exact Ehi|exact (P _ H)].
Qed.

Lemma shortestAt_hi (m : positive) (e n k : Z) :
  ofScaled (scaledFloor m e (n - k) + 1) (n - k) = S754_finite false m e ->
  shortestAt m e n k <> None.
Proof.
  intros H. unfold shortestAt. rewrite H.
  replace (sameNumber (S754_finite false m e) (S754_finite false m e)) with true
    by (unfold sameNumber; rewrite Pos.eqb_refl, Z.eqb_refl; reflexivity).
  destruct ((pow10 (k - 1) <=? scaledFloor m e (n - k))
            && sameNumber (ofScaled (scaledFloor m e (n - k)) (n - k)) (S754_finite false m e)).
  - destruct (cmpScaled m~0 e _ (n - k)); [destruct (Z.even _)| |];
      match goal with
      | |- context [if ?b then _ else _] => destruct b; discriminate
      end.
  - match goal with
    | |- context [if ?b then _ else _] => destruct b; discriminate
    end.
Qed.

Lemma shortestAt_lo (m : positive) (e n k : Z) :
  pow10 (k - 1) <= scaledFloor m e (n - k) ->
  ofScaled (scaledFloor m e (n - k)) (n - k) = S754_finite false m e ->
  shortestAt m e n k <> None.
Proof.
  intros Hlo H. unfold shortestAt. rewrite H.
  replace (sameNumber (S754_finite false m e) (S754_finite false m e)) with true
    by (unfold sameNumber; rewrite Pos.eqb_refl, Z.eqb_refl; reflexivity).
  replace (pow10 (k - 1) <=? scaledFloor m e (n - k)) with true
    by (symmetry; apply Z.leb_le; exact Hlo).
  cbn [andb].
  destruct (sameNumber (ofScaled (scaledFloor m e (n - k) + 1) (n - k))
              (S754_finite false m e)).
  - destruct (cmpScaled m~0 e _ (n - k)); [destruct (Z.even _)| |];
      match goal with
      | |- context [if ?b then _ else _] => destruct b; discriminate
      end.
  - match goal with
    | |- context [if ?b then _ else _] => destruct b; discriminate
    end.
Qed.

Lemma scanAll_zeros (z : nat) (acc : N) :
  scanAll (zeros z) acc = (acc * 10 ^ N.of_nat z)%N.
Proof.
  revert acc. induction z as [|z IH]; intros acc.
  - change (10 ^ N.of_nat 0)%N with 1%N. cbn. lia.
  - unfold zeros in *. cbn [repeat]. rewrite scanAll_cons, IH.
    change (digitValue "0") with (Some 0%N). cbv beta iota.
    rewrite Nat2N.inj_succ, N.pow_succ_r'. lia.
Qed.

Lemma zeros_digits (z : nat) : forallb isDigit (zeros z) = true.
Proof. induction z as [|z IH]; [reflexivity|]. exact IH. Qed.

Lemma forallb_firstn {A : Type} (f : A -> bool) (n : nat) (l : list A) :
  forallb f l = true -> forallb f (firstn n l) = true /\ forallb f (skipn n l) = true.
Proof.
  intros H. rewrite <- (List.firstn_skipn n l), forallb_app in H.
  apply andb_true_iff in H. exact H.
Qed.

Section ReadsBack.

Variables (m : positive) (e n : Z).
Hypothesis Hn : decExp m e = n.
Hypothesis Hn21 : 0 < n <= 21.
Hypothesis Hfound : exists k, 1 <= k < 26 /\ shortestAt m e n k <> None.
Hypothesis Hchecked :
  forall k s n', 1 <= k < 26 -> shortestAt m e n k = Some (s, n') ->
                 n' = n /\ 10 ^ (k - 1) <= s < 10 ^ k
                 /\ ofScaled s (n - k) = S754_finite false m e.

Lemma toString_reads_back :
  parseFloat (toString (S754_finite false m e)) = S754_finite false m e
  /\ noSeparator "," (toString (S754_finite false m e)) = true.
Proof.
  destruct (shortestFrom_found 25 m e n 1) as (k & [s n'] & Hk & E & F).
  { destruct Hfound as (k & Hk & H). exists k. split; [lia|exact H]. }
  destruct (Hchecked k s n' ltac:(lia) E) as (-> & Hs & Hv).
  assert (Hs0 : 0 < s).
  { assert (0 < 10 ^ (k - 1)) by (apply Z.pow_pos_nonneg; lia). lia. }
  pose proof (digitsOfN_length s k ltac:(lia) Hs) as Hlen.
  pose proof (digitsOfN_digits (Z.to_N s)) as Hd.
  pose proof (digitsOfN_value (Z.to_N s)) as Hval.
  unfold toString. rewrite Hn, F. rewrite Hlen.
  set (ds := digitsOfN (Z.to_N s)) in *.
  change ("" ++ ?b) with b.
  destruct (Z.leb_spec k n) as [Hkn|Hkn].
  - (* an integer *)
    replace (n <=? 21) with true by (symmetry; apply Z.leb_le; lia). cbn [andb].
    assert (Hz : forallb isDigit (ds ++ zeros (natOfZ (n - k))) = true)
      by (rewrite forallb_app, Hd, zeros_digits; reflexivity).
    split.
    + rewrite parseFloat_integer; [|exact Hz|].
      * rewrite scanAll_app, Hval, scanAll_zeros. rewrite <- Hv. unfold ofScaled, natOfZ.
        destruct (Z.to_N s) as [|p] eqn:Ep; [lia|].
        destruct (n - k) as [|z|z] eqn:Ez; try lia.
        -- cbn [Z.to_nat N.of_nat]. change (10 ^ 0)%N with 1%N.
           rewrite N.mul_1_r. reflexivity.
        -- rewrite Z2Nat.inj_pos, positive_nat_N. cbn [ofDecimal].
           change (N.pos p * 10 ^ N.pos z)%N with (N.pos (p * 10 ^ z)). reflexivity.
      * destruct ds as [|c ds']; [cbn in Hlen; lia|discriminate].
    + apply (proj1 (noSeparator_digits _ [] Hz eq_refl)).
  - (* digits, a point, digits *)
    cbn [andb]. replace ((0 <? n) && (n <=? 21)) with true
      by (symmetry; apply andb_true_iff; split; [apply Z.ltb_lt|apply Z.leb_le]; lia).
    destruct (forallb_firstn isDigit (natOfZ n) ds Hd) as [Hf Hsk].
    split.
    + change (string_of_list_ascii (firstn (natOfZ n) ds) ++ "." ++
              string_of_list_ascii (skipn (natOfZ n) ds))
        with (string_of_list_ascii (firstn (natOfZ n) ds) ++
              string_of_list_ascii ("."%char :: skipn (natOfZ n) ds)).
      rewrite <- string_of_list_ascii_app.
      rewrite parseFloat_decimal; [|exact Hf| |exact Hsk].
      * rewrite List.firstn_skipn, Hval, List.length_skipn. rewrite <- Hv.
        unfold ofScaled, natOfZ. f_equal. lia.
      * intros H0. apply (f_equal (@List.length ascii)) in H0.
        rewrite List.length_firstn in H0. cbn [List.length] in H0. unfold natOfZ in H0. lia.
    + change (string_of_list_ascii (firstn (natOfZ n) ds) ++ "." ++
              string_of_list_ascii (skipn (natOfZ n) ds))
        with (string_of_list_ascii (firstn (natOfZ n) ds) ++
              string_of_list_ascii ("."%char :: skipn (natOfZ n) ds)).
      rewrite <- string_of_list_ascii_app.
      apply (proj2 (noSeparator_digits _ _ Hf Hsk)).
Qed.

End ReadsBack.
(** ** The two binades of the coordinates *)

Lemma cmpScaled_neg (m p : positive) (a k : Z) :
  0 <= k -> cmpScaled m (Zneg p) a k = (Zpos m ?= a * 10 ^ k * 2 ^ Zpos p).
Proof.
  intros Hk. unfold cmpScaled. cbn [Z.leb Z.compare Z.opp].
  replace (0 <=? k) with true by (symmetry; apply Z.leb_le; exact Hk).
  rewrite !Z.mul_1_r. reflexivity.
Qed.

Lemma decExpUp_step (fuel : nat) (m : positive) (e n : Z) :
  decExpUp (S fuel) m e n
  = match cmpScaled m e 1 n with
    | Lt => n
    | _ => decExpUp fuel m e (n + 1)
    end.
Proof. reflexivity. Qed.

Lemma decExpDown_step (fuel : nat) (m : positive) (e n : Z) :
  decExpDown (S fuel) m e n
  = match cmpScaled m e 1 (n - 1) with
    | Lt => decExpDown fuel m e (n - 1)
    | _ => n
    end.
Proof. reflexivity. Qed.

(** The digits that [shortestAt] tries are [k] digits. *)
Lemma scaledFloor_bounds (m p : positive) (n k : Z) :
  1 <= n -> 1 <= k ->
  10 ^ (n - 1) * 2 ^ Zpos p <= Zpos m < 10 ^ n * 2 ^ Zpos p ->
  10 ^ (k - 1) <= scaledFloor m (Zneg p) (n - k) < 10 ^ k.
Proof.
  intros Hn Hk [Hlo Hhi]. unfold scaledFloor. cbn [Z.leb Z.compare].
  change (- Z.neg p) with (Zpos p).
  assert (P2 : 0 < 2 ^ Zpos p) by (apply Z.pow_pos_nonneg; lia).
  destruct (Z.leb_spec 0 (n - k)) as [H|H]; rewrite ?Z.mul_1_r, ?Z.mul_1_l.
  - assert (P10 : 0 < 10 ^ (n - k)) by (apply Z.pow_pos_nonneg; lia).
    assert (E1 : 10 ^ (n - 1) = 10 ^ (k - 1) * 10 ^ (n - k))
      by (rewrite <- Z.pow_add_r by lia; f_equal; lia).
    assert (E2 : 10 ^ n = 10 ^ k * 10 ^ (n - k))
      by (rewrite <- Z.pow_add_r by lia; f_equal; lia).
    rewrite E1 in Hlo. rewrite E2 in Hhi.
    set (a := 10 ^ (n - k)) in *. set (b := 2 ^ Zpos p) in *.
    set (c := 10 ^ (k - 1)) in *. set (d := 10 ^ k) in *.
    assert (0 < a * b) by (apply Z.mul_pos_pos; assumption).
    split.
    + apply Z.div_le_lower_bound; [assumption|].
      replace (a * b * c) with (c * a * b) by ring. exact Hlo.
    + apply Z.div_lt_upper_bound; [assumption|].
      replace (a * b * d) with (d * a * b) by ring. exact Hhi.
  - assert (P10 : 0 < 10 ^ (- (n - k))) by (apply Z.pow_pos_nonneg; lia).
    assert (E1 : 10 ^ (k - 1) = 10 ^ (n - 1) * 10 ^ (- (n - k)))
      by (rewrite <- Z.pow_add_r by lia; f_equal; lia).
    assert (E2 : 10 ^ k = 10 ^ n * 10 ^ (- (n - k)))
      by (rewrite <- Z.pow_add_r by lia; f_equal; lia).
    rewrite E1, E2.
    set (a := 10 ^ (- (n - k))) in *. set (b := 2 ^ Zpos p) in *.
    set (c := 10 ^ (n - 1)) in *. set (d := 10 ^ n) in *.
    split.
    + apply Z.div_le_lower_bound; [assumption|].
      replace (b * (c * a)) with ((c * b) * a) by ring.
      apply Z.mul_le_mono_nonneg_r; [lia|exact Hlo].
    + apply Z.div_lt_upper_bound; [assumption|].
      replace (b * (d * a)) with ((d * b) * a) by ring.
      apply Z.mul_lt_mono_pos_r; [assumption|exact Hhi].
Qed.

(** Every latitude inside the bounds is [m * 2^(-48)], and every longitude
    [m * 2^(-46)]. *)
Section Latitude.

Variable m : positive.
Hypothesis Hm : 6051711999279104 <= Zpos m <= 7177611906121728.

Lemma lat_digits2 : digits2_pos m = 53%positive.
Proof. apply digits2_pos_bounds. change (2 ^ (53 - 1)) with 4503599627370496.
  change (2 ^ 53) with 9007199254740992. lia. Qed.

Lemma lat_decExp : decExp m (-48) = 2.
Proof.
  unfold decExp. rewrite lat_digits2. change ((53 + -48) * 3 / 10) with 1.
  rewrite decExpUp_step, cmpScaled_neg by lia.
  replace (Zpos m ?= 1 * 10 ^ 1 * 2 ^ 48) with Gt
    by (symmetry; apply Z.compare_gt_iff; change (1 * 10 ^ 1 * 2 ^ 48) with 2814749767106560; lia).
  change (1 + 1) with 2. rewrite decExpUp_step, cmpScaled_neg by lia.
  replace (Zpos m ?= 1 * 10 ^ 2 * 2 ^ 48) with Lt
    by (symmetry; apply Z.compare_lt_iff; change (1 * 10 ^ 2 * 2 ^ 48) with 28147497671065600;
        lia).
  rewrite decExpDown_step. change (2 - 1) with 1. rewrite cmpScaled_neg by lia.
  replace (Zpos m ?= 1 * 10 ^ 1 * 2 ^ 48) with Gt
    by (symmetry; apply Z.compare_gt_iff; change (1 * 10 ^ 1 * 2 ^ 48) with 2814749767106560; lia).
  reflexivity.
Qed.

Lemma lat_candidate (c : Z) :
  18014398509481984 <= c < 36028797018963968 ->
  Z.abs (2 * (c * 281474976710656 - Zpos m * 1000000000000000)) < 1000000000000000 ->
  ofScaled c (-15) = S754_finite false m (-48).
Proof.
  intros Hc Hnear. unfold ofScaled. destruct c as [|c'|c']; try lia. cbn [Z.to_N ofDecimal].
  apply (ofRatio_nearest c' (10 ^ 15) m 48).
  - replace (digits2_pos c') with 55%positive
      by (symmetry; apply digits2_pos_bounds; change (2 ^ (55 - 1)) with 18014398509481984;
          change (2 ^ 55) with 36028797018963968; lia).
    reflexivity.
  - lia.
  - change (2 ^ 52) with 4503599627370496. change (2 ^ 53) with 9007199254740992. lia.
  - change (Zpos (10 ^ 15)) with 1000000000000000. change (2 ^ 48) with 281474976710656.
    exact Hnear.
Qed.

Lemma lat_found : shortestAt m (-48) 2 17 <> None.
Proof.
  assert (E : scaledFloor m (-48) (2 - 17) = Zpos m * 1000000000000000 / 281474976710656).
  { unfold scaledFloor. change (2 - 17) with (-15).
    change (0 <=? -48) with false. change (0 <=? -15) with false. cbv iota.
    change (10 ^ (- (-15))) with 1000000000000000.
    change (2 ^ (- (-48))) with 281474976710656.
    rewrite !Z.mul_1_r, Z.mul_1_l. reflexivity. }
  apply shortestAt_hi; rewrite E.
  change (2 - 17) with (-15). apply lat_candidate; Z.div_mod_to_equations; lia.
Qed.

Lemma lat_power (k : Z) :
  1 <= k < 26 -> ofScaled (pow10 k) (2 - k) <> S754_finite false m (-48).
Proof.
  intros Hk.
  assert (T : forallb (fun k => number_eqb (ofScaled (pow10 k) (2 - k)) (ofZ 100))
                (zrange 1 25) = true) by (vm_compute; reflexivity).
  rewrite forallb_forall in T. specialize (T k ltac:(apply zrange_In; lia)).
  apply number_eqb_eq in T. rewrite T. discriminate.
Qed.

Lemma lat_checked (k s n' : Z) :
  1 <= k < 26 -> shortestAt m (-48) 2 k = Some (s, n') ->
  n' = 2 /\ 10 ^ (k - 1) <= s < 10 ^ k
  /\ ofScaled s (2 - k) = S754_finite false m (-48).
Proof.
  intros Hk H. apply shortestAt_Some in H. destruct H as (s0 & Hs0 & Hv & Hp).
  pose proof (scaledFloor_bounds m 48 2 k ltac:(lia) ltac:(lia)) as Hb.
  change (10 ^ (2 - 1) * 2 ^ 48) with 2814749767106560 in Hb.
  change (10 ^ 2 * 2 ^ 48) with 28147497671065600 in Hb.
  specialize (Hb ltac:(lia)).
  destruct (Z.eqb_spec s0 (pow10 k)) as [E|E].
  - exfalso. rewrite E in Hv. exact (lat_power k Hk Hv).
  - destruct Hp as [-> ->]. unfold pow10 in E. split; [reflexivity|]. split; [|exact Hv].
    destruct Hs0 as [->| ->]; lia.
Qed.

Lemma lat_reads_back :
  parseFloat (toString (S754_finite false m (-48))) = S754_finite false m (-48)
  /\ noSeparator "," (toString (S754_finite false m (-48))) = true.
Proof.
  apply (toString_reads_back m (-48) 2 lat_decExp ltac:(lia)).
  - exists 17. split; [lia|exact lat_found].
  - exact lat_checked.
Qed.

End Latitude.

Section Longitude.

Variable m : positive.
Hypothesis Hm : 8373880557142016 <= Zpos m <= 8620171161763840.

Lemma lon_digits2 : digits2_pos m = 53%positive.
Proof. apply digits2_pos_bounds. change (2 ^ (53 - 1)) with 4503599627370496.
  change (2 ^ 53) with 9007199254740992. lia. Qed.

Lemma lon_decExp : decExp m (-46) = 3.
Proof.
  unfold decExp. rewrite lon_digits2. change ((53 + -46) * 3 / 10) with 2.
  rewrite decExpUp_step, cmpScaled_neg by lia.
  replace (Zpos m ?= 1 * 10 ^ 2 * 2 ^ 46) with Gt
    by (symmetry; apply Z.compare_gt_iff; change (1 * 10 ^ 2 * 2 ^ 46) with 7036874417766400; lia).
  change (2 + 1) with 3. rewrite decExpUp_step, cmpScaled_neg by lia.
  replace (Zpos m ?= 1 * 10 ^ 3 * 2 ^ 46) with Lt
    by (symmetry; apply Z.compare_lt_iff; change (1 * 10 ^ 3 * 2 ^ 46) with 70368744177664000;
        lia).
  rewrite decExpDown_step. change (3 - 1) with 2. rewrite cmpScaled_neg by lia.
  replace (Zpos m ?= 1 * 10 ^ 2 * 2 ^ 46) with Gt
    by (symmetry; apply Z.compare_gt_iff; change (1 * 10 ^ 2 * 2 ^ 46) with 7036874417766400; lia).
  reflexivity.
Qed.

Lemma lon_candidate (c : Z) :
  9007199254740992 <= c < 18014398509481984 ->
  Z.abs (2 * (c * 70368744177664 - Zpos m * 100000000000000)) < 100000000000000 ->
  ofScaled c (-14) = S754_finite false m (-46).
Proof.
  intros Hc Hnear. unfold ofScaled. destruct c as [|c'|c']; try lia. cbn [Z.to_N ofDecimal].
  apply (ofRatio_nearest c' (10 ^ 14) m 46).
  - replace (digits2_pos c') with 54%positive
      by (symmetry; apply digits2_pos_bounds; change (2 ^ (54 - 1)) with 9007199254740992;
          change (2 ^ 54) with 18014398509481984; lia).
    reflexivity.
  - lia.
  - change (2 ^ 52) with 4503599627370496. change (2 ^ 53) with 9007199254740992. lia.
  - change (Zpos (10 ^ 14)) with 100000000000000. change (2 ^ 46) with 70368744177664.
    exact Hnear.
Qed.

Lemma lon_found : shortestAt m (-46) 3 17 <> None.
Proof.
  assert (E : scaledFloor m (-46) (3 - 17) = Zpos m * 100000000000000 / 70368744177664).
  { unfold scaledFloor. change (3 - 17) with (-14).
    change (0 <=? -46) with false. change (0 <=? -14) with false. cbv iota.
    change (10 ^ (- (-14))) with 100000000000000.
    change (2 ^ (- (-46))) with 70368744177664.
    rewrite !Z.mul_1_r, Z.mul_1_l. reflexivity. }
  destruct (Z.lt_ge_cases
              (2 * (Zpos m * 100000000000000
                    - Zpos m * 100000000000000 / 70368744177664 * 70368744177664))
              100000000000000) as [H|H].
  - apply shortestAt_lo; rewrite E.
    + change (pow10 (17 - 1)) with 10000000000000000. Z.div_mod_to_equations. lia.
    + change (3 - 17) with (-14). apply lon_candidate; Z.div_mod_to_equations; lia.
  - apply shortestAt_hi; rewrite E.
    change (3 - 17) with (-14). apply lon_candidate; Z.div_mod_to_equations; lia.
Qed.

Lemma lon_power (k : Z) :
  1 <= k < 26 -> ofScaled (pow10 k) (3 - k) <> S754_finite false m (-46).
Proof.
  intros Hk.
  assert (T : forallb (fun k => number_eqb (ofScaled (pow10 k) (3 - k)) (ofZ 1000))
                (zrange 1 25) = true) by (vm_compute; reflexivity).
  rewrite forallb_forall in T. specialize (T k ltac:(apply zrange_In; lia)).
  apply number_eqb_eq in T. rewrite T. discriminate.
Qed.

Lemma lon_checked (k s n' : Z) :
  1 <= k < 26 -> shortestAt m (-46) 3 k = Some (s, n') ->
  n' = 3 /\ 10 ^ (k - 1) <= s < 10 ^ k
  /\ ofScaled s (3 - k) = S754_finite false m (-46).
Proof.
  intros Hk H. apply shortestAt_Some in H. destruct H as (s0 & Hs0 & Hv & Hp).
  pose proof (scaledFloor_bounds m 46 3 k ltac:(lia) ltac:(lia)) as Hb.
  change (10 ^ (3 - 1) * 2 ^ 46) with 7036874417766400 in Hb.
  change (10 ^ 3 * 2 ^ 46) with 70368744177664000 in Hb.
  specialize (Hb ltac:(lia)).
  destruct (Z.eqb_spec s0 (pow10 k)) as [E|E].
  - exfalso. rewrite E in Hv. exact (lon_power k Hk Hv).
  - destruct Hp as [-> ->]. unfold pow10 in E. split; [reflexivity|]. split; [|exact Hv].
    destruct Hs0 as [->| ->]; lia.
Qed.

Lemma lon_reads_back :
  parseFloat (toString (S754_finite false m (-46))) = S754_finite false m (-46)
  /\ noSeparator "," (toString (S754_finite false m (-46))) = true.
Proof.
  apply (toString_reads_back m (-46) 3 lon_decExp ltac:(lia)).
  - exists 17. split; [lia|exact lon_found].
  - exact lon_checked.
Qed.

End Longitude.

(** The text of a coordinate inside the bounds reads back as the
    coordinate, and holds no comma. *)
Lemma coordinate_reads_back (lat0 lon0 : number) :
  isInTaiwanBounds lat0 lon0 = true ->
  parseFloat (toString lat0) = lat0 /\ noSeparator "," (toString lat0) = true
  /\ parseFloat (toString lon0) = lon0 /\ noSeparator "," (toString lon0) = true.
Proof.
  intros Hb. apply isInTaiwanBounds_true in Hb. destruct Hb as (H1 & H2 & H3 & H4).
  destruct (between_same_exponent _ _ _ _ H1 H2) as (m & -> & Hm).
  destruct (between_same_exponent _ _ _ _ H3 H4) as (m' & -> & Hm').
  destruct (lat_reads_back m Hm) as [A B]. destruct (lon_reads_back m' Hm') as [C D].
  auto.
Qed.
(** ** From [mist-percentage] POST to the percentage *)

Lemma parseCoordinate_visitKey (lat0 lon0 : number) :
  isInTaiwanBounds lat0 lon0 = true ->
  parseCoordinate (visitKey lat0 lon0) = (lat0, lon0).
Proof.
  intros Hb. destruct (coordinate_reads_back lat0 lon0 Hb) as (A & B & C & D).
  unfold parseCoordinate, visitKey. rewrite (split_two _ _ B D), A, C. reflexivity.
Qed.

Lemma cellOf_visitKey (f : Footprint) (lat0 lon0 : number) :
  isInTaiwanBounds lat0 lon0 = true ->
  coordinate f = Some (visitKey lat0 lon0) ->
  cellOf f = coordinateToGridId lat0 lon0.
Proof.
  intros Hb Hc. unfold cellOf. rewrite Hc. unfold visitKey at 1. rewrite truthy_key.
  cbn [negb]. rewrite (parseCoordinate_visitKey lat0 lon0 Hb).
  apply isInTaiwanBounds_true in Hb. destruct Hb as (H1 & _ & H3 & _).
  destruct lat0; try discriminate H1; destruct lon0; try discriminate H3; try reflexivity.
  all: unfold ge, SFleb in H3; cbn in H3; try discriminate; destruct s; discriminate.
Qed.

Lemma cellOf_update (id' : nat) (now : Z) (t : Table) (userId : string) :
  omap cellOf (findMany userId (update id' now t)) = omap cellOf (findMany userId t).
Proof.
  unfold findMany, update. induction t as [|f t IH]; [reflexivity|].
  cbn [List.map List.filter].
  destruct (Nat.eqb (id f) id'); cbn [user_id coordinate];
    destruct (String.eqb (user_id f) userId && match coordinate f with
                                               | Some _ => true
                                               | None => false
                                               end);
    cbn [omap list_omap]; rewrite ?IH; reflexivity.
Qed.

(** The text that [mist-percentage] POST stores for a coordinate inside the
    bounds is read back by the aggregation as that very coordinate; two
    coordinates inside the bounds have the same text only when they are the
    same numbers. *)
Theorem visitKey_reads_back (lat1 lon1 lat2 lon2 : number) :
  isInTaiwanBounds lat1 lon1 = true ->
  isInTaiwanBounds lat2 lon2 = true ->
  parseFloat (toString lat1) = lat1 /\ parseFloat (toString lon1) = lon1
  /\ parseCoordinate (visitKey lat1 lon1) = (lat1, lon1)
  /\ (visitKey lat1 lon1 = visitKey lat2 lon2 <-> lat1 = lat2 /\ lon1 = lon2).
Proof.
  intros H1 H2. destruct (coordinate_reads_back lat1 lon1 H1) as (A & _ & C & _).
  split; [exact A|]. split; [exact C|].
  split; [exact (parseCoordinate_visitKey _ _ H1)|]. split.
  - intros E. pose proof (parseCoordinate_visitKey _ _ H1) as P1.
    pose proof (parseCoordinate_visitKey _ _ H2) as P2. rewrite E in P1.
    split; congruence.
  - intros [-> ->]. reflexivity.
Qed.

Lemma visitKey_reads_back_witness :
  parseFloat (toString (fst rawA)) = fst rawA /\ parseFloat (toString (snd rawA)) = snd rawA
  /\ parseCoordinate (visitKey (fst rawA) (snd rawA)) = (fst rawA, snd rawA)
  /\ (visitKey (fst rawA) (snd rawA) = visitKey (fst rawB) (snd rawB)
      <-> fst rawA = fst rawB /\ snd rawA = snd rawB).
Proof.
  apply (visitKey_reads_back (fst rawA) (snd rawA) (fst rawB) (snd rawB));
    vm_compute; reflexivity.
Defined.

(** A recorded visit is counted.  For a signed-in user and a coordinate
    inside the bounds, whether [mist-percentage] POST creates a row or
    updates one, the explored set that GET builds for the user afterwards is
    the one before with the cell of the coordinate added, and the explored
    set of every other user is unchanged. *)
Theorem MistPercentage_POST_explored (now : Z) (userId : string) (t : Table)
    (lat0 lon0 : number) :
  truthy userId = true ->
  isInTaiwanBounds lat0 lon0 = true ->
  exists gridId,
    coordinateToGridId lat0 lon0 = Some gridId
    /\ let t' := snd (POST now (Some userId) (visitBody lat0 lon0) t) in
       exploredSet (findMany userId t') = {[ gridId ]} ∪ exploredSet (findMany userId t)
       /\ forall other, other <> userId ->
            exploredSet (findMany other t') = exploredSet (findMany other t).
Proof.
  intros Hu Hb.
  destruct (coordinateToGridId_cell _ _ Hb) as (k & j & _ & _ & _ & _ & E).
  exists (cellId k j). split; [exact E|]. cbv zeta.
  rewrite (POST_in_bounds now userId lat0 lon0 t Hu Hb).
  destruct (findFirst userId (visitKey lat0 lon0) t) as [e|] eqn:F; cbn [snd].
  - pose proof (findFirst_Some _ _ _ _ F) as (F1 & F2 & F3).
    split.
    + rewrite !exploredSet_list, cellOf_update.
      assert (cellId k j ∈ (list_to_set (omap cellOf (findMany userId t)) : gset string)).
      { rewrite <- exploredSet_list. apply exploredSet_elem. exists e. split.
        - apply findMany_In. repeat split; auto. congruence.
        - rewrite (cellOf_visitKey e lat0 lon0 Hb F3). exact E. }
      set_solver.
    + intros other _. rewrite !exploredSet_list, cellOf_update. reflexivity.
  - set (row := {| id := freshId t; user_id := userId;
                   coordinate := Some (visitKey lat0 lon0);
                   Create_time := Some now; Update_time := Some now |}).
    assert (Hrow : cellOf row = Some (cellId k j))
      by (rewrite (cellOf_visitKey row lat0 lon0 Hb eq_refl); exact E).
    split.
    + destruct (exploredSet_one_more userId t row) as [-> H].
      destruct H as [H|(g & Hg & _ & ->)].
      * exfalso.
        assert (X : cellId k j ∈ exploredSet (findMany userId [row])).
        { apply exploredSet_elem. exists row. split; [|exact Hrow].
          apply findMany_In. split; [left; reflexivity|].
          split; [reflexivity|discriminate]. }
        rewrite H in X. set_solver.
      * rewrite Hrow in Hg. injection Hg as <-. set_solver.
    + intros other Ho. rewrite findMany_app.
      replace (findMany other [row]) with (@nil Footprint);
        [rewrite List.app_nil_r; reflexivity|].
      unfold findMany, row. cbn [List.filter user_id].
      destruct (String.eqb_spec userId other); [congruence|reflexivity].
Qed.

Lemma MistPercentage_POST_explored_witness :
  exists gridId,
    coordinateToGridId (fst rawA) (snd rawA) = Some gridId
    /\ let t' := snd (POST 1 (Some "u") (visitBody (fst rawA) (snd rawA)) []) in
       exploredSet (findMany "u" t') = {[ gridId ]} ∪ exploredSet (findMany "u" [])
       /\ forall other, other <> "u" ->
            exploredSet (findMany other t') = exploredSet (findMany other []).
Proof.
  apply (MistPercentage_POST_explored 1 "u" [] (fst rawA) (snd rawA)); vm_compute; reflexivity.
Defined.

Lemma number_eq_dec (x y : number) : {x = y} + {x <> y}.
Proof.
  decide equality; first [apply Z.eq_dec | apply Pos.eq_dec | apply Bool.bool_dec].
Qed.

Lemma findFirst_update (id' : nat) (now : Z) (userId key : string) (t : Table) :
  findFirst userId key (update id' now t) = None <-> findFirst userId key t = None.
Proof.
  unfold findFirst, update. induction t as [|f t IH]; [reflexivity|].
  cbn [List.find List.map].
  replace (hasCoordinate userId key
             (if Nat.eqb (id f) id'
              then {| id := id f; user_id := user_id f; coordinate := coordinate f;
                      Create_time := Create_time f; Update_time := Some now |}
              else f))
    with (hasCoordinate userId key f)
    by (destruct (Nat.eqb (id f) id'); reflexivity).
  destruct (hasCoordinate userId key f); [split; discriminate|exact IH].
Qed.

(** What [mist-percentage] POST leaves in the table for the key of a later
    visit. *)
Lemma findFirst_POST (now : Z) (userId : string) (t : Table) (lat0 lon0 : number)
    (key : string) :
  truthy userId = true ->
  isInTaiwanBounds lat0 lon0 = true ->
  findFirst userId key (snd (POST now (Some userId) (visitBody lat0 lon0) t)) = None
  <-> findFirst userId key t = None /\ key <> visitKey lat0 lon0.
Proof.
  intros Hu Hb. rewrite (POST_in_bounds now userId lat0 lon0 t Hu Hb).
  destruct (findFirst userId (visitKey lat0 lon0) t) as [e|] eqn:F; cbn [snd].
  - rewrite findFirst_update. split; [|tauto]. intros H. split; [exact H|].
    intros ->. congruence.
  - rewrite findFirst_app.
    destruct (findFirst userId key t) as [x|] eqn:G; [split; [discriminate|tauto]|].
    destruct (String.eqb_spec (visitKey lat0 lon0) key) as [<-|Hne].
    + replace (hasCoordinate userId (visitKey lat0 lon0) _) with true
        by (symmetry; apply hasCoordinate_refl).
      split; [discriminate|]. intros [_ H]. contradiction H. reflexivity.
    + rewrite hasCoordinate_other by exact Hne. split; [|reflexivity].
      intros _. split; [reflexivity|]. intros ->. contradiction Hne. reflexivity.
Qed.

(** The next visit.  After [mist-percentage] POST has recorded a coordinate
    for a user, a second POST of that user for a coordinate inside the bounds
    answers "updated" exactly when it repeats the same two numbers or a
    coordinate that was stored before, and "created" otherwise.  Repeating
    the same coordinate adds no row and changes nothing in the rows but
    [Update_time]. *)
Theorem MistPercentage_POST_again (now now' : Z) (userId : string) (t : Table)
    (lat1 lon1 lat2 lon2 : number) :
  truthy userId = true ->
  isInTaiwanBounds lat1 lon1 = true ->
  isInTaiwanBounds lat2 lon2 = true ->
  let t1 := snd (POST now (Some userId) (visitBody lat1 lon1) t) in
  (fst (POST now' (Some userId) (visitBody lat2 lon2) t1) = Updated
   <-> (lat2 = lat1 /\ lon2 = lon1) \/ findFirst userId (visitKey lat2 lon2) t <> None)
  /\ (fst (POST now' (Some userId) (visitBody lat2 lon2) t1) = Created
      <-> (lat2 <> lat1 \/ lon2 <> lon1) /\ findFirst userId (visitKey lat2 lon2) t = None)
  /\ let t2 := snd (POST now' (Some userId) (visitBody lat1 lon1) t1) in
     fst (POST now' (Some userId) (visitBody lat1 lon1) t1) = Updated
     /\ List.map (fun f => (id f, user_id f, coordinate f, Create_time f)) t2
        = List.map (fun f => (id f, user_id f, coordinate f, Create_time f)) t1
     /\ List.length t2 = List.length t1.
Proof.
  intros Hu H1 H2. cbv zeta.
  assert (K : visitKey lat2 lon2 = visitKey lat1 lon1 <-> lat2 = lat1 /\ lon2 = lon1).
  { split.
    - intros E. pose proof (parseCoordinate_visitKey _ _ H1) as P1.
      pose proof (parseCoordinate_visitKey _ _ H2) as P2. rewrite E in P2.
      split; congruence.
    - intros [-> ->]. reflexivity. }
  pose proof (findFirst_POST now userId t lat1 lon1 (visitKey lat2 lon2) Hu H1) as F2.
  pose proof (findFirst_POST now userId t lat1 lon1 (visitKey lat1 lon1) Hu H1) as F1.
  rewrite (POST_in_bounds now' userId lat2 lon2 _ Hu H2).
  rewrite (POST_in_bounds now' userId lat1 lon1 _ Hu H1).
  split; [|split].
  - destruct (findFirst userId (visitKey lat2 lon2)
                (snd (POST now (Some userId) (visitBody lat1 lon1) t))) as [x|];
      cbn [fst].
    + split; [|reflexivity]. intros _.
      destruct (findFirst userId (visitKey lat2 lon2) t) as [y|];
        [right; discriminate|].
      left. apply K.
      destruct (string_dec (visitKey lat2 lon2) (visitKey lat1 lon1)) as [E|E];
        [exact E|].
      assert (X : @None Footprint = None /\ visitKey lat2 lon2 <> visitKey lat1 lon1)
        by (split; [reflexivity|exact E]).
      apply F2 in X. discriminate X.
    + split; [discriminate|]. intros H. exfalso.
      destruct (proj1 F2 eq_refl) as [G Hne]. destruct H as [H|H]; [|contradiction].
      apply Hne, K, H.
  - destruct (findFirst userId (visitKey lat2 lon2)
                (snd (POST now (Some userId) (visitBody lat1 lon1) t))) as [x|];
      cbn [fst].
    + split; [discriminate|]. intros [Hne G]. exfalso.
      assert (X : findFirst userId (visitKey lat2 lon2) t = None
                  /\ visitKey lat2 lon2 <> visitKey lat1 lon1).
      { split; [exact G|]. intros E. apply K in E. destruct E; destruct Hne; contradiction. }
      apply F2 in X. discriminate X.
    + split; [|reflexivity]. intros _.
      destruct (proj1 F2 eq_refl) as [G Hne]. split; [|exact G].
      destruct (number_eq_dec lat2 lat1) as [->|D]; [|left; exact D].
      destruct (number_eq_dec lon2 lon1) as [->|D]; [|right; exact D].
      exfalso. apply Hne. reflexivity.
  - destruct (findFirst userId (visitKey lat1 lon1)
                (snd (POST now (Some userId) (visitBody lat1 lon1) t))) as [x|] eqn:G;
      cbn [fst snd].
    + split; [reflexivity|]. split; [apply update_frame|].
      unfold update. apply List.length_map.
    + exfalso. destruct (proj1 F1 eq_refl) as [_ G']. contradiction G'. reflexivity.
Qed.

Lemma MistPercentage_POST_again_witness :
  let t1 := snd (POST 1 (Some "u") (visitBody (fst rawA) (snd rawA)) []) in
  (fst (POST 2 (Some "u") (visitBody (fst rawB) (snd rawB)) t1) = Updated
   <-> (fst rawB = fst rawA /\ snd rawB = snd rawA)
       \/ findFirst "u" (visitKey (fst rawB) (snd rawB)) [] <> None)
  /\ (fst (POST 2 (Some "u") (visitBody (fst rawB) (snd rawB)) t1) = Created
      <-> (fst rawB <> fst rawA \/ snd rawB <> snd rawA)
          /\ findFirst "u" (visitKey (fst rawB) (snd rawB)) [] = None)
  /\ let t2 := snd (POST 2 (Some "u") (visitBody (fst rawA) (snd rawA)) t1) in
     fst (POST 2 (Some "u") (visitBody (fst rawA) (snd rawA)) t1) = Updated
     /\ List.map (fun f => (id f, user_id f, coordinate f, Create_time f)) t2
        = List.map (fun f => (id f, user_id f, coordinate f, Create_time f)) t1
     /\ List.length t2 = List.length t1.
Proof.
  apply (MistPercentage_POST_again 1 2 "u" [] (fst rawA) (snd rawA) (fst rawB) (snd rawB));
    vm_compute; reflexivity.
Defined.
(** ** C5 *)

Lemma hasCoordinate_true (userId key : string) (f : Footprint) :
  hasCoordinate userId key f = true <-> user_id f = userId /\ coordinate f = Some key.
Proof.
  unfold hasCoordinate. rewrite andb_true_iff, String.eqb_eq.
  destruct (coordinate f) as [c|].
  - rewrite String.eqb_eq. split; intros [A B]; (split; [exact A|congruence]).
  - split; intros [_ B]; discriminate B.
Qed.

(** [findFirst] gives the first row of the table that has the user and the
    coordinate text, when there is one. *)
Lemma findFirst_first (userId key : string) (t : Table) (f : Footprint) :
  In f t -> user_id f = userId -> coordinate f = Some key ->
  exists before existingFootprint after,
    t = (before ++ existingFootprint :: after)%list
    /\ (forall x, In x before -> user_id x <> userId \/ coordinate x <> Some key)
    /\ user_id existingFootprint = userId
    /\ coordinate existingFootprint = Some key
    /\ findFirst userId key t = Some existingFootprint.
Proof.
  intros Hin Hu Hc. unfold findFirst.
  induction t as [|x t IH]; [destruct Hin|].
  cbn [List.find]. destruct (hasCoordinate userId key x) eqn:Hx.
  - exists [], x, t. apply hasCoordinate_true in Hx. destruct Hx as [A B].
    split; [reflexivity|]. split; [intros y []|]. auto.
  - destruct Hin as [->|Hin].
    + assert (hasCoordinate userId key f = true) by (apply hasCoordinate_true; auto).
      congruence.
    + destruct (IH Hin) as (before & e & after & -> & Hb & A & B & F).
      exists (x :: before), e, after. split; [reflexivity|].
      split; [|auto]. intros y [<-|Hy]; [|exact (Hb y Hy)].
      destruct (String.eqb_spec (user_id x) userId) as [E|E]; [|left; exact E].
      right. intros C.
      assert (hasCoordinate userId key x = true) by (apply hasCoordinate_true; auto).
      congruence.
Qed.

Lemma findFirst_none (userId key : string) (t : Table) :
  (forall f, In f t -> user_id f = userId -> coordinate f <> Some key) ->
  findFirst userId key t = None.
Proof.
  intros H. destruct (findFirst userId key t) as [e|] eqn:F; [|reflexivity].
  apply findFirst_Some in F. destruct F as (A & B & C). destruct (H e A B C).
Qed.

(** What [explore-grid] leaves in the table: nothing new, or one new row at
    the end, which has no times. *)
Lemma ExploreGrid_POST_rows (session : option string) (body : Body) (t : Table) :
  snd (ExploreGrid.POST session body t) = t
  \/ exists row, snd (ExploreGrid.POST session body t) = (t ++ [row])%list
                 /\ Create_time row = None /\ Update_time row = None.
Proof.
  unfold ExploreGrid.POST.
  destruct session as [userId|]; [|left; reflexivity].
  destruct (negb (truthy userId)); [left; reflexivity|].
  destruct (body_lat body) as [lat0|]; [|left; reflexivity].
  destruct (body_lon body) as [lon0|]; [|left; reflexivity].
  destruct (negb (isInTaiwanBounds lat0 lon0)); [left; reflexivity|].
  destruct (coordinateToGridId lat0 lon0) as [gridId|]; [|left; reflexivity].
  destruct (negb (truthy gridId)); [left; reflexivity|].
  destruct (gridIdToCenter gridId) as [center|]; [|left; reflexivity].
  destruct (findFirst userId _ t); [left; reflexivity|].
  right. unfold create. cbn [snd]. eexists. split; [reflexivity|]. split; reflexivity.
Qed.

(** C5.  The handler of [mist-percentage], for a signed-in user.  It answers
    "bad request" exactly when the coordinate is outside the bounds, and then
    leaves the table as it is.  Otherwise the key is the text
    [`${lat},${lon}`] of the raw coordinate.  When the table holds a row of
    the user with that text, the first such row is the one found: its
    [Update_time] is set, nothing else changes, no row is added, and the
    answer is "updated".  When the table holds no such row, one row with that
    text is appended and the answer is "created".  Two coordinates inside the
    bounds that differ in a number, neither stored yet, end as two rows,
    whatever their cells.

    The handler of [explore-grid] keeps its rows by cell instead: for two
    coordinates of one cell it stores at most one row, whose text is the
    centre of the cell, answers the second request with
    [alreadyExplored: true], and changes nothing then.  A row that it adds
    has no [Update_time], and it never changes a row. *)
Theorem C5_recordVisit (now now' : Z) (userId : string) (t : Table)
    (lat lon lat' lon' : number) :
  truthy userId = true ->
  ((exists message, fst (POST now (Some userId) (visitBody lat lon) t) = BadRequest message)
   <-> isInTaiwanBounds lat lon = false)
  /\ (isInTaiwanBounds lat lon = false ->
      POST now (Some userId) (visitBody lat lon) t = (BadRequest "out of bounds", t))
  /\ (isInTaiwanBounds lat lon = true ->
      (forall f, In f t -> user_id f = userId -> coordinate f = Some (visitKey lat lon) ->
         exists before existingFootprint after,
           t = (before ++ existingFootprint :: after)%list
           /\ (forall x, In x before ->
                 user_id x <> userId \/ coordinate x <> Some (visitKey lat lon))
           /\ user_id existingFootprint = userId
           /\ coordinate existingFootprint = Some (visitKey lat lon)
           /\ POST now (Some userId) (visitBody lat lon) t
              = (Updated, update (id existingFootprint) now t))
      /\ ((forall f, In f t -> user_id f = userId ->
             coordinate f <> Some (visitKey lat lon)) ->
          POST now (Some userId) (visitBody lat lon) t
          = (Created,
             (t ++ [ {| id := freshId t; user_id := userId;
                        coordinate := Some (visitKey lat lon);
                        Create_time := Some now; Update_time := Some now |} ])%list)))
  /\ (forall id',
        List.length (update id' now t) = List.length t
        /\ List.map (fun f => (id f, user_id f, coordinate f, Create_time f))
             (update id' now t)
           = List.map (fun f => (id f, user_id f, coordinate f, Create_time f)) t
        /\ List.map Update_time (update id' now t)
           = List.map (fun f => if Nat.eqb (id f) id' then Some now else Update_time f) t)
  /\ (isInTaiwanBounds lat lon = true -> isInTaiwanBounds lat' lon' = true ->
      lat <> lat' \/ lon <> lon' ->
      (forall f, In f t -> user_id f = userId ->
         coordinate f <> Some (visitKey lat lon)
         /\ coordinate f <> Some (visitKey lat' lon')) ->
      exists row row',
        POST now (Some userId) (visitBody lat lon) t = (Created, (t ++ [row])%list)
        /\ POST now' (Some userId) (visitBody lat' lon') (t ++ [row])%list
           = (Created, (t ++ [row; row'])%list)
        /\ coordinate row = Some (visitKey lat lon)
        /\ coordinate row' = Some (visitKey lat' lon')
        /\ coordinate row <> coordinate row')
  /\ (isInTaiwanBounds lat lon = true ->
      coordinateToGridId lat lon = coordinateToGridId lat' lon' ->
      exists alreadyExplored n gridId k j t1,
        ExploreGrid.POST (Some userId) (visitBody lat lon) t
        = (ExploreGrid.Explored alreadyExplored n gridId (Some (centreKey k j)), t1)
        /\ ExploreGrid.POST (Some userId) (visitBody lat' lon') t1
           = (ExploreGrid.Explored true n gridId (Some (centreKey k j)), t1)
        /\ coordinateToGridId lat lon = Some gridId /\ gridId = cellId k j
        /\ (if alreadyExplored then t1 = t
            else t1 = (t ++ [ {| id := n; user_id := userId;
                                 coordinate := Some (centreKey k j);
                                 Create_time := None; Update_time := None |} ])%list))
  /\ (forall session body,
        snd (ExploreGrid.POST session body t) = t
        \/ exists row, snd (ExploreGrid.POST session body t) = (t ++ [row])%list
                       /\ Create_time row = None /\ Update_time row = None).
Proof.
  intros Hu. split.
  { destruct (isInTaiwanBounds lat lon) eqn:Hb.
    - rewrite (POST_in_bounds _ _ _ _ _ Hu Hb).
      split; [|discriminate]. intros (message & H).
      destruct (findFirst userId (visitKey lat lon) t); discriminate.
    - rewrite (POST_out_of_bounds _ _ _ _ _ Hu Hb). split; [reflexivity|].
      intros _. eexists. reflexivity. }
  split; [apply POST_out_of_bounds, Hu|].
  split.
  { intros Hb. rewrite (POST_in_bounds _ _ _ _ _ Hu Hb). split.
    - intros f Hin Hf Hc.
      destruct (findFirst_first userId _ t f Hin Hf Hc)
        as (before & e & after & E & Hbefore & A & B & F).
      exists before, e, after. rewrite F. auto 6.
    - intros Hnone. rewrite (findFirst_none _ _ _ Hnone). reflexivity. }
  split.
  { intros id'. split; [unfold update; apply List.length_map|apply update_frame]. }
  split.
  { intros Hb Hb' Hne Hnone.
    assert (Hk : visitKey lat lon <> visitKey lat' lon').
    { intros E. pose proof (parseCoordinate_visitKey _ _ Hb) as P1.
      pose proof (parseCoordinate_visitKey _ _ Hb') as P2. rewrite E in P1.
      destruct Hne as [H|H]; apply H; congruence. }
    assert (Hf : findFirst userId (visitKey lat lon) t = None).
    { apply findFirst_none. intros f A B. exact (proj1 (Hnone f A B)). }
    assert (Hf' : findFirst userId (visitKey lat' lon') t = None).
    { apply findFirst_none. intros f A B. exact (proj2 (Hnone f A B)). }
    eexists _, _.
    rewrite (POST_in_bounds _ _ _ _ _ Hu Hb), Hf.
    rewrite (POST_in_bounds _ _ _ _ _ Hu Hb'), findFirst_app, Hf'.
    rewrite hasCoordinate_other by exact Hk. rewrite <- List.app_assoc.
    split; [reflexivity|]. split; [reflexivity|]. split; [reflexivity|].
    split; [reflexivity|]. cbn [coordinate]. congruence. }
  split; [|intros session body; apply ExploreGrid_POST_rows].
  intros Hb E12.
  destruct (coordinateToGridId_cell _ _ Hb) as (k & j & Hk & Hj & _ & _ & E).
  assert (E2 : coordinateToGridId lat' lon' = Some (cellId k j)) by congruence.
  rewrite (ExploreGrid_POST_cell userId t lat lon k j Hu Hk Hj E).
  destruct (findFirst userId (centreKey k j) t) as [e|] eqn:F.
  - pose proof (findFirst_Some _ _ _ _ F) as (F1 & F2 & F3).
    exists true, (id e), (cellId k j), k, j, t.
    rewrite (ExploreGrid_POST_cell userId t lat' lon' k j Hu Hk Hj E2), F, F3. auto.
  - exists false, (freshId t), (cellId k j), k, j, (t ++ [centreRow t userId k j])%list.
    rewrite (ExploreGrid_POST_cell userId _ lat' lon' k j Hu Hk Hj E2).
    rewrite findFirst_app, F.
    replace (hasCoordinate userId (centreKey k j) (centreRow t userId k j)) with true
      by (symmetry; apply hasCoordinate_refl).
    auto.
Qed.

(** Two raw coordinates of one cell are stored by [mist-percentage] as two
    rows; a third request, for the first coordinate again, finds its row,
    which is not the last one, and sets its [Update_time]. *)
Lemma C5_witness :
  coordinateToGridId (fst rawA) (snd rawA) = coordinateToGridId (fst rawB) (snd rawB)
  /\ (exists row row',
         POST 1 (Some "u") (visitBody (fst rawA) (snd rawA)) [] = (Created, [row])
         /\ POST 2 (Some "u") (visitBody (fst rawB) (snd rawB)) [row]
            = (Created, [row; row'])
         /\ coordinate row = Some "25.033,121.5654"
         /\ coordinate row' = Some "25.0335,121.5658"
         /\ coordinate row <> coordinate row')
  /\ (exists before existingFootprint after,
         twoVisits = (before ++ existingFootprint :: after)%list
         /\ (forall x, In x before ->
               user_id x <> "u" \/ coordinate x <> Some (visitKey (fst rawB) (snd rawB)))
         /\ user_id existingFootprint = "u"
         /\ coordinate existingFootprint = Some (visitKey (fst rawB) (snd rawB))
         /\ POST 3 (Some "u") (visitBody (fst rawB) (snd rawB)) twoVisits
            = (Updated, update (id existingFootprint) 3 twoVisits)).
Proof.
  split; [vm_compute; reflexivity|]. split.
  - apply (proj1 (proj2 (proj2 (proj2 (proj2
             (C5_recordVisit 1 2 "u" [] (fst rawA) (snd rawA) (fst rawB) (snd rawB)
                eq_refl)))))).
    + vm_compute; reflexivity.
    + vm_compute; reflexivity.
    + left. vm_compute. discriminate.
    + intros f [].
  - apply (proj1 (proj1 (proj2 (proj2
             (C5_recordVisit 3 3 "u" twoVisits (fst rawB) (snd rawB) (fst rawB) (snd rawB)
                eq_refl))) eq_refl)
             (footprintAt 2 "u" (Some "25.0335,121.5658"))).
    + right. left. reflexivity.
    + reflexivity.
    + vm_compute. reflexivity.
Defined.

(** C5, as stated, fails for the handler of [explore-grid].  The two raw
    coordinates 25.0330,121.5654 and 25.0335,121.5658 differ and are in one
    cell; after the two requests the table holds one row, not two, its text
    is neither of the two raw coordinates, and the second request, which
    finds the row, leaves its [Update_time] unset. *)
Lemma C5_counterexample :
  number_eqb (fst rawA) (fst rawB) = false
  /\ isInTaiwanBounds (fst rawA) (snd rawA) = true
  /\ isInTaiwanBounds (fst rawB) (snd rawB) = true
  /\ coordinateToGridId (fst rawA) (snd rawA) = Some "grid_25.029_121.56"
  /\ coordinateToGridId (fst rawB) (snd rawB) = Some "grid_25.029_121.56"
  /\ visitKey (fst rawA) (snd rawA) = "25.033,121.5654"
  /\ visitKey (fst rawB) (snd rawB) = "25.0335,121.5658"
  /\ ExploreGrid.POST (Some "u") (visitBody (fst rawA) (snd rawA)) []
     = (ExploreGrid.Explored false 1 "grid_25.029_121.56" (Some "25.0335,121.565"),
        [ {| id := 1; user_id := "u"; coordinate := Some "25.0335,121.565";
             Create_time := None; Update_time := None |} ])
  /\ ExploreGrid.POST (Some "u") (visitBody (fst rawB) (snd rawB))
       [ {| id := 1; user_id := "u"; coordinate := Some "25.0335,121.565";
            Create_time := None; Update_time := None |} ]
     = (ExploreGrid.Explored true 1 "grid_25.029_121.56" (Some "25.0335,121.565"),
        [ {| id := 1; user_id := "u"; coordinate := Some "25.0335,121.565";
             Create_time := None; Update_time := None |} ]).
Proof. vm_compute. repeat split; reflexivity. Qed.
(** ** [map-records]: what a request can and cannot change *)

Section MapRecordsLemmas.
Import MapRecords.

Lemma orNull_truthy (a : option string) (s : string) :
  Auth.orNull a = Some s -> a = Some s /\ truthy s = true.
Proof.
  unfold Auth.orNull, Auth.orElse. destruct a as [x|]; [|discriminate].
  destruct (truthy x) eqn:E; [|discriminate]. intros [= <-]. auto.
Qed.

Lemma findUnique_Some (id' : string) (db : Database) (r : MapRecord) :
  findUnique id' db = Some r -> In r (mapRecord db) /\ id r = id'.
Proof.
  unfold findUnique. intros H. apply List.find_some in H. destruct H as [H1 H2].
  apply String.eqb_eq in H2. auto.
Qed.

Lemma findUnique_None (id' : string) (db : Database) :
  findUnique id' db = None <-> ~ In id' (List.map id (mapRecord db)).
Proof.
  unfold findUnique. induction (mapRecord db) as [|x l IH]; cbn [List.find List.map In].
  - tauto.
  - unfold hasId at 1. destruct (String.eqb_spec (id x) id') as [E|E].
    + split; [discriminate|]. intros H. contradiction H. left. exact E.
    + rewrite IH. tauto.
Qed.

(** With unique ids, the record of an id is the only one that has it. *)
Lemma unique_owner (id' : string) (db : Database) (r x : MapRecord) :
  uniqueIds db ->
  findUnique id' db = Some r -> In x (mapRecord db) -> id x = id' -> x = r.
Proof.
  intros Hn Hf Hx Hi. apply findUnique_Some in Hf. destruct Hf as [Hr Hr'].
  unfold uniqueIds in Hn. revert Hn Hx Hr. induction (mapRecord db) as [|y l IH]; [contradiction|].
  cbn [List.map In]. intros Hn Hx Hr. apply List.NoDup_cons_iff in Hn. destruct Hn as [Hy Hn].
  destruct Hx as [->|Hx], Hr as [->|Hr].
  - reflexivity.
  - contradiction Hy. rewrite Hi, <- Hr'. apply List.in_map. exact Hr.
  - contradiction Hy. rewrite Hr', <- Hi. apply List.in_map. exact Hx.
  - apply IH; assumption.
Qed.

(** *** What another user sees *)

Lemma mapRecord_findMany_In (userId : string) (db : Database) (r : MapRecord) :
  In r (findMany userId db) <-> In r (mapRecord db) /\ user_id r = userId.
Proof.
  unfold findMany. rewrite <- (String.eqb_eq (user_id r) userId).
  rewrite <- (List.filter_In (fun r => String.eqb (user_id r) userId)).
  generalize (List.filter (fun r => String.eqb (user_id r) userId) (mapRecord db)).
  intros l. induction l as [|x l IH]; [reflexivity|].
  cbn [orderByDesc List.fold_right]. fold (orderByDesc l).
  assert (A : forall l', In r (insertDesc x l') <-> x = r \/ In r l').
  { induction l' as [|y l' IH']; cbn [insertDesc In]; [tauto|].
    destruct (Create_time y <=? Create_time x); cbn [In]; [tauto|].
    rewrite IH'. tauto. }
  rewrite A, IH. reflexivity.
Qed.

Lemma sameView_GET (session : option Auth.Session) (a : Auth.AuthResult)
    (db db' : Database) :
  Auth.requireAuth (Auth.Resolves session) = inr a ->
  sameView (Auth.userId a) db db' ->
  GET session db' = GET session db.
Proof.
  intros Ha [H1 H2]. unfold GET. rewrite Ha. f_equal. f_equal.
  unfold findMany at 1. rewrite H1. fold (findMany (Auth.userId a) db).
  apply List.map_ext_in. intros r Hr. apply mapRecord_findMany_In in Hr. destruct Hr as [Hr Hu].
  unfold format. rewrite (H2 r Hr Hu). reflexivity.
Qed.

Lemma filter_app_other (userId : string) (l : list MapRecord) (r : MapRecord) :
  user_id r <> userId ->
  List.filter (fun r => String.eqb (user_id r) userId) (l ++ [r])
  = List.filter (fun r => String.eqb (user_id r) userId) l.
Proof.
  intros H. rewrite List.filter_app. cbn [List.filter].
  destruct (String.eqb_spec (user_id r) userId); [contradiction|].
  apply List.app_nil_r.
Qed.

Lemma newPictures_record (ids : nat -> string) (first : nat) (id' : string)
    (l : list string) (p : MapRecordPicture) :
  In p (newPictures ids first id' l) -> record_id p = id'.
Proof.
  revert first. induction l as [|x l IH]; intros first; cbn [newPictures In];
    [contradiction|]. intros [<-|H]; [reflexivity|exact (IH _ H)].
Qed.

Lemma filter_none {A : Type} (f : A -> bool) (l : list A) :
  (forall x, In x l -> f x = false) -> List.filter f l = [].
Proof.
  induction l as [|x l IH]; intros H; [reflexivity|]. cbn [List.filter].
  rewrite (H x (or_introl eq_refl)). apply IH. intros y Hy. apply H. right. exact Hy.
Qed.

Lemma filter_filter_other (id' id'' : string) (l : list MapRecordPicture) :
  id'' <> id' ->
  List.filter (ofRecord id'') (List.filter (fun p => negb (ofRecord id' p)) l)
  = List.filter (ofRecord id'') l.
Proof.
  intros Hne. induction l as [|p l IH]; [reflexivity|]. cbn [List.filter].
  destruct (ofRecord id' p) eqn:E; cbn [negb List.filter].
  - destruct (ofRecord id'' p) eqn:E'; [|exact IH].
    unfold ofRecord in E, E'. apply String.eqb_eq in E, E'. congruence.
  - destruct (ofRecord id'' p); rewrite IH; reflexivity.
Qed.

Lemma picturesOf_new_other (ids : nat -> string) (first : nat) (id' id'' : string)
    (l : list string) (ps : list MapRecordPicture) :
  id'' <> id' ->
  List.filter (ofRecord id'') (ps ++ newPictures ids first id' l)
  = List.filter (ofRecord id'') ps.
Proof.
  intros Hne. rewrite List.filter_app, (filter_none _ (newPictures ids first id' l)).
  - apply List.app_nil_r.
  - intros p Hp. apply newPictures_record in Hp. unfold ofRecord.
    destruct (String.eqb_spec (record_id p) id''); congruence.
Qed.

Lemma update_other (userId id' name' : string) (d c : option string) (db : Database)
    (existingRecord : MapRecord) :
  uniqueIds db ->
  findUnique id' db = Some existingRecord ->
  user_id existingRecord <> userId ->
  List.filter (fun r => String.eqb (user_id r) userId) (mapRecord (update id' name' d c db))
  = List.filter (fun r => String.eqb (user_id r) userId) (mapRecord db).
Proof.
  intros Hn Hf Hu. unfold update. cbn [mapRecord].
  assert (H : forall x, In x (mapRecord db) -> id x = id' -> user_id x <> userId).
  { intros x Hx Hi. rewrite (unique_owner id' db existingRecord x Hn Hf Hx Hi). exact Hu. }
  clear Hn Hf. induction (mapRecord db) as [|x l IH]; [reflexivity|].
  cbn [List.map List.filter]. rewrite IH by (intros y Hy; apply H; right; exact Hy).
  unfold hasId. destruct (String.eqb_spec (id x) id') as [E|E]; [|reflexivity].
  cbn [user_id]. pose proof (H x (or_introl eq_refl) E) as Hx.
  destruct (String.eqb_spec (user_id x) userId); [contradiction|reflexivity].
Qed.

Lemma delete_other (userId id' : string) (db : Database) (existingRecord : MapRecord) :
  uniqueIds db ->
  findUnique id' db = Some existingRecord ->
  user_id existingRecord <> userId ->
  List.filter (fun r => String.eqb (user_id r) userId) (mapRecord (delete id' db))
  = List.filter (fun r => String.eqb (user_id r) userId) (mapRecord db).
Proof.
  intros Hn Hf Hu. unfold delete. cbn [mapRecord].
  assert (H : forall x, In x (mapRecord db) -> id x = id' -> user_id x <> userId).
  { intros x Hx Hi. rewrite (unique_owner id' db existingRecord x Hn Hf Hx Hi). exact Hu. }
  clear Hn Hf. induction (mapRecord db) as [|x l IH]; [reflexivity|].
  cbn [List.filter]. unfold hasId at 1.
  destruct (String.eqb_spec (id x) id') as [E|E]; cbn [negb List.filter];
    rewrite IH by (intros y Hy; apply H; right; exact Hy); [|reflexivity].
  pose proof (H x (or_introl eq_refl) E) as Hx.
  destruct (String.eqb_spec (user_id x) userId); [contradiction|reflexivity].
Qed.

Lemma sameView_refl (userId : string) (db : Database) : sameView userId db db.
Proof. split; reflexivity. Qed.

(** What the second half of [PUT] leaves. *)
Lemma replacePictures_records (ids : nat -> string) (id' : string) (p : Pictures)
    (db1 : Database) :
  mapRecord (fst (replacePictures ids id' p db1)) = mapRecord db1.
Proof.
  destruct p as [| |l| |]; cbn [replacePictures fst]; try reflexivity.
  destruct (0 <? List.length l)%nat; reflexivity.
Qed.

Lemma replacePictures_other (ids : nat -> string) (id' id'' : string) (p : Pictures)
    (db1 : Database) :
  id'' <> id' ->
  picturesOf (fst (replacePictures ids id' p db1)) id'' = picturesOf db1 id''.
Proof.
  intros Hne. unfold picturesOf.
  destruct p as [| |l| |]; cbn [replacePictures fst deleteMany mapRecordPicture];
    try reflexivity; try (apply filter_filter_other; exact Hne).
  destruct (0 <? List.length l)%nat; cbn [createMany deleteMany mapRecordPicture].
  - rewrite (picturesOf_new_other ids 0 id' id'' l _ Hne).
    apply filter_filter_other. exact Hne.
  - apply filter_filter_other. exact Hne.
Qed.

Lemma POST_sameView (ids : nat -> string) (now : Z) (session : option Auth.Session)
    (body : option Body) (db : Database) (other : string) :
  ~ In (ids 0%nat) (List.map id (mapRecord db)) ->
  (forall a, Auth.requireAuth (Auth.Resolves session) = inr a -> Auth.userId a <> other) ->
  sameView other db (snd (POST ids now session body db)).
Proof.
  intros Hfresh Ho. unfold POST.
  destruct (Auth.requireAuth (Auth.Resolves session)) as [|a]; [apply sameView_refl|].
  destruct body as [body|]; [|apply sameView_refl].
  destruct (Auth.orNull (body_name body)) as [name'|]; [|apply sameView_refl].
  destruct (orNullText (body_description body)) as [d|]; [|apply sameView_refl].
  destruct (orNullText (body_coordinate body)) as [c|]; [|apply sameView_refl].
  destruct (picturesToCreate (body_pictures body)) as [l|]; [|apply sameView_refl].
  cbn [snd]. split; cbn [mapRecord].
  - apply filter_app_other. cbn [user_id]. apply Ho. reflexivity.
  - intros r Hr _. unfold picturesOf. cbn [mapRecordPicture].
    apply picturesOf_new_other. intros E. apply Hfresh. rewrite <- E.
    apply List.in_map. exact Hr.
Qed.

Lemma PUT_sameView (ids : nat -> string) (session : option Auth.Session)
    (body : option Body) (db : Database) (other : string) :
  uniqueIds db ->
  (forall a, Auth.requireAuth (Auth.Resolves session) = inr a -> Auth.userId a <> other) ->
  sameView other db (snd (PUT ids session body db)).
Proof.
  intros Hn Ho. unfold PUT.
  destruct (Auth.requireAuth (Auth.Resolves session)) as [|a]; [apply sameView_refl|].
  destruct body as [body|]; [|apply sameView_refl].
  destruct (Auth.orNull (body_id body)) as [id'|]; [|apply sameView_refl].
  destruct (Auth.orNull (body_name body)) as [name'|]; [|apply sameView_refl].
  destruct (findUnique id' db) as [existingRecord|] eqn:Hf; [|apply sameView_refl].
  destruct (String.eqb_spec (user_id existingRecord) (Auth.userId a)) as [Hu|Hu];
    cbn [negb]; [|apply sameView_refl].
  assert (Hx : user_id existingRecord <> other) by (rewrite Hu; apply Ho; reflexivity).
  destruct (orNullText (body_description body)) as [d|]; [|apply sameView_refl].
  destruct (orNullText (body_coordinate body)) as [c|]; [|apply sameView_refl].
  pose proof (replacePictures_records ids id' (body_pictures body)
                (update id' name' d c db)) as R.
  pose proof (fun x => replacePictures_other ids id' x (body_pictures body)
                         (update id' name' d c db)) as P.
  destruct (replacePictures ids id' (body_pictures body) (update id' name' d c db))
    as [db2 done]. cbn [fst] in R, P.
  assert (V : sameView other db db2).
  { split.
    - rewrite R. exact (update_other other id' name' d c db existingRecord Hn Hf Hx).
    - intros r Hr Hr'. rewrite P; [reflexivity|].
      intros E. rewrite (unique_owner id' db existingRecord r Hn Hf Hr E) in Hr'.
      contradiction. }
  destruct done; exact V.
Qed.

Lemma DELETE_sameView (session : option Auth.Session) (id0 : option string)
    (db : Database) (other : string) :
  uniqueIds db ->
  (forall a, Auth.requireAuth (Auth.Resolves session) = inr a -> Auth.userId a <> other) ->
  sameView other db (snd (DELETE session id0 db)).
Proof.
  intros Hn Ho. unfold DELETE.
  destruct (Auth.requireAuth (Auth.Resolves session)) as [|a]; [apply sameView_refl|].
  destruct (Auth.orNull id0) as [id'|]; [|apply sameView_refl].
  destruct (findUnique id' db) as [existingRecord|] eqn:Hf; [|apply sameView_refl].
  destruct (String.eqb_spec (user_id existingRecord) (Auth.userId a)) as [Hu|Hu];
    cbn [negb]; [|apply sameView_refl].
  assert (Hx : user_id existingRecord <> other) by (rewrite Hu; apply Ho; reflexivity).
  cbn [snd]. split.
  - exact (delete_other other id' db existingRecord Hn Hf Hx).
  - intros r Hr Hr'.
    assert (Hne : id r <> id').
    { intros E. rewrite (unique_owner id' db existingRecord r Hn Hf Hr E) in Hr'.
      contradiction. }
    unfold picturesOf, delete. cbn [mapRecordPicture].
    apply filter_filter_other. exact Hne.
Qed.

(** *** Deleting and sorting *)

Lemma insertDesc_first (r : MapRecord) (l : list MapRecord) :
  List.Forall (fun y => Create_time y <= Create_time r) l ->
  insertDesc r l = r :: l.
Proof.
  destruct l as [|x l]; [reflexivity|]. intros H. apply List.Forall_cons_iff in H.
  destruct H as [H _]. cbn [insertDesc].
  destruct (Z.leb_spec (Create_time x) (Create_time r)); [reflexivity|lia].
Qed.

Lemma insertDesc_sorted (r : MapRecord) (l : list MapRecord) :
  sortedDesc l -> sortedDesc (insertDesc r l).
Proof.
  induction l as [|x l IH]; cbn [insertDesc sortedDesc].
  - intros _. split; [constructor|exact I].
  - intros [Hx Hs]. destruct (Z.leb_spec (Create_time x) (Create_time r)) as [L|L];
      cbn [sortedDesc].
    + split; [|split; assumption].
      constructor; [exact L|]. revert Hx. apply List.Forall_impl. intros y Hy. lia.
    + split; [|exact (IH Hs)]. clear IH Hs.
      induction l as [|y l IH']; cbn [insertDesc].
      * constructor; [lia|constructor].
      * apply List.Forall_cons_iff in Hx. destruct Hx as [H1 H2].
        destruct (Create_time y <=? Create_time r).
        -- constructor; [lia|]. constructor; assumption.
        -- constructor; [exact H1|apply IH'; exact H2].
Qed.

Lemma orderByDesc_sorted (l : list MapRecord) : sortedDesc (orderByDesc l).
Proof.
  induction l as [|x l IH]; [exact I|]. cbn [orderByDesc List.fold_right].
  apply insertDesc_sorted. exact IH.
Qed.

Lemma insertDesc_filter (f : MapRecord -> bool) (r : MapRecord) (l : list MapRecord) :
  sortedDesc l ->
  List.filter f (insertDesc r l)
  = if f r then insertDesc r (List.filter f l) else List.filter f l.
Proof.
  induction l as [|x l IH]; cbn [insertDesc List.filter sortedDesc].
  - intros _. destruct (f r); reflexivity.
  - intros [Hx Hs]. destruct (Z.leb_spec (Create_time x) (Create_time r)) as [L|L].
    + cbn [List.filter]. destruct (f r); [|reflexivity]. symmetry.
      apply insertDesc_first.
      assert (A : List.Forall (fun y => Create_time y <= Create_time r) (x :: l)).
      { constructor; [exact L|]. revert Hx. apply List.Forall_impl. intros y Hy. lia. }
      apply List.Forall_forall. intros y Hy.
      apply (proj1 (List.Forall_forall _ _) A y).
      change (In y (List.filter f (x :: l))) in Hy. apply List.filter_In in Hy. tauto.
    + cbn [List.filter]. rewrite (IH Hs). destruct (f x), (f r); try reflexivity.
      cbn [insertDesc]. destruct (Z.leb_spec (Create_time x) (Create_time r)); [lia|].
      reflexivity.
Qed.

Lemma orderByDesc_filter (f : MapRecord -> bool) (l : list MapRecord) :
  orderByDesc (List.filter f l) = List.filter f (orderByDesc l).
Proof.
  induction l as [|x l IH]; [reflexivity|]. cbn [orderByDesc List.fold_right List.filter].
  fold (orderByDesc l). rewrite (insertDesc_filter f x _ (orderByDesc_sorted l)), <- IH.
  destruct (f x); reflexivity.
Qed.

Lemma findMany_delete (userId id' : string) (db : Database) :
  findMany userId (delete id' db)
  = List.filter (fun r => negb (hasId id' r)) (findMany userId db).
Proof.
  unfold findMany, delete. cbn [mapRecord]. rewrite <- orderByDesc_filter. f_equal.
  induction (mapRecord db) as [|x l IH]; [reflexivity|]. cbn [List.filter].
  destruct (hasId id' x) eqn:E, (String.eqb (user_id x) userId) eqn:E';
    cbn [negb List.filter]; rewrite ?E, ?E'; cbn [negb]; rewrite ?IH; reflexivity.
Qed.

(** *** Updating *)

Lemma find_update (id' name' : string) (d c : option string) (db : Database) :
  findUnique id' (update id' name' d c db)
  = option_map (fun r => {| id := id r; user_id := user_id r; name := name';
                            description := d; coordinate := c;
                            Create_time := Create_time r |})
      (findUnique id' db).
Proof.
  unfold findUnique, update. cbn [mapRecord].
  induction (mapRecord db) as [|x l IH]; [reflexivity|]. cbn [List.map List.find].
  destruct (hasId id' x) eqn:E.
  - unfold hasId at 1. cbn [id]. fold (hasId id' x). rewrite E. reflexivity.
  - rewrite E. exact IH.
Qed.

Lemma newPictures_picture (ids : nat -> string) (first : nat) (id' : string)
    (l : list string) :
  List.map picture (newPictures ids first id' l) = l.
Proof.
  revert first. induction l as [|x l IH]; intros first; [reflexivity|].
  cbn [newPictures List.map picture]. rewrite IH. reflexivity.
Qed.

Lemma filter_all {A : Type} (f : A -> bool) (l : list A) :
  (forall x, In x l -> f x = true) -> List.filter f l = l.
Proof.
  induction l as [|x l IH]; intros H; [reflexivity|]. cbn [List.filter].
  rewrite (H x (or_introl eq_refl)), IH; [reflexivity|].
  intros y Hy. apply H. right. exact Hy.
Qed.

Lemma filter_deleted (id' : string) (l : list MapRecordPicture) :
  List.filter (ofRecord id') (List.filter (fun p => negb (ofRecord id' p)) l) = [].
Proof.
  apply filter_none. intros p Hp. apply List.filter_In in Hp. destruct Hp as [_ Hp].
  destruct (ofRecord id' p); [discriminate|reflexivity].
Qed.

End MapRecordsLemmas.

(** ** [map-records]: the theorems *)

Section MapRecordsTheorems.
Import MapRecords.

Lemma NoDup_map_filter {A B : Type} (f : A -> B) (p : A -> bool) (l : list A) :
  List.NoDup (List.map f l) -> List.NoDup (List.map f (List.filter p l)).
Proof.
  induction l as [|x l IH]; cbn [List.map List.filter]; [auto|].
  intros H. apply List.NoDup_cons_iff in H. destruct H as [H1 H2].
  destruct (p x); [|exact (IH H2)]. cbn [List.map]. constructor; [|exact (IH H2)].
  intros H. apply H1. apply List.in_map_iff in H. destruct H as (y & E & Hy).
  apply List.filter_In in Hy. apply List.in_map_iff. exists y. tauto.
Qed.

Lemma NoDup_snoc {A : Type} (x : A) (l : list A) :
  List.NoDup l -> ~ In x l -> List.NoDup (l ++ [x]).
Proof.
  induction l as [|y l IH]; cbn [List.app In]; intros Hn Hx.
  - constructor; [intros []|constructor].
  - apply List.NoDup_cons_iff in Hn. destruct Hn as [H1 H2]. constructor.
    + rewrite List.in_app_iff. cbn [In]. intuition congruence.
    + apply IH; tauto.
Qed.

Lemma POST_uniqueIds (ids : nat -> string) (now : Z) (session : option Auth.Session)
    (body : option Body) (db : Database) :
  uniqueIds db -> ~ In (ids 0%nat) (List.map id (mapRecord db)) ->
  uniqueIds (snd (POST ids now session body db)).
Proof.
  intros Hn Hf. unfold POST.
  destruct (Auth.requireAuth (Auth.Resolves session)) as [|a]; [exact Hn|].
  destruct body as [body|]; [|exact Hn].
  destruct (Auth.orNull (body_name body)) as [name'|]; [|exact Hn].
  destruct (orNullText (body_description body)) as [d|]; [|exact Hn].
  destruct (orNullText (body_coordinate body)) as [c|]; [|exact Hn].
  destruct (picturesToCreate (body_pictures body)) as [l|]; [|exact Hn].
  unfold uniqueIds. cbn [snd mapRecord]. rewrite List.map_app. cbn [List.map id].
  apply NoDup_snoc; assumption.
Qed.

Lemma update_ids (id' name' : string) (d c : option string) (db : Database) :
  List.map id (mapRecord (update id' name' d c db)) = List.map id (mapRecord db).
Proof.
  unfold update. cbn [mapRecord]. rewrite List.map_map.
  apply List.map_ext. intros r. destruct (hasId id' r); reflexivity.
Qed.

Lemma PUT_ids (ids : nat -> string) (session : option Auth.Session)
    (body : option Body) (db : Database) :
  List.map id (mapRecord (snd (PUT ids session body db))) = List.map id (mapRecord db).
Proof.
  unfold PUT.
  destruct (Auth.requireAuth (Auth.Resolves session)) as [|a]; [reflexivity|].
  destruct body as [body|]; [|reflexivity].
  destruct (Auth.orNull (body_id body)) as [id'|]; [|reflexivity].
  destruct (Auth.orNull (body_name body)) as [name'|]; [|reflexivity].
  destruct (findUnique id' db) as [existingRecord|]; [|reflexivity].
  destruct (negb (String.eqb (user_id existingRecord) (Auth.userId a))); [reflexivity|].
  destruct (orNullText (body_description body)) as [d|]; [|reflexivity].
  destruct (orNullText (body_coordinate body)) as [c|]; [|reflexivity].
  pose proof (replacePictures_records ids id' (body_pictures body)
                (update id' name' d c db)) as R.
  destruct (replacePictures ids id' (body_pictures body) (update id' name' d c db))
    as [db2 done]. cbn [fst] in R.
  destruct done; cbn [snd]; rewrite R; apply update_ids.
Qed.

Lemma PUT_uniqueIds (ids : nat -> string) (session : option Auth.Session)
    (body : option Body) (db : Database) :
  uniqueIds db -> uniqueIds (snd (PUT ids session body db)).
Proof. unfold uniqueIds. rewrite PUT_ids. trivial. Qed.

Lemma DELETE_uniqueIds (session : option Auth.Session) (id0 : option string)
    (db : Database) :
  uniqueIds db -> uniqueIds (snd (DELETE session id0 db)).
Proof.
  intros Hn. unfold DELETE.
  destruct (Auth.requireAuth (Auth.Resolves session)) as [|a]; [exact Hn|].
  destruct (Auth.orNull id0) as [id'|]; [|exact Hn].
  destruct (findUnique id' db) as [existingRecord|]; [|exact Hn].
  destruct (negb (String.eqb (user_id existingRecord) (Auth.userId a))); [exact Hn|].
  cbn [snd]. unfold uniqueIds, delete. cbn [mapRecord]. apply NoDup_map_filter. exact Hn.
Qed.

(** One user's requests and another user's records.  In a table with unique
    ids, whatever a session sends to POST, PUT or DELETE, with any body and
    any id, the answer of GET to a session of another user is the same
    afterwards as before, records and pictures, and the ids are still
    unique. *)
Theorem MapRecords_isolation (ids : nat -> string) (now : Z)
    (session otherSession : option Auth.Session) (b : Auth.AuthResult)
    (body : option Body) (id0 : option string) (db db' : Database) :
  uniqueIds db ->
  ~ In (ids 0%nat) (List.map id (mapRecord db)) ->
  Auth.requireAuth (Auth.Resolves otherSession) = inr b ->
  (forall a, Auth.requireAuth (Auth.Resolves session) = inr a ->
             Auth.userId a <> Auth.userId b) ->
  db' = snd (POST ids now session body db)
  \/ db' = snd (PUT ids session body db)
  \/ db' = snd (DELETE session id0 db) ->
  GET otherSession db' = GET otherSession db /\ uniqueIds db'.
Proof.
  intros Hn Hf Hb Ho [-> | [-> | ->]].
  - split; [|apply POST_uniqueIds; assumption].
    apply (sameView_GET otherSession b _ _ Hb). apply POST_sameView; assumption.
  - split; [|apply PUT_uniqueIds; assumption].
    apply (sameView_GET otherSession b _ _ Hb). apply PUT_sameView; assumption.
  - split; [|apply DELETE_uniqueIds; assumption].
    apply (sameView_GET otherSession b _ _ Hb). apply DELETE_sameView; assumption.
Qed.

Lemma MapRecords_isolation_witness :
  GET (sessionOf "bob") (snd (PUT newIds (sessionOf "alice") (Some renameR1) twoUsers))
  = GET (sessionOf "bob") twoUsers
  /\ uniqueIds (snd (PUT newIds (sessionOf "alice") (Some renameR1) twoUsers)).
Proof.
  apply (MapRecords_isolation newIds 0 (sessionOf "alice") (sessionOf "bob")
           {| Auth.userId := "bob"; Auth.userEmail := "u@example.org";
              Auth.userName := None |} (Some renameR1) None twoUsers).
  - unfold uniqueIds. cbn. repeat constructor; cbn; intuition discriminate.
  - cbn. intuition discriminate.
  - reflexivity.
  - intros a [= <-]. discriminate.
  - right. left. reflexivity.
Defined.

(** The refusals of PUT and DELETE.  They answer "forbidden" exactly when
    the session is signed in, the id (and for PUT the name) is a non-empty
    string, and the record of that id belongs to another user; "not found"
    is answered before the owner is looked at.  A DELETE that is not
    answered with success, and a PUT answered with another status than 500,
    leave the database as it was.  A PUT answered with 500 leaves it as it
    was too, with one exception: when the owner's request has passed all
    tests and [pictures] is a value on which [pictures.map] or [createMany]
    fails, the record is updated and its pictures are deleted before the
    failure.  Success is only answered for a record of the signed-in
    user. *)
Theorem MapRecords_refusals (ids : nat -> string) (session : option Auth.Session)
    (body : option Body) (id0 : option string) (db : Database) :
  (fst (PUT ids session body db) = FORBIDDEN
   <-> exists a b id' name' r,
         Auth.requireAuth (Auth.Resolves session) = inr a /\ body = Some b
         /\ body_id b = Some id' /\ truthy id' = true
         /\ body_name b = Some name' /\ truthy name' = true
         /\ findUnique id' db = Some r /\ user_id r <> Auth.userId a)
  /\ (fst (DELETE session id0 db) = FORBIDDEN
      <-> exists a id' r,
            Auth.requireAuth (Auth.Resolves session) = inr a
            /\ id0 = Some id' /\ truthy id' = true
            /\ findUnique id' db = Some r /\ user_id r <> Auth.userId a)
  /\ (forall error status code,
        fst (PUT ids session body db) = errorResponse error status code ->
        status <> 500 -> snd (PUT ids session body db) = db)
  /\ (forall error code,
        fst (PUT ids session body db) = errorResponse error 500 code ->
        snd (PUT ids session body db) = db
        \/ exists a b id' name' r description' coordinate',
             Auth.requireAuth (Auth.Resolves session) = inr a /\ body = Some b
             /\ Auth.orNull (body_id b) = Some id'
             /\ Auth.orNull (body_name b) = Some name'
             /\ findUnique id' db = Some r /\ user_id r = Auth.userId a
             /\ orNullText (body_description b) = Some description'
             /\ orNullText (body_coordinate b) = Some coordinate'
             /\ body_pictures b = pictures_bad
             /\ snd (PUT ids session body db)
                = deleteMany id' (update id' name' description' coordinate' db))
  /\ (forall a b id' name' r description' coordinate',
        Auth.requireAuth (Auth.Resolves session) = inr a -> body = Some b ->
        Auth.orNull (body_id b) = Some id' ->
        Auth.orNull (body_name b) = Some name' ->
        findUnique id' db = Some r -> user_id r = Auth.userId a ->
        orNullText (body_description b) = Some description' ->
        orNullText (body_coordinate b) = Some coordinate' ->
        body_pictures b = pictures_bad ->
        PUT ids session body db
        = (INTERNAL_ERROR "更新記錄失敗",
           deleteMany id' (update id' name' description' coordinate' db)))
  /\ ((forall data, fst (DELETE session id0 db) <> successResponse data) ->
      snd (DELETE session id0 db) = db)
  /\ (forall data, fst (PUT ids session body db) = successResponse data ->
        exists a b id' r,
          Auth.requireAuth (Auth.Resolves session) = inr a /\ body = Some b
          /\ body_id b = Some id'
          /\ findUnique id' db = Some r /\ user_id r = Auth.userId a)
  /\ (forall data, fst (DELETE session id0 db) = successResponse data ->
        exists a id' r,
          Auth.requireAuth (Auth.Resolves session) = inr a /\ id0 = Some id'
          /\ findUnique id' db = Some r /\ user_id r = Auth.userId a).
Proof.
  split; [|split; [|split; [|split; [|split; [|split; [|split]]]]]].
  - (* PUT answers FORBIDDEN *)
    unfold PUT.
    destruct (Auth.requireAuth (Auth.Resolves session)) as [t|a] eqn:Ha; cbn [fst].
    { split; [intros H; discriminate H|].
      intros (a & b & i & n & r & H & _). discriminate H. }
    destruct body as [b|]; cbn [fst].
    2:{ split; [intros H; discriminate H|].
        intros (a' & b & i & n & r & _ & H & _). discriminate H. }
    destruct (Auth.orNull (body_id b)) as [id'|] eqn:Hi; cbn [fst].
    2:{ split; [discriminate|].
        intros (a' & b' & i & n & r' & _ & [= <-] & Hi' & Ti' & _).
        unfold Auth.orNull, Auth.orElse in Hi. rewrite Hi', Ti' in Hi. discriminate. }
    apply orNull_truthy in Hi. destruct Hi as [Hi Ti].
    destruct (Auth.orNull (body_name b)) as [name'|] eqn:Hm; cbn [fst].
    2:{ split; [discriminate|].
        intros (a' & b' & i & n & r' & _ & [= <-] & _ & _ & Hm' & Tm' & _).
        unfold Auth.orNull, Auth.orElse in Hm. rewrite Hm', Tm' in Hm. discriminate. }
    apply orNull_truthy in Hm. destruct Hm as [Hm Tm].
    destruct (findUnique id' db) as [r|] eqn:Hf; cbn [fst].
    2:{ split; [discriminate|].
        intros (a' & b' & i & n & r' & _ & [= <-] & Hi' & _ & _ & _ & Hf' & _).
        rewrite Hi in Hi'. injection Hi' as <-. rewrite Hf in Hf'. discriminate. }
    destruct (String.eqb_spec (user_id r) (Auth.userId a)) as [E|E]; cbn [negb fst].
    + split.
      * destruct (orNullText (body_description b)); [|discriminate].
        destruct (orNullText (body_coordinate b)); [|discriminate].
        destruct (replacePictures _ _ _ _) as [db2 []]; discriminate.
      * intros (a' & b' & i & n & r' & [= <-] & [= <-] & Hi' & _ & _ & _ & Hf' & Hu).
        rewrite Hi in Hi'. injection Hi' as <-. rewrite Hf in Hf'.
        injection Hf' as <-. contradiction.
    + split; [|reflexivity]. intros _. exists a, b, id', name', r. auto 10.
  - (* DELETE answers FORBIDDEN *)
    unfold DELETE.
    destruct (Auth.requireAuth (Auth.Resolves session)) as [t|a] eqn:Ha; cbn [fst].
    { split; [intros H; discriminate H|]. intros (a & i & r & H & _). discriminate H. }
    destruct (Auth.orNull id0) as [id'|] eqn:Hi; cbn [fst].
    2:{ split; [discriminate|].
        intros (a' & i & r' & _ & Hi' & Ti' & _).
        unfold Auth.orNull, Auth.orElse in Hi. rewrite Hi', Ti' in Hi. discriminate. }
    apply orNull_truthy in Hi. destruct Hi as [Hi Ti].
    destruct (findUnique id' db) as [r|] eqn:Hf; cbn [fst].
    2:{ split; [discriminate|].
        intros (a' & i & r' & _ & Hi' & _ & Hf' & _).
        rewrite Hi in Hi'. injection Hi' as <-. rewrite Hf in Hf'. discriminate. }
    destruct (String.eqb_spec (user_id r) (Auth.userId a)) as [E|E]; cbn [negb fst].
    + split; [discriminate|].
      intros (a' & i & r' & [= <-] & Hi' & _ & Hf' & Hu).
      rewrite Hi in Hi'. injection Hi' as <-. rewrite Hf in Hf'.
      injection Hf' as <-. contradiction.
    + split; [|reflexivity]. intros _. exists a, id', r. auto 10.
  - (* PUT, a status other than 500 *)
    intros error status code. unfold PUT.
    destruct (Auth.requireAuth (Auth.Resolves session)) as [t|a]; [reflexivity|].
    destruct body as [b|]; [|reflexivity].
    destruct (Auth.orNull (body_id b)) as [id'|]; [|reflexivity].
    destruct (Auth.orNull (body_name b)) as [name'|]; [|reflexivity].
    destruct (findUnique id' db) as [r|]; [|reflexivity].
    destruct (negb (String.eqb (user_id r) (Auth.userId a))); [reflexivity|].
    destruct (orNullText (body_description b)); [|reflexivity].
    destruct (orNullText (body_coordinate b)); [|reflexivity].
    destruct (replacePictures _ _ _ _) as [db2 []]; cbn [fst snd]; [discriminate|].
    unfold INTERNAL_ERROR. intros [= _ <- _] H. contradiction H. reflexivity.
  - (* PUT, status 500 *)
    intros error code. unfold PUT.
    destruct (Auth.requireAuth (Auth.Resolves session)) as [t|a] eqn:Ha; [left; reflexivity|].
    destruct body as [b|]; [|left; reflexivity].
    destruct (Auth.orNull (body_id b)) as [id'|] eqn:Hi; [|left; reflexivity].
    destruct (Auth.orNull (body_name b)) as [name'|] eqn:Hm; [|left; reflexivity].
    destruct (findUnique id' db) as [r|] eqn:Hf; [|left; reflexivity].
    destruct (String.eqb_spec (user_id r) (Auth.userId a)) as [E|E]; cbn [negb];
      [|left; reflexivity].
    destruct (orNullText (body_description b)) as [d|] eqn:Hd; [|left; reflexivity].
    destruct (orNullText (body_coordinate b)) as [c|] eqn:Hc; [|left; reflexivity].
    destruct (body_pictures b) as [| |l| |] eqn:Hp; cbn [replacePictures fst snd];
      try (intros H; discriminate H).
    intros _. right. exists a, b, id', name', r, d, c. auto 12.
  - (* PUT with a failing value of pictures *)
    intros a b id' name' r d c Ha -> Hi Hm Hf Hu Hd Hc Hp. unfold PUT.
    rewrite Ha, Hi, Hm, Hf, Hu, String.eqb_refl, Hd, Hc, Hp. reflexivity.
  - (* DELETE, no success *)
    unfold DELETE. intros H.
    destruct (Auth.requireAuth (Auth.Resolves session)) as [t|a]; [reflexivity|].
    destruct (Auth.orNull id0) as [id'|]; [|reflexivity].
    destruct (findUnique id' db) as [r|]; [|reflexivity].
    destruct (negb (String.eqb (user_id r) (Auth.userId a))); [reflexivity|].
    cbn [fst] in H. exfalso. exact (H _ eq_refl).
  - (* PUT, success *)
    intros data. unfold PUT.
    destruct (Auth.requireAuth (Auth.Resolves session)) as [t|a] eqn:Ha; [discriminate|].
    destruct body as [b|]; [|discriminate].
    destruct (Auth.orNull (body_id b)) as [id'|] eqn:Hi; [|discriminate].
    apply orNull_truthy in Hi. destruct Hi as [Hi _].
    destruct (Auth.orNull (body_name b)) as [name'|]; [|discriminate].
    destruct (findUnique id' db) as [r|] eqn:Hf; [|discriminate].
    destruct (String.eqb_spec (user_id r) (Auth.userId a)) as [E|E]; cbn [negb];
      [|discriminate].
    intros _. exists a, b, id', r. auto.
  - (* DELETE, success *)
    intros data. unfold DELETE.
    destruct (Auth.requireAuth (Auth.Resolves session)) as [t|a] eqn:Ha; [discriminate|].
    destruct (Auth.orNull id0) as [id'|] eqn:Hi; [|discriminate].
    apply orNull_truthy in Hi. destruct Hi as [Hi _].
    destruct (findUnique id' db) as [r|] eqn:Hf; [|discriminate].
    destruct (String.eqb_spec (user_id r) (Auth.userId a)) as [E|E]; cbn [negb];
      [|discriminate].
    intros _. exists a, id', r. auto.
Qed.

Lemma replacePictures_own (ids : nat -> string) (id' : string) (p : Pictures)
    (db1 db2 : Database) :
  replacePictures ids id' p db1 = (db2, true) ->
  List.map picture (picturesOf db2 id')
  = picturesAfter p (List.map picture (picturesOf db1 id')).
Proof.
  unfold picturesOf.
  destruct p as [| |l| |]; cbn [replacePictures picturesAfter]; intros [= <-];
    cbn [deleteMany mapRecordPicture]; try reflexivity;
    try (rewrite filter_deleted; reflexivity).
  destruct l as [|x l]; cbn [List.length Nat.ltb Nat.leb].
  - cbn [deleteMany mapRecordPicture]. rewrite filter_deleted. reflexivity.
  - cbn [createMany deleteMany mapRecordPicture].
    rewrite List.filter_app, filter_deleted. cbn [List.app].
    rewrite filter_all; [apply newPictures_picture|].
    intros q Hq. apply newPictures_record in Hq. unfold ofRecord. rewrite Hq.
    apply String.eqb_refl.
Qed.

(** What a successful PUT leaves behind.  The record of the id has the name
    of the body, the description and the coordinate of the body ([null] for
    an absent or empty one), the owner and the creation time that it had.
    Its pictures are those of the body when [pictures] is an array of
    strings, those it had when the body has no field [pictures], and none
    when [pictures] is [null] or any other value that the handler lets
    pass.  The reply carries that record, GET lists it for the user, and no
    record is added or removed. *)
Theorem MapRecords_PUT_stored (ids : nat -> string) (session : option Auth.Session)
    (body : option Body) (db : Database) (data : Data) :
  fst (PUT ids session body db) = successResponse data ->
  exists a b id' name' r description' coordinate',
    Auth.requireAuth (Auth.Resolves session) = inr a /\ body = Some b
    /\ body_id b = Some id' /\ body_name b = Some name'
    /\ findUnique id' db = Some r
    /\ orNullText (body_description b) = Some description'
    /\ orNullText (body_coordinate b) = Some coordinate'
    /\ let db' := snd (PUT ids session body db) in
       let r' := {| id := id'; user_id := Auth.userId a; name := name';
                    description := description';
                    coordinate := coordinate';
                    Create_time := Create_time r |} in
       findUnique id' db' = Some r'
       /\ data = record_ (Some {| record := r'; pictures := picturesOf db' id' |})
       /\ List.map picture (picturesOf db' id')
          = picturesAfter (body_pictures b) (List.map picture (picturesOf db id'))
       /\ In (format db' r') (listed (GET session db'))
       /\ List.map id (mapRecord db') = List.map id (mapRecord db).
Proof.
  intros H. pose proof (PUT_ids ids session body db) as I. revert H I. unfold PUT.
  destruct (Auth.requireAuth (Auth.Resolves session)) as [t|a] eqn:Ha; [discriminate|].
  destruct body as [b|]; [|discriminate].
  destruct (Auth.orNull (body_id b)) as [id'|] eqn:Hi; [|discriminate].
  apply orNull_truthy in Hi. destruct Hi as [Hi _].
  destruct (Auth.orNull (body_name b)) as [name'|] eqn:Hm; [|discriminate].
  apply orNull_truthy in Hm. destruct Hm as [Hm _].
  destruct (findUnique id' db) as [r|] eqn:Hf; [|discriminate].
  destruct (String.eqb_spec (user_id r) (Auth.userId a)) as [E|E]; cbn [negb];
    [|discriminate].
  destruct (orNullText (body_description b)) as [d|] eqn:Hd; [|discriminate].
  destruct (orNullText (body_coordinate b)) as [c|] eqn:Hc; [|discriminate].
  pose proof (replacePictures_records ids id' (body_pictures b) (update id' name' d c db))
    as R.
  pose proof (replacePictures_own ids id' (body_pictures b) (update id' name' d c db))
    as O.
  destruct (replacePictures ids id' (body_pictures b) (update id' name' d c db))
    as [db2 done]. cbn [fst] in R.
  destruct done; [|discriminate]. cbn [fst snd]. intros [= <-] I.
  specialize (O db2 eq_refl).
  exists a, b, id', name', r, d, c.
  split; [reflexivity|]. split; [reflexivity|]. split; [exact Hi|]. split; [exact Hm|].
  split; [exact Hf|]. split; [exact Hd|]. split; [exact Hc|]. cbv zeta.
  assert (F : findUnique id' db2
              = Some {| id := id'; user_id := Auth.userId a; name := name';
                        description := d; coordinate := c;
                        Create_time := Create_time r |}).
  { unfold findUnique. rewrite R. fold (findUnique id' (update id' name' d c db)).
    rewrite find_update, Hf. cbn [option_map].
    apply findUnique_Some in Hf. destruct Hf as [_ Hf]. rewrite Hf, E. reflexivity. }
  split; [exact F|]. split.
  { rewrite F. reflexivity. }
  split; [exact O|]. split; [|exact I].
  unfold GET. rewrite Ha. cbn [listed]. apply List.in_map. apply mapRecord_findMany_In.
  apply findUnique_Some in F. destruct F as [F _]. split; [exact F|reflexivity].
Qed.

Lemma MapRecords_PUT_stored_witness :
  exists a b id' name' r description' coordinate',
    Auth.requireAuth (Auth.Resolves (sessionOf "alice")) = inr a
    /\ Some renameR1_null = Some b
    /\ body_id b = Some id' /\ body_name b = Some name'
    /\ findUnique id' twoUsers = Some r
    /\ orNullText (body_description b) = Some description'
    /\ orNullText (body_coordinate b) = Some coordinate'
    /\ let db' := snd (PUT newIds (sessionOf "alice") (Some renameR1_null) twoUsers) in
       let r' := {| id := id'; user_id := Auth.userId a; name := name';
                    description := description';
                    coordinate := coordinate';
                    Create_time := Create_time r |} in
       findUnique id' db' = Some r'
       /\ fst (PUT newIds (sessionOf "alice") (Some renameR1_null) twoUsers)
          = successResponse
              (record_ (Some {| record := r'; pictures := picturesOf db' id' |}))
       /\ List.map picture (picturesOf db' id')
          = picturesAfter (body_pictures b) (List.map picture (picturesOf twoUsers id'))
       /\ In (format db' r') (listed (GET (sessionOf "alice") db'))
       /\ List.map id (mapRecord db') = List.map id (mapRecord twoUsers).
Proof.
  destruct (MapRecords_PUT_stored newIds (sessionOf "alice") (Some renameR1_null)
              twoUsers _ eq_refl)
    as (a & b & id' & name' & r & d & c & H1 & H2 & H3 & H4 & H5 & H6 & H7 & H8 & H9 & H10).
  exists a, b, id', name', r, d, c. cbv zeta in *.
  split; [exact H1|]. split; [exact H2|]. split; [exact H3|]. split; [exact H4|].
  split; [exact H5|]. split; [exact H6|]. split; [exact H7|]. split; [exact H8|].
  split; [rewrite <- H9; reflexivity|exact H10].
Defined.

(** The two bodies that a typed client never sends.  With [pictures: null]
    the request of the owner succeeds and the picture of the record is
    gone; with [pictures: "a.jpg"] the answer is 500, and the record is
    renamed and its picture gone all the same. *)
Example MapRecords_PUT_untyped :
  (exists data,
      fst (PUT newIds (sessionOf "alice") (Some renameR1_null) twoUsers)
      = successResponse data)
  /\ picturesOf twoUsers "r1" <> []
  /\ picturesOf (snd (PUT newIds (sessionOf "alice") (Some renameR1_null) twoUsers)) "r1" = []
  /\ fst (PUT newIds (sessionOf "alice") (Some renameR1_text) twoUsers)
     = INTERNAL_ERROR "更新記錄失敗"
  /\ picturesOf (snd (PUT newIds (sessionOf "alice") (Some renameR1_text) twoUsers)) "r1" = []
  /\ option_map name
       (findUnique "r1" (snd (PUT newIds (sessionOf "alice") (Some renameR1_text) twoUsers)))
     = Some "Jiufen Old Street".
Proof.
  split; [eexists; reflexivity|]. split; [discriminate|]. repeat split; reflexivity.
Qed.

Lemma filter_map {A B : Type} (g : B -> bool) (h : A -> B) (l : list A) :
  List.filter g (List.map h l) = List.map h (List.filter (fun x => g (h x)) l).
Proof.
  induction l as [|x l IH]; [reflexivity|]. cbn [List.map List.filter].
  destruct (g (h x)); cbn [List.map]; rewrite IH; reflexivity.
Qed.

Lemma find_delete_other (x id' : string) (l : list MapRecord) :
  x <> id' ->
  List.find (hasId x) (List.filter (fun r => negb (hasId id' r)) l) = List.find (hasId x) l.
Proof.
  intros Hne. induction l as [|r l IH]; [reflexivity|]. cbn [List.filter List.find].
  destruct (hasId id' r) eqn:E; cbn [negb List.find].
  - destruct (hasId x r) eqn:E'; [|exact IH]. unfold hasId in E, E'.
    apply String.eqb_eq in E, E'. congruence.
  - rewrite IH. reflexivity.
Qed.

(** What a successful DELETE leaves behind.  The record of the id and its
    pictures are gone, GET lists for the user what it listed before without
    that record, in the same order, and every other id has the record and
    the pictures that it had. *)
Theorem MapRecords_DELETE_gone (session : option Auth.Session) (id0 : option string)
    (db : Database) :
  fst (DELETE session id0 db) = successResponse deleted ->
  exists id',
    id0 = Some id'
    /\ let db' := snd (DELETE session id0 db) in
       findUnique id' db' = None
       /\ picturesOf db' id' = []
       /\ listed (GET session db')
          = List.filter (fun f => negb (String.eqb (formatted_id f) id'))
              (listed (GET session db))
       /\ forall x, x <> id' ->
            findUnique x db' = findUnique x db /\ picturesOf db' x = picturesOf db x.
Proof.
  unfold DELETE.
  destruct (Auth.requireAuth (Auth.Resolves session)) as [t|a] eqn:Ha; [discriminate|].
  destruct (Auth.orNull id0) as [id'|] eqn:Hi; [|discriminate].
  apply orNull_truthy in Hi. destruct Hi as [Hi _].
  destruct (findUnique id' db) as [r|] eqn:Hf; [|discriminate].
  destruct (String.eqb_spec (user_id r) (Auth.userId a)) as [E|E]; cbn [negb];
    [|discriminate].
  cbn [fst snd]. intros _. exists id'. split; [exact Hi|]. cbv zeta.
  split; [|split; [|split]].
  - unfold findUnique, delete. cbn [mapRecord].
    destruct (List.find (hasId id') (List.filter (fun r => negb (hasId id' r)) (mapRecord db)))
      as [x|] eqn:F; [|reflexivity].
    apply List.find_some in F. destruct F as [F1 F2]. apply List.filter_In in F1.
    destruct F1 as [_ F1]. rewrite F2 in F1. discriminate.
  - unfold picturesOf, delete. cbn [mapRecordPicture]. apply filter_deleted.
  - unfold GET. rewrite Ha. cbn [listed]. rewrite findMany_delete, filter_map.
    cbn [format formatted_id]. apply List.map_ext_in. intros x Hx.
    apply List.filter_In in Hx. destruct Hx as [_ Hx].
    unfold format. f_equal. f_equal. unfold picturesOf, delete. cbn [mapRecordPicture].
    apply filter_filter_other. intros Ex. unfold hasId in Hx. rewrite Ex in Hx.
    rewrite String.eqb_refl in Hx. discriminate.
  - intros x Hx. split.
    + unfold findUnique, delete. cbn [mapRecord]. apply find_delete_other. exact Hx.
    + unfold picturesOf, delete. cbn [mapRecordPicture]. apply filter_filter_other.
      exact Hx.
Qed.

Lemma MapRecords_DELETE_gone_witness :
  exists id',
    Some "r1" = Some id'
    /\ let db' := snd (DELETE (sessionOf "alice") (Some "r1") twoUsers) in
       findUnique id' db' = None
       /\ picturesOf db' id' = []
       /\ listed (GET (sessionOf "alice") db')
          = List.filter (fun f => negb (String.eqb (formatted_id f) id'))
              (listed (GET (sessionOf "alice") twoUsers))
       /\ forall x, x <> id' ->
            findUnique x db' = findUnique x twoUsers
            /\ picturesOf db' x = picturesOf twoUsers x.
Proof.
  apply (MapRecords_DELETE_gone (sessionOf "alice") (Some "r1") twoUsers). reflexivity.
Defined.

End MapRecordsTheorems.
(** ** The percentage with two decimals *)

(** What [toFixed] writes, read by [parseFloat]. *)
Lemma parseFloat_pointed (f : nat) (n : N) :
  (0 < f)%nat -> parseFloat (pointed f n) = ofDecimal false n (- Z.of_nat f).
Proof.
  intros Hf. unfold pointed.
  set (m0 := digitsOfN n).
  set (m := if (List.length m0 <=? f)%nat then (zeros (f + 1 - List.length m0) ++ m0)%list
            else m0).
  assert (Hm : (f < List.length m)%nat).
  { subst m. destruct (Nat.leb_spec (List.length m0) f).
    - rewrite List.length_app. unfold zeros. rewrite List.repeat_length. lia.
    - lia. }
  assert (Hd : forallb isDigit m = true).
  { subst m. destruct (List.length m0 <=? f)%nat; [|apply digitsOfN_digits].
    rewrite forallb_app, zeros_digits. apply digitsOfN_digits. }
  assert (Hv : scanAll m 0 = n).
  { subst m. destruct (List.length m0 <=? f)%nat; [|apply digitsOfN_value].
    rewrite scanAll_app, scanAll_zeros. change (0 * _)%N with 0%N. apply digitsOfN_value. }
  destruct f as [|f']; [lia|].
  destruct (forallb_firstn isDigit (List.length m - S f') m Hd) as [H1 H2].
  replace (string_of_list_ascii (firstn (List.length m - S f') m) ++ "." ++
           string_of_list_ascii (skipn (List.length m - S f') m))
    with (string_of_list_ascii (firstn (List.length m - S f') m
                                ++ "."%char :: skipn (List.length m - S f') m))
    by (rewrite string_of_list_ascii_app; reflexivity).
  rewrite parseFloat_decimal; [|exact H1| |exact H2].
  - rewrite List.firstn_skipn, Hv, List.length_skipn. f_equal. lia.
  - intros E. apply (f_equal (@List.length ascii)) in E.
    rewrite List.length_firstn in E. cbn [List.length] in E. lia.
Qed.

Lemma productRange_sound (a b e rlo rhi : Z) (k : positive) :
  productRange a b = Some (rlo, rhi, k) -> a <= e <= b ->
  exists r, mul (div (ofZ e) (ofZ 156100)) MistPercentage.hundred
            = S754_finite false r (Zneg k)
            /\ rlo <= Zpos r <= rhi.
Proof.
  unfold productRange. intros H [Hae Heb].
  destruct ((0 <? a) && (a <=? b) && (Zdigits2 b =? Zdigits2 a) && (Zdigits2 a <? 53)) eqn:C;
    [|discriminate].
  apply andb_true_iff in C. destruct C as [C C4].
  apply andb_true_iff in C. destruct C as [C C3].
  apply andb_true_iff in C. destruct C as [C1 C2].
  apply Z.ltb_lt in C1. apply Z.leb_le in C2. apply Z.eqb_eq in C3. apply Z.ltb_lt in C4.
  destruct a as [|pa|pa]; try lia. destruct b as [|pb|pb]; try lia.
  destruct e as [|pe|pe]; try lia. cbn [Zdigits2] in *.
  assert (Hab : digits2_pos pa = digits2_pos pb) by congruence.
  set (d := Zpos (digits2_pos pa)) in *.
  assert (Hd : Zpos (digits2_pos pe) = d).
  { unfold d. f_equal. apply (digits2_pos_between pa pb); [exact Hab|lia]. }
  destruct (ofZ_small pe d Hd C4) as (m1 & E1 & V1 & D1).
  assert (P : 0 < 2 ^ (53 - d)) by (apply Z.pow_pos_nonneg; lia).
  destruct (roundRange _ _ _) as [[[plo phi] e3]|] eqn:R1; [|discriminate].
  destruct (roundRange (plo * m100) _ _) as [[[rlo' rhi'] e4]|] eqn:R2; [|discriminate].
  destruct e4 as [|k'|k']; try discriminate.
  injection H as <- <- <-.
  rewrite E1.
  replace (ofZ 156100) with (S754_finite false (Z.to_pos mT) eT) by (vm_compute; reflexivity).
  rewrite div_round; [|exact D1|reflexivity|unfold eT; lia].
  assert (Q : Zpos pa * 2 ^ (53 - d) * 2 ^ 53 / mT
              <= Zpos m1 * 2 ^ 53 / Zpos (Z.to_pos mT)
              <= Zpos pb * 2 ^ (53 - d) * 2 ^ 53 / mT).
  { change (Zpos (Z.to_pos mT)) with mT. rewrite V1.
    split; (apply Z.div_le_mono; [reflexivity|]); nia. }
  assert (Q0 : 0 < Zpos pa * 2 ^ (53 - d) * 2 ^ 53 / mT).
  { unfold roundRange in R1. destruct (_ && (0 <? _)) eqn:X in R1; [|discriminate].
    apply andb_true_iff in X. destruct X as [_ X]. apply Z.ltb_lt in X. exact X. }
  destruct (Zpos m1 * 2 ^ 53 / Zpos (Z.to_pos mT)) as [|q|q] eqn:Eq; try lia.
  destruct (roundRange_sound _ _ _ _ _ _ q
              (new_location (Z.pos (Z.to_pos mT)) (Z.pos m1 * 2 ^ 53 mod Z.pos (Z.to_pos mT)))
              R1 Q) as (p & -> & Bp).
  unfold MistPercentage.hundred, mul, SFmul. cbn [xorb]. unfold e100 in R2.
  assert (Q2 : plo * m100 <= Zpos (p * 7036874417766400) <= phi * m100).
  { rewrite Pos2Z.inj_mul. change (Zpos 7036874417766400) with m100.
    assert (0 <= m100) by (vm_compute; congruence).
    split; apply Z.mul_le_mono_nonneg_r; lia. }
  destruct (roundRange_sound _ _ _ _ _ _ (p * 7036874417766400) loc_Exact R2 Q2)
    as (r & -> & Br).
  exists r. split; [reflexivity|exact Br].
Qed.

Lemma nearestScaled_mono (f : nat) (m m' p : positive) :
  (m <= m')%positive -> nearestScaled f m (Zneg p) <= nearestScaled f m' (Zneg p).
Proof.
  intros H. unfold nearestScaled. apply Z.div_le_mono.
  - apply Z.pow_pos_nonneg; lia.
  - assert (0 <= 10 ^ Z.of_nat f) by (apply Z.pow_nonneg; lia). nia.
Qed.

Lemma fixedRange_sound (a b n e : Z) :
  fixedRange a b = Some n -> a <= e <= b -> percentage2OfZ e 156100 = hundredths n.
Proof.
  unfold fixedRange. intros H He.
  destruct (productRange a b) as [[[rlo rhi] k]|] eqn:R; [|discriminate].
  destruct (_ && _) eqn:C in H; [|discriminate]. injection H as H.
  apply andb_true_iff in C. destruct C as [C C3].
  apply andb_true_iff in C. destruct C as [C1 C2].
  apply Z.eqb_eq in C1. apply Z.ltb_lt in C2, C3.
  destruct (productRange_sound a b e rlo rhi k R He) as (r & E & Br).
  unfold percentage2OfZ. rewrite E. unfold toFixed.
  assert (L : cmpScaled r (Zneg k) 1 21 = Lt).
  { unfold cmpScaled. change (0 <=? Zneg k) with false. change (0 <=? 21) with true.
    cbv iota. apply Z.compare_lt_iff.
    assert (1 <= 2 ^ (- Zneg k)).
    { change (- Zneg k) with (Zpos k).
      assert (0 < 2 ^ Zpos k) by (apply Z.pow_pos_nonneg; lia). lia. }
    assert (0 < 10 ^ 21) by reflexivity. nia. }
  rewrite L.
  assert (N : nearestScaled 2 r (Zneg k) = n).
  { destruct rlo as [|plo|plo]; try lia. destruct rhi as [|phi|phi]; try lia.
    change (Z.to_pos (Zpos plo)) with plo in *.
    change (Z.to_pos (Zpos phi)) with phi in *.
    assert (A1 : (plo <= r)%positive) by lia.
    assert (A2 : (r <= phi)%positive) by lia.
    pose proof (nearestScaled_mono 2 plo r k A1) as M1.
    pose proof (nearestScaled_mono 2 r phi k A2) as M2.
    rewrite <- C1 in M2. rewrite <- H. apply Z.le_antisymm; assumption. }
  rewrite N. change (String.append "" ?s) with s.
  rewrite parseFloat_pointed by lia. reflexivity.
Qed.

Lemma nearestHundredth_mono (e e' : Z) :
  e <= e' -> nearestHundredth e 156100 <= nearestHundredth e' 156100.
Proof. intros H. unfold nearestHundredth. apply Z.div_le_mono; lia. Qed.

Lemma settled2_sound (a b n e : Z) :
  settled2 a b n = true -> a <= e <= b -> percentage2OfZ e 156100 = hundredths n.
Proof.
  unfold settled2. intros H He. destruct (fixedRange a b) as [n'|] eqn:R.
  - apply Z.eqb_eq in H. subst n'. apply (fixedRange_sound a b n e R He).
  - apply andb_true_iff in H. destruct H as [H1 H2]. apply Z.eqb_eq in H1.
    replace e with a by lia. apply number_eqb_eq, H2.
Qed.

Lemma coverCheck2_sound (l : list (Z * Z)) (a limit e : Z) :
  coverCheck2 a limit l = true -> a <= e <= limit ->
  percentage2OfZ e 156100 = hundredths (nearestHundredth e 156100).
Proof.
  revert a. induction l as [|[b n] l IH]; intros a H He; cbn [coverCheck2] in H.
  - apply Z.ltb_lt in H. lia.
  - rewrite !andb_true_iff in H. destruct H as [[[H1 H2] H3] H4].
    apply Z.eqb_eq in H2, H3.
    destruct (Z.le_gt_cases e b) as [Hb|Hb].
    + rewrite (settled2_sound a b n e H1) by lia.
      pose proof (nearestHundredth_mono a e ltac:(lia)).
      pose proof (nearestHundredth_mono e b Hb).
      f_equal. lia.
    + apply (IH (b + 1) H4). lia.
Qed.

Lemma fixed_cover : coverCheck2 1 156546 fixedIntervals = true.
Proof. vm_compute. reflexivity. Qed.

(** On every count of explored cells that can occur, the floating-point
    expression evaluates to the hundredth nearest to the exact percentage. *)
Lemma percentage2OfZ_exact (e : Z) :
  0 <= e <= 156546 ->
  percentage2OfZ e 156100 = hundredths (nearestHundredth e 156100).
Proof.
  intros He. destruct (Z.eq_dec e 0) as [->|Hne]; [vm_compute; reflexivity|].
  apply (coverCheck2_sound fixedIntervals 1 156546 e fixed_cover). lia.
Qed.

(** The answer of [part_002] on the real grid.  For a session with a user
    id, the first call answers the number written with two decimals that is
    nearest to the exact percentage [100 * e / 156100] of the [e] explored
    cells (half a hundredth goes up): no count that can occur makes the
    floating-point expression slip.  The answer is 0 exactly up to 7
    explored cells, it can exceed 100, up to 100.29, and it differs by at
    most a half from the whole number that [mist-percentage] answers on the
    same table. *)
Theorem MistPercentage2_GET_percentage (auth : Auth.Outcome) (userId : string)
    (t : Table) (extra : nat) :
  Auth.getUserId auth = Some userId ->
  let e := Z.of_nat (size (exploredSet (findMany userId t))) in
  let n := nearestHundredth e 156100 in
  MistPercentage2.GET (447 + extra) None auth t = Some (hundredths n, Some allCells)
  /\ 0 <= n <= 10029
  /\ 2 * 156100 * n - 156100 <= 20000 * e < 2 * 156100 * n + 156100
  /\ (n = 0 <-> e <= 7)
  /\ percentage (coverage allCells userId t) = ofZ (nearestPercent e 156100)
  /\ 100 * nearestPercent e 156100 - 50 <= n <= 100 * nearestPercent e 156100 + 50.
Proof.
  intros Hu. cbv zeta.
  pose proof (exploredSet_size (findMany userId t)) as He.
  set (e := Z.of_nat (size (exploredSet (findMany userId t)))) in *.
  split.
  { unfold MistPercentage2.GET. rewrite Hu, getAllTaiwanGridIds_first_call.
    unfold MistPercentage2.coverage. rewrite allCells_nonempty.
    unfold MistPercentage2.percentageOf, ofNat. rewrite allCells_length.
    fold e. fold (percentage2OfZ e 156100). rewrite (percentage2OfZ_exact e He).
    reflexivity. }
  assert (C : percentage (coverage allCells userId t) = ofZ (nearestPercent e 156100))
    by (rewrite coverage_allCells; reflexivity).
  clearbody e. unfold nearestHundredth, nearestPercent in *.
  split; [split; Z.div_mod_to_equations; lia|].
  split; [Z.div_mod_to_equations; lia|].
  split; [split; intros H; Z.div_mod_to_equations; lia|].
  split; [exact C|Z.div_mod_to_equations; lia].
Qed.

Lemma MistPercentage2_GET_percentage_witness :
  let e := Z.of_nat (size (exploredSet (findMany "u" oneVisit))) in
  let n := nearestHundredth e 156100 in
  MistPercentage2.GET (447 + 0) None (signedIn "u") oneVisit
  = Some (hundredths n, Some allCells)
  /\ 0 <= n <= 10029
  /\ 2 * 156100 * n - 156100 <= 20000 * e < 2 * 156100 * n + 156100
  /\ (n = 0 <-> e <= 7)
  /\ percentage (coverage allCells "u" oneVisit) = ofZ (nearestPercent e 156100)
  /\ 100 * nearestPercent e 156100 - 50 <= n <= 100 * nearestPercent e 156100 + 50.
Proof.
  apply (MistPercentage2_GET_percentage (signedIn "u") "u" oneVisit 0). reflexivity.
Defined.
(** ** [footprints] and [map-records] *)

(** The two lists of a user's map records.  For a session that
    [requireAuth] accepts, [footprints] GET lists the records that
    [map-records] GET lists, in the same order, each with its id,
    coordinate, name and description.  A session with a user id and no
    e-mail address is refused by [map-records] and still gets the records of
    that id from [footprints]; without a user id, and when [auth()] rejects,
    [footprints] lists nothing. *)
Theorem Footprints_GET_records (db : MapRecords.Database) :
  (forall session a,
      Auth.requireAuth (Auth.Resolves session) = inr a ->
      Footprints.GET (Auth.Resolves session) db
      = List.map asFootprint (listed (MapRecords.GET session db)))
  /\ (forall session user userId,
        Auth.user session = Some user ->
        Auth.orNull (Auth.id user) = Some userId ->
        Auth.orNull (Auth.email user) = None ->
        MapRecords.GET (Some session) db = MapRecords.UNAUTHORIZED
        /\ Footprints.GET (Auth.Resolves (Some session)) db
           = List.map asFootprint
               (List.map (MapRecords.format db) (MapRecords.findMany userId db)))
  /\ (forall auth, Auth.getUserId auth = None -> Footprints.GET auth db = [])
  /\ Footprints.GET Auth.Rejects db = [].
Proof.
  assert (M : forall userId,
             List.map
               (fun record =>
                  {| Footprints.id := MapRecords.id record;
                     Footprints.coordinate := MapRecords.coordinate record;
                     Footprints.name := MapRecords.name record;
                     Footprints.description := MapRecords.description record |})
               (MapRecords.findMany userId db)
             = List.map asFootprint
                 (List.map (MapRecords.format db) (MapRecords.findMany userId db))).
  { intros userId. rewrite List.map_map. reflexivity. }
  split; [|split; [|split]].
  - intros session a Ha. unfold MapRecords.GET. rewrite Ha. cbn [listed].
    unfold Footprints.GET.
    replace (Auth.getUserId (Auth.Resolves session)) with (Some (Auth.userId a));
      [apply M|].
    unfold Auth.requireAuth in Ha. unfold Auth.getUserId.
    destruct session as [session|]; [|discriminate].
    destruct (Auth.user session) as [user|]; [|discriminate].
    destruct (Auth.orNull (Auth.email user)); [|discriminate].
    destruct (Auth.orNull (Auth.id user)) as [i|]; [|discriminate].
    injection Ha as <-. reflexivity.
  - intros session user userId Hs Hi He. split.
    + unfold MapRecords.GET, Auth.requireAuth. rewrite Hs, He. reflexivity.
    + unfold Footprints.GET, Auth.getUserId. rewrite Hs, Hi. apply M.
  - intros auth H. unfold Footprints.GET. rewrite H. reflexivity.
  - reflexivity.
Qed.
(** ** C7: the rows and the columns of a viewport *)

(** *** The order of the numbers *)

Section Order.

Variables (mc : positive) (ec : Z).
Let c : number := S754_finite false mc ec.

(** A number above [c] is not below or equal to a number that is at most
    [c]. *)
Lemma le_above (x y : number) : lt c x = true -> le y c = true -> le x y = false.
Proof.
  unfold lt, le, SFltb, SFleb, SFcompare, c.
  destruct x as [sx|sx| |sx mx ex]; try destruct sx; try discriminate;
    destruct y as [sy|sy| |sy my ey]; try destruct sy; try discriminate;
    try reflexivity.
  fold (Pos.compare mc mx) (Pos.compare my mc) (Pos.compare mx my).
  destruct (Z.compare_spec ec ex), (Z.compare_spec ey ec), (Z.compare_spec ex ey);
    try discriminate; try reflexivity; try lia.
  destruct (Pos.compare_spec mc mx), (Pos.compare_spec my mc), (Pos.compare_spec mx my);
    try discriminate; try reflexivity; lia.
Qed.

(** A number that is at least [c] is not below or equal to a number
    below [c]. *)
Lemma le_not_below (x y : number) : ge x c = true -> lt y c = true -> le x y = false.
Proof.
  unfold lt, ge, le, SFltb, SFleb, SFcompare, c.
  destruct x as [sx|sx| |sx mx ex]; try destruct sx; try discriminate;
    destruct y as [sy|sy| |sy my ey]; try destruct sy; try discriminate;
    try reflexivity.
  fold (Pos.compare mc mx) (Pos.compare my mc) (Pos.compare mx my).
  destruct (Z.compare_spec ec ex), (Z.compare_spec ey ec), (Z.compare_spec ex ey);
    try discriminate; try reflexivity; try lia.
  destruct (Pos.compare_spec mc mx), (Pos.compare_spec my mc), (Pos.compare_spec mx my);
    try discriminate; try reflexivity; lia.
Qed.

Lemma le_NaN (x : number) : le x NaN = false.
Proof. destruct x; reflexivity. Qed.

Lemma le_self : le c c = true.
Proof. unfold le, SFleb, c. rewrite compare_self. reflexivity. Qed.

(** [Math.min(y, c)] is [NaN] or at most [c]. *)
Lemma Math_min_le (y : number) : Math_min y c = NaN \/ le (Math_min y c) c = true.
Proof.
  pose proof (Math_min_cases mc ec y) as H.
  change (S754_finite false mc ec) with c in H. destruct H as [H|[H|[H E]]].
  - left. exact H.
  - right. rewrite H. apply le_self.
  - right. rewrite H. unfold le, SFleb. rewrite E. reflexivity.
Qed.

Lemma le_Math_min (x y : number) : lt c x = true -> le x (Math_min y c) = false.
Proof.
  intros H. destruct (Math_min_le y) as [E|E].
  - rewrite E. apply le_NaN.
  - apply le_above; assumption.
Qed.

(** A number below [c] is its own minimum with [c]. *)
Lemma Math_min_below (y : number) : lt y c = true -> Math_min y c = y.
Proof.
  unfold lt, SFltb, Math_min. destruct (SFcompare y c) as [[]|]; try discriminate.
  reflexivity.
Qed.

Lemma compare_Gt_lt (y : number) : SFcompare y c = Some Gt -> lt c y = true.
Proof.
  unfold lt, SFltb, SFcompare, c.
  destruct y as [s|s| |s m e]; try destruct s; try discriminate; try reflexivity.
  fold (Pos.compare m mc) (Pos.compare mc m).
  destruct (Z.compare_spec e ec), (Z.compare_spec ec e); try discriminate;
    try reflexivity; try lia.
  destruct (Pos.compare_spec m mc), (Pos.compare_spec mc m); try discriminate;
    try reflexivity; lia.
Qed.

(** [Math.max(y, c)] is [NaN], or [c], or the number [y] above [c]. *)
Lemma Math_max_above (y : number) :
  Math_max y c = NaN \/ Math_max y c = c \/ (Math_max y c = y /\ lt c y = true).
Proof.
  pose proof (Math_max_cases mc ec y) as H.
  change (S754_finite false mc ec) with c in H. destruct H as [H|[H|[H E]]]; auto.
  right. right. split; [exact H|apply compare_Gt_lt, E].
Qed.

End Order.

(** *** One round of a loop: adding the step *)

Section AddStep.

(** The running value has exponent [e]; the step is [ms * 2^(e - sh)]. *)
Variables (e : Z) (sh : positive) (ms : positive).
Hypothesis He : -1074 <= e <= 971.
Let step : number := S754_finite false ms (e - Zpos sh).
Let A : Z := Zpos ms / 2 ^ Zpos sh.

(** Adding the step to a number of exponent [e] adds [A] or [A + 1] to its
    mantissa, as long as the sum stays below [2^53]. *)
Lemma add_step (m : positive) :
  2 ^ 52 <= Zpos m -> Zpos m + A + 1 < 2 ^ 53 ->
  exists p, add (S754_finite false m e) step = S754_finite false p e
            /\ Zpos m + A <= Zpos p <= Zpos m + A + 1.
Proof.
  intros Hlo Hhi. unfold add, SFadd, step.
  replace (Z.min e (e - Zpos sh)) with (e - Zpos sh) by lia.
  unfold shl_align. replace (e - Zpos sh - e) with (Zneg sh) by lia.
  rewrite Z.sub_diag. cbn [fst cond_Zopp].
  assert (P : 0 < 2 ^ Zpos sh) by (apply Z.pow_pos_nonneg; lia).
  assert (Hsum : Zpos (Pos.iter xO m sh) + Zpos ms = Zpos m * 2 ^ Zpos sh + Zpos ms)
    by (rewrite iter_xO; reflexivity).
  assert (HA : A * 2 ^ Zpos sh <= Zpos ms < (A + 1) * 2 ^ Zpos sh).
  { unfold A. pose proof (Z.div_mod (Zpos ms) (2 ^ Zpos sh) ltac:(lia)).
    pose proof (Z.mod_pos_bound (Zpos ms) (2 ^ Zpos sh) P). lia. }
  assert (HA0 : 0 <= A) by (unfold A; apply Z.div_pos; lia).
  change (Zpos (Pos.iter xO m sh) + Zpos ms) with (Zpos (Pos.iter xO m sh + ms)).
  set (mx := (Pos.iter xO m sh + ms)%positive).
  assert (Hmx : Zpos mx = Zpos m * 2 ^ Zpos sh + Zpos ms)
    by (unfold mx; rewrite Pos2Z.inj_add; exact Hsum).
  assert (Hdiv : Zpos mx / 2 ^ Zpos sh = Zpos m + A).
  { rewrite Hmx. unfold A. rewrite Z.add_comm, Z.div_add by lia. lia. }
  assert (E53 : 2 ^ (53 + Zpos sh) = 2 ^ 53 * 2 ^ Zpos sh)
    by (rewrite Z.pow_add_r by lia; reflexivity).
  assert (E52 : 2 ^ (52 + Zpos sh) = 2 ^ 52 * 2 ^ Zpos sh)
    by (rewrite Z.pow_add_r by lia; reflexivity).
  assert (Hd : digits2_pos mx = (53 + sh)%positive).
  { apply digits2_pos_bounds. rewrite Pos2Z.inj_add.
    replace (Zpos 53 + Zpos sh - 1) with (52 + Zpos sh) by lia.
    change (Zpos 53) with 53. rewrite E52, E53, Hmx. nia. }
  unfold binary_normalize, binary_round, shl_align. rewrite Hd.
  replace (fexp prec emax (Zpos (53 + sh) + (e - Zpos sh)) - (e - Zpos sh)) with (Zpos sh)
    by (unfold fexp, SpecFloat.emin, emax, prec; lia).
  destruct (binary_round_aux_bounds mx (53 + sh) (e - Zpos sh) loc_Exact Hd)
    as (p & E & B & _).
  - lia.
  - replace (Zpos (53 + sh) - 53) with (Zpos sh) by lia. rewrite Hdiv. lia.
  - replace (Zpos (53 + sh) - 53) with (Zpos sh) by lia. lia.
  - replace (Zpos (53 + sh) - 53) with (Zpos sh) in * by lia.
    replace (e - Zpos sh + Zpos sh) with e in E by lia.
    exists p. split; [exact E|]. rewrite Hdiv in B. exact B.
Qed.

(** *** The values of a loop variable *)

Variables (Mmax : Z) (more : number -> bool).
Hypothesis Hmore : forall m, Mmax < Zpos m -> more (S754_finite false m e) = false.
Hypothesis HMmax : Mmax + A + 1 < 2 ^ 53.
Hypothesis HA : 0 < A.

(** From a number of exponent [e] the loop stops within the fuel that the
    distance to [Mmax] asks for, and its [i]-th value has drifted from the
    start by [i * A] to [i * (A + 1)]. *)
Lemma walk_window (m0 : Z) (fuel : nat) :
  2 ^ 52 <= m0 ->
  forall (i : nat) (m : positive),
    m0 + Z.of_nat i * A <= Zpos m <= m0 + Z.of_nat i * (A + 1) ->
    (0 < fuel)%nat ->
    Mmax < Zpos m + (Z.of_nat fuel - 1) * A ->
    exists rs stop,
      walk fuel more step (S754_finite false m e) = Some (rs, stop)
      /\ (List.length rs < fuel)%nat
      /\ more stop = false
      /\ (forall r, In r rs -> more r = true)
      /\ forall idx r, nth_error rs idx = Some r -> inWindow e A Mmax m0 (i + idx) r.
Proof.
  intros H0. induction fuel as [|fuel IH]; intros i m Hm Hpos Hf; [lia|].
  cbn [walk]. destruct (more (S754_finite false m e)) eqn:M.
  - assert (Hle : Zpos m <= Mmax).
      { destruct (Z.le_gt_cases (Zpos m) Mmax) as [Hle|Hgt]; [exact Hle|].
        rewrite (Hmore m Hgt) in M. discriminate. }
      destruct (add_step m) as (p & E & Bp); [nia|lia|].
      rewrite E.
      rewrite Nat2Z.inj_succ in Hf.
      destruct (IH (S i) p) as (rs & stop & W & L & St & Mr & Wd).
      * rewrite Nat2Z.inj_succ. nia.
      * destruct fuel; [cbn in Hf; lia|lia].
      * nia.
      * rewrite W. exists (S754_finite false m e :: rs), stop.
        split; [reflexivity|]. split; [cbn [List.length]; lia|].
        split; [exact St|]. split.
        { intros r [<-|Hr]; [exact M|exact (Mr r Hr)]. }
        intros [|idx] r Hr.
        -- cbn in Hr. injection Hr as <-. exists m. rewrite Nat.add_0_r. auto.
        -- cbn [nth_error] in Hr. replace (i + S idx)%nat with (S i + idx)%nat by lia.
           exact (Wd idx r Hr).
  - exists [], (S754_finite false m e). split; [reflexivity|].
      split; [cbn [List.length]; lia|]. split; [exact M|]. split; [intros r []|].
      intros [|idx] r Hr; discriminate Hr.
Qed.

End AddStep.

(** *** The texts of the values of a loop variable *)

Lemma zrange_S (lo : Z) (n : nat) : zrange lo (S n) = lo :: zrange (lo + 1) n.
Proof.
  unfold zrange. cbn [seq List.map]. rewrite Z.add_0_r. f_equal.
  rewrite <- seq_shift, List.map_map. apply List.map_ext. intros i. lia.
Qed.

Lemma texts_zrange (f : nat) (text : Z -> string) (rs : list number) (k0 : Z) :
  (forall idx r, nth_error rs idx = Some r -> toFixed f r = text (k0 + Z.of_nat idx)) ->
  texts f rs = List.map text (zrange k0 (List.length rs)).
Proof.
  revert k0. induction rs as [|x rs IH]; intros k0 H; [reflexivity|].
  cbn [List.length]. rewrite zrange_S. unfold texts in *. cbn [List.map]. f_equal.
  - rewrite (H 0%nat x eq_refl). f_equal. lia.
  - apply IH. intros idx r Hr. rewrite (H (S idx) r Hr). f_equal. lia.
Qed.

Section PrintedWalk.

Variables (f : nat) (pe sh ms : positive) (Mmax kmin kmax W : Z) (fuel : nat).
Variables (text : Z -> string) (value : Z -> Z) (more : number -> bool).
Let e : Z := Zneg pe.
Let step : number := S754_finite false ms (e - Zpos sh).
Let A : Z := Zpos ms / 2 ^ Zpos sh.
Let center (k : Z) : Z := k * Zpos ms / 2 ^ Zpos sh.

Hypothesis He : -1074 <= e.
Hypothesis HA : 0 < A.
Hypothesis HMmax : Mmax + A + 1 < 2 ^ 53.
Hypothesis Hkmin : 0 <= kmin.
Hypothesis Hlow : 2 ^ 52 <= center kmin - 1.
Hypothesis Hstop : Mmax + W < center (kmax + 1).
Hypothesis Hfuel : kmax - kmin + 2 <= Z.of_nat fuel <= W.
Hypothesis Hmore : forall m, Mmax < Zpos m -> more (S754_finite false m e) = false.
Hypothesis Htext : forall k, text k = pointed f (Z.to_N (value k)).
Hypothesis Hprint :
  forall k m, kmin <= k <= kmax -> center k - W <= Zpos m <= center k + W ->
              nearestScaled f m e = value k.
Hypothesis Hstart :
  forall k, kmin <= k <= kmax ->
            exists m, mul (ofZ k) step = S754_finite false m e
                      /\ center k - 1 <= Zpos m <= center k + 1.

Lemma center_mono (k k' : Z) : 0 <= k <= k' -> center k <= center k'.
Proof.
  intros H. unfold center. apply Z.div_le_mono; [apply Z.pow_pos_nonneg; lia|].
  apply Z.mul_le_mono_nonneg_r; lia.
Qed.

(** [i] steps further the exact product has grown by [i * A] to
    [i * A + i]. *)
Lemma center_add (k i : Z) :
  0 <= k -> 0 <= i -> center k + i * A <= center (k + i) <= center k + i * A + i.
Proof.
  intros Hk Hi. unfold center, A.
  set (D := 2 ^ Zpos sh). assert (HD : 0 < D) by (apply Z.pow_pos_nonneg; lia).
  pose proof (Z.div_mod (Zpos ms) D ltac:(lia)) as E.
  pose proof (Z.mod_pos_bound (Zpos ms) D HD) as B.
  set (q := Zpos ms / D) in *. set (r := Zpos ms mod D) in *.
  replace ((k + i) * Zpos ms) with (k * Zpos ms + i * r + i * q * D) by (rewrite E; ring).
  rewrite Z.div_add by lia. split.
  - assert (k * Zpos ms / D <= (k * Zpos ms + i * r) / D)
      by (apply Z.div_le_mono; nia). lia.
  - assert ((k * Zpos ms + i * r) / D <= (k * Zpos ms + i * D) / D)
      by (apply Z.div_le_mono; nia).
    rewrite Z.div_add in H by lia. lia.
Qed.

Lemma toFixed_window (k : Z) (m : positive) :
  kmin <= k <= kmax -> center k - W <= Zpos m <= center k + W -> Zpos m < 2 ^ 53 ->
  toFixed f (S754_finite false m e) = text k.
Proof.
  intros Hk Hm H53. unfold toFixed.
  assert (L : cmpScaled m e 1 21 = Lt).
  { unfold cmpScaled, e. change (0 <=? Zneg pe) with false. change (0 <=? 21) with true.
    cbv iota. apply Z.compare_lt_iff. change (- Zneg pe) with (Zpos pe).
    assert (1 <= 2 ^ Zpos pe).
    { assert (0 < 2 ^ Zpos pe) by (apply Z.pow_pos_nonneg; lia). lia. }
    assert (2 ^ 53 < 10 ^ 21) by reflexivity. nia. }
  rewrite L, (Hprint k m Hk Hm), Htext. reflexivity.
Qed.

(** The loop from the product of row or column [k0]: it stops within the
    fuel, and its values print as the consecutive rows or columns from
    [k0], none beyond [kmax]. *)
Lemma printed_walk (k0 : Z) :
  kmin <= k0 <= kmax ->
  exists rs stop,
    walk fuel more step (mul (ofZ k0) step) = Some (rs, stop)
    /\ more stop = false
    /\ (forall r, In r rs -> more r = true)
    /\ k0 + Z.of_nat (List.length rs) <= kmax + 1
    /\ texts f rs = List.map text (zrange k0 (List.length rs)).
Proof.
  intros Hk0. destruct (Hstart k0 Hk0) as (m0 & E0 & B0). rewrite E0.
  pose proof (center_mono kmin k0 ltac:(lia)) as Hc0.
  assert (Hfuel0 : (0 < fuel)%nat) by (clear - Hfuel Hk0; lia).
  assert (Hend : Mmax < Zpos m0 + (Z.of_nat fuel - 1) * A).
  { pose proof (center_add k0 (Z.of_nat fuel - 1) ltac:(lia) ltac:(lia)) as Ha.
    pose proof (center_mono (kmax + 1) (k0 + (Z.of_nat fuel - 1)) ltac:(lia)) as Hm.
    lia. }
  destruct (walk_window e sh ms ltac:(unfold e in *; lia) Mmax more Hmore HMmax HA
              (Zpos m0) fuel ltac:(lia) 0%nat m0 ltac:(lia) Hfuel0 Hend)
    as (rs & stop & Wk & L & St & Mr & Wd).
  exists rs, stop. split; [exact Wk|]. split; [exact St|]. split; [exact Mr|].
  assert (Hidx : forall idx r, nth_error rs idx = Some r ->
                   k0 + Z.of_nat idx <= kmax
                   /\ toFixed f r = text (k0 + Z.of_nat idx)).
  { intros idx r Hr. destruct (Wd idx r Hr) as (m & -> & Bm & Hle).
    cbn [Nat.add] in Bm.
    assert (Hi : (idx < fuel)%nat).
    { assert (idx < List.length rs)%nat by (apply nth_error_Some; congruence). lia. }
    pose proof (center_add k0 (Z.of_nat idx) ltac:(lia) ltac:(lia)) as Ha.
    assert (Hk : k0 + Z.of_nat idx <= kmax).
    { destruct (Z.le_gt_cases (k0 + Z.of_nat idx) kmax) as [H|H]; [exact H|].
      pose proof (center_mono (kmax + 1) (k0 + Z.of_nat idx) ltac:(lia)). lia. }
    split; [exact Hk|]. apply toFixed_window; lia. }
  split.
  - destruct rs as [|x rs']; [cbn [List.length]; lia|].
    destruct (nth_error (x :: rs') (List.length rs')) as [r|] eqn:Hr.
    + destruct (Hidx _ _ Hr) as [H _]. cbn [List.length]. lia.
    + apply nth_error_None in Hr. cbn [List.length] in Hr. lia.
  - apply texts_zrange. intros idx r Hr. exact (proj2 (Hidx idx r Hr)).
Qed.

End PrintedWalk.

(** *** The rows and the columns *)

Lemma rowStart_table :
  forallb (startsNear rowMantissa (-48) GRID_SIZE_LAT) rows = true.
Proof. vm_compute. reflexivity. Qed.

Lemma rowPrint_table :
  forallb (printsAround 3 rowMantissa (fun k => 9 * k) (-48)) rows = true.
Proof. vm_compute. reflexivity. Qed.

Lemma colStart_table :
  forallb (startsNear colMantissa (-46) GRID_SIZE_LON) colsInclusive = true.
Proof. vm_compute. reflexivity. Qed.

Lemma colPrint_table :
  forallb (printsAround 2 colMantissa (fun j => j) (-46)) colsInclusive = true.
Proof. vm_compute. reflexivity. Qed.

Lemma startsNear_spec (center : Z -> Z) (e : Z) (step : number) (k : Z) :
  startsNear center e step k = true ->
  exists m, mul (ofZ k) step = S754_finite false m e
            /\ center k - 1 <= Zpos m <= center k + 1.
Proof.
  unfold startsNear. destruct (mul (ofZ k) step) as [| | |[] m e']; try discriminate.
  rewrite !andb_true_iff, Z.eqb_eq, !Z.leb_le. intros [[-> H1] H2].
  exists m. split; [reflexivity|lia].
Qed.

Lemma printsAround_spec (f : nat) (center value : Z -> Z) (pe : positive) (k : Z)
    (m : positive) :
  printsAround f center value (Zneg pe) k = true ->
  center k - 450 <= Zpos m <= center k + 450 ->
  nearestScaled f m (Zneg pe) = value k.
Proof.
  unfold printsAround. rewrite !andb_true_iff, Z.ltb_lt, !Z.eqb_eq.
  intros [[H0 H1] H2] Hm.
  destruct (center k - 450) as [|lo|lo] eqn:Elo; try lia.
  destruct (center k + 450) as [|hi|hi] eqn:Ehi; try lia.
  change (Z.to_pos (Zpos lo)) with lo in H1. change (Z.to_pos (Zpos hi)) with hi in H2.
  pose proof (nearestScaled_mono f lo m pe ltac:(lia)) as M1.
  pose proof (nearestScaled_mono f m hi pe ltac:(lia)) as M2.
  lia.
Qed.

(** The rows of a loop that starts on the product of row [k0], whatever
    the test of the loop, as long as it fails above 25.5. *)
Lemma rows_walk (more : number -> bool) (k0 : Z) :
  (forall m, 7177611906121728 < Zpos m -> more (S754_finite false m (-48)) = false) ->
  2388 <= k0 <= 2833 ->
  exists rs stop,
    walk 447 more GRID_SIZE_LAT (mul (ofZ k0) GRID_SIZE_LAT) = Some (rs, stop)
    /\ more stop = false
    /\ (forall r, In r rs -> more r = true)
    /\ k0 + Z.of_nat (List.length rs) <= 2834
    /\ texts 3 rs = List.map latText (zrange k0 (List.length rs)).
Proof.
  intros Hmore Hk0.
  assert (H1 : -1074 <= Zneg 48) by lia.
  assert (H2 : 0 < Zpos 5188146770730811 / 2 ^ Zpos 11) by reflexivity.
  assert (H3 : 7177611906121728 + Zpos 5188146770730811 / 2 ^ Zpos 11 + 1 < 2 ^ 53)
    by reflexivity.
  assert (H4 : 0 <= 2388) by lia.
  assert (H5 : 2 ^ 52 <= 2388 * Zpos 5188146770730811 / 2 ^ Zpos 11 - 1)
    by (vm_compute; discriminate).
  assert (H6 : 7177611906121728 + 450 < (2833 + 1) * Zpos 5188146770730811 / 2 ^ Zpos 11)
    by reflexivity.
  assert (H7 : 2833 - 2388 + 2 <= Z.of_nat 447 <= 450) by lia.
  assert (H8 : forall k, latText k = pointed 3 (Z.to_N (9 * k))) by reflexivity.
  assert (H9 : forall k m, 2388 <= k <= 2833 ->
                 k * Zpos 5188146770730811 / 2 ^ Zpos 11 - 450 <= Zpos m
                 <= k * Zpos 5188146770730811 / 2 ^ Zpos 11 + 450 ->
                 nearestScaled 3 m (Zneg 48) = 9 * k).
  { intros k m Hk Hm. apply (printsAround_spec 3 rowMantissa (fun k => 9 * k) 48 k m).
    - pose proof rowPrint_table as T. rewrite forallb_forall in T. apply T.
      apply zrange_In. lia.
    - exact Hm. }
  assert (H10 : forall k, 2388 <= k <= 2833 ->
                  exists m, mul (ofZ k) (S754_finite false 5188146770730811
                                           (Zneg 48 - Zpos 11))
                            = S754_finite false m (Zneg 48)
                            /\ k * Zpos 5188146770730811 / 2 ^ Zpos 11 - 1 <= Zpos m
                               <= k * Zpos 5188146770730811 / 2 ^ Zpos 11 + 1).
  { intros k Hk. apply (startsNear_spec rowMantissa (-48) GRID_SIZE_LAT k).
    pose proof rowStart_table as T. rewrite forallb_forall in T. apply T.
    apply zrange_In. lia. }
  destruct (printed_walk 3 48 11 5188146770730811 7177611906121728 2388 2833 450 447
              latText (fun k => 9 * k) more H1 H2 H3 H4 H5 H6 H7 Hmore H8 H9 H10 k0 Hk0)
    as (rs & stop & Wk & St & Mr & Ln & Tx).
  exists rs, stop. split; [exact Wk|]. split; [exact St|]. split; [exact Mr|].
  split; [lia|exact Tx].
Qed.

Lemma cols_walk (more : number -> bool) (j0 : Z) :
  (forall m, 8620171161763840 < Zpos m -> more (S754_finite false m (-46)) = false) ->
  11900 <= j0 <= 12250 ->
  exists cs stop,
    walk 447 more GRID_SIZE_LON (mul (ofZ j0) GRID_SIZE_LON) = Some (cs, stop)
    /\ more stop = false
    /\ (forall c, In c cs -> more c = true)
    /\ j0 + Z.of_nat (List.length cs) <= 12251
    /\ texts 2 cs = List.map lonText (zrange j0 (List.length cs)).
Proof.
  intros Hmore Hj0.
  assert (H1 : -1074 <= Zneg 46) by lia.
  assert (H2 : 0 < Zpos 5764607523034235 / 2 ^ Zpos 13) by reflexivity.
  assert (H3 : 8620171161763840 + Zpos 5764607523034235 / 2 ^ Zpos 13 + 1 < 2 ^ 53)
    by reflexivity.
  assert (H4 : 0 <= 11900) by lia.
  assert (H5 : 2 ^ 52 <= 11900 * Zpos 5764607523034235 / 2 ^ Zpos 13 - 1)
    by (vm_compute; discriminate).
  assert (H6 : 8620171161763840 + 450 < (12250 + 1) * Zpos 5764607523034235 / 2 ^ Zpos 13)
    by reflexivity.
  assert (H7 : 12250 - 11900 + 2 <= Z.of_nat 447 <= 450) by lia.
  assert (H8 : forall j, lonText j = pointed 2 (Z.to_N ((fun j => j) j))) by reflexivity.
  assert (H9 : forall k m, 11900 <= k <= 12250 ->
                 k * Zpos 5764607523034235 / 2 ^ Zpos 13 - 450 <= Zpos m
                 <= k * Zpos 5764607523034235 / 2 ^ Zpos 13 + 450 ->
                 nearestScaled 2 m (Zneg 46) = k).
  { intros k m Hk Hm. apply (printsAround_spec 2 colMantissa (fun j => j) 46 k m).
    - pose proof colPrint_table as T. rewrite forallb_forall in T. apply T.
      apply zrange_In. lia.
    - exact Hm. }
  assert (H10 : forall k, 11900 <= k <= 12250 ->
                  exists m, mul (ofZ k) (S754_finite false 5764607523034235
                                           (Zneg 46 - Zpos 13))
                            = S754_finite false m (Zneg 46)
                            /\ k * Zpos 5764607523034235 / 2 ^ Zpos 13 - 1 <= Zpos m
                               <= k * Zpos 5764607523034235 / 2 ^ Zpos 13 + 1).
  { intros k Hk. apply (startsNear_spec colMantissa (-46) GRID_SIZE_LON k).
    pose proof colStart_table as T. rewrite forallb_forall in T. apply T.
    apply zrange_In. lia. }
  destruct (printed_walk 2 46 13 5764607523034235 8620171161763840 11900 12250 450 447
              lonText (fun j => j) more H1 H2 H3 H4 H5 H6 H7 Hmore H8 H9 H10 j0 Hj0)
    as (cs & stop & Wk & St & Mr & Ln & Tx).
  exists cs, stop. split; [exact Wk|]. split; [exact St|]. split; [exact Mr|].
  split; [lia|exact Tx].
Qed.

(** *** Rounding, from below *)

(** A mantissa of [d >= 53] bits is rounded to 53 bits at the exponent
    [ex + d - 53] or, when the rounding carries, the next one; the result
    may be infinite. *)
Lemma binary_round_aux_lower (mx : positive) (ex : Z) (lx : location) :
  53 <= Zpos (digits2_pos mx) ->
  -1074 <= ex + (Zpos (digits2_pos mx) - 53) ->
  binary_round_aux prec emax false (Zpos mx) ex lx = S754_infinity false
  \/ exists p e',
       binary_round_aux prec emax false (Zpos mx) ex lx = S754_finite false p e'
       /\ digits2_pos p = 53%positive
       /\ ex + (Zpos (digits2_pos mx) - 53) <= e'
       /\ (e' = ex + (Zpos (digits2_pos mx) - 53) ->
           Zpos mx / 2 ^ (Zpos (digits2_pos mx) - 53) <= Zpos p).
Proof.
  set (d := digits2_pos mx). set (sh := Zpos d - 53). intros Hd Hex.
  assert (Hsh : 0 <= sh) by (unfold sh; lia).
  assert (P : 0 < 2 ^ sh) by (apply Z.pow_pos_nonneg; lia).
  assert (Hlow : 2 ^ 52 <= Zpos mx / 2 ^ sh).
  { apply Z.div_le_lower_bound; [exact P|].
    rewrite <- Z.pow_add_r by lia. replace (sh + 52) with (Zpos d - 1) by (unfold sh; lia).
    apply digits2_pos_lower'. }
  assert (Hupp : Zpos mx / 2 ^ sh < 2 ^ 53).
  { apply Z.div_lt_upper_bound; [exact P|].
    rewrite <- Z.pow_add_r by lia. replace (sh + 53) with (Zpos d) by (unfold sh; lia).
    apply digits2_pos_upper. }
  unfold binary_round_aux, shr_fexp. cbn [Zdigits2]. fold d.
  replace (fexp prec emax (Zpos d + ex) - ex) with sh
    by (unfold fexp, SpecFloat.emin, emax, prec, sh in *; lia).
  set (r0 := shr_record_of_loc (Zpos mx) lx).
  assert (Hshr : exists r1, shr r0 ex sh = (r1, ex + sh) /\ shr_m r1 = Zpos mx / 2 ^ sh).
  { unfold shr. destruct sh as [|k|k] eqn:Ek; try lia.
    - exists r0. rewrite Z.add_0_r. split; [reflexivity|].
      unfold r0. rewrite shr_record_of_loc_m, Z.div_1_r. reflexivity.
    - exists (SpecFloat.iter_pos shr_1 k r0). split; [reflexivity|].
      rewrite iter_pos_nat, shr_iter_m, positive_nat_Z.
      + unfold r0. rewrite shr_record_of_loc_m. reflexivity.
      + unfold r0. rewrite shr_record_of_loc_m. lia. }
  destruct Hshr as (r1 & -> & Hr1).
  pose proof (round_nearest_even_bounds (shr_m r1) (loc_of_shr_record r1)) as Hr.
  destruct (round_nearest_even (shr_m r1) (loc_of_shr_record r1)) as [|p|p] eqn:Er; try lia.
  destruct (Z.lt_ge_cases (Zpos p) (2 ^ 53)) as [Hp|Hp].
  - (* no carry *)
    assert (Hdp : digits2_pos p = 53%positive).
    { apply digits2_pos_bounds. change (2 ^ (53 - 1)) with (2 ^ 52). lia. }
    cbn [Zdigits2]. rewrite Hdp.
    replace (fexp prec emax (53 + (ex + sh)) - (ex + sh)) with 0
      by (unfold fexp, SpecFloat.emin, emax, prec; lia).
    cbn [shr shr_record_of_loc shr_m].
    destruct (ex + sh <=? emax - prec); [|left; reflexivity].
    right. exists p, (ex + sh). split; [reflexivity|]. split; [exact Hdp|].
    split; [lia|]. intros _. lia.
  - (* the rounding carries to [2^53] *)
    assert (Ep : Zpos p = 2 ^ 53) by lia.
    assert (Hdp : digits2_pos p = 54%positive).
    { apply digits2_pos_bounds. rewrite Ep. change (2 ^ (54 - 1)) with (2 ^ 53).
      split; [lia|reflexivity]. }
    cbn [Zdigits2]. rewrite Hdp.
    replace (fexp prec emax (54 + (ex + sh)) - (ex + sh)) with 1
      by (unfold fexp, SpecFloat.emin, emax, prec; lia).
    unfold shr. cbn [SpecFloat.iter_pos].
    assert (Em : shr_m (shr_1 (shr_record_of_loc (Zpos p) loc_Exact)) = 2 ^ 52).
    { rewrite shr_1_m; rewrite shr_record_of_loc_m; [|lia]. rewrite Ep. reflexivity. }
    rewrite Em. change (2 ^ 52) with (Zpos 4503599627370496).
    destruct (ex + sh + 1 <=? emax - prec); [|left; reflexivity].
    right. exists 4503599627370496%positive, (ex + sh + 1). split; [reflexivity|].
    split; [reflexivity|]. split; [lia|]. intros H. lia.
Qed.

Section Beyond.

(** The step is [ms * 2^-59]; the edge [c] is [mc * 2^ec], with
    [ec = - pc]. *)
Variables (ms mc pc : positive).
Hypothesis Hms : digits2_pos ms = 53%positive.
Let step : number := S754_finite false ms (-59).
Let c : number := S754_finite false mc (Zneg pc).
Hypothesis Hpc : 8 <= Zpos pc <= 52.

(** The products of the integers from [nlo] to the last one of their
    binade are above [c]. *)
Variable nlo : Z.
Hypothesis Hnlo : 0 < nlo <= 2 ^ 105 / Zpos ms / 2 ^ (Zpos pc - 7).
Hypothesis Htable :
  forall n, nlo <= n < 2 ^ (60 - Zpos pc) -> lt c (mul (ofZ n) step) = true.

Lemma lt_c_infinity : lt c (S754_infinity false) = true.
Proof. reflexivity. Qed.

Lemma lt_c_exponent (p : positive) (e : Z) :
  Zneg pc < e -> lt c (S754_finite false p e) = true.
Proof.
  intros H. unfold lt, SFltb, SFcompare, c.
  destruct (Z.compare_spec (Zneg pc) e); solve [lia | reflexivity].
Qed.

(** The quotient by the step of a number of 53 bits. *)
Lemma div_lower (m : positive) (e : Z) :
  digits2_pos m = 53%positive -> -1080 <= e ->
  div (S754_finite false m e) step = S754_infinity false
  \/ exists p e',
       div (S754_finite false m e) step = S754_finite false p e'
       /\ digits2_pos p = 53%positive
       /\ e + 6 <= e'
       /\ (e' = e + 6 -> Zpos m * 2 ^ 53 / Zpos ms <= Zpos p).
Proof.
  intros Hm He. unfold step. rewrite (div_round m ms e (-59) Hm Hms) by lia.
  pose proof (digits2_pos_lower' m) as Lm. pose proof (digits2_pos_upper m) as Um.
  pose proof (digits2_pos_lower' ms) as Ls. pose proof (digits2_pos_upper ms) as Us.
  rewrite Hm in Lm, Um. rewrite Hms in Ls, Us.
  change (2 ^ (53 - 1)) with (2 ^ 52) in *.
  set (q := Zpos m * 2 ^ 53 / Zpos ms).
  assert (Hq : 2 ^ 52 <= q).
  { unfold q. apply Z.div_le_lower_bound; [lia|]. nia. }
  assert (Hq' : q < 2 ^ 54).
  { unfold q. apply Z.div_lt_upper_bound; [lia|].
    change (2 ^ 54) with (2 * 2 ^ 53). nia. }
  destruct q as [|qp|qp] eqn:Eq; try lia.
  assert (Hd : 53 <= Zpos (digits2_pos qp) <= 54).
  { pose proof (digits2_pos_lower' qp). pose proof (digits2_pos_upper qp).
    split.
    - destruct (Z.lt_ge_cases (Zpos (digits2_pos qp)) 53) as [H1|H1]; [|exact H1].
      assert (2 ^ Zpos (digits2_pos qp) <= 2 ^ 52) by (apply Z.pow_le_mono_r; lia). lia.
    - destruct (Z.le_gt_cases (Zpos (digits2_pos qp)) 54) as [H1|H1]; [exact H1|].
      assert (2 ^ 54 <= 2 ^ (Zpos (digits2_pos qp) - 1)) by (apply Z.pow_le_mono_r; lia).
      lia. }
  replace (e - -59 - 53) with (e + 6) by lia.
  destruct (binary_round_aux_lower qp (e + 6)
              (new_location (Zpos ms) (Zpos m * 2 ^ 53 mod Zpos ms)))
    as [H|(p & e' & H & Hp & He' & Hpq)]; [lia|lia|left; exact H|].
  right. exists p, e'. split; [exact H|]. split; [exact Hp|]. split; [lia|].
  intros E. assert (Zpos (digits2_pos qp) = 53) by lia.
  specialize (Hpq ltac:(lia)). replace (Zpos (digits2_pos qp) - 53) with 0 in Hpq by lia.
  change (2 ^ 0) with 1 in Hpq. rewrite Z.div_1_r in Hpq. exact Hpq.
Qed.

(** The floor of a number of 53 bits and a negative exponent of at most
    52 is a number of 53 bits and the same exponent. *)
Lemma floor_canonical (p s : positive) :
  digits2_pos p = 53%positive -> Zpos s <= 52 ->
  exists m', Math_floor (S754_finite false p (Zneg s)) = S754_finite false m' (Zneg s)
             /\ digits2_pos m' = 53%positive
             /\ Math_floor (S754_finite false p (Zneg s)) = ofZ (Zpos p / 2 ^ Zpos s)
             /\ 2 ^ (52 - Zpos s) <= Zpos p / 2 ^ Zpos s < 2 ^ (53 - Zpos s).
Proof.
  intros Hp Hs.
  pose proof (digits2_pos_lower' p) as Lp. pose proof (digits2_pos_upper p) as Up.
  rewrite Hp in Lp, Up. change (2 ^ (53 - 1)) with (2 ^ 52) in Lp.
  assert (P : 0 < 2 ^ Zpos s) by (apply Z.pow_pos_nonneg; lia).
  assert (E52 : 2 ^ 52 = 2 ^ (52 - Zpos s) * 2 ^ Zpos s).
  { rewrite <- Z.pow_add_r by lia. f_equal. lia. }
  assert (E53 : 2 ^ 53 = 2 ^ (53 - Zpos s) * 2 ^ Zpos s).
  { rewrite <- Z.pow_add_r by lia. f_equal. lia. }
  assert (Hn : 2 ^ (52 - Zpos s) <= Zpos p / 2 ^ Zpos s < 2 ^ (53 - Zpos s)).
  { split.
    - apply Z.div_le_lower_bound; [exact P|]. rewrite Z.mul_comm, <- E52. exact Lp.
    - apply Z.div_lt_upper_bound; [exact P|]. rewrite Z.mul_comm, <- E53. exact Up. }
  assert (P52 : 0 < 2 ^ (52 - Zpos s)) by (apply Z.pow_pos_nonneg; lia).
  unfold Math_floor, floorZ, cond_Zopp.
  destruct (Zpos p / 2 ^ Zpos s) as [|n|n] eqn:En; try lia.
  change (Zpos n =? 0) with false. cbv iota.
  destruct (ofZ_small n (53 - Zpos s)) as (m' & E & _ & Hm').
  - assert (D : digits2_pos n = Z.to_pos (53 - Zpos s)).
    { apply digits2_pos_bounds. rewrite Z2Pos.id by lia.
      replace (53 - Zpos s - 1) with (52 - Zpos s) by lia. exact Hn. }
    rewrite D. rewrite Z2Pos.id by lia. reflexivity.
  - lia.
  - replace (53 - Zpos s - 53) with (Zneg s) in E by lia.
    exists m'. split; [exact E|]. split; [exact Hm'|]. split; [reflexivity|exact Hn].
Qed.

(** The product with the step of a number of 53 bits. *)
Lemma mul_lower (m' : positive) (e' : Z) :
  digits2_pos m' = 53%positive -> -1067 <= e' ->
  mul (S754_finite false m' e') step = S754_infinity false
  \/ exists p e2, mul (S754_finite false m' e') step = S754_finite false p e2
                  /\ e' - 7 <= e2.
Proof.
  intros Hm He. unfold mul, SFmul, step. cbn [xorb].
  pose proof (digits2_pos_lower' m') as Lm. pose proof (digits2_pos_lower' ms) as Ls.
  rewrite Hm in Lm. rewrite Hms in Ls. change (2 ^ (53 - 1)) with (2 ^ 52) in *.
  set (mx := (m' * ms)%positive).
  assert (Hmx : 2 ^ 104 <= Zpos mx).
  { unfold mx. rewrite Pos2Z.inj_mul. change (2 ^ 104) with (2 ^ 52 * 2 ^ 52). nia. }
  assert (Hd : 105 <= Zpos (digits2_pos mx)).
  { pose proof (digits2_pos_upper mx).
    destruct (Z.lt_ge_cases (Zpos (digits2_pos mx)) 105) as [H1|H1]; [|exact H1].
    assert (2 ^ Zpos (digits2_pos mx) <= 2 ^ 104) by (apply Z.pow_le_mono_r; lia). lia. }
  destruct (binary_round_aux_lower mx (e' + -59) loc_Exact)
    as [H|(p & e2 & H & _ & He2 & _)]; [lia|lia|left; exact H|].
  right. exists p, e2. split; [exact H|lia].
Qed.

(** The first row or column of a number of 53 bits in a binade above the
    one of [c] is above [c]. *)
Lemma first_beyond (m : positive) (e : Z) :
  digits2_pos m = 53%positive -> Zneg pc < e ->
  lt c (mul (Math_floor (div (S754_finite false m e) step)) step) = true.
Proof.
  intros Hm He.
  destruct (div_lower m e Hm ltac:(lia)) as [->|(p & e' & -> & Hp & He' & Hq)];
    [reflexivity|].
  destruct e' as [|e'|s].
  - cbn [Math_floor].
    destruct (mul_lower p 0 Hp ltac:(lia)) as [->|(p2 & e2 & -> & H2)];
      [reflexivity|apply lt_c_exponent; lia].
  - cbn [Math_floor].
    destruct (mul_lower p (Zpos e') Hp ltac:(lia)) as [->|(p2 & e2 & -> & H2)];
      [reflexivity|apply lt_c_exponent; lia].
  - destruct (floor_canonical p s Hp ltac:(lia)) as (m' & E & Hm' & En & Bn).
    destruct (Z.eq_dec (Zneg s) (Zneg pc + 7)) as [Es|Es].
    + (* the lowest binade of quotients: by the table *)
      rewrite En. apply Htable.
      assert (Es' : Zpos s = Zpos pc - 7) by lia.
      specialize (Hq ltac:(lia)). rewrite Es'. split.
      * etransitivity; [exact (proj2 Hnlo)|].
        apply Z.div_le_mono; [apply Z.pow_pos_nonneg; lia|].
        etransitivity; [|exact Hq].
        apply Z.div_le_mono; [lia|].
        pose proof (digits2_pos_lower' m) as Lm. rewrite Hm in Lm.
        change (2 ^ (53 - 1)) with (2 ^ 52) in Lm.
        change (2 ^ 105) with (2 ^ 52 * 2 ^ 53). nia.
      * rewrite Es' in Bn. replace (53 - (Zpos pc - 7)) with (60 - Zpos pc) in Bn by lia.
        exact (proj2 Bn).
    + rewrite E.
      destruct (mul_lower m' (Zneg s) Hm' ltac:(lia)) as [->|(p2 & e2 & -> & H2)];
        [reflexivity|apply lt_c_exponent; lia].
Qed.

End Beyond.

(** *** The first row and the first column *)

Lemma valid_digits (s : bool) (m : positive) (e : Z) :
  valid (S754_finite s m e) = true -> -1074 < e -> digits2_pos m = 53%positive.
Proof.
  unfold valid, valid_binary, bounded, canonical_mantissa. rewrite andb_true_iff, Z.eqb_eq.
  unfold fexp, SpecFloat.emin, emax, prec. intros [H _] He. lia.
Qed.

Lemma le_same_exponent (m m' : positive) (e : Z) :
  le (S754_finite false m e) (S754_finite false m' e) = true <-> Zpos m <= Zpos m'.
Proof.
  unfold le, SFleb, SFcompare. rewrite Z.compare_refl. fold (Pos.compare m m').
  destruct (Pos.compare_spec m m'); split; intros; try reflexivity; try discriminate; lia.
Qed.

(** A number above a positive finite number is positive, and finite or
    infinite. *)
Lemma lt_above_cases (mc : positive) (ec : Z) (y : number) :
  lt (S754_finite false mc ec) y = true ->
  y = S754_infinity false
  \/ exists m e, y = S754_finite false m e
                 /\ (ec < e \/ (e = ec /\ Zpos mc < Zpos m)).
Proof.
  unfold lt, SFltb, SFcompare.
  destruct y as [s|s| |s m e]; try destruct s; try discriminate.
  - intros _. left. reflexivity.
  - fold (Pos.compare mc m). intros H. right. exists m, e. split; [reflexivity|].
    destruct (Z.compare_spec ec e); try discriminate; [|left; assumption].
    right. split; [auto|]. destruct (Pos.compare_spec mc m); try discriminate. lia.
Qed.

Section FirstCell.

(** The bounds are [mlo * 2^ec] and [mhi * 2^ec], the step is
    [ms * 2^-59], and the rows or columns of the bounds are [kmin] to
    [kmax]. *)
Variables (ms mlo mhi pc : positive) (kmin kmax : Z).
Let ec : Z := Zneg pc.
Let step : number := S754_finite false ms (-59).
Let clo : number := S754_finite false mlo ec.
Let chi : number := S754_finite false mhi ec.

Hypothesis Hms : digits2_pos ms = 53%positive.
Hypothesis Hpc : 8 <= Zpos pc <= 52.
Hypothesis Hlohi : Zpos mlo <= Zpos mhi.
Hypothesis Hin :
  forall m, Zpos mlo <= Zpos m <= Zpos mhi ->
            exists k, kmin <= k <= kmax
                      /\ Math_floor (div (S754_finite false m ec) step) = ofZ k.
Hypothesis Habove :
  forall m, Zpos mhi < Zpos m < 2 ^ 53 ->
            exists k, kmax <= k < 2 ^ (60 - Zpos pc)
                      /\ Math_floor (div (S754_finite false m ec) step) = ofZ k.
Hypothesis Htable :
  forall n, kmax + 1 <= n < 2 ^ (60 - Zpos pc) -> lt chi (mul (ofZ n) step) = true.
Hypothesis Hnlo : 0 < kmax + 1 <= 2 ^ 105 / Zpos ms / 2 ^ (Zpos pc - 7).

(** The first row or column of a viewport: its loop starts on the product
    of a row or column of the bounds, or on a value above the upper bound,
    or on [NaN]. *)
Lemma first_cell (y : number) :
  valid y = true ->
  let s := mul (Math_floor (div (Math_max y clo) step)) step in
  s = NaN \/ lt chi s = true
  \/ exists k, kmin <= k <= kmax
               /\ Math_floor (div (Math_max y clo) step) = ofZ k.
Proof.
  intros Hv s. subst s.
  destruct (Math_max_above mlo ec y) as [H|[H|[H Hlt]]]; fold clo in H; rewrite H.
  - left. reflexivity.
  - right. right. apply Hin. lia.
  - clear H. apply lt_above_cases in Hlt. destruct Hlt as [->|(m & e & -> & He)].
    + right. left. reflexivity.
    + assert (Hd : digits2_pos m = 53%positive).
      { apply (valid_digits false m e Hv). unfold ec in He. lia. }
      destruct He as [He|[-> He]].
      * right. left.
        apply (first_beyond ms mhi pc Hms Hpc (kmax + 1) Hnlo Htable m e Hd He).
      * pose proof (digits2_pos_upper m) as Um. rewrite Hd in Um.
        destruct (Z.le_gt_cases (Zpos m) (Zpos mhi)) as [Hle|Hgt].
        -- right. right. apply Hin. lia.
        -- destruct (Habove m ltac:(lia)) as (k & Hk & Ek).
           destruct (Z.eq_dec k kmax) as [->|Hne].
           ++ right. right. exists kmax. split; [|exact Ek].
              destruct (Hin mlo ltac:(lia)) as (k' & Hk' & _). lia.
           ++ right. left. rewrite Ek. apply Htable. lia.
Qed.

(** Numbers from a threshold [mT * 2^ec] on, beyond the upper bound, have
    their first row or column above the upper bound. *)
Variable mT : positive.
Hypothesis HT : Zpos mhi < Zpos mT.
Hypothesis Hthreshold :
  forall m, Zpos mT <= Zpos m < 2 ^ 53 ->
            exists k, kmax + 1 <= k < 2 ^ (60 - Zpos pc)
                      /\ Math_floor (div (S754_finite false m ec) step) = ofZ k.

Lemma first_cell_beyond (y : number) :
  valid y = true -> ge y (S754_finite false mT ec) = true ->
  lt chi (mul (Math_floor (div (Math_max y clo) step)) step) = true.
Proof.
  intros Hv Hge.
  assert (Hy : y = S754_infinity false
               \/ exists m e, y = S754_finite false m e
                              /\ (ec < e \/ (e = ec /\ Zpos mT <= Zpos m))).
  { revert Hge. unfold ge, SFleb, SFcompare.
    destruct y as [s|s| |s m e]; try destruct s; try discriminate.
    - intros _. left. reflexivity.
    - fold (Pos.compare mT m). intros H. right. exists m, e. split; [reflexivity|].
      destruct (Z.compare_spec ec e); try discriminate; [|left; assumption].
      right. split; [auto|]. destruct (Pos.compare_spec mT m); try discriminate; lia. }
  destruct Hy as [->|(m & e & -> & He)]; [reflexivity|].
  assert (Hd : digits2_pos m = 53%positive).
  { apply (valid_digits false m e Hv). unfold ec in He. lia. }
  assert (Hmax : Math_max (S754_finite false m e) clo = S754_finite false m e).
  { unfold Math_max, SFcompare, clo. fold (Pos.compare m mlo).
    destruct He as [He|[-> He]].
    - destruct (Z.compare_spec e ec); try lia. reflexivity.
    - rewrite Z.compare_refl. destruct (Pos.compare_spec m mlo); try lia. reflexivity. }
  rewrite Hmax. destruct He as [He|[-> He]].
  - apply (first_beyond ms mhi pc Hms Hpc (kmax + 1) Hnlo Htable m e Hd He).
  - pose proof (digits2_pos_upper m) as Um. rewrite Hd in Um.
    destruct (Hthreshold m ltac:(lia)) as (k & Hk & ->). apply Htable. exact Hk.
Qed.

End FirstCell.

(** *** The first row and the first column of [getVisibleGridIds] *)

Lemma rowsBeyond_table :
  forallb (fun n => lt lit_25_5 (mul (ofZ n) GRID_SIZE_LAT)) (zrange 2834 1262) = true.
Proof. vm_compute. reflexivity. Qed.

Lemma colsBeyond_table :
  forallb (fun n => lt lit_122_5 (mul (ofZ n) GRID_SIZE_LON)) (zrange 12251 4133) = true.
Proof. vm_compute. reflexivity. Qed.

Ltac closed_Z := first [ lia | reflexivity | vm_compute; discriminate | vm_compute; reflexivity ].

Lemma rows_in (m : positive) :
  6051711999279104 <= Zpos m <= 7177611906121728 ->
  exists k, 2388 <= k <= 2833
            /\ Math_floor (div (S754_finite false m (-48)) (S754_finite false 5188146770730811 (-59))) = ofZ k.
Proof.
  intros Hm. change (S754_finite false 5188146770730811 (-59)) with GRID_SIZE_LAT.
  destruct (lat_cell (S754_finite false m (-48))) as (p & k & _ & _ & Hk & E).
  - apply (le_same_exponent 6051711999279104 m (-48)). lia.
  - apply (le_same_exponent m 7177611906121728 (-48)). lia.
  - exists k. split; [exact Hk|exact E].
Qed.

Lemma rows_above (m : positive) :
  7177611906121728 < Zpos m < 2 ^ 53 ->
  exists k, 2833 <= k < 2 ^ (60 - 48)
            /\ Math_floor (div (S754_finite false m (-48)) (S754_finite false 5188146770730811 (-59))) = ofZ k.
Proof.
  intros Hm.
  assert (H1 : 2 ^ 52 <= 7177611906121729) by closed_Z.
  assert (H2 : 9007199254740991 < 2 ^ 53) by closed_Z.
  assert (H3 : digits2_pos 5188146770730811 = 53%positive) by reflexivity.
  assert (H4 : 5188146770730811 <= 7177611906121729) by closed_Z.
  assert (H5 : 9007199254740991 * 2 ^ 53 / 5188146770730811 / 2 + 1 < 2 ^ 53) by closed_Z.
  assert (H6 : -1074 <= -48 - -59 - 53 /\ -48 - -59 - 52 <= 971) by lia.
  assert (H7 : -48 - -59 - 52 = Zneg 41) by reflexivity.
  assert (H8 : 2833 <= 7177611906121729 * 2 ^ 53 / 5188146770730811 / 2 / 2 ^ 41) by closed_Z.
  assert (H9 : (9007199254740991 * 2 ^ 53 / 5188146770730811 / 2 + 1) / 2 ^ 41 <= 3555)
    by closed_Z.
  destruct (floor_div_range 7177611906121729 9007199254740991 5188146770730811 (-48) (-59)
              41 H1 H2 H3 H4 H5 H6 H7 2833 3555 H8 H9 ltac:(lia) m ltac:(lia))
    as (p & k & _ & _ & Hk & E).
  exists k. split; [|exact E]. change (2 ^ (60 - 48)) with 4096. lia.
Qed.

Lemma rows_threshold (m : positive) :
  7179300755981992 <= Zpos m < 2 ^ 53 ->
  exists k, 2833 + 1 <= k < 2 ^ (60 - 48)
            /\ Math_floor (div (S754_finite false m (-48)) (S754_finite false 5188146770730811 (-59))) = ofZ k.
Proof.
  intros Hm.
  assert (H1 : 2 ^ 52 <= 7179300755981992) by closed_Z.
  assert (H2 : 9007199254740991 < 2 ^ 53) by closed_Z.
  assert (H3 : digits2_pos 5188146770730811 = 53%positive) by reflexivity.
  assert (H4 : 5188146770730811 <= 7179300755981992) by closed_Z.
  assert (H5 : 9007199254740991 * 2 ^ 53 / 5188146770730811 / 2 + 1 < 2 ^ 53) by closed_Z.
  assert (H6 : -1074 <= -48 - -59 - 53 /\ -48 - -59 - 52 <= 971) by lia.
  assert (H7 : -48 - -59 - 52 = Zneg 41) by reflexivity.
  assert (H8 : 2834 <= 7179300755981992 * 2 ^ 53 / 5188146770730811 / 2 / 2 ^ 41) by closed_Z.
  assert (H9 : (9007199254740991 * 2 ^ 53 / 5188146770730811 / 2 + 1) / 2 ^ 41 <= 3555)
    by closed_Z.
  destruct (floor_div_range 7179300755981992 9007199254740991 5188146770730811 (-48) (-59)
              41 H1 H2 H3 H4 H5 H6 H7 2834 3555 H8 H9 ltac:(lia) m ltac:(lia))
    as (p & k & _ & _ & Hk & E).
  exists k. split; [|exact E]. change (2 ^ (60 - 48)) with 4096. lia.
Qed.

Lemma rows_table (n : Z) :
  2833 + 1 <= n < 2 ^ (60 - 48) -> lt (S754_finite false 7177611906121728 (-48)) (mul (ofZ n) (S754_finite false 5188146770730811 (-59))) = true.
Proof.
  intros Hn. pose proof rowsBeyond_table as T. rewrite forallb_forall in T.
  change (S754_finite false 7177611906121728 (-48)) with lit_25_5.
  change (S754_finite false 5188146770730811 (-59)) with GRID_SIZE_LAT. apply T.
  apply zrange_In. change (2 ^ (60 - 48)) with 4096 in Hn. lia.
Qed.

Lemma cols_in (m : positive) :
  8373880557142016 <= Zpos m <= 8620171161763840 ->
  exists j, 11900 <= j <= 12250
            /\ Math_floor (div (S754_finite false m (-46)) (S754_finite false 5764607523034235 (-59))) = ofZ j.
Proof.
  intros Hm. change (S754_finite false 5764607523034235 (-59)) with GRID_SIZE_LON.
  destruct (lon_cell (S754_finite false m (-46))) as (p & j & _ & _ & Hj & E).
  - apply (le_same_exponent 8373880557142016 m (-46)). lia.
  - apply (le_same_exponent m 8620171161763840 (-46)). lia.
  - exists j. split; [exact Hj|exact E].
Qed.

Lemma cols_above (m : positive) :
  8620171161763840 < Zpos m < 2 ^ 53 ->
  exists j, 12250 <= j < 2 ^ (60 - 46)
            /\ Math_floor (div (S754_finite false m (-46)) (S754_finite false 5764607523034235 (-59))) = ofZ j.
Proof.
  intros Hm.
  assert (H1 : 2 ^ 52 <= 8620171161763841) by closed_Z.
  assert (H2 : 9007199254740991 < 2 ^ 53) by closed_Z.
  assert (H3 : digits2_pos 5764607523034235 = 53%positive) by reflexivity.
  assert (H4 : 5764607523034235 <= 8620171161763841) by closed_Z.
  assert (H5 : 9007199254740991 * 2 ^ 53 / 5764607523034235 / 2 + 1 < 2 ^ 53) by closed_Z.
  assert (H6 : -1074 <= -46 - -59 - 53 /\ -46 - -59 - 52 <= 971) by lia.
  assert (H7 : -46 - -59 - 52 = Zneg 39) by reflexivity.
  assert (H8 : 12250 <= 8620171161763841 * 2 ^ 53 / 5764607523034235 / 2 / 2 ^ 39) by closed_Z.
  assert (H9 : (9007199254740991 * 2 ^ 53 / 5764607523034235 / 2 + 1) / 2 ^ 39 <= 12800)
    by closed_Z.
  destruct (floor_div_range 8620171161763841 9007199254740991 5764607523034235 (-46) (-59)
              39 H1 H2 H3 H4 H5 H6 H7 12250 12800 H8 H9 ltac:(lia) m ltac:(lia))
    as (p & j & _ & _ & Hj & E).
  exists j. split; [|exact E]. change (2 ^ (60 - 46)) with 16384. lia.
Qed.

Lemma cols_threshold (m : positive) :
  8620874849205617 <= Zpos m < 2 ^ 53 ->
  exists j, 12250 + 1 <= j < 2 ^ (60 - 46)
            /\ Math_floor (div (S754_finite false m (-46)) (S754_finite false 5764607523034235 (-59))) = ofZ j.
Proof.
  intros Hm.
  assert (H1 : 2 ^ 52 <= 8620874849205617) by closed_Z.
  assert (H2 : 9007199254740991 < 2 ^ 53) by closed_Z.
  assert (H3 : digits2_pos 5764607523034235 = 53%positive) by reflexivity.
  assert (H4 : 5764607523034235 <= 8620874849205617) by closed_Z.
  assert (H5 : 9007199254740991 * 2 ^ 53 / 5764607523034235 / 2 + 1 < 2 ^ 53) by closed_Z.
  assert (H6 : -1074 <= -46 - -59 - 53 /\ -46 - -59 - 52 <= 971) by lia.
  assert (H7 : -46 - -59 - 52 = Zneg 39) by reflexivity.
  assert (H8 : 12251 <= 8620874849205617 * 2 ^ 53 / 5764607523034235 / 2 / 2 ^ 39) by closed_Z.
  assert (H9 : (9007199254740991 * 2 ^ 53 / 5764607523034235 / 2 + 1) / 2 ^ 39 <= 12800)
    by closed_Z.
  destruct (floor_div_range 8620874849205617 9007199254740991 5764607523034235 (-46) (-59)
              39 H1 H2 H3 H4 H5 H6 H7 12251 12800 H8 H9 ltac:(lia) m ltac:(lia))
    as (p & j & _ & _ & Hj & E).
  exists j. split; [|exact E]. change (2 ^ (60 - 46)) with 16384. lia.
Qed.

Lemma cols_table (n : Z) :
  12250 + 1 <= n < 2 ^ (60 - 46) -> lt (S754_finite false 8620171161763840 (-46)) (mul (ofZ n) (S754_finite false 5764607523034235 (-59))) = true.
Proof.
  intros Hn. pose proof colsBeyond_table as T. rewrite forallb_forall in T.
  change (S754_finite false 8620171161763840 (-46)) with lit_122_5.
  change (S754_finite false 5764607523034235 (-59)) with GRID_SIZE_LON. apply T.
  apply zrange_In. change (2 ^ (60 - 46)) with 16384 in Hn. lia.
Qed.

(** The first row of every viewport whose south edge is a number. *)
Lemma firstRow_cases (b : Viewport) :
  valid (south b) = true ->
  firstRow b = NaN \/ lt lit_25_5 (firstRow b) = true
  \/ exists k, 2388 <= k <= 2833
               /\ Math_floor (div (south (clamp b)) GRID_SIZE_LAT) = ofZ k.
Proof.
  intros Hv.
  assert (Hn : 0 < 2833 + 1 <= 2 ^ 105 / 5188146770730811 / 2 ^ (48 - 7))
    by (split; [reflexivity|vm_compute; discriminate]).
  pose proof (first_cell 5188146770730811 6051711999279104 7177611906121728 48 2388 2833
                eq_refl ltac:(lia) ltac:(lia) rows_in rows_above rows_table Hn
                (south b) Hv) as H.
  cbv zeta in H. exact H.
Qed.

Lemma firstCol_cases (b : Viewport) :
  valid (west b) = true ->
  firstCol b = NaN \/ lt lit_122_5 (firstCol b) = true
  \/ exists j, 11900 <= j <= 12250
               /\ Math_floor (div (west (clamp b)) GRID_SIZE_LON) = ofZ j.
Proof.
  intros Hv.
  assert (Hn : 0 < 12250 + 1 <= 2 ^ 105 / 5764607523034235 / 2 ^ (46 - 7))
    by (split; [reflexivity|vm_compute; discriminate]).
  pose proof (first_cell 5764607523034235 8373880557142016 8620171161763840 46 11900 12250
                eq_refl ltac:(lia) ltac:(lia) cols_in cols_above cols_table Hn
                (west b) Hv) as H.
  cbv zeta in H. exact H.
Qed.

Lemma firstRow_beyond (b : Viewport) :
  valid (south b) = true -> ge (south b) lit_25_506 = true ->
  lt lit_25_5 (firstRow b) = true.
Proof.
  intros Hv Hge.
  assert (Hn : 0 < 2833 + 1 <= 2 ^ 105 / 5188146770730811 / 2 ^ (48 - 7))
    by (split; [reflexivity|vm_compute; discriminate]).
  exact (first_cell_beyond 5188146770730811 6051711999279104 7177611906121728 48 2833
           eq_refl ltac:(lia) ltac:(lia) rows_table Hn 7179300755981992 ltac:(lia)
           rows_threshold (south b) Hv Hge).
Qed.

Lemma firstCol_beyond (b : Viewport) :
  valid (west b) = true -> ge (west b) lit_122_51 = true ->
  lt lit_122_5 (firstCol b) = true.
Proof.
  intros Hv Hge.
  assert (Hn : 0 < 12250 + 1 <= 2 ^ 105 / 5764607523034235 / 2 ^ (46 - 7))
    by (split; [reflexivity|vm_compute; discriminate]).
  exact (first_cell_beyond 5764607523034235 8373880557142016 8620171161763840 46 12250
           eq_refl ltac:(lia) ltac:(lia) cols_table Hn 8620874849205617 ltac:(lia)
           cols_threshold (west b) Hv Hge).
Qed.

(** *** The rectangle of a viewport *)

Lemma walk_stops (more : number -> bool) (step x : number) (fuel : nat) :
  more x = false -> walk (S fuel) more step x = Some ([], x).
Proof. intros H. cbn [walk]. rewrite H. reflexivity. Qed.

Lemma walk_nil (more : number -> bool) (step x : number) (fuel : nat)
    (rs : list number) (stop : number) :
  walk fuel more step x = Some (rs, stop) -> (rs = [] <-> more x = false).
Proof.
  destruct fuel as [|fuel]; [discriminate|]. cbn [walk]. destruct (more x).
  - destruct (walk fuel more step (add x step)) as [[l last]|]; [|discriminate].
    intros [= <- <-]. split; discriminate.
  - intros [= <- <-]. split; reflexivity.
Qed.

Lemma flat_map_no_column (rs : list number) :
  flat_map (fun r => List.map (gridName r) []) rs = [].
Proof. induction rs as [|r rs IH]; [reflexivity|exact IH]. Qed.

Lemma flat_map_nil (rs cs : list number) :
  flat_map (fun r => List.map (gridName r) cs) rs = [] <-> rs = [] \/ cs = [].
Proof.
  split.
  - destruct rs as [|r rs]; [auto|]. destruct cs as [|c cs]; [auto|]. discriminate.
  - intros [->| ->]; [reflexivity|apply flat_map_no_column].
Qed.

Lemma lt_same_exponent (m m' : positive) (e : Z) :
  Zpos m < Zpos m' -> lt (S754_finite false m e) (S754_finite false m' e) = true.
Proof.
  intros H. unfold lt, SFltb, SFcompare. rewrite Z.compare_refl. fold (Pos.compare m m').
  destruct (Pos.compare_spec m m'); solve [lia | reflexivity].
Qed.

(** [getVisibleGridIds] in terms of the values of its two loop
    variables. *)
Lemma getVisibleGridIds_walks (b : Viewport) (extra : nat) (rs cs : list number)
    (stopLat stopLon : number) :
  walk 447 (fun x => le x (north (clamp b))) GRID_SIZE_LAT (firstRow b) = Some (rs, stopLat) ->
  walk 447 (fun x => le x (east (clamp b))) GRID_SIZE_LON (firstCol b) = Some (cs, stopLon) ->
  getVisibleGridIds (447 + extra) b
  = Some (flat_map (fun r => List.map (gridName r) cs) rs).
Proof.
  intros Wr Wc. unfold getVisibleGridIds, latLoop. cbv zeta.
  change (Math_min (north b) (maxLat TAIWAN_BOUNDS)) with (north (clamp b)).
  change (Math_min (east b) (maxLon TAIWAN_BOUNDS)) with (east (clamp b)).
  change (mul (Math_floor (div (Math_max (south b) (minLat TAIWAN_BOUNDS)) GRID_SIZE_LAT))
            GRID_SIZE_LAT) with (firstRow b).
  change (mul (Math_floor (div (Math_max (west b) (minLon TAIWAN_BOUNDS)) GRID_SIZE_LON))
            GRID_SIZE_LON) with (firstCol b).
  rewrite (latLoop_walk _ _ _ _ _ _ [] rs cs stopLat stopLon
             (walk_more_fuel _ _ _ extra _ _ Wc) (walk_more_fuel _ _ _ extra _ _ Wr)).
  rewrite List.app_nil_r, rev_append_rev_nil. reflexivity.
Qed.

Lemma north_clamp (b : Viewport) : north (clamp b) = Math_min (north b) lit_25_5.
Proof. reflexivity. Qed.

Lemma east_clamp (b : Viewport) : east (clamp b) = Math_min (east b) lit_122_5.
Proof. reflexivity. Qed.

(** The values of [currentLat]. *)
Lemma rows_of (b : Viewport) :
  valid (south b) = true ->
  exists rs stopLat k0,
    walk 447 (fun x => le x (north (clamp b))) GRID_SIZE_LAT (firstRow b)
    = Some (rs, stopLat)
    /\ 2388 <= k0 /\ k0 + Z.of_nat (List.length rs) <= 2834
    /\ texts 3 rs = List.map latText (zrange k0 (List.length rs))
    /\ (rs <> [] -> Math_floor (div (south (clamp b)) GRID_SIZE_LAT) = ofZ k0).
Proof.
  intros Hv.
  assert (Hstop : firstRow b = NaN \/ lt lit_25_5 (firstRow b) = true ->
                  le (firstRow b) (north (clamp b)) = false).
  { intros [->|H]; [reflexivity|]. rewrite north_clamp.
    apply (le_Math_min 7177611906121728 (-48)). exact H. }
  destruct (firstRow_cases b Hv) as [H|[H|(k & Hk & E)]].
  - exists [], (firstRow b), 2388. rewrite (walk_stops (fun x => le x (north (clamp b))) GRID_SIZE_LAT (firstRow b) 446 (Hstop (or_introl H))).
    split; [reflexivity|]. split; [lia|]. split; [cbn; lia|]. split; [reflexivity|].
    intros N. contradiction N. reflexivity.
  - exists [], (firstRow b), 2388. rewrite (walk_stops (fun x => le x (north (clamp b))) GRID_SIZE_LAT (firstRow b) 446 (Hstop (or_intror H))).
    split; [reflexivity|]. split; [lia|]. split; [cbn; lia|]. split; [reflexivity|].
    intros N. contradiction N. reflexivity.
  - assert (F : firstRow b = mul (ofZ k) GRID_SIZE_LAT) by (unfold firstRow; rewrite E; reflexivity).
    destruct (rows_walk (fun x => le x (north (clamp b))) k) as (rs & stop & W & _ & _ & L & T).
    + intros m Hm. rewrite north_clamp. apply (le_Math_min 7177611906121728 (-48)).
      apply lt_same_exponent. exact Hm.
    + exact Hk.
    + exists rs, stop, k. rewrite F. split; [exact W|]. split; [lia|]. split; [exact L|].
      split; [exact T|]. intros _. exact E.
Qed.

(** The values of [currentLon]. *)
Lemma cols_of (b : Viewport) :
  valid (west b) = true ->
  exists cs stopLon j0,
    walk 447 (fun x => le x (east (clamp b))) GRID_SIZE_LON (firstCol b)
    = Some (cs, stopLon)
    /\ 11900 <= j0 /\ j0 + Z.of_nat (List.length cs) <= 12251
    /\ texts 2 cs = List.map lonText (zrange j0 (List.length cs))
    /\ (cs <> [] -> Math_floor (div (west (clamp b)) GRID_SIZE_LON) = ofZ j0).
Proof.
  intros Hv.
  assert (Hstop : firstCol b = NaN \/ lt lit_122_5 (firstCol b) = true ->
                  le (firstCol b) (east (clamp b)) = false).
  { intros [->|H]; [reflexivity|]. rewrite east_clamp.
    apply (le_Math_min 8620171161763840 (-46)). exact H. }
  destruct (firstCol_cases b Hv) as [H|[H|(j & Hj & E)]].
  - exists [], (firstCol b), 11900. rewrite (walk_stops (fun x => le x (east (clamp b))) GRID_SIZE_LON (firstCol b) 446 (Hstop (or_introl H))).
    split; [reflexivity|]. split; [lia|]. split; [cbn; lia|]. split; [reflexivity|].
    intros N. contradiction N. reflexivity.
  - exists [], (firstCol b), 11900. rewrite (walk_stops (fun x => le x (east (clamp b))) GRID_SIZE_LON (firstCol b) 446 (Hstop (or_intror H))).
    split; [reflexivity|]. split; [lia|]. split; [cbn; lia|]. split; [reflexivity|].
    intros N. contradiction N. reflexivity.
  - assert (F : firstCol b = mul (ofZ j) GRID_SIZE_LON) by (unfold firstCol; rewrite E; reflexivity).
    destruct (cols_walk (fun x => le x (east (clamp b))) j) as (cs & stop & W & _ & _ & L & T).
    + intros m Hm. rewrite east_clamp. apply (le_Math_min 8620171161763840 (-46)).
      apply lt_same_exponent. exact Hm.
    + exact Hj.
    + exists cs, stop, j. rewrite F. split; [exact W|]. split; [lia|]. split; [exact L|].
      split; [exact T|]. intros _. exact E.
Qed.

(** What [getVisibleGridIds] returns, for every viewport whose south and
    west edges are numbers. *)
Lemma getVisibleGridIds_rectangle (b : Viewport) (extra : nat) :
  valid (south b) = true -> valid (west b) = true ->
  exists rs cs stopLat stopLon k0 j0,
    walk 447 (fun x => le x (north (clamp b))) GRID_SIZE_LAT (firstRow b)
    = Some (rs, stopLat)
    /\ walk 447 (fun x => le x (east (clamp b))) GRID_SIZE_LON (firstCol b)
       = Some (cs, stopLon)
    /\ getVisibleGridIds (447 + extra) b
       = Some (flat_map (fun r => List.map (gridName r) cs) rs)
    /\ flat_map (fun r => List.map (gridName r) cs) rs
       = rowMajor (zrange k0 (List.length rs)) (zrange j0 (List.length cs))
    /\ 2388 <= k0 /\ k0 + Z.of_nat (List.length rs) <= 2834
    /\ 11900 <= j0 /\ j0 + Z.of_nat (List.length cs) <= 12251
    /\ (rs <> [] -> Math_floor (div (south (clamp b)) GRID_SIZE_LAT) = ofZ k0)
    /\ (cs <> [] -> Math_floor (div (west (clamp b)) GRID_SIZE_LON) = ofZ j0).
Proof.
  intros Hs Hw.
  destruct (rows_of b Hs) as (rs & stopLat & k0 & Wr & Hk0 & Lr & Tr & Fr).
  destruct (cols_of b Hw) as (cs & stopLon & j0 & Wc & Hj0 & Lc & Tc & Fc).
  exists rs, cs, stopLat, stopLon, k0, j0.
  split; [exact Wr|]. split; [exact Wc|].
  split; [exact (getVisibleGridIds_walks b extra rs cs stopLat stopLon Wr Wc)|].
  split; [exact (flat_map_gridName _ _ _ _ Tr Tc)|]. auto 10.
Qed.

(** *** Viewports outside the bounds *)

Lemma lt_trans_finite (m1 m2 : positive) (e1 e2 : Z) (y : number) :
  lt y (S754_finite false m1 e1) = true ->
  lt (S754_finite false m1 e1) (S754_finite false m2 e2) = true ->
  lt y (S754_finite false m2 e2) = true.
Proof.
  unfold lt, SFltb, SFcompare.
  destruct y as [s|s| |s m e]; try destruct s; try discriminate; try reflexivity.
  fold (Pos.compare m m1) (Pos.compare m1 m2) (Pos.compare m m2).
  destruct (Z.compare_spec e e1), (Z.compare_spec e1 e2), (Z.compare_spec e e2);
    try discriminate; try reflexivity; try lia.
  destruct (Pos.compare_spec m m1), (Pos.compare_spec m1 m2), (Pos.compare_spec m m2);
    try discriminate; try reflexivity; lia.
Qed.

Lemma lt_le (mc : positive) (ec : Z) (y : number) :
  lt y (S754_finite false mc ec) = true -> le y (S754_finite false mc ec) = true.
Proof.
  unfold lt, le, SFltb, SFleb. destruct (SFcompare y _) as [[]|]; try discriminate.
  reflexivity.
Qed.

Lemma rowsFrom_table :
  forallb (fun k => ge (mul (ofZ k) GRID_SIZE_LAT) startGridLat) rows = true.
Proof. vm_compute. reflexivity. Qed.

Lemma colsFrom_table :
  forallb (fun j => ge (mul (ofZ j) GRID_SIZE_LON) lit_119_0) colsInclusive = true.
Proof. vm_compute. reflexivity. Qed.

(** No row is below the first row of the bounds, and no column is west of
    the first column: a viewport that ends before them gets no row, or no
    column. *)
Lemma no_row_south (b : Viewport) :
  valid (south b) = true -> lt (north b) startGridLat = true ->
  le (firstRow b) (north (clamp b)) = false.
Proof.
  intros Hv Hn.
  assert (N25 : lt (north b) lit_25_5 = true).
  { apply (lt_trans_finite 6049460199465418 7177611906121728 (-48) (-48) _ Hn).
    reflexivity. }
  rewrite north_clamp. unfold lit_25_5 at 1.
  rewrite (Math_min_below 7177611906121728 (-48) _ N25).
  destruct (firstRow_cases b Hv) as [H|[H|(k & Hk & E)]].
  - rewrite H. reflexivity.
  - apply (le_above 7177611906121728 (-48)); [exact H|]. apply lt_le. exact N25.
  - apply (le_not_below 6049460199465418 (-48)); [|exact Hn].
    unfold firstRow. rewrite E.
    pose proof rowsFrom_table as T. rewrite forallb_forall in T.
    apply (T k). apply zrange_In. lia.
Qed.

Lemma no_column_west (b : Viewport) :
  valid (west b) = true -> lt (east b) lit_119_0 = true ->
  le (firstCol b) (east (clamp b)) = false.
Proof.
  intros Hv He.
  assert (E122 : lt (east b) lit_122_5 = true).
  { apply (lt_trans_finite 8373880557142016 8620171161763840 (-46) (-46) _ He).
    reflexivity. }
  rewrite east_clamp. unfold lit_122_5 at 1.
  rewrite (Math_min_below 8620171161763840 (-46) _ E122).
  destruct (firstCol_cases b Hv) as [H|[H|(j & Hj & E)]].
  - rewrite H. reflexivity.
  - apply (le_above 8620171161763840 (-46)); [exact H|]. apply lt_le. exact E122.
  - apply (le_not_below 8373880557142016 (-46)); [|exact He].
    unfold firstCol. rewrite E.
    pose proof colsFrom_table as T. rewrite forallb_forall in T.
    apply (T j). apply zrange_In. lia.
Qed.

Lemma no_row_north (b : Viewport) :
  valid (south b) = true -> ge (south b) lit_25_506 = true ->
  le (firstRow b) (north (clamp b)) = false.
Proof.
  intros Hv Hs. rewrite north_clamp. apply (le_Math_min 7177611906121728 (-48)).
  apply firstRow_beyond; assumption.
Qed.

Lemma no_column_east (b : Viewport) :
  valid (west b) = true -> ge (west b) lit_122_51 = true ->
  le (firstCol b) (east (clamp b)) = false.
Proof.
  intros Hv Hw. rewrite east_clamp. apply (le_Math_min 8620171161763840 (-46)).
  apply firstCol_beyond; assumption.
Qed.

(** The result is empty exactly when there is no row or no column. *)
Lemma getVisibleGridIds_empty (b : Viewport) (extra : nat) :
  valid (south b) = true -> valid (west b) = true ->
  getVisibleGridIds (447 + extra) b = Some []
  <-> le (firstRow b) (north (clamp b)) = false
      \/ le (firstCol b) (east (clamp b)) = false.
Proof.
  intros Hs Hw.
  destruct (getVisibleGridIds_rectangle b extra Hs Hw)
    as (rs & cs & stopLat & stopLon & k0 & j0 & Wr & Wc & -> & _).
  pose proof (walk_nil _ _ _ _ _ _ Wr) as Nr. pose proof (walk_nil _ _ _ _ _ _ Wc) as Nc.
  cbv beta in Nr, Nc. rewrite <- Nr, <- Nc, <- flat_map_nil.
  split; [intros [= H]; exact H|intros ->; reflexivity].
Qed.



